(** * Chat-rooms API: session, presence, rate-limiting and message pipeline

    A shallow embedding of the chat-rooms request handlers
    (validateAuth, checkRateLimit, filterRoomsForUser, handleGetRooms,
    handleGetRoom, handleLeaveRoom, handleSendMessage, handleRefreshToken
    and the POST dispatcher) together with the properties the
    specification states about them.

    Conventions of the model.
    - A JavaScript string is a [string] whose characters are code units
      in the range 0..255 (Latin-1); [length] is the JS [.length].
    - The key-value store is a finite map from the real key strings to
      typed values with an optional absolute expiry time (milliseconds).
      A value read back from the store is the value that was written.
    - [Date.now()] is the field [now] of the state; it does not advance
      during one request.
    - A store operation may throw: the state carries a fault schedule,
      one boolean per operation still to come; the empty schedule means
      that no operation fails.
    - The push service is a log of triggered events; a failed push is
      swallowed by the handlers and is not modelled. *)

From Stdlib Require Import ZArith Lia Ascii String List Bool.
From stdpp Require Import gmap strings list fin_maps.

Local Open Scope string_scope.
Local Open Scope Z_scope.

(** ** JavaScript strings *)

Module JsString.

Definition code (c : ascii) : N := N_of_ascii c.

Definition isUpper (c : ascii) : bool := ((65 <=? code c) && (code c <=? 90))%N.
Definition isLower (c : ascii) : bool := ((97 <=? code c) && (code c <=? 122))%N.
Definition isDigit (c : ascii) : bool := ((48 <=? code c) && (code c <=? 57))%N.
Definition isLetter (c : ascii) : bool := isUpper c || isLower c.
Definition isAlnum (c : ascii) : bool := isLetter c || isDigit c.

(** [\s] restricted to code units below 256: TAB, LF, VT, FF, CR, SPACE
    and NO-BREAK SPACE. *)
Definition isSpace (c : ascii) : bool :=
  (((9 <=? code c) && (code c <=? 13)) || (code c =? 32) || (code c =? 160))%N.

(** [String.prototype.toLowerCase] on one code unit below 256. *)
Definition lowerChar (c : ascii) : ascii :=
  if isUpper c then ascii_of_N (code c + 32)
  else if ((192 <=? code c) && (code c <=? 222) && negb (code c =? 215))%N
       then ascii_of_N (code c + 32)
       else c.

Fixpoint toLowerCase (s : string) : string :=
  match s with
  | EmptyString => EmptyString
  | String c r => String (lowerChar c) (toLowerCase r)
  end.

Fixpoint startsWith (p s : string) : bool :=
  match p with
  | EmptyString => true
  | String a p' =>
      match s with
      | EmptyString => false
      | String b s' => if Ascii.eqb a b then startsWith p' s' else false
      end
  end.

Fixpoint drop (n : nat) (s : string) : string :=
  match n with
  | O => s
  | S n' => match s with EmptyString => EmptyString | String _ r => drop n' r end
  end.

Fixpoint take (n : nat) (s : string) : string :=
  match n with
  | O => EmptyString
  | S n' => match s with EmptyString => EmptyString | String c r => String c (take n' r) end
  end.

(** [s.substring(a, b)] for [a <= b] (the only use in the source);
    indices beyond the end are clamped. *)
Definition substring (a b : nat) (s : string) : string := take (b - a) (drop a s).

(** [s.substring(a)] *)
Definition substringFrom (a : nat) (s : string) : string := drop a s.

Fixpoint forallb (p : ascii -> bool) (s : string) : bool :=
  match s with
  | EmptyString => true
  | String c r => p c && forallb p r
  end.

Fixpoint existsb (p : ascii -> bool) (s : string) : bool :=
  match s with
  | EmptyString => false
  | String c r => p c || existsb p r
  end.

(** [hay.includes(needle)] *)
Fixpoint strIncludes (needle hay : string) : bool :=
  startsWith needle hay
  || match hay with
     | EmptyString => false
     | String _ r => strIncludes needle r
     end.

(** JS truthiness of a string: non-empty. *)
Definition truthy (s : string) : bool :=
  match s with EmptyString => false | _ => true end.

Fixpoint concat (l : list string) : string :=
  match l with
  | nil => EmptyString
  | s :: r => s +:+ concat r
  end.

Fixpoint repeat (c : ascii) (n : nat) : string :=
  match n with
  | O => EmptyString
  | S n' => String c (repeat c n')
  end.

End JsString.

Import JsString.

(** ** Constants of the service *)

Definition CHAT_ROOM_PREFIX := "chat:room:".
Definition CHAT_MESSAGES_PREFIX := "chat:messages:".
Definition CHAT_USERS_PREFIX := "chat:users:".
Definition CHAT_ROOM_USERS_PREFIX := "chat:room:users:".
Definition CHAT_ROOM_PRESENCE_PREFIX := "chat:presence:".

Definition USER_TTL_SECONDS : Z := 7776000.
Definition USER_EXPIRATION_TIME : Z := 7776000.
Definition ROOM_PRESENCE_TTL_SECONDS : Z := 86400.

Definition MAX_MESSAGE_LENGTH : nat := 1000.
Definition MAX_USERNAME_LENGTH : nat := 30.
Definition MIN_USERNAME_LENGTH : nat := 3.

Definition AUTH_TOKEN_PREFIX := "chat:token:".
Definition TOKEN_LENGTH : nat := 32.
Definition TOKEN_GRACE_PERIOD : Z := 86400 * 365.

Definition RATE_LIMIT_WINDOW_SECONDS : Z := 60.
Definition RATE_LIMIT_ATTEMPTS : Z := 10.
Definition RATE_LIMIT_PREFIX := "rl:".

Definition CHAT_BURST_PREFIX := "rl:chat:b:".
Definition CHAT_BURST_SHORT_WINDOW_SECONDS : Z := 10.
Definition CHAT_BURST_SHORT_LIMIT : Z := 3.
Definition CHAT_BURST_LONG_WINDOW_SECONDS : Z := 60.
Definition CHAT_BURST_LONG_LIMIT : Z := 20.
Definition CHAT_MIN_INTERVAL_SECONDS : Z := 2.

(** ** Input validation and sanitization *)

(** The tail of USERNAME_REGEX: [(?:[a-z0-9]|[-_](?=[a-z0-9]))*] run to
    the end of the string, counting the repetitions. *)
Fixpoint usernameTail (s : string) : option nat :=
  match s with
  | EmptyString => Some O
  | String c r =>
      if isAlnum c then option_map S (usernameTail r)
      else if (Ascii.eqb c "-" || Ascii.eqb c "_")%bool then
        match r with
        | String d _ => if isAlnum d then option_map S (usernameTail r) else None
        | EmptyString => None
        end
      else None
  end.

(** [USERNAME_REGEX.test], /^[a-z](?:[a-z0-9]|[-_](?=[a-z0-9])){2,29}$/i *)
Definition USERNAME_REGEX (s : string) : bool :=
  match s with
  | String c r =>
      isLetter c &&
      match usernameTail r with
      | Some n => (2 <=? n)%nat && (n <=? 29)%nat
      | None => false
      end
  | EmptyString => false
  end.

(** [ROOM_ID_REGEX.test], /^[a-z0-9]+$/i *)
Definition ROOM_ID_REGEX (s : string) : bool :=
  truthy s && forallb isAlnum s.

Definition escapeChar (c : ascii) : string :=
  if Ascii.eqb c "&" then "&amp;"
  else if Ascii.eqb c "<" then "&lt;"
  else if Ascii.eqb c ">" then "&gt;"
  else if (code c =? 34)%N then "&quot;"
  else if Ascii.eqb c "'" then "&#39;"
  else String c EmptyString.

Fixpoint escapeHTML (str : string) : string :=
  match str with
  | EmptyString => EmptyString
  | String c r => escapeChar c +:+ escapeHTML r
  end.

(** *** URL spans: the global regular expression /(https?:\/\/[^\s]+)/g *)

Record UrlMatch := mkUrlMatch { url : string; start : nat; end_ : nat }.

(** The head of [s] is a character other than a blank: [[^\s]]. *)
Definition headNonSpace (s : string) : bool :=
  match s with
  | String c _ => negb (isSpace c)
  | EmptyString => false
  end.

(** A match can begin at the head of [s]: [http://] or [https://]
    followed by at least one non-blank character. *)
Definition urlStartsAt (s : string) : bool :=
  (startsWith "https://" s && headNonSpace (drop 8 s))
  || (startsWith "http://" s && headNonSpace (drop 7 s)).

(** The [while ((match = urlRegex.exec(content)) !== null)] loop: a left
    to right scan; [cur] is the match being extended (its start index
    and the characters consumed so far), [pos] the index of the head of
    [s] in the whole content. A match runs to the next blank. *)
Fixpoint urlScan (s : string) (pos : nat) (cur : option (nat * string)) : list UrlMatch :=
  match s with
  | EmptyString =>
      match cur with
      | Some (st, acc) => [mkUrlMatch acc st pos]
      | None => []
      end
  | String c r =>
      match cur with
      | Some (st, acc) =>
          if isSpace c then mkUrlMatch acc st pos :: urlScan r (S pos) None
          else urlScan r (S pos) (Some (st, acc +:+ String c EmptyString))
      | None =>
          if urlStartsAt s then urlScan r (S pos) (Some (pos, String c EmptyString))
          else urlScan r (S pos) None
      end
  end.

Definition urlMatches (content : string) : list UrlMatch := urlScan content 0 None.

Section Sanitize.

(** [filter.clean] of the profanity library, an external collaborator. *)
Variable clean : string -> string.

(** The [for (const urlMatch of urlMatches)] loop, on the pair
    (result, lastIndex). *)
Fixpoint filterLoop (content : string) (ms : list UrlMatch) (result : string) (lastIndex : nat)
  : string * nat :=
  match ms with
  | [] => (result, lastIndex)
  | urlMatch :: rest =>
      let beforeUrl := substring lastIndex (start urlMatch) content in
      let result1 := result +:+ clean beforeUrl in
      let result2 := result1 +:+ url urlMatch in
      filterLoop content rest result2 (end_ urlMatch)
  end.

Definition filterProfanityPreservingUrls (content : string) : string :=
  let ms := urlMatches content in
  match ms with
  | [] => clean content
  | _ =>
      let '(result, lastIndex) := filterLoop content ms EmptyString 0 in
      if (lastIndex <? String.length content)%nat
      then result +:+ clean (substringFrom lastIndex content)
      else result
  end.

(** The sanitization step of handleSendMessage. *)
Definition sanitizeContent (originalContent : string) : string :=
  escapeHTML (filterProfanityPreservingUrls originalContent).

End Sanitize.

(** ** Data model *)

Inductive RoomType := Public | Private.

Module Room.
Record t := mk {
  id : string;
  name : string;
  type : option RoomType;
  createdAt : Z;
  userCount : Z;
  members : option (list string)
}.
Definition withUserCount (r : t) (n : Z) : t :=
  mk (id r) (name r) (type r) (createdAt r) n (members r).
Definition withMembers (r : t) (ms : list string) (n : Z) : t :=
  mk (id r) (name r) (type r) (createdAt r) n (Some ms).
End Room.

Module RoomWithUsers.
Record t := mk { room : Room.t; users : list string }.
End RoomWithUsers.

Module User.
Record t := mk { username : string; lastActive : Z }.
End User.

Module Message.
Record t := mk {
  id : string;
  roomId : string;
  username : string;
  content : string;
  timestamp : Z
}.
End Message.

Module TokenData.
Record t := mk { token : string; expiredAt : Z }.
End TokenData.

(** What a key of the store holds. A string that spells a number is a
    [VNum], as the store client hands it back. *)
Inductive Value :=
  | VStr (s : string)
  | VNum (n : Z)
  | VRoom (r : Room.t)
  | VUser (u : User.t)
  | VTokenData (d : TokenData.t)
  | VList (l : list Message.t)
  | VSet (l : list string).

Record Entry := mkEntry { value : Value; expiry : option Z }.

Inductive Payload :=
  | PRooms (rooms : list RoomWithUsers.t)
  | PMessage (roomId : string) (message : Message.t).

Record Push := mkPush { channel : string; event : string; payload : Payload }.

Record State := mkState {
  kv : gmap string Entry;
  now : Z;
  faults : list bool;
  entropy : list ascii;
  pushes : list Push
}.

Definition setKv (f : gmap string Entry -> gmap string Entry) (st : State) : State :=
  mkState (f (kv st)) (now st) (faults st) (entropy st) (pushes st).

(** ** The monad of a request: state and thrown errors *)

Inductive Result (A : Type) :=
  | Ok (a : A)
  | Throw (e : string).
Arguments Ok {A} a.
Arguments Throw {A} e.

Definition M (A : Type) : Type := State -> Result A * State.

Definition ret {A} (a : A) : M A := fun st => (Ok a, st).
Definition throw {A} (e : string) : M A := fun st => (Throw e, st).
Definition bind {A B} (m : M A) (k : A -> M B) : M B :=
  fun st =>
    match m st with
    | (Ok a, st') => k a st'
    | (Throw e, st') => (Throw e, st')
    end.
(** [try { m } catch (e) { h e }] *)
Definition tryCatch {A} (m : M A) (h : string -> M A) : M A :=
  fun st =>
    match m st with
    | (Ok a, st') => (Ok a, st')
    | (Throw e, st') => h e st'
    end.

Notation "'let*' x ':=' m 'in' k" := (bind m (fun x => k))
  (at level 10, x pattern, m at level 100, k at level 200, only parsing).
Notation "'exec' m 'in' k" := (bind m (fun _ => k))
  (at level 10, m at level 100, k at level 200, only parsing).

Definition getState : M State := fun st => (Ok st, st).
Definition dateNow : M Z := fun st => (Ok (now st), st).
Definition getCurrentTimestamp : M Z := dateNow.

Fixpoint mapM {A B} (f : A -> M B) (l : list A) : M (list B) :=
  match l with
  | [] => ret []
  | a :: r => let* b := f a in let* bs := mapM f r in ret (b :: bs)
  end.

(** JS truthiness of a stored value. *)
Definition truthyValue (v : Value) : bool :=
  match v with
  | VStr s => truthy s
  | VNum n => negb (n =? 0)%Z
  | _ => true
  end.

Definition truthyOpt (o : option Value) : bool :=
  match o with Some v => truthyValue v | None => false end.

(** [parseInt] of a string: leading blanks, an optional sign, then
    decimal digits, or hexadecimal digits after [0x]; [None] is NaN. *)
Definition digitValue (c : ascii) : option Z :=
  if isDigit c then Some (Z.of_N (code c) - 48)
  else if ((97 <=? code c) && (code c <=? 102))%N then Some (Z.of_N (code c) - 87)
  else if ((65 <=? code c) && (code c <=? 70))%N then Some (Z.of_N (code c) - 55)
  else None.

Fixpoint digitsPrefix (radix : Z) (s : string) (acc : option Z) : option Z :=
  match s with
  | EmptyString => acc
  | String c r =>
      match digitValue c with
      | Some d =>
          if (d <? radix)%Z
          then digitsPrefix radix r (Some (radix * default 0 acc + d))
          else acc
      | None => acc
      end
  end.

Fixpoint skipSpaces (s : string) : string :=
  match s with
  | String c r => if isSpace c then skipSpaces r else s
  | EmptyString => EmptyString
  end.

Definition parseUnsigned (s : string) : option Z :=
  if startsWith "0x" s || startsWith "0X" s
  then digitsPrefix 16 (drop 2 s) None
  else digitsPrefix 10 s None.

Definition parseIntStr (s : string) : option Z :=
  match skipSpaces s with
  | String "-" r => option_map Z.opp (parseUnsigned r)
  | String "+" r => parseUnsigned r
  | t => parseUnsigned t
  end.

(** [parseInt(v as string)] on a value read from the store. *)
Definition parseIntValue (v : Value) : option Z :=
  match v with
  | VNum n => Some n
  | VStr s => parseIntStr s
  | _ => None
  end.

(** ** The key-value store *)

Module Redis.

(** Glob patterns of SCAN MATCH: [*], [?], [[...]] classes and
    backslash escapes. *)
Fixpoint classBody (p : string) (c : ascii) (hit : bool) : bool * string :=
  match p with
  | EmptyString => (hit, EmptyString)
  | String a p1 =>
      if Ascii.eqb a "]" then (hit, p1)
      else if Ascii.eqb a "\" then
        match p1 with
        | String b p2 => classBody p2 c (hit || Ascii.eqb b c)
        | EmptyString => (hit || Ascii.eqb a c, EmptyString)
        end
      else
        match p1 with
        | String "-" (String b p3) =>
            let lo := N.min (code a) (code b) in
            let hi := N.max (code a) (code b) in
            classBody p3 c (hit || ((lo <=? code c) && (code c <=? hi))%N)
        | _ => classBody p1 c (hit || Ascii.eqb a c)
        end
  end.

Definition classMatch (p : string) (c : ascii) : bool * string :=
  match p with
  | String "^" p1 => let '(hit, rest) := classBody p1 c false in (negb hit, rest)
  | _ => classBody p c false
  end.

Fixpoint globFuel (fuel : nat) (p s : string) : bool :=
  match fuel with
  | O => false
  | S f =>
      match p with
      | EmptyString => negb (truthy s)
      | String "*" p1 =>
          (fix star (t : string) : bool :=
             globFuel f p1 t
             || match t with
                | EmptyString => false
                | String _ t1 => star t1
                end) s
      | String "?" p1 =>
          match s with
          | EmptyString => false
          | String _ s1 => globFuel f p1 s1
          end
      | String "[" p1 =>
          match s with
          | EmptyString => false
          | String c s1 =>
              let '(hit, rest) := classMatch p1 c in
              hit && globFuel f rest s1
          end
      | String "\" (String a p2) =>
          match s with
          | EmptyString => false
          | String c s1 => Ascii.eqb a c && globFuel f p2 s1
          end
      | String a p1 =>
          match s with
          | EmptyString => false
          | String c s1 => Ascii.eqb a c && globFuel f p1 s1
          end
      end
  end.

Definition globMatch (pattern key : string) : bool :=
  globFuel (S (String.length pattern)) pattern key.

Definition isLive (t : Z) (e : Entry) : bool :=
  match expiry e with
  | None => true
  | Some x => (t <? x)%Z
  end.

(** The value of a key that exists and has not expired. *)
Definition lookupLive (st : State) (key : string) : option Value :=
  match kv st !! key with
  | Some e => if isLive (now st) e then Some (value e) else None
  | None => None
  end.

Definition expiryOf (st : State) (key : string) : option Z :=
  match kv st !! key with
  | Some e => if isLive (now st) e then expiry e else None
  | None => None
  end.

(** Every store operation first consults the fault schedule. *)
Definition tick : M unit :=
  fun st =>
    match faults st with
    | [] => (Ok tt, st)
    | b :: f =>
        let st' := mkState (kv st) (now st) f (entropy st) (pushes st) in
        if b then (Throw "store error", st') else (Ok tt, st')
    end.

Definition wrongType {A} : M A := throw "WRONGTYPE".

Definition get (key : string) : M (option Value) :=
  exec tick in
  fun st =>
    match lookupLive st key with
    | Some (VList _) | Some (VSet _) => wrongType st
    | o => (Ok o, st)
    end.

(** [redis.set(key, v)] and [redis.set(key, v, { ex })]; [ex] in seconds. *)
Definition set (key : string) (v : Value) (ex : option Z) : M unit :=
  exec tick in
  fun st =>
    let e := mkEntry v (option_map (fun s => now st + s * 1000)%Z ex) in
    (Ok tt, setKv (insert key e) st).

Definition setnx (key : string) (v : Value) : M bool :=
  exec tick in
  fun st =>
    match lookupLive st key with
    | Some _ => (Ok false, st)
    | None => (Ok true, setKv (insert key (mkEntry v None)) st)
    end.

Definition exists_ (key : string) : M bool :=
  exec tick in
  fun st => (Ok (bool_decide (is_Some (lookupLive st key))), st).

Definition expire (key : string) (seconds : Z) : M bool :=
  exec tick in
  fun st =>
    match lookupLive st key with
    | Some v =>
        (Ok true, setKv (insert key (mkEntry v (Some (now st + seconds * 1000)%Z))) st)
    | None => (Ok false, st)
    end.

Definition liveCount (st : State) (keys : list string) : Z :=
  Z.of_nat (List.length (List.filter (fun k => bool_decide (is_Some (lookupLive st k))) keys)).

Definition deleteAll (keys : list string) (m : gmap string Entry) : gmap string Entry :=
  List.fold_right (fun k acc => delete k acc) m keys.

(** [redis.del(...keys)]: the number of keys that existed. *)
Definition del (keys : list string) : M Z :=
  exec tick in
  fun st => (Ok (liveCount st keys), setKv (deleteAll keys) st).

(** A pipeline of [del] commands run by one [exec()]. *)
Definition pipelineDel (keys : list string) : M unit :=
  exec tick in
  fun st => (Ok tt, setKv (deleteAll keys) st).

Definition incr (key : string) : M Z :=
  exec tick in
  fun st =>
    match lookupLive st key with
    | None => (Ok 1%Z, setKv (insert key (mkEntry (VNum 1) None)) st)
    | Some (VNum n) =>
        (Ok (n + 1)%Z, setKv (insert key (mkEntry (VNum (n + 1)) (expiryOf st key))) st)
    | Some (VList _) | Some (VSet _) => wrongType st
    | Some _ => throw "value is not an integer" st
    end.

(** [redis.lrange(key, 0, stop)] *)
Definition lrange (key : string) (stop : nat) : M (list Message.t) :=
  exec tick in
  fun st =>
    match lookupLive st key with
    | None => (Ok [], st)
    | Some (VList l) => (Ok (firstn (S stop) l), st)
    | Some _ => wrongType st
    end.

Definition lpush (key : string) (x : Message.t) : M unit :=
  exec tick in
  fun st =>
    match lookupLive st key with
    | None => (Ok tt, setKv (insert key (mkEntry (VList [x]) None)) st)
    | Some (VList l) =>
        (Ok tt, setKv (insert key (mkEntry (VList (x :: l)) (expiryOf st key))) st)
    | Some _ => wrongType st
    end.

(** [redis.ltrim(key, 0, stop)] *)
Definition ltrim (key : string) (stop : nat) : M unit :=
  exec tick in
  fun st =>
    match lookupLive st key with
    | None => (Ok tt, st)
    | Some (VList l) =>
        (Ok tt, setKv (insert key (mkEntry (VList (firstn (S stop) l)) (expiryOf st key))) st)
    | Some _ => wrongType st
    end.

Definition smembers (key : string) : M (list string) :=
  exec tick in
  fun st =>
    match lookupLive st key with
    | None => (Ok [], st)
    | Some (VSet l) => (Ok l, st)
    | Some _ => wrongType st
    end.

Definition liveKeys (st : State) : list string :=
  List.filter (fun k => bool_decide (is_Some (lookupLive st k)))
    (List.map fst (map_to_list (kv st))).

(** The [do { scan(cursor, { match }) } while (cursor !== 0)] loop,
    taken as one operation: every live key matching the pattern, once. *)
Definition scanAll (pattern : string) : M (list string) :=
  exec tick in
  fun st => (Ok (List.filter (globMatch pattern) (liveKeys st)), st).

(** [redis.mget(...keys)]: nil for a missing key or one that is not a
    plain value. *)
Definition mget (keys : list string) : M (list (option Value)) :=
  exec tick in
  fun st =>
    (Ok (List.map (fun k =>
                     match lookupLive st k with
                     | Some (VList _) | Some (VSet _) => None
                     | o => o
                     end) keys), st).

End Redis.

(** ** Randomness and the push service *)

Definition hexDigit (n : N) : ascii :=
  if (n <? 10)%N then ascii_of_N (48 + n) else ascii_of_N (87 + n).

Fixpoint toHex (bytes : list ascii) : string :=
  match bytes with
  | [] => EmptyString
  | b :: r => String (hexDigit (code b / 16)) (String (hexDigit (code b mod 16)) (toHex r))
  end.

(** [crypto.randomBytes(n)]: the next [n] bytes of the entropy source
    (zero bytes once it is exhausted). *)
Definition randomBytes (n : nat) : M (list ascii) :=
  fun st =>
    let bytes := firstn n (entropy st ++ List.repeat zero n) in
    (Ok bytes, mkState (kv st) (now st) (faults st) (skipn n (entropy st)) (pushes st)).

Definition generateAuthToken : M string :=
  let* bytes := randomBytes TOKEN_LENGTH in ret (toHex bytes).

Definition generateId : M string :=
  let* bytes := randomBytes 16 in ret (toHex bytes).

(** [pusher.trigger(channel, event, payload)] *)
Definition pusherTrigger (channel event : string) (payload : Payload) : M unit :=
  fun st =>
    (Ok tt, mkState (kv st) (now st) (faults st) (entropy st)
              (pushes st ++ [mkPush channel event payload])).

(** ** Responses *)

Inductive Body :=
  | BError (error : string)
  | BSuccess
  | BRooms (rooms : list RoomWithUsers.t)
  | BRoom (room : Room.t)
  | BMessage (message : Message.t)
  | BToken (token : string).

Record Response := mkResponse { body : Body; status : Z }.

Definition createErrorResponse (message : string) (status : Z) : Response :=
  mkResponse (BError message) status.

(** ** Tokens *)

Definition getTokenKey (token : string) : string := AUTH_TOKEN_PREFIX +:+ token.

Definition getUserTokenKey (username token : string) : string :=
  AUTH_TOKEN_PREFIX +:+ "user:" +:+ toLowerCase username +:+ ":" +:+ token.

Definition getUserTokenPattern (username : string) : string :=
  AUTH_TOKEN_PREFIX +:+ "user:" +:+ toLowerCase username +:+ ":*".

Definition storeToken (username token : string) : M unit :=
  if negb (truthy token) then ret tt
  else
    let normalizedUsername := toLowerCase username in
    let* ts := getCurrentTimestamp in
    exec Redis.set (getUserTokenKey normalizedUsername token) (VNum ts)
                 (Some USER_EXPIRATION_TIME) in
    Redis.set (getTokenKey token) (VStr normalizedUsername) (Some USER_EXPIRATION_TIME).

Definition deleteToken (token : string) : M unit :=
  if negb (truthy token) then ret tt
  else
    let tokenKey := getTokenKey token in
    let* username := Redis.get tokenKey in
    exec Redis.del [tokenKey] in
    if truthyOpt username then
      match username with
      | Some (VStr u) => exec Redis.del [getUserTokenKey u token] in ret tt
      | _ => throw "TypeError: username.toLowerCase is not a function"
      end
    else
      let pattern := AUTH_TOKEN_PREFIX +:+ "user:*:" +:+ token in
      let* keysToDelete := Redis.scanAll pattern in
      if (0 <? List.length keysToDelete)%nat
      then exec Redis.del keysToDelete in ret tt
      else ret tt.

Definition getUsernameForToken (token : string) : M (option Value) :=
  if negb (truthy token) then ret None
  else Redis.get (getTokenKey token).

Record AuthResult := mkAuth { valid : bool; expired : option bool }.

(** The username carried by a reverse token record: a string, or an
    object with a string [username] field. *)
Definition mappedLowerOf (mapped : option Value) : option string :=
  match mapped with
  | Some (VStr s) => Some (toLowerCase s)
  | Some (VUser u) => Some (toLowerCase (User.username u))
  | _ => None
  end.

(** [storedToken && storedToken === token] *)
Definition isToken (stored : option Value) (token : string) : bool :=
  match stored with
  | Some (VStr s) => String.eqb s token
  | _ => false
  end.

Definition validateAuth (username token : option string) (allowExpired : bool)
  : M AuthResult :=
  match username, token with
  | Some username, Some token =>
      if negb (truthy username) || negb (truthy token) then ret (mkAuth false None)
      else
        let normalizedUsername := toLowerCase username in
        (* 1. user-scoped token *)
        let userTokenKey := getUserTokenKey normalizedUsername token in
        let* userTokenExists := Redis.exists_ userTokenKey in
        if userTokenExists then
          exec Redis.expire userTokenKey USER_TTL_SECONDS in
          exec Redis.expire (getTokenKey token) USER_TTL_SECONDS in
          ret (mkAuth true (Some false))
        else
          (* 2. token -> username mapping *)
          let* mappedUsername := getUsernameForToken token in
          if bool_decide (mappedLowerOf mappedUsername = Some normalizedUsername) then
            exec Redis.expire (getTokenKey token) USER_TTL_SECONDS in
            let* ts := getCurrentTimestamp in
            exec Redis.set userTokenKey (VNum ts) (Some USER_TTL_SECONDS) in
            ret (mkAuth true (Some false))
          else
            (* 3. legacy single-token record *)
            let legacyKey := AUTH_TOKEN_PREFIX +:+ normalizedUsername in
            let* storedToken := Redis.get legacyKey in
            if isToken storedToken token then
              exec Redis.expire legacyKey USER_TTL_SECONDS in
              let* ts := getCurrentTimestamp in
              exec Redis.set userTokenKey (VNum ts) (Some USER_TTL_SECONDS) in
              ret (mkAuth true (Some false))
            else
              (* 4. grace period *)
              let fail := ret (mkAuth false None) in
              if allowExpired then
                let lastTokenKey := AUTH_TOKEN_PREFIX +:+ "last:" +:+ normalizedUsername in
                let* lastTokenData := Redis.get lastTokenKey in
                match lastTokenData with
                | Some (VTokenData d) =>
                    let gracePeriodEnd := (TokenData.expiredAt d + TOKEN_GRACE_PERIOD * 1000)%Z in
                    let* t := dateNow in
                    if String.eqb (TokenData.token d) token && (t <? gracePeriodEnd)%Z
                    then ret (mkAuth true (Some true))
                    else fail
                | _ => fail
                end
              else fail
  | _, _ => ret (mkAuth false None)
  end.

Definition storeLastValidToken (username token : string) (expiredAtMs ttlSeconds : Z)
  : M unit :=
  let lastTokenKey := AUTH_TOKEN_PREFIX +:+ "last:" +:+ toLowerCase username in
  let tokenData := TokenData.mk token expiredAtMs in
  Redis.set lastTokenKey (VTokenData tokenData) (Some ttlSeconds).

Record AuthInfo := mkAuthInfo { authUsername : option string; authToken : option string }.

(** The request headers the service reads. *)
Record Headers := mkHeaders {
  authorization : option string;
  xUsername : option string;
  xForwardedFor : option string
}.

Definition extractAuth (h : Headers) : AuthInfo :=
  match authorization h with
  | Some authHeader =>
      if negb (truthy authHeader) || negb (startsWith "Bearer " authHeader)
      then mkAuthInfo None None
      else mkAuthInfo (xUsername h) (Some (substringFrom 7 authHeader))
  | None => mkAuthInfo None None
  end.

(** ** Presence and rooms *)

Definition setRoomPresence (roomId username : string) : M unit :=
  let presenceKey := CHAT_ROOM_PRESENCE_PREFIX +:+ roomId +:+ ":" +:+ username in
  let* ts := getCurrentTimestamp in
  Redis.set presenceKey (VNum ts) (Some ROOM_PRESENCE_TTL_SECONDS).

Definition refreshRoomPresence (roomId username : string) : M unit :=
  let presenceKey := CHAT_ROOM_PRESENCE_PREFIX +:+ roomId +:+ ":" +:+ username in
  let* exists_ := Redis.exists_ presenceKey in
  if exists_ then exec Redis.expire presenceKey ROOM_PRESENCE_TTL_SECONDS in ret tt
  else ret tt.

(** [parts[parts.length - 1]] of [key.split(":")] *)
Fixpoint lastSegment (key : string) : string :=
  match key with
  | EmptyString => EmptyString
  | String c r =>
      if existsb (fun d => Ascii.eqb d ":") r then lastSegment r
      else if Ascii.eqb c ":" then r
      else key
  end.

Definition getActiveUsersInRoom (roomId : string) : M (list string) :=
  let pattern := CHAT_ROOM_PRESENCE_PREFIX +:+ roomId +:+ ":*" in
  let* keys := Redis.scanAll pattern in
  ret (List.map lastSegment keys).

Definition getActiveUsersAndPrune (roomId : string) : M (list string) :=
  let* activeUsers := getActiveUsersInRoom roomId in
  let roomUsersKey := CHAT_ROOM_USERS_PREFIX +:+ roomId in
  let* oldSetMembers := Redis.smembers roomUsersKey in
  exec (if (0 <? List.length oldSetMembers)%nat
        then exec Redis.del [roomUsersKey] in ret tt
        else ret tt) in
  ret activeUsers.

(** A room key holds a room object. The text of a string value is not
    JSON, so [JSON.parse] of it throws; where the source would carry on
    with a number or with an object of another kind, the model throws. *)
Definition illTyped {A} : M A := throw "ill-typed record".

Definition refreshRoomUserCount (roomId : string) : M Z :=
  let* activeUsers := getActiveUsersAndPrune roomId in
  let userCount := Z.of_nat (List.length activeUsers) in
  let roomKey := CHAT_ROOM_PREFIX +:+ roomId in
  let* roomDataRaw := Redis.get roomKey in
  match roomDataRaw with
  | Some (VRoom roomData) =>
      exec Redis.set roomKey (VRoom (Room.withUserCount roomData userCount)) None in
      ret userCount
  | Some (VStr _) | None => ret userCount
  | Some v => if truthyValue v then illTyped else ret userCount
  end.

Definition detailedRoom (raw : option Value) : M (option RoomWithUsers.t) :=
  if negb (truthyOpt raw) then ret None
  else
    match raw with
    | Some (VRoom roomObj) =>
        let* activeUsers := getActiveUsersAndPrune (Room.id roomObj) in
        ret (Some (RoomWithUsers.mk
                     (Room.withUserCount roomObj (Z.of_nat (List.length activeUsers)))
                     activeUsers))
    | Some (VStr _) => throw "SyntaxError"
    | _ => illTyped
    end.

Definition getDetailedRooms : M (list RoomWithUsers.t) :=
  let* keys := Redis.scanAll (CHAT_ROOM_PREFIX +:+ "*") in
  if (0 <? List.length keys)%nat then
    let* roomsData := Redis.mget keys in
    let* roomBatch := mapM detailedRoom roomsData in
    ret (omap (fun r => r) roomBatch)
  else ret [].

Definition isPublicType (t : option RoomType) : bool :=
  match t with
  | None | Some Public => true
  | Some Private => false
  end.

Definition includes (x : string) (l : list string) : bool :=
  List.existsb (String.eqb x) l.

Definition filterRoomsForUser (rooms : list RoomWithUsers.t) (username : option string)
  : list RoomWithUsers.t :=
  match username with
  | Some u =>
      if truthy u then
        let lower := toLowerCase u in
        List.filter
          (fun room =>
             if isPublicType (Room.type (RoomWithUsers.room room)) then true
             else
               match Room.members (RoomWithUsers.room room) with
               | Some members => includes lower members
               | None => false
               end)
          rooms
      else
        List.filter (fun room => isPublicType (Room.type (RoomWithUsers.room room))) rooms
  | None =>
      List.filter (fun room => isPublicType (Room.type (RoomWithUsers.room room))) rooms
  end.

Definition sanitizeChannelChar (c : ascii) : ascii :=
  if isAlnum c || Ascii.eqb c "_" || Ascii.eqb c "-" || Ascii.eqb c "." then c else "_"%char.

Fixpoint sanitizeForChannel (name : string) : string :=
  match name with
  | EmptyString => EmptyString
  | String c r => String (sanitizeChannelChar c) (sanitizeForChannel r)
  end.

(** [try { ... } catch (err) { console.error(...) }] *)
Definition swallow (m : M unit) : M unit := tryCatch m (fun _ => ret tt).

Definition broadcastRoomsUpdated : M unit :=
  swallow (
    let* allRooms := getDetailedRooms in
    let publicRooms := filterRoomsForUser allRooms None in
    exec pusherTrigger "chats-public" "rooms-updated" (PRooms publicRooms) in
    let* userKeys := Redis.scanAll (CHAT_USERS_PREFIX +:+ "*") in
    exec mapM (fun key =>
                 let username := substringFrom (String.length CHAT_USERS_PREFIX) key in
                 let safeUsername := sanitizeForChannel username in
                 let userRooms := filterRoomsForUser allRooms (Some username) in
                 pusherTrigger ("chats-" +:+ safeUsername) "rooms-updated" (PRooms userRooms))
              userKeys in
    ret tt).

Definition fanOutToPrivateMembers (roomId eventName : string) (payload : Payload) : M unit :=
  swallow (
    let* roomRaw := Redis.get (CHAT_ROOM_PREFIX +:+ roomId) in
    if negb (truthyOpt roomRaw) then ret tt
    else
      match roomRaw with
      | Some (VRoom roomObj) =>
          match Room.type roomObj, Room.members roomObj with
          | Some Private, Some members =>
              exec mapM (fun member =>
                           pusherTrigger ("chats-" +:+ sanitizeForChannel member)
                                         eventName payload)
                        members in
              ret tt
          | _, _ => ret tt
          end
      | Some (VStr _) => throw "SyntaxError"
      | _ => ret tt
      end).

Definition broadcastToSpecificUsers (usernames : list string) : M unit :=
  match usernames with
  | [] => ret tt
  | _ =>
      swallow (
        let* allRooms := getDetailedRooms in
        exec mapM (fun username =>
                     let safeUsername := sanitizeForChannel username in
                     let userRooms := filterRoomsForUser allRooms (Some username) in
                     pusherTrigger ("chats-" +:+ safeUsername) "rooms-updated"
                                   (PRooms userRooms))
                  usernames in
        ret tt)
  end.

(** ** Rate limiting of sensitive actions *)

Definition checkRateLimitBody (action identifier : string) : M bool :=
  let key := RATE_LIMIT_PREFIX +:+ action +:+ ":" +:+ identifier in
  let* current := Redis.get key in
  if negb (truthyOpt current) then
    exec Redis.set key (VNum 1) (Some RATE_LIMIT_WINDOW_SECONDS) in
    ret true
  else
    let count := match current with Some v => parseIntValue v | None => None end in
    if match count with Some c => (RATE_LIMIT_ATTEMPTS <=? c)%Z | None => false end
    then ret false
    else
      exec Redis.incr key in
      ret true.

(** The whole body runs inside [try]; the [catch] allows the request. *)
Definition checkRateLimit (action identifier : string) : M bool :=
  tryCatch (checkRateLimitBody action identifier) (fun _ => ret true).

(** ** Request handlers *)

Definition assertValidUsername (username : string) : M unit :=
  if negb (USERNAME_REGEX username)
  then throw "Invalid username: use 3-30 letters/numbers; '-' or '_' allowed between characters; no spaces or symbols"
  else ret tt.

Definition assertValidRoomId (roomId : string) : M unit :=
  if negb (ROOM_ID_REGEX roomId) then throw "Invalid room ID format" else ret tt.

Definition okResponse (b : Body) : Response := mkResponse b 200.

(** [url.searchParams.get("username")?.toLowerCase() || null] *)
Definition viewerOfParam (param : option string) : option string :=
  match param with
  | Some u => if truthy (toLowerCase u) then Some (toLowerCase u) else None
  | None => None
  end.

Definition handleGetRooms (usernameParam : option string) : M Response :=
  tryCatch (
    let username := viewerOfParam usernameParam in
    let* allRooms := getDetailedRooms in
    let visibleRooms :=
      List.filter
        (fun room =>
           if isPublicType (Room.type (RoomWithUsers.room room)) then true
           else
             match Room.members (RoomWithUsers.room room), username with
             | Some members, Some u => includes u members
             | _, _ => false
             end)
        allRooms in
    ret (okResponse (BRooms visibleRooms)))
  (fun _ => ret (createErrorResponse "Failed to fetch rooms" 500)).

Definition handleGetRoom (roomId : string) : M Response :=
  tryCatch (
    exec assertValidRoomId roomId in
    let* roomRaw := Redis.get (CHAT_ROOM_PREFIX +:+ roomId) in
    match roomRaw with
    | Some (VRoom roomObj) =>
        let* userCount := refreshRoomUserCount roomId in
        ret (okResponse (BRoom (Room.withUserCount roomObj userCount)))
    | Some (VStr _) | None => ret (createErrorResponse "Room not found" 404)
    | Some v =>
        if truthyValue v then illTyped
        else ret (createErrorResponse "Room not found" 404)
    end)
  (fun _ => ret (createErrorResponse "Failed to fetch room" 500)).

(** The [try { assertValidUsername; assertValidRoomId } catch (e)
    { return createErrorResponse(e.message, 400) }] prologue; [None]
    when both identifiers are accepted. *)
Definition validateIds (username roomId : string) : M (option Response) :=
  tryCatch (
    exec assertValidUsername username in
    exec assertValidRoomId roomId in
    ret None)
  (fun e => ret (Some (createErrorResponse e 400))).

Record JoinLeaveRoomBody := mkJoinLeave {
  jl_roomId : option string;
  jl_username : option string
}.

Definition truthyStr (o : option string) : bool :=
  match o with Some s => truthy s | None => false end.

Definition handleLeaveRoom (data : JoinLeaveRoomBody) : M Response :=
  let username := option_map toLowerCase (jl_username data) in
  match jl_roomId data, username with
  | Some roomId, Some username =>
      if negb (truthy roomId) || negb (truthy username)
      then ret (createErrorResponse "Room ID and username are required" 400)
      else
        let* invalid := validateIds username roomId in
        match invalid with
        | Some r => ret r
        | None =>
            tryCatch (
              let* roomDataRaw := Redis.get (CHAT_ROOM_PREFIX +:+ roomId) in
              if negb (truthyOpt roomDataRaw)
              then ret (createErrorResponse "Room not found" 404)
              else
                match roomDataRaw with
                | Some (VRoom roomObj) =>
                    let presenceKey :=
                      CHAT_ROOM_PRESENCE_PREFIX +:+ roomId +:+ ":" +:+ username in
                    let* removed := Redis.del [presenceKey] in
                    exec (if negb (removed =? 0)%Z then
                      let previousUserCount := Room.userCount roomObj in
                      let* userCount := refreshRoomUserCount roomId in
                      match Room.type roomObj with
                      | Some Private =>
                          let updatedMembers :=
                            match Room.members roomObj with
                            | Some members =>
                                List.filter (fun m => negb (String.eqb m username)) members
                            | None => []
                            end in
                          if (List.length updatedMembers <=? 1)%nat then
                            exec Redis.pipelineDel
                                   [CHAT_ROOM_PREFIX +:+ roomId;
                                    CHAT_MESSAGES_PREFIX +:+ roomId;
                                    CHAT_ROOM_USERS_PREFIX +:+ roomId] in
                            let affectedMembers := default [] (Room.members roomObj) in
                            swallow (broadcastToSpecificUsers affectedMembers)
                          else
                            let updatedRoom :=
                              Room.withMembers roomObj updatedMembers userCount in
                            exec Redis.set (CHAT_ROOM_PREFIX +:+ roomId)
                                           (VRoom updatedRoom) None in
                            swallow broadcastRoomsUpdated
                      | _ =>
                          if negb (userCount =? previousUserCount)%Z
                          then swallow broadcastRoomsUpdated
                          else ret tt
                      end
                    else ret tt) in
                    ret (okResponse BSuccess)
                | Some (VStr _) => throw "SyntaxError"
                | _ => illTyped
                end)
            (fun _ => ret (createErrorResponse "Failed to leave room" 500))
        end
  | _, _ => ret (createErrorResponse "Room ID and username are required" 400)
  end.

Section Service.

(** The profanity library, an external collaborator: [filter.clean] and
    [filter.isProfane]. *)
Variable clean : string -> string.
Variable isProfane : string -> bool.

(** [parseUserData(userData)!] on a truthy value. *)
Definition parseUserData (data : Value) : M (option User.t) :=
  match data with
  | VUser u => ret (Some u)
  | VStr _ => ret None
  | _ => illTyped
  end.

(** The creation path of ensureUserExists: atomic create, and on a
    failed create fetch the record that won the race. *)
Definition createUserRecord (username : string) : M (option User.t) :=
  let userKey := CHAT_USERS_PREFIX +:+ username in
  let* ts := getCurrentTimestamp in
  let newUser := User.mk username ts in
  let* created := Redis.setnx userKey (VUser newUser) in
  if created then ret (Some newUser)
  else
    let* userData := Redis.get userKey in
    match userData with
    | Some v =>
        if truthyValue v then parseUserData v
        else throw "Failed to ensure user existence due to race condition."
    | None => throw "Failed to ensure user existence due to race condition."
    end.

Definition ensureUserExists (username : string) : M (option User.t) :=
  let userKey := CHAT_USERS_PREFIX +:+ username in
  if isProfane username then throw "Username contains inappropriate language"
  else if (String.length username <? MIN_USERNAME_LENGTH)%nat
  then throw "Username must be at least 3 characters"
  else if (MAX_USERNAME_LENGTH <? String.length username)%nat
  then throw "Username must be 30 characters or less"
  else if negb (USERNAME_REGEX username) then throw "Invalid username format"
  else
    let* userData := Redis.get userKey in
    match userData with
    | Some v => if truthyValue v then parseUserData v else createUserRecord username
    | None => createUserRecord username
    end.

Record SendMessageBody := mkSend {
  sm_roomId : string;
  sm_username : string;
  sm_content : string
}.

Definition MSG_SHORT := "You're sending messages too quickly. Please slow down.".
Definition MSG_LONG := "Too many messages in a short period. Please wait a moment.".
Definition MSG_INTERVAL := "Please wait a moment before sending another message.".

(** The type of the room as the burst limiter reads it: public when the
    stored value has no [type] field. *)
Definition isPublicRoomValue (roomRaw : Value) : bool :=
  match roomRaw with
  | VRoom roomObj => isPublicType (Room.type roomObj)
  | _ => true
  end.

(** The burst rate-limit block of handleSendMessage, a [try] whose
    [catch] lets the message through; [Some r] is an early return. *)
Definition burstLimit (roomId username : string) : M (option Response) :=
  tryCatch (
    let roomKey := CHAT_ROOM_PREFIX +:+ roomId in
    let* roomRaw := Redis.get roomKey in
    match roomRaw with
    | Some roomVal =>
        if negb (truthyValue roomVal)
        then ret (Some (createErrorResponse "Room not found" 404))
        else if isPublicRoomValue roomVal then
          let shortKey := CHAT_BURST_PREFIX +:+ "s:" +:+ roomId +:+ ":" +:+ username in
          let longKey := CHAT_BURST_PREFIX +:+ "l:" +:+ roomId +:+ ":" +:+ username in
          let lastKey := CHAT_BURST_PREFIX +:+ "last:" +:+ roomId +:+ ":" +:+ username in
          let* shortCount := Redis.incr shortKey in
          exec (if (shortCount =? 1)%Z
                then exec Redis.expire shortKey CHAT_BURST_SHORT_WINDOW_SECONDS in ret tt
                else ret tt) in
          if (CHAT_BURST_SHORT_LIMIT <? shortCount)%Z
          then ret (Some (createErrorResponse MSG_SHORT 429))
          else
            let* longCount := Redis.incr longKey in
            exec (if (longCount =? 1)%Z
                  then exec Redis.expire longKey CHAT_BURST_LONG_WINDOW_SECONDS in ret tt
                  else ret tt) in
            if (CHAT_BURST_LONG_LIMIT <? longCount)%Z
            then ret (Some (createErrorResponse MSG_LONG 429))
            else
              let* t := dateNow in
              let nowSeconds := (t / 1000)%Z in
              let* lastSent := Redis.get lastKey in
              let tooSoon :=
                match lastSent with
                | Some v =>
                    truthyValue v &&
                    match parseIntValue v with
                    | Some l => (nowSeconds - l <? CHAT_MIN_INTERVAL_SECONDS)%Z
                    | None => false
                    end
                | None => false
                end in
              if tooSoon then ret (Some (createErrorResponse MSG_INTERVAL 429))
              else
                exec Redis.set lastKey (VNum nowSeconds)
                               (Some CHAT_BURST_LONG_WINDOW_SECONDS) in
                ret None
        else ret None
    | None => ret (Some (createErrorResponse "Room not found" 404))
    end)
  (fun _ => ret None).

(** The [try { userData = await ensureUserExists(...) } catch] block:
    the user record, or the response of the error path. *)
Definition ensureUserOrFail (username : string) : M (User.t + Response) :=
  tryCatch (
    let* userData := ensureUserExists username in
    match userData with
    | Some u => ret (inl u)
    | None => ret (inr (createErrorResponse "Failed to verify or create user" 500))
    end)
  (fun e =>
     if String.eqb e "Username contains inappropriate language"
     then ret (inr (createErrorResponse "Username contains inappropriate language" 400))
     else if strIncludes "race condition" e
     then ret (inr (createErrorResponse
                      "Failed to send message due to temporary issue, please try again." 500))
     else ret (inr (createErrorResponse "Failed to verify or create user" 500))).

Definition isDuplicate (last : list Message.t) (username content : string) : bool :=
  match last with
  | lastMsgObj :: _ =>
      String.eqb (Message.username lastMsgObj) username
      && String.eqb (Message.content lastMsgObj) content
  | [] => false
  end.

(** The main [try] block of handleSendMessage: from the room check to
    the 201 response. *)
Definition sendMessageMain (roomId username content : string) : M Response :=
  tryCatch (
    let* roomExists := Redis.exists_ (CHAT_ROOM_PREFIX +:+ roomId) in
    if negb roomExists then ret (createErrorResponse "Room not found" 404)
    else
      let* user := ensureUserOrFail username in
      match user with
      | inr r => ret r
      | inl userData =>
          if (MAX_MESSAGE_LENGTH <? String.length content)%nat
          then ret (createErrorResponse
                      "Message exceeds maximum length of 1000 characters" 400)
          else
            let* lastMessagesRaw :=
              Redis.lrange (CHAT_MESSAGES_PREFIX +:+ roomId) 0 in
            if isDuplicate lastMessagesRaw username content
            then ret (createErrorResponse "Duplicate message detected" 400)
            else
              let* messageId := generateId in
              let* ts := getCurrentTimestamp in
              let message := Message.mk messageId roomId username content ts in
              exec Redis.lpush (CHAT_MESSAGES_PREFIX +:+ roomId) message in
              exec Redis.ltrim (CHAT_MESSAGES_PREFIX +:+ roomId) 99 in
              let* ts2 := getCurrentTimestamp in
              let updatedUser := User.mk (User.username userData) ts2 in
              exec Redis.set (CHAT_USERS_PREFIX +:+ username)
                             (VUser updatedUser) None in
              exec Redis.expire (CHAT_USERS_PREFIX +:+ username)
                                USER_EXPIRATION_TIME in
              exec refreshRoomPresence roomId username in
              exec swallow (
                exec pusherTrigger ("room-" +:+ roomId) "room-message"
                                   (PMessage roomId message) in
                fanOutToPrivateMembers roomId "room-message"
                                       (PMessage roomId message)) in
              ret (mkResponse (BMessage message) 201)
      end)
  (fun _ => ret (createErrorResponse
                   "Failed to send message due to an internal error" 500)).

Definition handleSendMessage (data : SendMessageBody) : M Response :=
  let roomId := sm_roomId data in
  let originalContent := sm_content data in
  let username := toLowerCase (sm_username data) in
  let* invalid := validateIds username roomId in
  match invalid with
  | Some r => ret r
  | None =>
      if negb (truthy originalContent)
      then ret (createErrorResponse "Content is required" 400)
      else
        let content := sanitizeContent clean originalContent in
        let* limited := burstLimit roomId username in
        match limited with
        | Some r => ret r
        | None => sendMessageMain roomId username content
        end
  end.

Record RefreshTokenBody := mkRefresh {
  rt_username : option string;
  rt_oldToken : option string
}.

Definition handleRefreshToken (data : RefreshTokenBody) : M Response :=
  match rt_username data, rt_oldToken data with
  | Some originalUsername, Some oldToken =>
      if negb (truthy originalUsername) || negb (truthy oldToken)
      then ret (createErrorResponse "Username and oldToken are required" 400)
      else
        let username := toLowerCase originalUsername in
        tryCatch (
          let userKey := CHAT_USERS_PREFIX +:+ username in
          let* userData := Redis.get userKey in
          if negb (truthyOpt userData) then ret (createErrorResponse "User not found" 404)
          else
            let* validationResult := validateAuth (Some username) (Some oldToken) true in
            if negb (valid validationResult)
            then ret (createErrorResponse "Invalid authentication token" 401)
            else
              let* t := dateNow in
              exec storeLastValidToken username oldToken t TOKEN_GRACE_PERIOD in
              exec deleteToken oldToken in
              let* authToken := generateAuthToken in
              let tokenKey := AUTH_TOKEN_PREFIX +:+ username in
              exec Redis.set tokenKey (VStr authToken) (Some USER_EXPIRATION_TIME) in
              exec storeToken username authToken in
              ret (mkResponse (BToken authToken) 201))
        (fun _ => ret (createErrorResponse "Failed to refresh token" 500))
  | _, _ => ret (createErrorResponse "Username and oldToken are required" 400)
  end.

(** *** The POST dispatcher *)

Record Request := mkRequest {
  headers : Headers;
  action : option string;
  bodyUsername : option string
}.

Definition sensitiveRateLimitActions : list string :=
  ["generateToken"; "refreshToken"; "authenticateWithPassword";
   "setPassword"; "createUser"; "generateRyoReply"].

Definition protectedActions : list string :=
  ["createRoom"; "sendMessage"; "clearAllMessages"; "resetUserCounts";
   "setPassword"; "generateToken"; "listTokens"; "logoutAllDevices";
   "logoutCurrent"; "generateRyoReply"].

(** [a || b] on possibly absent strings. *)
Definition orElse (a b : option string) : option string :=
  if truthyStr a then a else b.

(** The [switch (action)] statement with every handler it calls, given
    the authenticated username and token. *)
Variable runAction : Request -> option string -> option string -> M Response.

Definition POST (request : Request) : M Response :=
  tryCatch (
    let act := default EmptyString (action request) in
    let* refused :=
      if includes act sensitiveRateLimitActions then
        let identifier :=
          toLowerCase
            (default "anon"
               (orElse (bodyUsername request)
                  (orElse (xUsername (headers request))
                     (orElse (xForwardedFor (headers request)) (Some "anon"))))) in
        let* allowed := checkRateLimit act identifier in
        ret (negb allowed)
      else ret false in
    if refused then ret (createErrorResponse "Too many requests, please slow down" 429)
    else
      if includes act protectedActions then
        let authResult := extractAuth (headers request) in
        let username := authUsername authResult in
        let token := authToken authResult in
        if truthyStr (bodyUsername request)
           && negb (bool_decide (option_map toLowerCase (bodyUsername request)
                                 = option_map toLowerCase username))
        then ret (createErrorResponse "Username mismatch" 401)
        else
          let* isValid := validateAuth (orElse username (bodyUsername request)) token false in
          if negb (valid isValid) then ret (createErrorResponse "Unauthorized" 401)
          else runAction request username token
      else runAction request None None)
  (fun _ => ret (createErrorResponse "Internal server error" 500)).

End Service.

(** ** Vocabulary of the properties *)

Definition noFaults (st : State) : Prop := faults st = [].

Definition sameData (st st' : State) : Prop :=
  kv st' = kv st /\ now st' = now st /\ entropy st' = entropy st /\ pushes st' = pushes st.

Definition rateKey (action identifier : string) : string :=
  RATE_LIMIT_PREFIX +:+ action +:+ ":" +:+ identifier.

(** The counter of the window is live and has reached the limit. *)
Definition atLimit (st : State) (key : string) : Prop :=
  exists v c, Redis.lookupLive st key = Some v /\ truthyValue v = true
              /\ parseIntValue v = Some c /\ RATE_LIMIT_ATTEMPTS <= c.

(** The key holds neither a list nor a set (or nothing at all). *)
Definition plainAt (st : State) (key : string) : Prop :=
  match Redis.lookupLive st key with
  | Some (VList _) | Some (VSet _) => False
  | _ => True
  end.

(** [SET key v EX seconds] as a state transformer. *)
Definition put (key : string) (v : Value) (ex : option Z) (st : State) : State :=
  setKv (insert key (mkEntry v (option_map (fun s => now st + s * 1000) ex))) st.

(** [EXPIRE key seconds] as a state transformer. *)
Definition touch (key : string) (seconds : Z) (st : State) : State :=
  match Redis.lookupLive st key with
  | Some v => setKv (insert key (mkEntry v (Some (now st + seconds * 1000)))) st
  | None => st
  end.

Definition remove (keys : list string) (st : State) : State :=
  setKv (Redis.deleteAll keys) st.

Definition isLiveKey (st : State) (key : string) : bool :=
  bool_decide (is_Some (Redis.lookupLive st key)).

(** *** validateAuth, in the words of the specification

    The four paths, tried in order: the user-scoped (user, token)
    record; the reverse token -> username record; the legacy single
    token of the user; and, only when expired tokens are allowed, the
    grace-window record of the last known token. *)

Inductive AuthPath := PathDirect | PathReverse | PathLegacy | PathGrace | PathNone.

Definition lastTokenKeyOf (U : string) : string := AUTH_TOKEN_PREFIX +:+ "last:" +:+ U.
Definition legacyKeyOf (U : string) : string := AUTH_TOKEN_PREFIX +:+ U.

Definition directRecord (st : State) (U t : string) : bool :=
  isLiveKey st (getUserTokenKey U t).

Definition reverseRecordNames (st : State) (U t : string) : bool :=
  bool_decide (mappedLowerOf (Redis.lookupLive st (getTokenKey t)) = Some U).

Definition legacyRecordIs (st : State) (U t : string) : bool :=
  isToken (Redis.lookupLive st (legacyKeyOf U)) t.

Definition graceRecordAdmits (st : State) (U t : string) : bool :=
  match Redis.lookupLive st (lastTokenKeyOf U) with
  | Some (VTokenData d) =>
      String.eqb (TokenData.token d) t
      && (now st <? TokenData.expiredAt d + TOKEN_GRACE_PERIOD * 1000)
  | _ => false
  end.

Definition authPath (st : State) (U t : string) (allowExpired : bool) : AuthPath :=
  if directRecord st U t then PathDirect
  else if reverseRecordNames st U t then PathReverse
  else if legacyRecordIs st U t then PathLegacy
  else if allowExpired && graceRecordAdmits st U t then PathGrace
  else PathNone.

Definition authResultOf (p : AuthPath) : AuthResult :=
  match p with
  | PathDirect | PathReverse | PathLegacy => mkAuth true (Some false)
  | PathGrace => mkAuth true (Some true)
  | PathNone => mkAuth false None
  end.

(** What a validation leaves in the store: a hit on the direct record
    refreshes its TTL (and that of the reverse record); a hit on the
    reverse or on the legacy record refreshes that record and writes
    the direct record (migration); otherwise nothing changes. *)
Definition authEffect (p : AuthPath) (U t : string) (st : State) : State :=
  match p with
  | PathDirect =>
      touch (getTokenKey t) USER_TTL_SECONDS
        (touch (getUserTokenKey U t) USER_TTL_SECONDS st)
  | PathReverse =>
      put (getUserTokenKey U t) (VNum (now st)) (Some USER_TTL_SECONDS)
        (touch (getTokenKey t) USER_TTL_SECONDS st)
  | PathLegacy =>
      put (getUserTokenKey U t) (VNum (now st)) (Some USER_TTL_SECONDS)
        (touch (legacyKeyOf U) USER_TTL_SECONDS st)
  | PathGrace | PathNone => st
  end.

(** *** Room visibility *)

Definition roomTypeOf (r : RoomWithUsers.t) : option RoomType :=
  Room.type (RoomWithUsers.room r).

(** The username appears in the room's members list. *)
Definition listsMember (r : RoomWithUsers.t) (u : string) : Prop :=
  exists ms, Room.members (RoomWithUsers.room r) = Some ms /\ In u ms.

(** *** Footprints *)

(** Running [m] leaves the clock alone, schedules no fault of its own,
    and writes only keys that satisfy [P]. *)
Definition touchesOnly {A} (m : M A) (P : string -> Prop) : Prop :=
  forall st r st', m st = (r, st') ->
    now st' = now st
    /\ (noFaults st -> noFaults st')
    /\ forall k, ~ P k -> kv st' !! k = kv st !! k.

(** *** The keys of one (room, user) pair *)

Definition roomKeyOf (roomId : string) : string := CHAT_ROOM_PREFIX +:+ roomId.
Definition messagesKeyOf (roomId : string) : string := CHAT_MESSAGES_PREFIX +:+ roomId.
Definition userKeyOf (username : string) : string := CHAT_USERS_PREFIX +:+ username.
Definition presenceKeyOf (roomId username : string) : string :=
  CHAT_ROOM_PRESENCE_PREFIX +:+ roomId +:+ ":" +:+ username.
Definition shortKeyOf (roomId username : string) : string :=
  CHAT_BURST_PREFIX +:+ "s:" +:+ roomId +:+ ":" +:+ username.
Definition longKeyOf (roomId username : string) : string :=
  CHAT_BURST_PREFIX +:+ "l:" +:+ roomId +:+ ":" +:+ username.
Definition lastSentKeyOf (roomId username : string) : string :=
  CHAT_BURST_PREFIX +:+ "last:" +:+ roomId +:+ ":" +:+ username.

(** [Date.now()] moves on between two requests. *)
Definition advance (t : Z) (st : State) : State :=
  mkState (kv st) t (faults st) (entropy st) (pushes st).

(** Writing one entry of the store. *)
Definition putEntry (key : string) (e : Entry) (st : State) : State :=
  setKv (insert key e) st.

(** Keys of the legacy per-room user sets. *)
Definition isLegacySetKey (k : string) : Prop :=
  exists roomId, k = CHAT_ROOM_USERS_PREFIX +:+ roomId.

(** *** Sending a message *)

(** The user record handleSendMessage works with: the stored one, or a
    record created on first contact. *)
Definition ensuredUser (st : State) (u : string) : User.t * State :=
  match Redis.lookupLive st (userKeyOf u) with
  | Some (VUser ud) => (ud, st)
  | _ =>
      (User.mk u (now st),
       putEntry (userKeyOf u) (mkEntry (VUser (User.mk u (now st))) None) st)
  end.

(** The key is absent, or holds a user record / a message list. *)
Definition userOrAbsent (st : State) (key : string) : Prop :=
  Redis.lookupLive st key = None \/ exists ud, Redis.lookupLive st key = Some (VUser ud).

Definition messagesOf (st : State) (roomId : string) : list Message.t :=
  match Redis.lookupLive st (messagesKeyOf roomId) with
  | Some (VList l) => l
  | _ => []
  end.

Definition listOrAbsent (st : State) (key : string) : Prop :=
  Redis.lookupLive st key = None \/ exists l, Redis.lookupLive st key = Some (VList l).

Definition RESP_DUPLICATE : Response :=
  createErrorResponse "Duplicate message detected" 400.
Definition RESP_TOO_LONG : Response :=
  createErrorResponse "Message exceeds maximum length of 1000 characters" 400.

(** A request handleSendMessage can serve: identifiers that pass the
    validation, a live room, and a user key and a message list of the
    expected kind. *)
Definition sendReady (isProfane : string -> bool) (st : State) (r u : string) : Prop :=
  noFaults st
  /\ USERNAME_REGEX u = true /\ ROOM_ID_REGEX r = true /\ isProfane u = false
  /\ isLiveKey st (roomKeyOf r) = true
  /\ userOrAbsent st (userKeyOf u)
  /\ listOrAbsent st (messagesKeyOf r).

(** The room value stored for [r] is a private room. *)
Definition privateRoomAt (st : State) (r : string) : Prop :=
  exists room, Redis.lookupLive st (roomKeyOf r) = Some (VRoom room)
               /\ Room.type room = Some Private.

(** The room value stored for [r] is a public room. *)
Definition publicRoomAt (st : State) (r : string) : Prop :=
  exists room, Redis.lookupLive st (roomKeyOf r) = Some (VRoom room)
               /\ isPublicType (Room.type room) = true.

(** *** The burst limiter, in the words of the specification *)

Definition RESP_SHORT : Response := createErrorResponse MSG_SHORT 429.
Definition RESP_LONG : Response := createErrorResponse MSG_LONG 429.
Definition RESP_INTERVAL : Response := createErrorResponse MSG_INTERVAL 429.

(** The counter key is absent or holds a number. *)
Definition numOrAbsent (st : State) (key : string) : Prop :=
  Redis.lookupLive st key = None \/ exists n, Redis.lookupLive st key = Some (VNum n).

(** The value of a window counter once this message is counted. *)
Definition countAfter (st : State) (key : string) : Z :=
  match Redis.lookupLive st key with
  | Some (VNum n) => n + 1
  | _ => 1
  end.

(** Counting a message: the counter goes up by one and keeps its
    expiry; the message that opens a window gives it [seconds] to live. *)
Definition counted (key : string) (seconds : Z) (st : State) : State :=
  let c := countAfter st key in
  let st' := putEntry key (mkEntry (VNum c) (Redis.expiryOf st key)) st in
  if (c =? 1) then touch key seconds st' else st'.

(** The previous message of the pair was sent less than
    CHAT_MIN_INTERVAL_SECONDS ago. *)
Definition tooSoon (st : State) (r u : string) : bool :=
  match Redis.lookupLive st (lastSentKeyOf r u) with
  | Some v =>
      truthyValue v
      && match parseIntValue v with
         | Some l => (now st / 1000 - l <? CHAT_MIN_INTERVAL_SECONDS)
         | None => false
         end
  | None => false
  end.

(** The outcome of the burst limiter for a public room: the refusal of
    the first violated rule, or the state in which the message goes on. *)
Definition burstOutcome (st : State) (r u : string) : option Response * State :=
  let sc := countAfter st (shortKeyOf r u) in
  let sA := counted (shortKeyOf r u) CHAT_BURST_SHORT_WINDOW_SECONDS st in
  if CHAT_BURST_SHORT_LIMIT <? sc then (Some RESP_SHORT, sA)
  else
    let lc := countAfter st (longKeyOf r u) in
    let sB := counted (longKeyOf r u) CHAT_BURST_LONG_WINDOW_SECONDS sA in
    if CHAT_BURST_LONG_LIMIT <? lc then (Some RESP_LONG, sB)
    else if tooSoon st r u then (Some RESP_INTERVAL, sB)
    else (None, put (lastSentKeyOf r u) (VNum (now st / 1000))
                    (Some CHAT_BURST_LONG_WINDOW_SECONDS) sB).

Section Bursts.
Variable clean : string -> string.
Variable isProfane : string -> bool.

(** A burst of messages from one user to one room, all at one clock
    value: the responses, in order. *)
Fixpoint sendBurst (roomId username : string) (raws : list string) (st : State)
  : list (Result Response) :=
  match raws with
  | [] => []
  | raw :: rest =>
      let '(resp, st') := handleSendMessage clean isProfane (mkSend roomId username raw) st in
      resp :: sendBurst roomId username rest st'
  end.

(** The same, each message at its own time. *)
Fixpoint sendBurstAt (roomId username : string) (reqs : list (Z * string)) (st : State)
  : list (Result Response) :=
  match reqs with
  | [] => []
  | (t, raw) :: rest =>
      let '(resp, st') :=
        handleSendMessage clean isProfane (mkSend roomId username raw) (advance t st) in
      resp :: sendBurstAt roomId username rest st'
  end.

End Bursts.

(** No two neighbours of the list are equal. *)
Fixpoint noRepeat (l : list string) : Prop :=
  match l with
  | a :: (b :: _) as rest => a <> b /\ noRepeat rest
  | _ => True
  end.

(** The state of the short window of a (room, user) pair: [k] messages
    counted so far, the window closing at [e]. *)
Definition shortWindow (st : State) (r u : string) (k e : Z) : Prop :=
  (k = 0 /\ Redis.lookupLive st (shortKeyOf r u) = None
   /\ e = now st + CHAT_BURST_SHORT_WINDOW_SECONDS * 1000)
  \/ (1 <= k /\ kv st !! shortKeyOf r u = Some (mkEntry (VNum k) (Some e)) /\ now st < e).

(** The response is a 201 carrying the stored message. *)
Definition isCreated (resp : Result Response) : Prop :=
  exists msg, resp = Ok (mkResponse (BMessage msg) 201).

(** A message that is one long URL: every [&] of it is escaped. *)
Definition ampersandUrl : string := "http://x/" +:+ repeat "&" 991.

(** *** Sanitization, in the words of the specification

    The content is split on its URL spans; the profanity filter runs on
    the text segments only and the URL segments are put back as they
    are. *)

Inductive Segment :=
  | Text (s : string)
  | Url (s : string).

(** Left to right: [text] is the text segment being collected, [cur]
    the URL span being collected after it, if one has begun. The text
    before a URL is a segment even when it is empty; the text after the
    last URL is a segment only when it is not. *)
Fixpoint segScan (s : string) (text : string) (cur : option string) : list Segment :=
  match s with
  | EmptyString =>
      match cur with
      | Some acc => [Text text; Url acc]
      | None => if truthy text then [Text text] else []
      end
  | String c r =>
      match cur with
      | Some acc =>
          if isSpace c
          then Text text :: Url acc :: segScan r (String c EmptyString) None
          else segScan r text (Some (acc +:+ String c EmptyString))
      | None =>
          if urlStartsAt s then segScan r text (Some (String c EmptyString))
          else segScan r (text +:+ String c EmptyString) None
      end
  end.

Definition urlsOf (segs : list Segment) : list string :=
  omap (fun seg => match seg with Url u => Some u | Text _ => None end) segs.

(** A content without any URL is one text segment. *)
Definition segmentsOf (content : string) : list Segment :=
  let segs := segScan content EmptyString None in
  match urlsOf segs with
  | [] => [Text content]
  | _ => segs
  end.

Definition joinSegments (segs : list Segment) : string :=
  JsString.concat (List.map (fun seg => match seg with Text t => t | Url u => u end) segs).

(** Filter the text segments, keep the URL segments, and reassemble. *)
Definition render (clean : string -> string) (segs : list Segment) : string :=
  JsString.concat
    (List.map (fun seg => match seg with Text t => clean t | Url u => u end) segs).

(** The characters that open markup or delimit attributes. *)
Definition isMarkupChar (c : ascii) : bool :=
  Ascii.eqb c "<" || Ascii.eqb c ">" || (code c =? 34)%N || Ascii.eqb c "'".

Definition scriptExample : string := "<script>alert(1)</script> see http://x.test".
Definition scriptExampleText : string := "<script>alert(1)</script> see ".
Definition scriptExampleUrl : string := "http://x.test".

(** The tail of filterProfanityPreservingUrls, after its loop: the
    text that follows the last URL, if any, is filtered and appended. *)
Definition finalize (clean : string -> string) (content : string) (p : string * nat) : string :=
  let '(result, lastIndex) := p in
  if (lastIndex <? String.length content)%nat
  then result +:+ clean (substringFrom lastIndex content)
  else result.

(** *** Leaving a room *)

Definition legacySetKeyOf (roomId : string) : string := CHAT_ROOM_USERS_PREFIX +:+ roomId.

(** The legacy set of the room is absent or is a set. *)
Definition setOrAbsent (st : State) (key : string) : Prop :=
  Redis.lookupLive st key = None \/ exists l, Redis.lookupLive st key = Some (VSet l).

(** The members left once [u] is taken out. *)
Definition membersWithout (room : Room.t) (u : string) : list string :=
  List.filter (fun m => negb (String.eqb m u)) (default [] (Room.members room)).

Definition RESP_ROOM_NOT_FOUND : Response := createErrorResponse "Room not found" 404.

(** *** Tokens *)

Definition isHexChar (c : ascii) : bool :=
  isDigit c || ((97 <=? code c) && (code c <=? 102))%N || ((65 <=? code c) && (code c <=? 70))%N.

(** A token as the service issues them: hexadecimal digits. *)
Definition isHexToken (t : string) : bool := truthy t && forallb isHexChar t.

(** The character stands for itself in a glob pattern. *)
Definition isGlobLiteral (c : ascii) : bool :=
  negb (Ascii.eqb c "*" || Ascii.eqb c "?" || Ascii.eqb c "[" || Ascii.eqb c "\").

(** The reverse record of the token, when it is there, is a string,
    and names the user when it is not empty: a token belongs to one
    user. *)
Definition reverseRecordOf (st : State) (t u : string) : Prop :=
  Redis.lookupLive st (getTokenKey t) = None
  \/ exists m, Redis.lookupLive st (getTokenKey t) = Some (VStr m)
               /\ (truthy m = true -> toLowerCase m = u).

Definition GRACE_MS : Z := TOKEN_GRACE_PERIOD * 1000.

(** The pattern deleteToken scans for when the reverse record is gone. *)
Definition userTokenPatternOf (t : string) : string := AUTH_TOKEN_PREFIX +:+ "user:*:" +:+ t.

(** Keys of user-scoped token records. *)
Definition isUserTokenKey (k : string) : Prop :=
  exists rest, k = "chat:token:user:" +:+ rest.

(** The text accumulated by the segment scanner. *)
Definition curText (cur : option string) : string :=
  match cur with Some acc => acc | None => EmptyString end.

(** The token the entropy source yields next. *)
Definition nextToken (st : State) : string :=
  toHex (firstn TOKEN_LENGTH (entropy st ++ List.repeat zero TOKEN_LENGTH)).

(** The store after [n] bytes of entropy were drawn. *)
Definition spend (n : nat) (st : State) : State :=
  mkState (kv st) (now st) (faults st) (skipn n (entropy st)) (pushes st).

(** The user record is there, and truthy. *)
Definition userKnown (st : State) (u : string) : Prop :=
  plainAt st (userKeyOf u) /\ truthyOpt (Redis.lookupLive st (userKeyOf u)) = true.

(** What a later validation of the old token finds after a refresh at
    time [t0]: the grace record until the grace window has elapsed. *)
Definition afterRefresh (t0 t : Z) : AuthResult :=
  if t <? t0 + GRACE_MS then mkAuth true (Some true) else mkAuth false None.

(** ** Scenarios

    Concrete stores and requests, for running the handlers. *)

(** A bad-words filter with an empty word list. *)
Definition cleanNothing : string -> string := fun s => s.
Definition profaneNothing : string -> bool := fun _ => false.

(** A store holding the given entries at clock [t]: no fault scheduled,
    no entropy, nothing pushed. *)
Definition storeOf (entries : list (string * Entry)) (t : Z) : State :=
  mkState (list_to_map entries) t [] [] [].

Definition kept (v : Value) : Entry := mkEntry v None.

Definition lounge : Room.t := Room.mk "r1" "lounge" (Some Public) 0 0 None.

Definition twoParty : Room.t :=
  Room.mk "r1" "alice, bob" (Some Private) 0 2 (Some ["alice"; "bob"]).

Definition threeParty : Room.t :=
  Room.mk "r1" "alice, bob, carol" (Some Private) 0 3 (Some ["alice"; "bob"; "carol"]).

Definition helloFromAlice : Message.t := Message.mk "m1" "r1" "alice" "hello" 500.

(** A private room of alice and bob, both present, alice's [hello] the
    last message. *)
Definition privateStore : State :=
  storeOf [ ("chat:room:r1", kept (VRoom twoParty));
            ("chat:presence:r1:alice", mkEntry (VNum 500) (Some 86400500));
            ("chat:presence:r1:bob", mkEntry (VNum 500) (Some 86400500));
            ("chat:messages:r1", kept (VList [helloFromAlice])) ] 1000.

(** The same room a day and more later: alice's presence has lapsed. *)
Definition lapsedStore : State :=
  storeOf [ ("chat:room:r1", kept (VRoom twoParty));
            ("chat:presence:r1:bob", mkEntry (VNum 90000000) (Some 176400000)) ] 90000000.

(** A private room of three, all present. *)
Definition threePartyStore : State :=
  storeOf [ ("chat:room:r1", kept (VRoom threeParty));
            ("chat:presence:r1:alice", mkEntry (VNum 500) (Some 86400500));
            ("chat:presence:r1:bob", mkEntry (VNum 500) (Some 86400500));
            ("chat:presence:r1:carol", mkEntry (VNum 500) (Some 86400500)) ] 1000.

(** A public room with no message yet. *)
Definition publicStore : State :=
  storeOf [ ("chat:room:r1", kept (VRoom lounge)) ] 1000.

(** Four messages of alice, 2.1 seconds apart. *)
Definition fourInTenSeconds : list (Z * string) :=
  [ (1000, "one"); (3100, "two"); (5200, "three"); (7300, "four") ].

(** alice holds the token [ab12]. *)
Definition tokenStore : State :=
  storeOf [ ("chat:users:alice", kept (VUser (User.mk "alice" 500)));
            ("chat:token:user:alice:ab12", mkEntry (VNum 500) (Some 7776000500));
            ("chat:token:ab12", mkEntry (VStr "alice") (Some 7776000500)) ] 1000.

(** The limiter's counter of (generateToken, alice) has reached the limit. *)
Definition limitedStore : State :=
  storeOf [ ("rl:generateToken:alice", mkEntry (VNum 10) (Some 60000)) ] 1000.

(** The store fails at its next operation. *)
Definition failingStore : State := mkState ∅ 1000 [true] [] [].

(** bob's credentials in the headers, alice's name in the body. *)
Definition bobHeaders : Headers := mkHeaders (Some "Bearer ab12") (Some "bob") None.
Definition mismatchRequest (act : string) : Request :=
  mkRequest bobHeaders (Some act) (Some "alice").

(** A switch statement that is never reached. *)
Definition runNothing : Request -> option string -> option string -> M Response :=
  fun _ _ _ => ret (createErrorResponse "Invalid action" 400).

(** A listing of one public room and the private room of alice and bob. *)
Definition hall : Room.t := Room.mk "r2" "hall" (Some Public) 0 0 None.
Definition privateListed : RoomWithUsers.t := RoomWithUsers.mk twoParty ["alice"].
Definition listing : list RoomWithUsers.t := [RoomWithUsers.mk hall []; privateListed].

(** ** Vocabulary of the further properties *)

(** The five characters escapeHTML rewrites. *)
Definition isHtmlSpecial (c : ascii) : bool := Ascii.eqb c "&" || isMarkupChar c.

(** *** Usernames, in the words of the log message of assertValidUsername

    3 to 30 characters, the first a letter, letters and digits, and a
    single [-] or [_] only between characters. *)

Definition isSeparator (c : ascii) : bool := Ascii.eqb c "-" || Ascii.eqb c "_".
Definition isNameChar (c : ascii) : bool := isAlnum c || isSeparator c.

Definition headIs (p : ascii -> bool) (s : string) : bool :=
  match s with
  | String c _ => p c
  | EmptyString => false
  end.

(** Every separator is followed by a letter or a digit. *)
Fixpoint separatorsFollowed (s : string) : bool :=
  match s with
  | EmptyString => true
  | String c r => (if isSeparator c then headIs isAlnum r else true) && separatorsFollowed r
  end.

Definition validName (u : string) : bool :=
  (MIN_USERNAME_LENGTH <=? String.length u)%nat
  && (String.length u <=? MAX_USERNAME_LENGTH)%nat
  && headIs isLetter u
  && forallb isNameChar u
  && separatorsFollowed u.

Fixpoint lastChar (s : string) : option ascii :=
  match s with
  | EmptyString => None
  | String c EmptyString => Some c
  | String _ r => lastChar r
  end.

(** The characters of a channel name. *)
Definition isChannelChar (c : ascii) : bool :=
  isAlnum c || Ascii.eqb c "_" || Ascii.eqb c "-" || Ascii.eqb c ".".

(** *** Hexadecimal text

    The inverse of [buffer.toString("hex")], to state that a token
    determines the bytes it was made of. *)

Definition hexValue (c : ascii) : N :=
  if isDigit c then (code c - 48)%N else (code c - 87)%N.

Fixpoint fromHex (s : string) : list ascii :=
  match s with
  | String a (String b r) => ascii_of_N (16 * hexValue a + hexValue b) :: fromHex r
  | _ => []
  end.

(** The digits [0-9a-f]. *)
Definition isLowerHex (c : ascii) : bool :=
  isDigit c || ((97 <=? code c) && (code c <=? 102))%N.

(** *** Runs of requests *)

(** Attempts of one (action, identifier) pair at the given times: the
    answers of checkRateLimit in order, and the store they leave. *)
Fixpoint rateLimitRun (action identifier : string) (times : list Z) (st : State)
  : list (Result bool) * State :=
  match times with
  | [] => ([], st)
  | t :: rest =>
      let '(r, st1) := checkRateLimit action identifier (advance t st) in
      let '(rs, st2) := rateLimitRun action identifier rest st1 in
      (r :: rs, st2)
  end.

(** The counter of a window that closes at [e], after [k] attempts. *)
Definition windowAt (st : State) (key : string) (k e : Z) : Prop :=
  kv st !! key = Some (mkEntry (VNum k) (Some e)).

(** *** What a handler may write *)

(** The keys handleSendMessage may write for a (room, user) pair: the
    three keys of the burst limiter, the user record, the message list
    of the room and the presence record of the pair. *)
Definition sendKeys (r u : string) (k : string) : Prop :=
  k = shortKeyOf r u \/ k = longKeyOf r u \/ k = lastSentKeyOf r u
  \/ k = userKeyOf u \/ k = messagesKeyOf r \/ k = presenceKeyOf r u.

(** The keys handleLeaveRoom may write: the presence record of the
    pair, the room record and its message list, and the legacy user
    sets. *)
Definition leaveKeys (r u : string) (k : string) : Prop :=
  k = presenceKeyOf r u \/ k = roomKeyOf r \/ k = messagesKeyOf r \/ isLegacySetKey k.

(** The records validateAuth may write for a (user, token) pair. *)
Definition authKeys (U t : string) (k : string) : Prop :=
  k = getUserTokenKey U t \/ k = getTokenKey t \/ k = legacyKeyOf U.

(** The keys of the token records. *)
Definition isTokenKey (k : string) : Prop := exists rest, k = AUTH_TOKEN_PREFIX +:+ rest.

(** The store holds the same entry at the key, and the clock has not
    moved. *)
Definition keptAt (st st' : State) (k : string) : Prop :=
  kv st' !! k = kv st !! k /\ now st' = now st.

(** *** Presence *)

Definition hasColon (s : string) : bool := existsb (fun d => Ascii.eqb d ":") s.

(** The pattern getActiveUsersInRoom scans for. *)
Definition presencePatternOf (r : string) : string := CHAT_ROOM_PRESENCE_PREFIX +:+ r +:+ ":*".

(** Every live presence record is the record of a (room, user) pair
    whose identifiers hold no colon, as the identifiers that pass the
    validation do. *)
Definition presenceWellFormed (st : State) : Prop :=
  forall rest, isLiveKey st (CHAT_ROOM_PRESENCE_PREFIX +:+ rest) = true ->
    exists r u, rest = r +:+ ":" +:+ u /\ hasColon r = false /\ hasColon u = false.

(** The user has a live presence record in the room. *)
Definition presentIn (st : State) (r u : string) : Prop :=
  isLiveKey st (presenceKeyOf r u) = true.

(** The users getActiveUsersInRoom lists for the room. *)
Definition activeUsersOf (st : State) (r : string) : list string :=
  List.map lastSegment
    (List.filter (Redis.globMatch (presencePatternOf r)) (Redis.liveKeys st)).

Definition RESP_FETCH_ROOM_FAILED : Response := createErrorResponse "Failed to fetch room" 500.

(** ** Further handlers *)

(** The answer of a handler whose JSON body is none of [Body]: a
    response of the kinds above, or a body [a] with its status. *)
Inductive Reply (A : Type) :=
  | Refused (r : Response)
  | Served (status : Z) (a : A).
Arguments Refused {A} r.
Arguments Served {A} status a.

(** *** Reading messages *)

(** The items of a message list are message objects: the parse step
    keeps them all. *)
Definition handleGetMessages (roomId : string) : M (Reply (list Message.t)) :=
  tryCatch (
    exec assertValidRoomId roomId in
    let* roomExists := Redis.exists_ (CHAT_ROOM_PREFIX +:+ roomId) in
    if negb roomExists then ret (Refused (createErrorResponse "Room not found" 404))
    else
      let messagesKey := CHAT_MESSAGES_PREFIX +:+ roomId in
      let* messagesStrings := Redis.lrange messagesKey 19 in
      ret (Served 200 messagesStrings))
  (fun _ => ret (Refused (createErrorResponse "Failed to fetch messages" 500))).

Record BulkMessages := mkBulk {
  messagesMap : gmap string (list Message.t);
  validRoomIds : list string;
  invalidRoomIds : list string
}.

(** [roomIds.filter((_, index) => checks[index])] *)
Fixpoint filterByIndex {A} (l : list A) (checks : list bool) (keep : bool) : list A :=
  match l, checks with
  | a :: l', c :: checks' =>
      if Bool.eqb c keep then a :: filterByIndex l' checks' keep
      else filterByIndex l' checks' keep
  | a :: l', [] => if keep then filterByIndex l' [] keep else a :: filterByIndex l' [] keep
  | [], _ => []
  end.

(** [results.forEach(({ roomId, messages }) => { messagesMap[roomId] = messages })] *)
Definition toMessagesMap (results : list (string * list Message.t))
  : gmap string (list Message.t) :=
  List.fold_left (fun m '(roomId, messages) => <[roomId := messages]> m) results ∅.

Definition handleGetBulkMessages (roomIds : list string) : M (Reply BulkMessages) :=
  tryCatch (
    if List.existsb (fun id => negb (ROOM_ID_REGEX id)) roomIds
    then ret (Refused (createErrorResponse "Invalid room ID format" 400))
    else
      let* roomExistenceChecks :=
        mapM (fun roomId => Redis.exists_ (CHAT_ROOM_PREFIX +:+ roomId)) roomIds in
      let validRoomIds := filterByIndex roomIds roomExistenceChecks true in
      let invalidRoomIds := filterByIndex roomIds roomExistenceChecks false in
      let* results :=
        mapM (fun roomId =>
                let messagesKey := CHAT_MESSAGES_PREFIX +:+ roomId in
                let* messagesStrings := Redis.lrange messagesKey 19 in
                ret (roomId, messagesStrings))
             validRoomIds in
      ret (Served 200 (mkBulk (toMessagesMap results) validRoomIds invalidRoomIds)))
  (fun _ => ret (Refused (createErrorResponse "Failed to fetch bulk messages" 500))).

(** *** Joining a room *)

(** The two reads of [Promise.all] are taken in their order. The
    spread [{ ...roomData, userCount }] of a value that is not a room
    object, and [{ ...userData, lastActive }] of one that is not a user
    object, are ill-typed records. *)
Definition handleJoinRoom (data : JoinLeaveRoomBody) : M Response :=
  let username := option_map toLowerCase (jl_username data) in
  match jl_roomId data, username with
  | Some roomId, Some username =>
      if negb (truthy roomId) || negb (truthy username)
      then ret (createErrorResponse "Room ID and username are required" 400)
      else
        let* invalid := validateIds username roomId in
        match invalid with
        | Some r => ret r
        | None =>
            tryCatch (
              let* roomData := Redis.get (CHAT_ROOM_PREFIX +:+ roomId) in
              let* userData := Redis.get (CHAT_USERS_PREFIX +:+ username) in
              if negb (truthyOpt roomData) then ret (createErrorResponse "Room not found" 404)
              else if negb (truthyOpt userData)
              then ret (createErrorResponse "User not found" 404)
              else
                exec setRoomPresence roomId username in
                let* userCount := refreshRoomUserCount roomId in
                match roomData with
                | Some (VRoom roomObj) =>
                    let updatedRoom := Room.withUserCount roomObj userCount in
                    exec Redis.set (CHAT_ROOM_PREFIX +:+ roomId) (VRoom updatedRoom) None in
                    let* ts := getCurrentTimestamp in
                    match userData with
                    | Some (VUser userObj) =>
                        let updatedUser := User.mk (User.username userObj) ts in
                        exec Redis.set (CHAT_USERS_PREFIX +:+ username)
                                       (VUser updatedUser) None in
                        exec swallow broadcastRoomsUpdated in
                        ret (okResponse BSuccess)
                    | _ => illTyped
                    end
                | _ => illTyped
                end)
            (fun _ => ret (createErrorResponse "Failed to join room" 500))
        end
  | _, _ => ret (createErrorResponse "Room ID and username are required" 400)
  end.

(** *** Issuing a token *)

Record GenerateTokenBody := mkGenerate {
  gt_username : option string;
  gt_force : bool
}.

Definition handleGenerateToken (data : GenerateTokenBody) : M Response :=
  match gt_username data with
  | Some originalUsername =>
      if negb (truthy originalUsername)
      then ret (createErrorResponse "Username is required" 400)
      else
        let username := toLowerCase originalUsername in
        tryCatch (
          let userKey := CHAT_USERS_PREFIX +:+ username in
          let* userData := Redis.get userKey in
          if negb (truthyOpt userData) then ret (createErrorResponse "User not found" 404)
          else
            let tokenKey := AUTH_TOKEN_PREFIX +:+ username in
            let* existingToken := Redis.get tokenKey in
            let* authToken := generateAuthToken in
            exec Redis.set tokenKey (VStr authToken) (Some USER_EXPIRATION_TIME) in
            exec storeToken username authToken in
            let* t := dateNow in
            exec storeLastValidToken username authToken
                   (t + USER_EXPIRATION_TIME * 1000)
                   (USER_EXPIRATION_TIME + TOKEN_GRACE_PERIOD) in
            ret (mkResponse (BToken authToken) 201))
        (fun _ => ret (createErrorResponse "Failed to generate token" 500))
  | None => ret (createErrorResponse "Username is required" 400)
  end.

(** *** The DELETE dispatcher *)

Definition RESP_NOT_IMPLEMENTED : Response := createErrorResponse "Not implemented" 501.

Definition handleDeleteRoom (roomId username : string) : M Response :=
  ret RESP_NOT_IMPLEMENTED.

Definition handleDeleteMessage (roomId messageId username : string) : M Response :=
  ret RESP_NOT_IMPLEMENTED.

Record DeleteRequest := mkDelete {
  del_headers : Headers;
  del_action : option string;
  del_roomId : option string;
  del_messageId : option string
}.

Definition RESP_UNAUTHORIZED : Response := createErrorResponse "Unauthorized" 401.

Definition DELETE (request : DeleteRequest) : M Response :=
  tryCatch (
    let auth := extractAuth (del_headers request) in
    let username := authUsername auth in
    let token := authToken auth in
    let* isValid := validateAuth username token false in
    if negb (valid isValid) then ret RESP_UNAUTHORIZED
    else
      match del_action request with
      | Some act =>
          if String.eqb act "deleteRoom" then
            match del_roomId request with
            | Some roomId =>
                if negb (truthy roomId)
                then ret (createErrorResponse "roomId query parameter is required" 400)
                else handleDeleteRoom roomId (default EmptyString username)
            | None => ret (createErrorResponse "roomId query parameter is required" 400)
            end
          else if String.eqb act "deleteMessage" then
            match del_roomId request, del_messageId request with
            | Some roomId, Some messageId =>
                if negb (truthy roomId) || negb (truthy messageId)
                then ret (createErrorResponse
                            "roomId and messageId query parameters are required" 400)
                else handleDeleteMessage roomId messageId (default EmptyString username)
            | _, _ => ret (createErrorResponse
                             "roomId and messageId query parameters are required" 400)
            end
          else ret (createErrorResponse "Invalid action" 400)
      | None => ret (createErrorResponse "Invalid action" 400)
      end)
  (fun _ => ret (createErrorResponse "Internal server error" 500)).

(** *** Creating a room *)

Record CreateRoomBody := mkCreateRoom {
  cr_name : option string;
  cr_type : option string;
  cr_members : option (list string)
}.

(** [s.replace(/ /g, "-")] *)
Fixpoint dashSpaces (s : string) : string :=
  match s with
  | EmptyString => EmptyString
  | String c r => String (if Ascii.eqb c " " then "-"%char else c) (dashSpaces r)
  end.

(** [l.join(sep)] *)
Fixpoint join (sep : string) (l : list string) : string :=
  match l with
  | [] => EmptyString
  | [x] => x
  | x :: r => x +:+ sep +:+ join sep r
  end.

(** [[...l].sort()]: ascending, by code units. *)
Fixpoint insertSorted (x : string) (l : list string) : list string :=
  match l with
  | [] => [x]
  | y :: r => if String.leb x y then x :: y :: r else y :: insertSorted x r
  end.

Definition sortStrings (l : list string) : list string :=
  List.fold_right insertSorted [] l.

(** [await Promise.all(l.map(f))]: every call is issued, and the first
    rejection, if there is one, is thrown once all of them have run. *)
Fixpoint promiseAll {A} (f : A -> M unit) (l : list A) : M unit :=
  match l with
  | [] => ret tt
  | a :: r =>
      fun st =>
        match f a st with
        | (Ok _, s1) => promiseAll f r s1
        | (Throw e, s1) => (Throw e, snd (promiseAll f r s1))
        end
  end.

(** The type of a room, from its name in a request. *)
Definition roomTypeNamed (type : string) : RoomType :=
  if String.eqb type "private" then Private else Public.

(** The members of a private room: the requested ones in lower case,
    and the creator. *)
Definition membersWith (creator : string) (members : list string) : list string :=
  let normalizedMembers := List.map toLowerCase members in
  if includes creator normalizedMembers then normalizedMembers
  else (normalizedMembers ++ [creator])%list.

(** The name of a private room: "@user1, @user2, ...". *)
Definition privateRoomName (members : list string) : string :=
  join ", " (List.map (fun m => "@" +:+ m) (sortStrings members)).

Section CreateRoom.

Variable isProfane : string -> bool.

Definition handleCreateRoom (data : CreateRoomBody) (username : string) : M Response :=
  let originalName := cr_name data in
  let type := default "public" (cr_type data) in
  let members := default [] (cr_members data) in
  let normalizedUsername := toLowerCase username in
  if negb (includes type ["public"; "private"])
  then ret (createErrorResponse "Invalid room type. Must be 'public' or 'private'" 400)
  else
    let isPublic := String.eqb type "public" in
    let isPrivate := String.eqb type "private" in
    let nameText := default EmptyString originalName in
    if isPublic && negb (truthy nameText)
    then ret (createErrorResponse "Room name is required for public rooms" 400)
    else if isPublic && negb (String.eqb normalizedUsername "ryo")
    then ret (createErrorResponse "Forbidden - Only admin can create public rooms" 403)
    else if isPublic && isProfane nameText
    then ret (createErrorResponse "Room name contains inappropriate language" 400)
    else if isPrivate && (List.length members =? 0)%nat
    then ret (createErrorResponse "At least one member is required for private rooms" 400)
    else
      let members := if isPrivate then membersWith normalizedUsername members else members in
      let roomName :=
        if isPublic then dashSpaces (toLowerCase nameText) else privateRoomName members in
      tryCatch (
        let* roomId := generateId in
        let* ts := getCurrentTimestamp in
        let room :=
          Room.mk roomId roomName (Some (roomTypeNamed type)) ts
                  (if isPrivate then Z.of_nat (List.length members) else 0)
                  (if isPrivate then Some members else None) in
        exec Redis.set (CHAT_ROOM_PREFIX +:+ roomId) (VRoom room) None in
        exec (if isPrivate then promiseAll (setRoomPresence roomId) members else ret tt) in
        exec swallow broadcastRoomsUpdated in
        ret (mkResponse (BRoom room) 201))
      (fun _ => ret (createErrorResponse "Failed to create room" 500)).

End CreateRoom.

(** The identifier the entropy source yields next. *)
Definition nextId (st : State) : string :=
  toHex (firstn 16 (entropy st ++ List.repeat zero 16)).

(** The store after every user of the list was marked present in the
    room. *)
Definition markPresent (roomId : string) (users : list string) (st : State) : State :=
  List.fold_left
    (fun s m => put (presenceKeyOf roomId m) (VNum (now s)) (Some ROOM_PRESENCE_TTL_SECONDS) s)
    users st.

(** Ascending order of strings, by code units. *)
Fixpoint ascending (l : list string) : bool :=
  match l with
  | [] => true
  | a :: r =>
      match r with
      | [] => true
      | b :: _ => String.leb a b && ascending r
      end
  end.

(** ** Further scenarios *)

(** The public room, alice registered, bob present. *)
Definition loungeStore : State :=
  storeOf [ ("chat:room:r1", kept (VRoom lounge));
            ("chat:users:alice", kept (VUser (User.mk "alice" 500)));
            ("chat:presence:r1:bob", mkEntry (VNum 500) (Some 86400500)) ] 1000.

(** The public room with alice and bob present. *)
Definition partyStore : State :=
  storeOf [ ("chat:room:r1", kept (VRoom lounge));
            ("chat:presence:r1:alice", mkEntry (VNum 500) (Some 86400500));
            ("chat:presence:r1:bob", mkEntry (VNum 500) (Some 86400500)) ] 1000.

(** A request for a private room with bob. *)
Definition withBob : CreateRoomBody := mkCreateRoom None (Some "private") (Some ["Bob"]).

(** ** Vocabulary of the properties over several requests *)


(** *** Sanitization: an example with the five characters *)

(** The double quote. *)
Definition doubleQuote : ascii := Ascii.ascii_of_N 34.

Definition quotedExampleText : string :=
  "Tom & " +:+ String doubleQuote ("Jerry's" +:+ String doubleQuote " <b> ").
Definition quotedExampleUrl : string := "http://x.test/?a=1&b=2".
Definition quotedExampleTail : string := " ok".
Definition quotedExample : string :=
  quotedExampleText +:+ quotedExampleUrl +:+ quotedExampleTail.

(** A segment of the content once sanitized: a text segment is
    filtered and then escaped, a URL span is escaped only. *)
Definition sanitizedSegment (clean : string -> string) (seg : Segment) : string :=
  match seg with
  | Text t => escapeHTML (clean t)
  | Url u => escapeHTML u
  end.

(** *** Requests in series *)

(** One request of a series: the time at which it arrives, the
    profanity filter as it cleans at that moment (the filter of the
    library keeps state between its calls), and the raw content. *)
Record Attempt := mkAttempt {
  at_time : Z;
  at_clean : string -> string;
  at_raw : string
}.

Section Series.
Variable isProfane : string -> bool.

(** The requests of one user to one room, one after the other: the
    responses in order, and the store they leave. *)
Fixpoint sendSeries (roomId username : string) (reqs : list Attempt) (st : State)
  : list (Result Response) * State :=
  match reqs with
  | [] => ([], st)
  | a :: rest =>
      let '(resp, st1) :=
        handleSendMessage (at_clean a) isProfane (mkSend roomId username (at_raw a))
                          (advance (at_time a) st) in
      let '(resps, st2) := sendSeries roomId username rest st1 in
      (resp :: resps, st2)
  end.

(** The same at one clock value: each request with its filter and its
    raw content. *)
Fixpoint sendEach (roomId username : string) (reqs : list ((string -> string) * string))
    (st : State) : list (Result Response) :=
  match reqs with
  | [] => []
  | (clean, raw) :: rest =>
      let '(resp, st1) := handleSendMessage clean isProfane (mkSend roomId username raw) st in
      resp :: sendEach roomId username rest st1
  end.

End Series.

(** The sanitized content of a request of such a series. *)
Definition sanitizedOf (q : (string -> string) * string) : string :=
  sanitizeContent (fst q) (snd q).

(** The request is answered, and not with a 429. *)
Definition notLimited (resp : Result Response) : Prop :=
  exists x, resp = Ok x /\ status x <> 429.

(** The request is answered with a 429. *)
Definition limited (resp : Result Response) : Prop :=
  exists x, resp = Ok x /\ status x = 429.

(** Every value the computation returns satisfies [Q]. *)
Definition yields {A} (m : M A) (Q : A -> Prop) : Prop :=
  forall st a st', m st = (Ok a, st') -> Q a.

(** *** The directory of rooms *)

(** The pattern getDetailedRooms scans for, and the keys it finds. *)
Definition roomPattern : string := CHAT_ROOM_PREFIX +:+ "*".

Definition roomKeys (st : State) : list string :=
  List.filter (Redis.globMatch roomPattern) (Redis.liveKeys st).

(** The room record a key holds, if it holds one. *)
Definition roomAt (st : State) (key : string) : option Room.t :=
  match Redis.lookupLive st key with
  | Some (VRoom roomObj) => Some roomObj
  | _ => None
  end.

(** The rooms of the store, in the order of the scan. *)
Definition storedRooms (st : State) : list Room.t := omap (roomAt st) (roomKeys st).

(** A key of the directory holds the user set of the earlier versions,
    or the record of a room with a valid id, stored under that id. *)
Definition roomRecordOk (st : State) (key : string) : bool :=
  match Redis.lookupLive st key with
  | Some (VSet _) => true
  | Some (VRoom roomObj) =>
      ROOM_ID_REGEX (Room.id roomObj) && String.eqb key (roomKeyOf (Room.id roomObj))
  | _ => false
  end.

Definition directoryWellFormed (st : State) : bool :=
  List.forallb (roomRecordOk st) (roomKeys st).

(** The entry of the listing made of a stored room: the room with the
    number of its active users, and these users. *)
Definition entryOf (st : State) (x : RoomWithUsers.t) (roomObj : Room.t) : Prop :=
  RoomWithUsers.room x
  = Room.withUserCount roomObj (Z.of_nat (List.length (RoomWithUsers.users x)))
  /\ forall u, In u (RoomWithUsers.users x) <-> In u (activeUsersOf st (Room.id roomObj)).

(** The listing has an entry for the room. *)
Definition listsRoom (st : State) (listed : list RoomWithUsers.t) (roomObj : Room.t) : Prop :=
  exists x, In x listed /\ entryOf st x roomObj.

(** [s] is [st] once some of the user sets of the earlier versions
    have been deleted. *)
Definition prunedFrom (st s : State) : Prop :=
  noFaults s /\ now s = now st
  /\ forall k, Redis.lookupLive s k = Redis.lookupLive st k
               \/ (isLegacySetKey k /\ Redis.lookupLive s k = None).

(** What [mget] hands over for a key. *)
Definition mgetView (st : State) (k : string) : option Value :=
  match Redis.lookupLive st k with
  | Some (VList _) | Some (VSet _) => None
  | o => o
  end.

(** A value getDetailedRooms can make an entry of, or skips. *)
Definition listableRaw (st : State) (raw : option Value) : Prop :=
  match raw with
  | None => True
  | Some (VRoom roomObj) =>
      ROOM_ID_REGEX (Room.id roomObj) = true
      /\ setOrAbsent st (legacySetKeyOf (Room.id roomObj))
  | Some _ => False
  end.

Definition roomOfRaw (raw : option Value) : option Room.t :=
  match raw with
  | Some (VRoom roomObj) => Some roomObj
  | _ => None
  end.

(** A directory: a private room of alice and bob, a public room that
    still has the user set of an earlier version, and alice present in
    the private room. *)
Definition directoryStore : State :=
  storeOf [ ("chat:room:r1", kept (VRoom twoParty));
            ("chat:room:r2", kept (VRoom hall));
            ("chat:room:users:r2", kept (VSet ["dave"]));
            ("chat:presence:r1:alice", mkEntry (VNum 500) (Some 86400500)) ] 1000.

(** Four requests of alice, 2.1 seconds apart, and a fifth after the
    ten seconds. *)
Definition fourAttempts : list Attempt :=
  [ mkAttempt 1000 cleanNothing "one"; mkAttempt 3100 cleanNothing "two";
    mkAttempt 5200 cleanNothing "three"; mkAttempt 7300 cleanNothing "four" ].

Definition fifthAttempt : Attempt := mkAttempt 11000 cleanNothing "five".


(** * Properties *)

(** ** The model at work *)

Example urlMatches_ex :
  urlMatches "<script>alert(1)</script> see http://x.test"
  = [mkUrlMatch "http://x.test" 30 43].
Proof. reflexivity. Qed.

Example urlMatches_ex2 :
  urlMatches "a https://b.c/d?e=f&g http:// x httphttp://q"
  = [mkUrlMatch "https://b.c/d?e=f&g" 2 21; mkUrlMatch "http://q" 36 44].
Proof. reflexivity. Qed.

Example sanitize_ex :
  sanitizeContent (fun s => s) "<script>alert(1)</script> see http://x.test"
  = "&lt;script&gt;alert(1)&lt;/script&gt; see http://x.test".
Proof. reflexivity. Qed.

Example globMatch_ex1 :
  Redis.globMatch "chat:token:user:*:ab12" "chat:token:user:alice:ab12" = true.
Proof. reflexivity. Qed.

Example globMatch_ex2 :
  Redis.globMatch "chat:room:*" "chat:rooms" = false.
Proof. reflexivity. Qed.

Example globMatch_ex3 :
  Redis.globMatch "h[a-c^]l\*o?" "hbl*o!" = true.
Proof. reflexivity. Qed.

(** ** Running the monad *)

Lemma tick_noFaults st : noFaults st -> Redis.tick st = (Ok tt, st).
Proof. unfold noFaults, Redis.tick. intros ->. reflexivity. Qed.

Lemma lookupLive_tick st f key :
  Redis.lookupLive (mkState (kv st) (now st) f (entropy st) (pushes st)) key
  = Redis.lookupLive st key.
Proof. reflexivity. Qed.

Lemma sameData_refl st : sameData st st.
Proof. repeat split. Qed.

Lemma lookupLive_sameData st st' key :
  sameData st st' -> Redis.lookupLive st' key = Redis.lookupLive st key.
Proof. intros (Hk & Hn & _). unfold Redis.lookupLive. rewrite Hk, Hn. reflexivity. Qed.

(** What a read of the store can do: hand back the live value, or throw
    (a scheduled fault, or a key that holds a list or a set); the data
    is untouched either way. *)
Lemma get_inv key st r st1 :
  Redis.get key st = (r, st1) ->
  sameData st st1
  /\ (r = Ok (Redis.lookupLive st key)
      \/ exists e, r = Throw e
           /\ (hd false (faults st) = true
               \/ parseIntValue (default (VNum 0) (Redis.lookupLive st key)) = None)).
Proof.
  unfold Redis.get, bind, Redis.tick, Redis.wrongType, throw.
  destruct (faults st) as [|[|] f]; cbn [hd].
  - destruct (Redis.lookupLive st key) as [[]|] eqn:Hl; intros [= <- <-];
      (split; [apply sameData_refl|]); eauto.
  - intros [= <- <-]. split; [repeat split|]. eauto.
  - change (Redis.lookupLive _ key) with (Redis.lookupLive st key).
    destruct (Redis.lookupLive st key) as [[]|] eqn:Hl; intros [= <- <-];
      (split; [repeat split|]); eauto.
Qed.

(** ** Sensitive-action rate limiting *)

(** C8. checkRateLimit never throws. Whenever a store operation inside
    it throws, it answers [true] (the request is allowed). It answers
    [false] exactly when the read succeeded and the live counter has
    reached RATE_LIMIT_ATTEMPTS, and then the store, the clock, the
    entropy and the push log are what they were: no increment, no
    other write. *)
Theorem checkRateLimit_fail_open (action identifier : string) (st : State) :
  exists allowed st',
    checkRateLimit action identifier st = (Ok allowed, st')
    /\ ((exists e, checkRateLimitBody action identifier st = (Throw e, st')) -> allowed = true)
    /\ (allowed = false -> sameData st st' /\ atLimit st (rateKey action identifier))
    /\ (atLimit st (rateKey action identifier) -> hd false (faults st) = false ->
        allowed = false).
Proof.
  unfold checkRateLimit, checkRateLimitBody, tryCatch, bind, ret, atLimit.
  fold (rateKey action identifier).
  set (key := rateKey action identifier).
  destruct (Redis.get key st) as [[o|e] st1] eqn:Hget;
    apply get_inv in Hget as (Hsame & [Hr | (e' & Hr & Hwhy)]); try discriminate Hr.
  - injection Hr as ->.
    destruct (Redis.lookupLive st key) as [v|] eqn:Hl; cbn [truthyOpt negb].
    + destruct (truthyValue v) eqn:Ht; cbn [negb].
      * destruct (parseIntValue v) as [c|] eqn:Hp.
        -- destruct (RATE_LIMIT_ATTEMPTS <=? c) eqn:Hc.
           ++ eexists _, _. split; [reflexivity|].
              split; [intros [e He]; discriminate He|].
              split; [|reflexivity].
              intros _. split; [exact Hsame|].
              exists v, c. repeat split; auto. apply Z.leb_le. exact Hc.
           ++ destruct (Redis.incr key st1) as [[n|e] st2];
                (eexists _, _; split; [reflexivity|]; split; [reflexivity|]);
                (split; [discriminate|]);
                intros (v' & c' & [= <-] & _ & Hp' & Hle) _;
                rewrite Hp in Hp'; injection Hp' as <-; apply Z.leb_gt in Hc; lia.
        -- destruct (Redis.incr key st1) as [[n|e] st2];
             (eexists _, _; split; [reflexivity|]; split; [reflexivity|]);
             (split; [discriminate|]);
             intros (v' & c' & [= <-] & _ & Hp' & Hle) _; congruence.
      * destruct (Redis.set key (VNum 1) (Some RATE_LIMIT_WINDOW_SECONDS) st1) as [[n|e] st2];
          (eexists _, _; split; [reflexivity|]; split; [reflexivity|]);
          (split; [discriminate|]);
          intros (v' & c' & [= <-] & Ht' & _) _; congruence.
    + destruct (Redis.set key (VNum 1) (Some RATE_LIMIT_WINDOW_SECONDS) st1) as [[n|e] st2];
        (eexists _, _; split; [reflexivity|]; split; [reflexivity|]);
        (split; [discriminate|]);
        intros (v' & c' & [=] & _) _.
  - eexists _, _. split; [reflexivity|]. split; [reflexivity|].
    split; [discriminate|].
    intros (v' & c' & Hl & _ & Hp' & _) Hhd.
    destruct Hwhy as [Hwhy | Hwhy]; [congruence|].
    rewrite Hl in Hwhy. cbn in Hwhy. congruence.
Qed.

(** ** Store operations when no fault is scheduled *)

Create HintDb nf discriminated.

Lemma noFaults_setKv f st : noFaults st -> noFaults (setKv f st).
Proof. exact (fun H => H). Qed.
Lemma noFaults_put key v ex st : noFaults st -> noFaults (put key v ex st).
Proof. exact (fun H => H). Qed.
Lemma noFaults_touch key s st : noFaults st -> noFaults (touch key s st).
Proof. unfold touch. destruct (Redis.lookupLive st key); exact (fun H => H). Qed.
Lemma noFaults_remove keys st : noFaults st -> noFaults (remove keys st).
Proof. exact (fun H => H). Qed.
#[export] Hint Resolve noFaults_setKv noFaults_put noFaults_touch noFaults_remove : nf.

Lemma bind_ret {A B} (a : A) (k : A -> M B) st : bind (ret a) k st = k a st.
Proof. reflexivity. Qed.

Lemma bind_throw {A B} e (k : A -> M B) st : bind (throw e) k st = (Throw e, st).
Proof. reflexivity. Qed.

Lemma bind_bind {A B C} (m : M A) (f : A -> M B) (k : B -> M C) st :
  bind (bind m f) k st = bind m (fun a => bind (f a) k) st.
Proof. unfold bind. destruct (m st) as [[a|e] st1]; reflexivity. Qed.

Lemma bind_dateNow {B} (k : Z -> M B) st : bind dateNow k st = k (now st) st.
Proof. reflexivity. Qed.

Lemma bind_getCurrentTimestamp {B} (k : Z -> M B) st :
  bind getCurrentTimestamp k st = k (now st) st.
Proof. reflexivity. Qed.

Lemma bind_tick {B} (k : unit -> M B) st :
  noFaults st -> bind Redis.tick k st = k tt st.
Proof. intros H. unfold bind. rewrite tick_noFaults by exact H. reflexivity. Qed.

Lemma bind_get {B} key (k : option Value -> M B) st :
  noFaults st -> plainAt st key ->
  bind (Redis.get key) k st = k (Redis.lookupLive st key) st.
Proof.
  intros H Hp. unfold Redis.get. rewrite bind_bind, bind_tick by exact H.
  unfold bind, plainAt in *.
  destruct (Redis.lookupLive st key) as [[]|]; try reflexivity; contradiction.
Qed.

Lemma bind_set {B} key v ex (k : unit -> M B) st :
  noFaults st -> bind (Redis.set key v ex) k st = k tt (put key v ex st).
Proof.
  intros H. unfold Redis.set. rewrite bind_bind, bind_tick by exact H. reflexivity.
Qed.

Lemma bind_exists {B} key (k : bool -> M B) st :
  noFaults st -> bind (Redis.exists_ key) k st = k (isLiveKey st key) st.
Proof.
  intros H. unfold Redis.exists_. rewrite bind_bind, bind_tick by exact H. reflexivity.
Qed.

Lemma bind_expire {B} key s (k : bool -> M B) st :
  noFaults st ->
  bind (Redis.expire key s) k st = k (isLiveKey st key) (touch key s st).
Proof.
  intros H. unfold Redis.expire. rewrite bind_bind, bind_tick by exact H.
  unfold bind, touch, isLiveKey.
  destruct (Redis.lookupLive st key); reflexivity.
Qed.

Lemma bind_del {B} keys (k : Z -> M B) st :
  noFaults st ->
  bind (Redis.del keys) k st = k (Redis.liveCount st keys) (remove keys st).
Proof.
  intros H. unfold Redis.del. rewrite bind_bind, bind_tick by exact H. reflexivity.
Qed.

Lemma bind_pipelineDel {B} keys (k : unit -> M B) st :
  noFaults st ->
  bind (Redis.pipelineDel keys) k st = k tt (remove keys st).
Proof.
  intros H. unfold Redis.pipelineDel. rewrite bind_bind, bind_tick by exact H. reflexivity.
Qed.

Lemma bind_scanAll {B} pattern (k : list string -> M B) st :
  noFaults st ->
  bind (Redis.scanAll pattern) k st
  = k (List.filter (Redis.globMatch pattern) (Redis.liveKeys st)) st.
Proof.
  intros H. unfold Redis.scanAll. rewrite bind_bind, bind_tick by exact H. reflexivity.
Qed.

(** Reading the store after a write. *)
Lemma lookupLive_put_eq key v ex st :
  (forall s, ex = Some s -> 0 < s) ->
  Redis.lookupLive (put key v ex st) key = Some v.
Proof.
  intros Hex. unfold Redis.lookupLive, put, setKv. cbn [kv now].
  rewrite lookup_insert_eq. unfold Redis.isLive. cbn [expiry value].
  destruct ex as [s|]; cbn [option_map]; [|reflexivity].
  specialize (Hex s eq_refl).
  destruct (Z.ltb_spec (now st) (now st + s * 1000)); [reflexivity | lia].
Qed.

Lemma lookupLive_put_ne key key' v ex st :
  key <> key' ->
  Redis.lookupLive (put key v ex st) key' = Redis.lookupLive st key'.
Proof.
  intros Hne. unfold Redis.lookupLive, put, setKv. cbn [kv now].
  rewrite lookup_insert_ne by exact Hne. reflexivity.
Qed.

Lemma lookupLive_touch_ne key key' s st :
  key <> key' ->
  Redis.lookupLive (touch key s st) key' = Redis.lookupLive st key'.
Proof.
  intros Hne. unfold touch.
  destruct (Redis.lookupLive st key) eqn:Hl; [|reflexivity].
  unfold Redis.lookupLive, setKv. cbn [kv now].
  rewrite lookup_insert_ne by exact Hne. reflexivity.
Qed.

Lemma lookupLive_touch_eq key s st :
  0 < s ->
  Redis.lookupLive (touch key s st) key = Redis.lookupLive st key.
Proof.
  intros Hs. unfold touch.
  destruct (Redis.lookupLive st key) eqn:Hl; [|exact Hl].
  unfold Redis.lookupLive, setKv. cbn [kv now].
  rewrite lookup_insert_eq. unfold Redis.isLive. cbn [expiry value].
  destruct (Z.ltb_spec (now st) (now st + s * 1000)); [reflexivity | lia].
Qed.

Lemma lookup_deleteAll keys (m : gmap string Entry) key :
  Redis.deleteAll keys m !! key = if bool_decide (key ∈ keys) then None else m !! key.
Proof.
  induction keys as [|k keys IH]; cbn [Redis.deleteAll fold_right].
  - rewrite bool_decide_eq_false_2 by (apply not_elem_of_nil). reflexivity.
  - fold (Redis.deleteAll keys m).
    destruct (decide (k = key)) as [->|Hne].
    + rewrite lookup_delete_eq. rewrite bool_decide_eq_true_2 by (apply elem_of_cons; auto).
      reflexivity.
    + rewrite lookup_delete_ne by exact Hne. rewrite IH.
      destruct (decide (key ∈ keys)) as [Hin|Hin].
      * rewrite !bool_decide_eq_true_2; [reflexivity | apply elem_of_cons; auto | exact Hin].
      * rewrite !bool_decide_eq_false_2; [reflexivity | | exact Hin].
        intros [?|?]%elem_of_cons; [congruence | contradiction].
Qed.

Lemma lookupLive_remove keys st key :
  Redis.lookupLive (remove keys st) key
  = if bool_decide (key ∈ keys) then None else Redis.lookupLive st key.
Proof.
  unfold Redis.lookupLive, remove, setKv. cbn [kv now].
  rewrite lookup_deleteAll. destruct (bool_decide (key ∈ keys)); reflexivity.
Qed.

Lemma now_put key v ex st : now (put key v ex st) = now st.
Proof. reflexivity. Qed.
Lemma now_touch key s st : now (touch key s st) = now st.
Proof. unfold touch. destruct (Redis.lookupLive st key); reflexivity. Qed.
Lemma now_remove keys st : now (remove keys st) = now st.
Proof. reflexivity. Qed.

Lemma noFaults_putEntry key e st : noFaults st -> noFaults (putEntry key e st).
Proof. exact (fun H => H). Qed.
#[export] Hint Resolve noFaults_putEntry : nf.

Lemma now_putEntry key e st : now (putEntry key e st) = now st.
Proof. reflexivity. Qed.

Lemma lookupLive_putEntry_eq key e st :
  Redis.isLive (now st) e = true ->
  Redis.lookupLive (putEntry key e st) key = Some (value e).
Proof.
  intros Hl. unfold Redis.lookupLive, putEntry, setKv. cbn [kv now].
  rewrite lookup_insert_eq, Hl. reflexivity.
Qed.

Lemma lookupLive_putEntry_ne key key' e st :
  key <> key' ->
  Redis.lookupLive (putEntry key e st) key' = Redis.lookupLive st key'.
Proof.
  intros Hne. unfold Redis.lookupLive, putEntry, setKv. cbn [kv now].
  rewrite lookup_insert_ne by exact Hne. reflexivity.
Qed.

(** A key that is live keeps being live under its own expiry. *)
Lemma isLive_expiryOf st key v v' :
  Redis.lookupLive st key = Some v ->
  Redis.isLive (now st) (mkEntry v' (Redis.expiryOf st key)) = true.
Proof.
  unfold Redis.lookupLive, Redis.expiryOf.
  destruct (kv st !! key) as [e|]; [|discriminate].
  destruct (Redis.isLive (now st) e) eqn:Hl; [|discriminate].
  intros _. exact Hl.
Qed.

Lemma lookupLive_frame st st' k :
  now st' = now st -> kv st' !! k = kv st !! k ->
  Redis.lookupLive st' k = Redis.lookupLive st k.
Proof. intros Hn Hk. unfold Redis.lookupLive. rewrite Hn, Hk. reflexivity. Qed.

Lemma bind_setnx {B} key v (k : bool -> M B) st :
  noFaults st ->
  bind (Redis.setnx key v) k st
  = match Redis.lookupLive st key with
    | Some _ => k false st
    | None => k true (putEntry key (mkEntry v None) st)
    end.
Proof.
  intros H. unfold Redis.setnx. rewrite bind_bind, bind_tick by exact H.
  unfold bind. destruct (Redis.lookupLive st key); reflexivity.
Qed.

Lemma bind_incr_fresh {B} key (k : Z -> M B) st :
  noFaults st -> Redis.lookupLive st key = None ->
  bind (Redis.incr key) k st = k 1 (putEntry key (mkEntry (VNum 1) None) st).
Proof.
  intros H Hl. unfold Redis.incr. rewrite bind_bind, bind_tick by exact H.
  unfold bind. rewrite Hl. reflexivity.
Qed.

Lemma bind_incr_num {B} key n (k : Z -> M B) st :
  noFaults st -> Redis.lookupLive st key = Some (VNum n) ->
  bind (Redis.incr key) k st
  = k (n + 1) (putEntry key (mkEntry (VNum (n + 1)) (Redis.expiryOf st key)) st).
Proof.
  intros H Hl. unfold Redis.incr. rewrite bind_bind, bind_tick by exact H.
  unfold bind. rewrite Hl. reflexivity.
Qed.

(** The list stored under a key, for [lrange]: empty when the key is
    absent. *)
Lemma bind_lrange_none {B} key n (k : list Message.t -> M B) st :
  noFaults st -> Redis.lookupLive st key = None ->
  bind (Redis.lrange key n) k st = k [] st.
Proof.
  intros H Hl. unfold Redis.lrange. rewrite bind_bind, bind_tick by exact H.
  unfold bind. rewrite Hl. reflexivity.
Qed.

Lemma bind_lrange_list {B} key n l (k : list Message.t -> M B) st :
  noFaults st -> Redis.lookupLive st key = Some (VList l) ->
  bind (Redis.lrange key n) k st = k (firstn (S n) l) st.
Proof.
  intros H Hl. unfold Redis.lrange. rewrite bind_bind, bind_tick by exact H.
  unfold bind. rewrite Hl. reflexivity.
Qed.

Lemma bind_lpush_none {B} key x (k : unit -> M B) st :
  noFaults st -> Redis.lookupLive st key = None ->
  bind (Redis.lpush key x) k st = k tt (putEntry key (mkEntry (VList [x]) None) st).
Proof.
  intros H Hl. unfold Redis.lpush. rewrite bind_bind, bind_tick by exact H.
  unfold bind. rewrite Hl. reflexivity.
Qed.

Lemma bind_lpush_list {B} key x l (k : unit -> M B) st :
  noFaults st -> Redis.lookupLive st key = Some (VList l) ->
  bind (Redis.lpush key x) k st
  = k tt (putEntry key (mkEntry (VList (x :: l)) (Redis.expiryOf st key)) st).
Proof.
  intros H Hl. unfold Redis.lpush. rewrite bind_bind, bind_tick by exact H.
  unfold bind. rewrite Hl. reflexivity.
Qed.

Lemma bind_ltrim_list {B} key n l (k : unit -> M B) st :
  noFaults st -> Redis.lookupLive st key = Some (VList l) ->
  bind (Redis.ltrim key n) k st
  = k tt (putEntry key (mkEntry (VList (firstn (S n) l)) (Redis.expiryOf st key)) st).
Proof.
  intros H Hl. unfold Redis.ltrim. rewrite bind_bind, bind_tick by exact H.
  unfold bind. rewrite Hl. reflexivity.
Qed.

Lemma kv_put_ne_l key key' v ex st :
  key' <> key -> kv (put key v ex st) !! key' = kv st !! key'.
Proof.
  intros Hne. unfold put, setKv. cbn [kv]. apply lookup_insert_ne. auto.
Qed.

(** ** Token validation *)

Lemma validateAuth_missing (username token : option string) allowExpired st :
  truthyStr username = false \/ truthyStr token = false ->
  validateAuth username token allowExpired st = (Ok (mkAuth false None), st).
Proof.
  unfold validateAuth, truthyStr.
  destruct username as [u|], token as [t|]; try reflexivity.
  intros [H|H]; rewrite H; cbn [negb orb]; [reflexivity|].
  destruct (truthy u); reflexivity.
Qed.

(** validateAuth on a present username and token, when nothing fails
    in the store. *)
Lemma validateAuth_run (u t : string) (allowExpired : bool) (st : State) :
  noFaults st ->
  truthy u = true -> truthy t = true ->
  plainAt st (getTokenKey t) ->
  plainAt st (legacyKeyOf (toLowerCase u)) ->
  plainAt st (lastTokenKeyOf (toLowerCase u)) ->
  let U := toLowerCase u in
  let p := authPath st U t allowExpired in
  validateAuth (Some u) (Some t) allowExpired st = (Ok (authResultOf p), authEffect p U t st).
Proof.
  intros Hnf Hu Ht Hp1 Hp2 Hp3 U p.
  unfold validateAuth. rewrite Hu, Ht. cbn [negb orb].
  fold U. subst p. unfold authPath, directRecord.
  rewrite bind_exists by exact Hnf.
  destruct (isLiveKey st (getUserTokenKey U t)) eqn:Hd.
  + rewrite bind_expire by exact Hnf.
    rewrite bind_expire by auto with nf.
    reflexivity.
  + unfold getUsernameForToken. rewrite Ht. cbn [negb].
    rewrite bind_get by assumption.
    unfold reverseRecordNames.
    destruct (bool_decide (mappedLowerOf (Redis.lookupLive st (getTokenKey t)) = Some U)) eqn:Hr.
    * rewrite bind_expire by exact Hnf.
      rewrite bind_getCurrentTimestamp, now_touch.
      rewrite bind_set by auto with nf.
      cbn [authEffect authResultOf]. unfold put. rewrite !now_touch. reflexivity.
    * rewrite bind_get by assumption.
      unfold legacyRecordIs. fold (legacyKeyOf U).
      destruct (isToken (Redis.lookupLive st (legacyKeyOf U)) t) eqn:Hl.
      -- rewrite bind_expire by exact Hnf.
         rewrite bind_getCurrentTimestamp, now_touch.
         rewrite bind_set by auto with nf.
         cbn [authEffect authResultOf]. unfold put. rewrite !now_touch. reflexivity.
      -- destruct allowExpired; cbn [andb]; [|reflexivity].
         fold (lastTokenKeyOf U). rewrite bind_get by assumption.
         unfold graceRecordAdmits.
         destruct (Redis.lookupLive st (lastTokenKeyOf U)) as [[]|]; try reflexivity.
         rewrite bind_dateNow.
         destruct (_ && _); reflexivity.
Qed.

(** C5. validateAuth is the four-path check of the specification, in
    that order: direct record (TTL refreshed), reverse record (migrated
    to the direct format), legacy record, and, only with allowExpired,
    the grace-window record (valid with expired = true); it answers
    valid = false exactly when every applicable path fails. *)
Theorem validateAuth_four_paths (u t : string) (allowExpired : bool) (st : State) :
  noFaults st ->
  truthy u = true -> truthy t = true ->
  plainAt st (getTokenKey t) ->
  plainAt st (legacyKeyOf (toLowerCase u)) ->
  plainAt st (lastTokenKeyOf (toLowerCase u)) ->
  let U := toLowerCase u in
  let p := authPath st U t allowExpired in
  validateAuth (Some u) (Some t) allowExpired st = (Ok (authResultOf p), authEffect p U t st)
  /\ (valid (authResultOf p) = false <->
      directRecord st U t = false /\ reverseRecordNames st U t = false
      /\ legacyRecordIs st U t = false
      /\ (allowExpired = true -> graceRecordAdmits st U t = false))
  /\ (expired (authResultOf p) = Some true <-> p = PathGrace).
Proof.
  intros Hnf Hu Ht Hp1 Hp2 Hp3 U p. split.
  - apply validateAuth_run; assumption.
  - subst p. unfold authPath.
    destruct (directRecord st U t), (reverseRecordNames st U t), (legacyRecordIs st U t),
      allowExpired, (graceRecordAdmits st U t); cbn; intuition congruence.
Qed.

(** ** Room visibility *)

Lemma lowerChar_idem c : lowerChar (lowerChar c) = lowerChar c.
Proof. destruct c as [[] [] [] [] [] [] [] []]; reflexivity. Qed.

Lemma toLowerCase_idem s : toLowerCase (toLowerCase s) = toLowerCase s.
Proof.
  induction s as [|c s IH]; [reflexivity|].
  cbn [toLowerCase]. rewrite lowerChar_idem, IH. reflexivity.
Qed.

Lemma truthy_toLowerCase s : truthy (toLowerCase s) = truthy s.
Proof. destruct s; reflexivity. Qed.

Lemma includes_In x l : includes x l = true <-> In x l.
Proof.
  unfold includes. rewrite List.existsb_exists. split.
  - intros (y & Hin & Heq). apply String.eqb_eq in Heq. subst. exact Hin.
  - intros Hin. exists x. split; [exact Hin | apply String.eqb_refl].
Qed.

(** The inline filter of handleGetRooms is filterRoomsForUser at the
    lower-cased query parameter. *)
Lemma handleGetRooms_filter param st :
  handleGetRooms param st =
  match getDetailedRooms st with
  | (Ok allRooms, st') =>
      (Ok (okResponse (BRooms (filterRoomsForUser allRooms (viewerOfParam param)))), st')
  | (Throw _, st') => (Ok (createErrorResponse "Failed to fetch rooms" 500), st')
  end.
Proof.
  unfold handleGetRooms, tryCatch, bind, ret.
  destruct (getDetailedRooms st) as [[allRooms|e] st']; [|reflexivity].
  match goal with
  | |- (Ok (okResponse (BRooms ?l1)), _) = (Ok (okResponse (BRooms ?l2)), _) =>
      enough (Heq : l1 = l2) by (rewrite Heq; reflexivity)
  end.
  unfold filterRoomsForUser, viewerOfParam.
  destruct param as [u|].
  - destruct (truthy (toLowerCase u)) eqn:Ht.
    + rewrite Ht, toLowerCase_idem. reflexivity.
    + apply List.filter_ext. intros r.
      destruct (isPublicType _); [reflexivity|].
      destruct (Room.members _); reflexivity.
  - apply List.filter_ext. intros r.
    destruct (isPublicType _); [reflexivity|].
    destruct (Room.members _); reflexivity.
Qed.

(** ** The POST dispatcher *)

Lemma checkRateLimit_total action identifier st :
  exists allowed st', checkRateLimit action identifier st = (Ok allowed, st').
Proof.
  unfold checkRateLimit, tryCatch.
  destruct (checkRateLimitBody action identifier st) as [[a|e] st1]; unfold ret; eauto.
Qed.

(** C10, as the code has it. For a protected action whose body carries
    a non-empty username that differs, case-insensitively, from the
    username of the authentication headers, the answer is 401 "Username
    mismatch" whatever the token and whatever the handlers are: no
    token is validated and no handler runs. The one step that comes
    earlier is the rate limiter of the sensitive actions: for those it
    has already counted the request (and is the only change to the
    state), and it answers 429 itself when it refuses. *)
Theorem POST_username_mismatch
    (runAction : Request -> option string -> option string -> M Response)
    (request : Request) (st : State) (act ub : string) :
  action request = Some act ->
  includes act protectedActions = true ->
  bodyUsername request = Some ub ->
  truthy ub = true ->
  Some (toLowerCase ub)
    <> option_map toLowerCase (authUsername (extractAuth (headers request))) ->
  (includes act sensitiveRateLimitActions = false ->
     POST runAction request st = (Ok (createErrorResponse "Username mismatch" 401), st))
  /\ (includes act sensitiveRateLimitActions = true ->
      exists allowed st1,
        checkRateLimit act (toLowerCase ub) st = (Ok allowed, st1)
        /\ POST runAction request st
           = (Ok (if allowed
                  then createErrorResponse "Username mismatch" 401
                  else createErrorResponse "Too many requests, please slow down" 429),
              st1)).
Proof.
  intros Hact Hprot Hbody Htruthy Hneq.
  unfold POST, tryCatch. rewrite Hact, Hbody. cbn [default from_option id].
  split; intros Hsens; rewrite Hsens.
  - rewrite bind_ret. cbn [negb]. rewrite Hprot.
    cbn [truthyStr]. rewrite Htruthy. cbn [option_map andb].
    rewrite bool_decide_eq_false_2 by exact Hneq. reflexivity.
  - assert (Hor : forall x, orElse (Some ub) x = Some ub).
    { intros x. unfold orElse, truthyStr. rewrite Htruthy. reflexivity. }
    rewrite Hor. cbn [default from_option id].
    destruct (checkRateLimit_total act (toLowerCase ub) st) as (allowed & st1 & Hrl).
    exists allowed, st1. split; [exact Hrl|].
    rewrite bind_bind. unfold bind at 1. rewrite Hrl. rewrite bind_ret.
    destruct allowed; cbn [negb]; [|reflexivity].
    rewrite Hprot. cbn [truthyStr]. rewrite Htruthy. cbn [option_map andb].
    rewrite bool_decide_eq_false_2 by exact Hneq. reflexivity.
Qed.

(** ** Footprints of the store operations *)

Section Footprint.
Context {A : Type} (P : string -> Prop).

Lemma touches_ret (a : A) : touchesOnly (ret a) P.
Proof. intros st r st' [= <- <-]. auto. Qed.

Lemma touches_throw e : touchesOnly (@throw A e) P.
Proof. intros st r st' [= <- <-]. auto. Qed.

Lemma touches_bind {B} (m : M B) (k : B -> M A) :
  touchesOnly m P -> (forall b, touchesOnly (k b) P) -> touchesOnly (bind m k) P.
Proof.
  intros Hm Hk st r st'. unfold bind.
  destruct (m st) as [[b|e] st1] eqn:Hrun; intros Hres.
  - destruct (Hm _ _ _ Hrun) as (Hn1 & Hf1 & Hk1).
    destruct (Hk b _ _ _ Hres) as (Hn2 & Hf2 & Hk2).
    split; [congruence|]. split; [auto|].
    intros key Hkey. rewrite Hk2, Hk1 by exact Hkey. reflexivity.
  - injection Hres as <- <-. exact (Hm _ _ _ Hrun).
Qed.

Lemma touches_tryCatch (m : M A) (h : string -> M A) :
  touchesOnly m P -> (forall e, touchesOnly (h e) P) -> touchesOnly (tryCatch m h) P.
Proof.
  intros Hm Hh st r st'. unfold tryCatch.
  destruct (m st) as [[a|e] st1] eqn:Hrun; intros Hres.
  - injection Hres as <- <-. exact (Hm _ _ _ Hrun).
  - destruct (Hm _ _ _ Hrun) as (Hn1 & Hf1 & Hk1).
    destruct (Hh e _ _ _ Hres) as (Hn2 & Hf2 & Hk2).
    split; [congruence|]. split; [auto|].
    intros key Hkey. rewrite Hk2, Hk1 by exact Hkey. reflexivity.
Qed.

Lemma touches_weaken (Q : string -> Prop) (m : M A) :
  (forall k, Q k -> P k) -> touchesOnly m Q -> touchesOnly m P.
Proof.
  intros HQP Hm st r st' Hrun. destruct (Hm _ _ _ Hrun) as (Hn & Hf & Hk).
  split; [exact Hn|]. split; [exact Hf|]. intros k Hk'. apply Hk. auto.
Qed.

End Footprint.

Lemma touches_tick P : touchesOnly Redis.tick P.
Proof.
  intros st r st'. unfold Redis.tick, noFaults.
  destruct (faults st) as [|[|] f] eqn:Hf; intros [= <- <-]; cbn [now kv faults];
    repeat split; auto; congruence.
Qed.

(** A state transformer that edits the store only at keys of [P]. *)
Lemma touches_tick_then {A} P (f : State -> Result A * State) :
  (forall st, now (snd (f st)) = now st /\ faults (snd (f st)) = faults st
              /\ forall k, ~ P k -> kv (snd (f st)) !! k = kv st !! k) ->
  touchesOnly (bind Redis.tick (fun _ => f)) P.
Proof.
  intros Hf. apply touches_bind; [apply touches_tick|].
  intros _ st r st' Hrun. destruct (Hf st) as (Hn & Hfl & Hk).
  rewrite Hrun in *. cbn [snd] in *. unfold noFaults. repeat split; auto; congruence.
Qed.

Ltac tick_then :=
  apply touches_tick_then; intros st;
  repeat match goal with
         | |- context [match ?x with _ => _ end] => destruct x
         end;
  cbn [snd setKv kv now faults throw Redis.wrongType];
  (split; [reflexivity|]); (split; [reflexivity|]); intros k Hk; try reflexivity.

Lemma touches_get P key : touchesOnly (Redis.get key) P.
Proof. unfold Redis.get. tick_then. Qed.

Lemma touches_exists P key : touchesOnly (Redis.exists_ key) P.
Proof. unfold Redis.exists_. tick_then. Qed.

Lemma touches_lrange P key n : touchesOnly (Redis.lrange key n) P.
Proof. unfold Redis.lrange. tick_then. Qed.

Lemma touches_smembers P key : touchesOnly (Redis.smembers key) P.
Proof. unfold Redis.smembers. tick_then. Qed.

Lemma touches_scanAll P pat : touchesOnly (Redis.scanAll pat) P.
Proof. unfold Redis.scanAll. tick_then. Qed.

Lemma touches_mget P keys : touchesOnly (Redis.mget keys) P.
Proof. unfold Redis.mget. tick_then. Qed.

Lemma insert_other (P : string -> Prop) key (e : Entry) (m : gmap string Entry) k :
  P key -> ~ P k -> <[key := e]> m !! k = m !! k.
Proof. intros HP Hk. apply lookup_insert_ne. intros ->. contradiction. Qed.

Lemma touches_set (P : string -> Prop) key v ex : P key -> touchesOnly (Redis.set key v ex) P.
Proof. intros HP. unfold Redis.set. tick_then. eapply insert_other; eauto. Qed.

Lemma touches_setnx (P : string -> Prop) key v : P key -> touchesOnly (Redis.setnx key v) P.
Proof. intros HP. unfold Redis.setnx. tick_then. eapply insert_other; eauto. Qed.

Lemma touches_expire (P : string -> Prop) key s : P key -> touchesOnly (Redis.expire key s) P.
Proof. intros HP. unfold Redis.expire. tick_then. eapply insert_other; eauto. Qed.

Lemma touches_incr (P : string -> Prop) key : P key -> touchesOnly (Redis.incr key) P.
Proof. intros HP. unfold Redis.incr. tick_then; eapply insert_other; eauto. Qed.

Lemma touches_lpush (P : string -> Prop) key x : P key -> touchesOnly (Redis.lpush key x) P.
Proof. intros HP. unfold Redis.lpush. tick_then; eapply insert_other; eauto. Qed.

Lemma touches_ltrim (P : string -> Prop) key n : P key -> touchesOnly (Redis.ltrim key n) P.
Proof. intros HP. unfold Redis.ltrim. tick_then; eapply insert_other; eauto. Qed.

Lemma deleteAll_other (P : string -> Prop) keys (m : gmap string Entry) k :
  Forall P keys -> ~ P k -> Redis.deleteAll keys m !! k = m !! k.
Proof.
  intros HP Hk. rewrite lookup_deleteAll.
  rewrite bool_decide_eq_false_2; [reflexivity|].
  intros Hin. rewrite Forall_forall in HP. apply Hk, HP, Hin.
Qed.

Lemma touches_del (P : string -> Prop) keys : Forall P keys -> touchesOnly (Redis.del keys) P.
Proof. intros HP. unfold Redis.del. tick_then. eapply deleteAll_other; eauto. Qed.

Lemma touches_pipelineDel (P : string -> Prop) keys :
  Forall P keys -> touchesOnly (Redis.pipelineDel keys) P.
Proof. intros HP. unfold Redis.pipelineDel. tick_then. eapply deleteAll_other; eauto. Qed.

Lemma touches_dateNow P : touchesOnly dateNow P.
Proof. intros st r st' [= <- <-]. auto. Qed.

Lemma touches_pusherTrigger P c e p : touchesOnly (pusherTrigger c e p) P.
Proof. intros st r st' [= <- <-]. cbn. auto. Qed.

Lemma touches_randomBytes P n : touchesOnly (randomBytes n) P.
Proof. intros st r st' [= <- <-]. cbn. auto. Qed.

Lemma touches_mapM {A B} P (f : A -> M B) l :
  (forall a, touchesOnly (f a) P) -> touchesOnly (mapM f l) P.
Proof.
  intros Hf. induction l as [|a l IH]; cbn [mapM].
  - apply touches_ret.
  - apply touches_bind; [apply Hf|]. intros b.
    apply touches_bind; [apply IH|]. intros bs. apply touches_ret.
Qed.

(** Structural footprint steps; the leaves are left to the caller. *)
Ltac footprint_step :=
  lazymatch goal with
  | |- touchesOnly (ret _) _ => apply touches_ret
  | |- touchesOnly (throw _) _ => apply touches_throw
  | |- touchesOnly illTyped _ => apply touches_throw
  | |- touchesOnly (Redis.get _) _ => apply touches_get
  | |- touchesOnly (Redis.exists_ _) _ => apply touches_exists
  | |- touchesOnly (Redis.lrange _ _) _ => apply touches_lrange
  | |- touchesOnly (Redis.smembers _) _ => apply touches_smembers
  | |- touchesOnly (Redis.scanAll _) _ => apply touches_scanAll
  | |- touchesOnly (Redis.mget _) _ => apply touches_mget
  | |- touchesOnly dateNow _ => apply touches_dateNow
  | |- touchesOnly getCurrentTimestamp _ => apply touches_dateNow
  | |- touchesOnly (pusherTrigger _ _ _) _ => apply touches_pusherTrigger
  | |- touchesOnly (randomBytes _) _ => apply touches_randomBytes
  | |- touchesOnly (bind _ _) _ => apply touches_bind; [|intros ?]
  | |- touchesOnly (tryCatch _ _) _ => apply touches_tryCatch; [|intros ?]
  | |- touchesOnly (mapM _ _) _ => apply touches_mapM; intros ?
  end.

Ltac footprint_case :=
  match goal with
  | |- touchesOnly (if ?c then _ else _) _ => destruct c
  | |- touchesOnly (match ?x with _ => _ end) _ => destruct x
  | |- touchesOnly (let '(_, _) := ?x in _) _ => destruct x
  end.

Ltac solve_key := cbv beta zeta; first [reflexivity | assumption | tauto | eauto 6].

Ltac footprint_leaf :=
  lazymatch goal with
  | |- touchesOnly (Redis.set _ _ _) _ => apply touches_set; solve_key
  | |- touchesOnly (Redis.setnx _ _) _ => apply touches_setnx; solve_key
  | |- touchesOnly (Redis.expire _ _) _ => apply touches_expire; solve_key
  | |- touchesOnly (Redis.incr _) _ => apply touches_incr; solve_key
  | |- touchesOnly (Redis.lpush _ _) _ => apply touches_lpush; solve_key
  | |- touchesOnly (Redis.ltrim _ _) _ => apply touches_ltrim; solve_key
  | |- touchesOnly (Redis.del _) _ => apply touches_del; repeat constructor; solve_key
  | |- touchesOnly (Redis.pipelineDel _) _ =>
      apply touches_pipelineDel; repeat constructor; solve_key
  end.

Ltac footprint := repeat first [footprint_step | footprint_leaf | footprint_case].

Lemma touches_getActiveUsersAndPrune (P : string -> Prop) roomId :
  P (CHAT_ROOM_USERS_PREFIX +:+ roomId) ->
  touchesOnly (getActiveUsersAndPrune roomId) P.
Proof.
  intros HP. unfold getActiveUsersAndPrune, getActiveUsersInRoom. footprint.
Qed.

Lemma touches_getDetailedRooms (P : string -> Prop) :
  (forall k, isLegacySetKey k -> P k) ->
  touchesOnly getDetailedRooms P.
Proof.
  intros HP. unfold getDetailedRooms, detailedRoom, illTyped. footprint.
  all: apply touches_getActiveUsersAndPrune, HP; eexists; reflexivity.
Qed.

Lemma touches_broadcastRoomsUpdated (P : string -> Prop) :
  (forall k, isLegacySetKey k -> P k) ->
  touchesOnly broadcastRoomsUpdated P.
Proof.
  intros HP. unfold broadcastRoomsUpdated, swallow. footprint.
  apply touches_getDetailedRooms, HP.
Qed.

Lemma touches_broadcastToSpecificUsers (P : string -> Prop) usernames :
  (forall k, isLegacySetKey k -> P k) ->
  touchesOnly (broadcastToSpecificUsers usernames) P.
Proof.
  intros HP. unfold broadcastToSpecificUsers, swallow. footprint.
  apply touches_getDetailedRooms, HP.
Qed.

Lemma touches_refreshRoomUserCount (P : string -> Prop) roomId :
  P (roomKeyOf roomId) -> P (CHAT_ROOM_USERS_PREFIX +:+ roomId) ->
  touchesOnly (refreshRoomUserCount roomId) P.
Proof.
  intros HP1 HP2. unfold refreshRoomUserCount, illTyped. footprint.
  all: try (apply touches_getActiveUsersAndPrune; exact HP2).
Qed.

Lemma touches_fanOutToPrivateMembers P roomId ev payload :
  touchesOnly (fanOutToPrivateMembers roomId ev payload) P.
Proof. unfold fanOutToPrivateMembers, swallow. footprint. Qed.

Lemma touches_refreshRoomPresence (P : string -> Prop) roomId username :
  P (presenceKeyOf roomId username) ->
  touchesOnly (refreshRoomPresence roomId username) P.
Proof. intros HP. unfold refreshRoomPresence. footprint. Qed.

Lemma touches_validateIds P username roomId : touchesOnly (validateIds username roomId) P.
Proof. unfold validateIds, assertValidUsername, assertValidRoomId. footprint. Qed.

Section ServiceFootprints.
Variable isProfane : string -> bool.

Lemma touches_ensureUserOrFail (P : string -> Prop) username :
  P (userKeyOf username) ->
  touchesOnly (ensureUserOrFail isProfane username) P.
Proof.
  intros HP.
  unfold ensureUserOrFail, ensureUserExists, createUserRecord, parseUserData, illTyped.
  footprint.
Qed.

Lemma touches_burstLimit (P : string -> Prop) roomId username :
  P (shortKeyOf roomId username) -> P (longKeyOf roomId username) ->
  P (lastSentKeyOf roomId username) ->
  touchesOnly (burstLimit roomId username) P.
Proof. intros H1 H2 H3. unfold burstLimit. footprint. Qed.

Lemma touches_sendMessageMain (P : string -> Prop) roomId username content :
  P (userKeyOf username) -> P (messagesKeyOf roomId) ->
  P (presenceKeyOf roomId username) ->
  touchesOnly (sendMessageMain isProfane roomId username content) P.
Proof.
  intros H1 H2 H3. unfold sendMessageMain, generateId, swallow, getCurrentTimestamp.
  footprint.
  all: first [ apply touches_ensureUserOrFail; exact H1
             | apply touches_refreshRoomPresence; exact H3
             | apply touches_fanOutToPrivateMembers ].
Qed.

End ServiceFootprints.

(** ** Identifiers and keys *)

Lemma usernameTail_length s n : usernameTail s = Some n -> String.length s = n.
Proof.
  revert n. induction s as [|c s IH]; intros n; cbn [usernameTail String.length].
  - intros [= <-]. reflexivity.
  - destruct (isAlnum c).
    + destruct (usernameTail s) as [m|]; [|discriminate].
      intros [= <-]. f_equal. apply IH. reflexivity.
    + destruct (_ || _)%bool; [|discriminate].
      destruct s as [|d s']; [discriminate|].
      destruct (isAlnum d); [|discriminate].
      destruct (usernameTail (String d s')) as [m|]; [|discriminate].
      intros [= <-]. f_equal. apply IH. reflexivity.
Qed.

Lemma USERNAME_REGEX_length u :
  USERNAME_REGEX u = true ->
  (MIN_USERNAME_LENGTH <= String.length u <= MAX_USERNAME_LENGTH)%nat.
Proof.
  unfold USERNAME_REGEX, MIN_USERNAME_LENGTH, MAX_USERNAME_LENGTH.
  destruct u as [|c r]; [discriminate|].
  destruct (isLetter c); [|discriminate]. cbn [andb String.length].
  destruct (usernameTail r) as [n|] eqn:Ht; [|discriminate].
  apply usernameTail_length in Ht. rewrite Ht.
  intros H. apply andb_true_iff in H as [H1 H2].
  apply Nat.leb_le in H1. apply Nat.leb_le in H2. lia.
Qed.

Lemma validateIds_ok username roomId st :
  USERNAME_REGEX username = true -> ROOM_ID_REGEX roomId = true ->
  validateIds username roomId st = (Ok None, st).
Proof.
  intros Hu Hr. unfold validateIds, assertValidUsername, assertValidRoomId, tryCatch.
  rewrite Hu, Hr. reflexivity.
Qed.

(** Keys under different prefixes are different keys. *)
Ltac key_neq :=
  let H := fresh in
  intros H;
  cbv [roomKeyOf messagesKeyOf userKeyOf presenceKeyOf shortKeyOf longKeyOf
       lastSentKeyOf CHAT_ROOM_PREFIX CHAT_MESSAGES_PREFIX CHAT_USERS_PREFIX
       CHAT_ROOM_PRESENCE_PREFIX CHAT_BURST_PREFIX CHAT_ROOM_USERS_PREFIX
       AUTH_TOKEN_PREFIX RATE_LIMIT_PREFIX String.append] in H;
  discriminate H.

Lemma room_ne_user r u : roomKeyOf r <> userKeyOf u. Proof. key_neq. Qed.
Lemma room_ne_messages r r' : roomKeyOf r <> messagesKeyOf r'. Proof. key_neq. Qed.
Lemma room_ne_presence r r' u : roomKeyOf r <> presenceKeyOf r' u. Proof. key_neq. Qed.
Lemma room_ne_short r r' u : roomKeyOf r <> shortKeyOf r' u. Proof. key_neq. Qed.
Lemma room_ne_long r r' u : roomKeyOf r <> longKeyOf r' u. Proof. key_neq. Qed.
Lemma room_ne_last r r' u : roomKeyOf r <> lastSentKeyOf r' u. Proof. key_neq. Qed.
Lemma user_ne_messages u r : userKeyOf u <> messagesKeyOf r. Proof. key_neq. Qed.
Lemma user_ne_presence u r u' : userKeyOf u <> presenceKeyOf r u'. Proof. key_neq. Qed.
Lemma user_ne_short u r u' : userKeyOf u <> shortKeyOf r u'. Proof. key_neq. Qed.
Lemma user_ne_long u r u' : userKeyOf u <> longKeyOf r u'. Proof. key_neq. Qed.
Lemma user_ne_last u r u' : userKeyOf u <> lastSentKeyOf r u'. Proof. key_neq. Qed.
Lemma messages_ne_presence r r' u : messagesKeyOf r <> presenceKeyOf r' u. Proof. key_neq. Qed.
Lemma messages_ne_short r r' u : messagesKeyOf r <> shortKeyOf r' u. Proof. key_neq. Qed.
Lemma messages_ne_long r r' u : messagesKeyOf r <> longKeyOf r' u. Proof. key_neq. Qed.
Lemma messages_ne_last r r' u : messagesKeyOf r <> lastSentKeyOf r' u. Proof. key_neq. Qed.
Lemma presence_ne_short r u r' u' : presenceKeyOf r u <> shortKeyOf r' u'. Proof. key_neq. Qed.
Lemma presence_ne_long r u r' u' : presenceKeyOf r u <> longKeyOf r' u'. Proof. key_neq. Qed.
Lemma presence_ne_last r u r' u' : presenceKeyOf r u <> lastSentKeyOf r' u'. Proof. key_neq. Qed.
Lemma short_ne_long r u r' u' : shortKeyOf r u <> longKeyOf r' u'. Proof. key_neq. Qed.
Lemma short_ne_last r u r' u' : shortKeyOf r u <> lastSentKeyOf r' u'. Proof. key_neq. Qed.
Lemma long_ne_last r u r' u' : longKeyOf r u <> lastSentKeyOf r' u'. Proof. key_neq. Qed.

Create HintDb keys discriminated.
#[export] Hint Resolve room_ne_user room_ne_messages room_ne_presence room_ne_short
  room_ne_long room_ne_last user_ne_messages user_ne_presence user_ne_short
  user_ne_long user_ne_last messages_ne_presence messages_ne_short messages_ne_long
  messages_ne_last presence_ne_short presence_ne_long presence_ne_last
  short_ne_long short_ne_last long_ne_last : keys.
#[export] Hint Extern 2 (_ <> _) => apply not_eq_sym : keys.

(** The key is none of the keys of a footprint. *)
Ltac not_key :=
  let H := fresh in
  intros H; repeat (destruct H as [H|H]); revert H;
  match goal with |- ?a = ?b -> _ => change (a <> b) end;
  auto with keys.

(** ** Sending a message *)

Section Send.
Variable isProfane : string -> bool.

Lemma ensureUserOrFail_run u st :
  noFaults st -> USERNAME_REGEX u = true -> isProfane u = false ->
  userOrAbsent st (userKeyOf u) ->
  ensureUserOrFail isProfane u st
  = (Ok (inl (fst (ensuredUser st u))), snd (ensuredUser st u)).
Proof.
  intros Hnf Hre Hprof Huser.
  pose proof (USERNAME_REGEX_length u Hre) as [Hmin Hmax].
  unfold ensureUserOrFail, ensureUserExists, tryCatch.
  rewrite Hprof.
  destruct (Nat.ltb_spec (String.length u) MIN_USERNAME_LENGTH); [lia|].
  destruct (Nat.ltb_spec MAX_USERNAME_LENGTH (String.length u)); [lia|].
  rewrite Hre. cbn [negb]. fold (userKeyOf u).
  assert (Hplain : plainAt st (userKeyOf u)).
  { unfold plainAt. destruct Huser as [-> | [ud ->]]; exact I. }
  rewrite bind_bind, bind_get by assumption.
  unfold ensuredUser.
  destruct Huser as [Hl | [ud Hl]]; rewrite Hl.
  - unfold createUserRecord. fold (userKeyOf u).
    rewrite !bind_bind, bind_getCurrentTimestamp, bind_bind.
    rewrite bind_setnx by exact Hnf. rewrite Hl. reflexivity.
  - cbn [truthyValue parseUserData]. reflexivity.
Qed.

Lemma ensuredUser_facts u st :
  noFaults st ->
  noFaults (snd (ensuredUser st u))
  /\ now (snd (ensuredUser st u)) = now st
  /\ (exists ud, Redis.lookupLive (snd (ensuredUser st u)) (userKeyOf u) = Some (VUser ud))
  /\ (forall k, k <> userKeyOf u -> kv (snd (ensuredUser st u)) !! k = kv st !! k).
Proof.
  intros Hnf. unfold ensuredUser.
  destruct (Redis.lookupLive st (userKeyOf u)) as [[]|] eqn:Hl; cbn [snd].
  all: split; [exact Hnf|]; split; [reflexivity|]; split.
  all: try (eexists; exact Hl).
  all: try (intros k Hk; reflexivity).
  all: try (eexists; apply (lookupLive_putEntry_eq (userKeyOf u)
              (mkEntry (VUser (User.mk u (now st))) None)); reflexivity).
  all: intros k Hk; unfold putEntry, setKv; cbn [kv];
       apply lookup_insert_ne; auto.
Qed.

Lemma bind_ok {A B} (m : M A) (k : A -> M B) st a st1 :
  m st = (Ok a, st1) -> bind m k st = k a st1.
Proof. intros H. unfold bind. rewrite H. reflexivity. Qed.

Lemma swallow_ok m st : exists st', swallow m st = (Ok tt, st').
Proof.
  unfold swallow, tryCatch. destruct (m st) as [[[]|e] st1]; eexists; reflexivity.
Qed.

Lemma refreshRoomPresence_run r u st :
  noFaults st ->
  refreshRoomPresence r u st
  = (Ok tt, if isLiveKey st (presenceKeyOf r u)
            then touch (presenceKeyOf r u) ROOM_PRESENCE_TTL_SECONDS st else st).
Proof.
  intros Hnf. unfold refreshRoomPresence. fold (presenceKeyOf r u).
  rewrite bind_exists by exact Hnf.
  destruct (isLiveKey st (presenceKeyOf r u)) eqn:Hl; [|reflexivity].
  rewrite bind_expire by exact Hnf. reflexivity.
Qed.

(** The state once [n] random bytes have been drawn. *)
Lemma generateId_run {B} (k : string -> M B) st :
  exists st1 ident,
    bind generateId k st = k ident st1
    /\ kv st1 = kv st /\ now st1 = now st /\ faults st1 = faults st.
Proof.
  unfold generateId. eexists _, _. rewrite bind_bind.
  unfold bind at 1. unfold randomBytes. rewrite bind_ret.
  split; [reflexivity|]. cbn [kv now faults]. auto.
Qed.

(** The main block of handleSendMessage on a well-formed request. *)
Lemma sendMessageMain_run r u content st :
  noFaults st -> USERNAME_REGEX u = true -> isProfane u = false ->
  isLiveKey st (roomKeyOf r) = true ->
  userOrAbsent st (userKeyOf u) -> listOrAbsent st (messagesKeyOf r) ->
  let st2 := snd (ensuredUser st u) in
  ((MAX_MESSAGE_LENGTH < String.length content)%nat ->
     sendMessageMain isProfane r u content st = (Ok RESP_TOO_LONG, st2))
  /\ ((String.length content <= MAX_MESSAGE_LENGTH)%nat ->
      isDuplicate (messagesOf st r) u content = true ->
      sendMessageMain isProfane r u content st = (Ok RESP_DUPLICATE, st2))
  /\ ((String.length content <= MAX_MESSAGE_LENGTH)%nat ->
      isDuplicate (messagesOf st r) u content = false ->
      exists msg st',
        sendMessageMain isProfane r u content st = (Ok (mkResponse (BMessage msg) 201), st')
        /\ Message.username msg = u /\ Message.content msg = content
        /\ Message.roomId msg = r
        /\ noFaults st' /\ now st' = now st
        /\ Redis.lookupLive st' (messagesKeyOf r)
           = Some (VList (firstn 100 (msg :: messagesOf st r)))
        /\ (exists ud, Redis.lookupLive st' (userKeyOf u) = Some (VUser ud))
        /\ (forall k, k <> userKeyOf u -> k <> messagesKeyOf r ->
                      k <> presenceKeyOf r u -> kv st' !! k = kv st !! k)).
Proof.
  intros Hnf Hre Hprof Hroom Huser Hmsgs st2.
  pose proof (ensureUserOrFail_run u st Hnf Hre Hprof Huser) as Hens.
  destruct (ensuredUser_facts u st Hnf) as (Hnf2 & Hnow2 & (ud2 & Hud2) & Hframe2).
  fold st2 in Hens, Hnf2, Hnow2, Hud2, Hframe2.
  assert (Hmsg2 : Redis.lookupLive st2 (messagesKeyOf r)
                  = Redis.lookupLive st (messagesKeyOf r)).
  { apply lookupLive_frame; [exact Hnow2|]. apply Hframe2. auto with keys. }
  unfold sendMessageMain, tryCatch. fold (roomKeyOf r) (messagesKeyOf r) (userKeyOf u).
  rewrite bind_exists by exact Hnf. rewrite Hroom. cbn [negb].
  rewrite (bind_ok _ _ _ _ _ Hens).
  split; [|split].
  - intros Hlen. apply Nat.ltb_lt in Hlen. rewrite Hlen. reflexivity.
  - intros Hlen Hdup.
    destruct (Nat.ltb_spec MAX_MESSAGE_LENGTH (String.length content)); [lia|].
    unfold messagesOf in Hdup.
    destruct Hmsgs as [Hl | [l Hl]]; rewrite Hl in Hdup; [discriminate Hdup|].
    rewrite Hl in Hmsg2.
    rewrite bind_lrange_list with (l := l) by assumption.
    replace (isDuplicate (firstn 1 l) u content) with true; [reflexivity|].
    destruct l; [discriminate Hdup | exact (eq_sym Hdup)].
  - intros Hlen Hdup.
    destruct (Nat.ltb_spec MAX_MESSAGE_LENGTH (String.length content)); [lia|].
    set (l := messagesOf st r) in *.
    assert (Hnodup1 : isDuplicate (firstn 1 l) u content = false).
    { destruct l; [reflexivity | exact Hdup]. }
    assert (Hlr : forall B (k : list Message.t -> M B),
               bind (Redis.lrange (messagesKeyOf r) 0) k st2 = k (firstn 1 l) st2).
    { intros B k. subst l. unfold messagesOf.
      destruct Hmsgs as [Hl | [l Hl]]; rewrite Hl; rewrite Hl in Hmsg2.
      - apply bind_lrange_none; assumption.
      - apply bind_lrange_list; assumption. }
    rewrite Hlr, Hnodup1.
    match goal with
    | |- context [bind generateId ?k st2] =>
        destruct (generateId_run k st2) as (st3 & ident & Hgen & Hkv3 & Hnow3 & Hf3)
    end.
    match goal with
    | |- context [bind generateId ?k st2] =>
        destruct (generateId_run k st2) as (st3' & ident' & Hgen' & _)
    end.
    rewrite Hgen. clear Hgen'.
    assert (Hnf3 : noFaults st3) by (unfold noFaults; rewrite Hf3; exact Hnf2).
    rewrite bind_getCurrentTimestamp.
    set (msg := Message.mk ident r u content (now st3)).
    assert (Hmsg3 : Redis.lookupLive st3 (messagesKeyOf r)
                    = Redis.lookupLive st (messagesKeyOf r)).
    { rewrite <- Hmsg2. apply lookupLive_frame; [exact Hnow3 | rewrite Hkv3; reflexivity]. }
    (* lpush *)
    assert (Hpush : exists st4,
      (forall B (k : unit -> M B), bind (Redis.lpush (messagesKeyOf r) msg) k st3 = k tt st4)
      /\ noFaults st4 /\ now st4 = now st3
      /\ Redis.lookupLive st4 (messagesKeyOf r) = Some (VList (msg :: l))
      /\ (forall k, k <> messagesKeyOf r -> kv st4 !! k = kv st3 !! k)).
    { subst l. unfold messagesOf.
      destruct Hmsgs as [Hl | [l Hl]]; rewrite Hl; rewrite Hl in Hmsg3.
      - eexists. split; [intros B k; apply bind_lpush_none; assumption|].
        split; [exact Hnf3|]. split; [reflexivity|].
        split; [apply (lookupLive_putEntry_eq _ (mkEntry (VList [msg]) None)); reflexivity|].
        intros k Hk. unfold putEntry, setKv. cbn [kv]. apply lookup_insert_ne. auto.
      - exists (putEntry (messagesKeyOf r)
                  (mkEntry (VList (msg :: l)) (Redis.expiryOf st3 (messagesKeyOf r))) st3).
        split; [intros B k; apply bind_lpush_list; assumption|].
        split; [exact Hnf3|]. split; [reflexivity|].
        split.
        + apply (lookupLive_putEntry_eq _ (mkEntry (VList (msg :: l)) _)).
          eapply isLive_expiryOf. exact Hmsg3.
        + intros k Hk. unfold putEntry, setKv. cbn [kv]. apply lookup_insert_ne. auto. }
    destruct Hpush as (st4 & Hpush & Hnf4 & Hnow4 & Hl4 & Hframe4).
    rewrite Hpush.
    rewrite bind_ltrim_list with (l := msg :: l) by assumption.
    set (st5 := putEntry (messagesKeyOf r) _ st4).
    rewrite bind_getCurrentTimestamp.
    rewrite bind_set by (subst st5; auto with nf).
    rewrite bind_expire by (subst st5; auto with nf).
    set (st7 := touch (userKeyOf u) USER_EXPIRATION_TIME _).
    assert (Hnf7 : noFaults st7) by (subst st7 st5; auto with nf).
    unfold bind at 1. rewrite refreshRoomPresence_run by exact Hnf7.
    set (st8 := if isLiveKey st7 (presenceKeyOf r u) then _ else st7).
    unfold bind at 1.
    match goal with
    | |- context [swallow ?m st8] =>
        destruct (swallow_ok m st8) as (st9 & Hsw);
        assert (Hfoot : touchesOnly (swallow m) (fun _ => False))
    end.
    { unfold swallow. footprint. apply touches_fanOutToPrivateMembers. }
    rewrite Hsw. cbn [ret].
    destruct (Hfoot _ _ _ Hsw) as (Hnow9 & Hnf9 & Hkv9).
    exists msg, st9. split; [reflexivity|].
    split; [reflexivity|]. split; [reflexivity|]. split; [reflexivity|].
    assert (Hnf8 : noFaults st8).
    { subst st8. destruct (isLiveKey st7 (presenceKeyOf r u));
        [apply noFaults_touch; exact Hnf7 | exact Hnf7]. }
    assert (Hnow8 : now st8 = now st7).
    { subst st8. destruct (isLiveKey st7 (presenceKeyOf r u));
        [apply now_touch | reflexivity]. }
    assert (Hnow7 : now st7 = now st).
    { subst st7. rewrite now_touch. cbn [now put setKv]. subst st5.
      cbn [now putEntry setKv]. congruence. }
    split; [auto|]. split; [congruence|].
    assert (Hl9 : forall k, Redis.lookupLive st9 k = Redis.lookupLive st8 k).
    { intros k. apply lookupLive_frame; [exact Hnow9 | apply Hkv9; tauto]. }
    split; [|split].
    + rewrite Hl9. subst st8.
      transitivity (Redis.lookupLive st7 (messagesKeyOf r)).
      { destruct (isLiveKey st7 (presenceKeyOf r u)); [|reflexivity].
        apply lookupLive_touch_ne. auto with keys. }
      subst st7. rewrite lookupLive_touch_ne by auto with keys.
      rewrite lookupLive_put_ne by auto with keys.
      subst st5. apply (lookupLive_putEntry_eq _ (mkEntry (VList (firstn 100 (msg :: l))) _)).
      eapply isLive_expiryOf. exact Hl4.
    + rewrite Hl9. subst st8.
      assert (H7 : exists ud, Redis.lookupLive st7 (userKeyOf u) = Some (VUser ud)).
      { subst st7. rewrite lookupLive_touch_eq by (unfold USER_EXPIRATION_TIME; lia).
        eexists. apply lookupLive_put_eq. intros s Hs; discriminate Hs. }
      destruct H7 as (ud & H7). exists ud. rewrite <- H7.
      destruct (isLiveKey st7 (presenceKeyOf r u)); [|reflexivity].
      apply lookupLive_touch_ne. auto with keys.
    + intros k Hk1 Hk2 Hk3. rewrite Hkv9 by tauto.
      assert (H8 : kv st8 !! k = kv st7 !! k).
      { subst st8. destruct (isLiveKey st7 (presenceKeyOf r u)); [|reflexivity].
        unfold touch. destruct (Redis.lookupLive st7 (presenceKeyOf r u)); [|reflexivity].
        unfold setKv. cbn [kv]. apply lookup_insert_ne. auto. }
      rewrite H8. subst st7.
      assert (H7 : forall s, kv (touch (userKeyOf u) USER_EXPIRATION_TIME s) !! k = kv s !! k).
      { intros s. unfold touch. destruct (Redis.lookupLive s (userKeyOf u)); [|reflexivity].
        unfold setKv. cbn [kv]. apply lookup_insert_ne. auto. }
      rewrite H7. unfold put, setKv. cbn [kv]. rewrite lookup_insert_ne by auto.
      subst st5. unfold putEntry, setKv. cbn [kv]. rewrite lookup_insert_ne by auto.
      rewrite Hframe4 by auto. rewrite Hkv3. apply Hframe2. auto.
Qed.

Lemma burstLimit_private r u st :
  noFaults st -> privateRoomAt st r -> burstLimit r u st = (Ok None, st).
Proof.
  intros Hnf (room & Hl & Hty). unfold burstLimit, tryCatch. fold (roomKeyOf r).
  rewrite bind_get by (try exact Hnf; unfold plainAt; rewrite Hl; exact I).
  rewrite Hl. cbn [truthyValue negb isPublicRoomValue]. rewrite Hty. reflexivity.
Qed.

Lemma burstLimit_total r u st : exists o st1, burstLimit r u st = (Ok o, st1).
Proof.
  unfold burstLimit, tryCatch.
  match goal with
  | |- context [match ?m st with _ => _ end] => destruct (m st) as [[o|e] st1]
  end; eauto.
Qed.

(** The burst limiter leaves everything but its three counters alone. *)
Lemma sendReady_after_burstLimit r u st res st1 :
  sendReady isProfane st r u ->
  burstLimit r u st = (res, st1) ->
  sendReady isProfane st1 r u
  /\ now st1 = now st
  /\ messagesOf st1 r = messagesOf st r
  /\ (forall k, k <> shortKeyOf r u -> k <> longKeyOf r u -> k <> lastSentKeyOf r u ->
        kv st1 !! k = kv st !! k).
Proof.
  intros (Hnf & Hre & Hrid & Hprof & Hroom & Huser & Hmsgs) Hrun.
  pose proof (touches_burstLimit
                (fun k => k = shortKeyOf r u \/ k = longKeyOf r u \/ k = lastSentKeyOf r u)
                r u (or_introl eq_refl) (or_intror (or_introl eq_refl))
                (or_intror (or_intror eq_refl)) _ _ _ Hrun) as (Hnow & Hnf1 & Hframe).
  assert (Hsame : forall k, k <> shortKeyOf r u -> k <> longKeyOf r u ->
                            k <> lastSentKeyOf r u ->
                            Redis.lookupLive st1 k = Redis.lookupLive st k).
  { intros k H1 H2 H3. apply lookupLive_frame; [exact Hnow|]. apply Hframe. tauto. }
  assert (Hmk : Redis.lookupLive st1 (messagesKeyOf r) = Redis.lookupLive st (messagesKeyOf r))
    by (apply Hsame; auto with keys).
  assert (Huk : Redis.lookupLive st1 (userKeyOf u) = Redis.lookupLive st (userKeyOf u))
    by (apply Hsame; auto with keys).
  assert (Hrk : Redis.lookupLive st1 (roomKeyOf r) = Redis.lookupLive st (roomKeyOf r))
    by (apply Hsame; auto with keys).
  split; [|split; [exact Hnow | split]].
  - unfold sendReady, isLiveKey, userOrAbsent, listOrAbsent in *.
    rewrite Hmk, Huk, Hrk. auto 10.
  - unfold messagesOf. rewrite Hmk. reflexivity.
  - intros k H1 H2 H3. apply Hframe. tauto.
Qed.

(** handleSendMessage on a well-formed request: the burst limiter, then
    the main block on the sanitized content. *)
Lemma handleSendMessage_gate (clean : string -> string) (data : SendMessageBody) st :
  let r := sm_roomId data in
  let u := toLowerCase (sm_username data) in
  USERNAME_REGEX u = true -> ROOM_ID_REGEX r = true ->
  truthy (sm_content data) = true ->
  handleSendMessage clean isProfane data st
  = match burstLimit r u st with
    | (Ok (Some resp), st1) => (Ok resp, st1)
    | (Ok None, st1) =>
        sendMessageMain isProfane r u (sanitizeContent clean (sm_content data)) st1
    | (Throw e, st1) => (Throw e, st1)
    end.
Proof.
  intros r u Hre Hrid Hc. unfold handleSendMessage. fold r u.
  rewrite (bind_ok _ _ _ _ _ (validateIds_ok u r st Hre Hrid)).
  rewrite Hc. cbn [negb]. unfold bind.
  destruct (burstLimit r u st) as [[[resp|]|e] st1]; reflexivity.
Qed.

End Send.

Lemma append_cons c a b : String c a +:+ b = String c (a +:+ b).
Proof. reflexivity. Qed.

Lemma append_nil_l b : EmptyString +:+ b = b.
Proof. reflexivity. Qed.

Lemma append_nil_r a : a +:+ EmptyString = a.
Proof. induction a as [|c a IH]; [reflexivity|]. rewrite append_cons, IH. reflexivity. Qed.

Lemma append_assoc_str a b c : (a +:+ b) +:+ c = a +:+ (b +:+ c).
Proof.
  induction a as [|x a IH]; [reflexivity|]. rewrite !append_cons, IH. reflexivity.
Qed.

Lemma length_app_str a b : String.length (a +:+ b) = (String.length a + String.length b)%nat.
Proof.
  induction a as [|c a IH]; [reflexivity|].
  rewrite append_cons. cbn [String.length]. rewrite IH. reflexivity.
Qed.

Lemma escapeHTML_app a b : escapeHTML (a +:+ b) = escapeHTML a +:+ escapeHTML b.
Proof.
  induction a as [|c a IH]; [reflexivity|].
  rewrite append_cons. cbn [escapeHTML]. rewrite IH, append_assoc_str. reflexivity.
Qed.

Section SendTheorems.
Variable clean : string -> string.
Variable isProfane : string -> bool.

Lemma ampersandUrl_sanitized :
  String.length ampersandUrl = 1000%nat
  /\ (MAX_MESSAGE_LENGTH < String.length (sanitizeContent clean ampersandUrl))%nat.
Proof.
  split; [vm_compute; reflexivity|].
  assert (Hms : urlMatches ampersandUrl = [mkUrlMatch ampersandUrl 0 1000])
    by (vm_compute; reflexivity).
  assert (Hlen : String.length ampersandUrl = 1000%nat) by (vm_compute; reflexivity).
  assert (Hesc : String.length (escapeHTML ampersandUrl) = 4964%nat)
    by (vm_compute; reflexivity).
  unfold sanitizeContent, filterProfanityPreservingUrls.
  rewrite Hms. cbn [filterLoop url start end_]. rewrite Hlen.
  replace (1000 <? 1000)%nat with false by reflexivity.
  rewrite !escapeHTML_app, !length_app_str, Hesc.
  unfold MAX_MESSAGE_LENGTH. lia.
Qed.

(** One request in a room whose burst limiter lets it through. *)
Lemma handleSendMessage_accepted (data : SendMessageBody) st st1 :
  let r := sm_roomId data in
  let u := toLowerCase (sm_username data) in
  let content := sanitizeContent clean (sm_content data) in
  sendReady isProfane st r u ->
  truthy (sm_content data) = true ->
  burstLimit r u st = (Ok None, st1) ->
  handleSendMessage clean isProfane data st = sendMessageMain isProfane r u content st1
  /\ sendReady isProfane st1 r u
  /\ now st1 = now st
  /\ messagesOf st1 r = messagesOf st r.
Proof.
  intros r u content Hready Hc Hgate.
  destruct (sendReady_after_burstLimit isProfane r u st _ st1 Hready Hgate)
    as (Hready1 & Hnow & Hmsgs & _).
  destruct Hready as (_ & Hre & Hrid & _).
  split; [|auto].
  rewrite (handleSendMessage_gate isProfane clean) by assumption. fold r u. rewrite Hgate. reflexivity.
Qed.

(** C9. The length check of handleSendMessage reads the sanitized
    content. For a request that reaches it, the answer is the 400
    length error exactly when the sanitized content is longer than
    MAX_MESSAGE_LENGTH, whatever the length of the raw content, and
    then nothing is stored; and there is a raw message of 1000
    characters whose sanitized form is too long. *)
Theorem length_limit_on_sanitized (data : SendMessageBody) (st st1 : State) :
  let r := sm_roomId data in
  let u := toLowerCase (sm_username data) in
  let content := sanitizeContent clean (sm_content data) in
  sendReady isProfane st r u ->
  truthy (sm_content data) = true ->
  burstLimit r u st = (Ok None, st1) ->
  (fst (handleSendMessage clean isProfane data st) = Ok RESP_TOO_LONG
   <-> (MAX_MESSAGE_LENGTH < String.length content)%nat)
  /\ ((MAX_MESSAGE_LENGTH < String.length content)%nat ->
      messagesOf (snd (handleSendMessage clean isProfane data st)) r = messagesOf st r)
  /\ (exists raw,
        (String.length raw <= MAX_MESSAGE_LENGTH)%nat
        /\ (MAX_MESSAGE_LENGTH < String.length (sanitizeContent clean raw))%nat).
Proof.
  intros r u content Hready Hc Hgate.
  destruct (handleSendMessage_accepted data st st1 Hready Hc Hgate)
    as (Hrun & Hready1 & Hnow1 & Hmsgs1).
  fold r u content in Hrun, Hready1, Hmsgs1. rewrite Hrun.
  destruct Hready1 as (Hnf & Hre & Hrid & Hprof & Hroom & Huser & Hlist).
  destruct (sendMessageMain_run isProfane r u content st1 Hnf Hre Hprof Hroom Huser Hlist)
    as (Hlong & Hdup & Hok).
  destruct (ensuredUser_facts u st1 Hnf) as (_ & Hnow2 & _ & Hframe2).
  split; [|split].
  - destruct (Nat.ltb_spec MAX_MESSAGE_LENGTH (String.length content)) as [Hlt|Hle].
    + rewrite Hlong by exact Hlt. cbn [fst]. tauto.
    + split; [|lia]. intros Hres. exfalso.
      destruct (isDuplicate (messagesOf st1 r) u content) eqn:Hd.
      * rewrite (Hdup Hle eq_refl) in Hres. discriminate Hres.
      * destruct (Hok Hle eq_refl) as (msg & st' & Hrun' & _).
        rewrite Hrun' in Hres. discriminate Hres.
  - intros Hlt. rewrite Hlong by exact Hlt. cbn [snd].
    rewrite <- Hmsgs1. unfold messagesOf.
    rewrite (lookupLive_frame st1 (snd (ensuredUser st1 u))); [reflexivity | exact Hnow2 |].
    apply Hframe2. apply not_eq_sym. auto with keys.
  - exists ampersandUrl. destruct ampersandUrl_sanitized as [H1 H2].
    split; [rewrite H1; unfold MAX_MESSAGE_LENGTH; lia | exact H2].
Qed.

Lemma firstn_100_cons (msg : Message.t) l : firstn 100 (msg :: l) = msg :: firstn 99 l.
Proof. reflexivity. Qed.

(** One request in a private room. *)
Lemma send_private_step (data : SendMessageBody) st :
  let r := sm_roomId data in
  let u := toLowerCase (sm_username data) in
  let content := sanitizeContent clean (sm_content data) in
  sendReady isProfane st r u -> privateRoomAt st r ->
  truthy (sm_content data) = true ->
  (String.length content <= MAX_MESSAGE_LENGTH)%nat ->
  exists resp st',
    handleSendMessage clean isProfane data st = (Ok resp, st')
    /\ sendReady isProfane st' r u /\ privateRoomAt st' r /\ now st' = now st
    /\ (forall k, k <> userKeyOf u -> k <> messagesKeyOf r -> k <> presenceKeyOf r u ->
          kv st' !! k = kv st !! k)
    /\ (isDuplicate (messagesOf st r) u content = true ->
        resp = RESP_DUPLICATE /\ messagesOf st' r = messagesOf st r)
    /\ (isDuplicate (messagesOf st r) u content = false ->
        exists msg, resp = mkResponse (BMessage msg) 201
                    /\ Message.username msg = u /\ Message.content msg = content
                    /\ messagesOf st' r = msg :: firstn 99 (messagesOf st r)).
Proof.
  intros r u content Hready Hpriv Hc Hlen.
  pose proof Hready as (Hnf & Hre & Hrid & Hprof & Hroom & Huser & Hlist).
  pose proof (burstLimit_private r u st Hnf Hpriv) as Hgate.
  destruct (handleSendMessage_accepted data st st Hready Hc Hgate) as (Hrun & _).
  fold r u content in Hrun. rewrite Hrun.
  destruct (sendMessageMain_run isProfane r u content st Hnf Hre Hprof Hroom Huser Hlist)
    as (_ & Hdup & Hok).
  assert (Hpost : forall st', noFaults st' -> now st' = now st ->
            (exists ud, Redis.lookupLive st' (userKeyOf u) = Some (VUser ud)) ->
            listOrAbsent st' (messagesKeyOf r) ->
            kv st' !! roomKeyOf r = kv st !! roomKeyOf r ->
            sendReady isProfane st' r u /\ privateRoomAt st' r).
  { intros st' Hnf' Hnow' Hud' Hl' Hk'.
    assert (Hrk : Redis.lookupLive st' (roomKeyOf r) = Redis.lookupLive st (roomKeyOf r))
      by (apply lookupLive_frame; assumption).
    split.
    - unfold sendReady, isLiveKey, userOrAbsent. rewrite Hrk. auto 10.
    - unfold privateRoomAt. rewrite Hrk. exact Hpriv. }
  destruct (isDuplicate (messagesOf st r) u content) eqn:Hd.
  - specialize (Hdup Hlen eq_refl). rewrite Hdup.
    destruct (ensuredUser_facts u st Hnf) as (Hnf2 & Hnow2 & Hud2 & Hframe2).
    assert (Hmk : Redis.lookupLive (snd (ensuredUser st u)) (messagesKeyOf r)
                  = Redis.lookupLive st (messagesKeyOf r)).
    { apply lookupLive_frame; [exact Hnow2|]. apply Hframe2. auto with keys. }
    eexists _, _. split; [reflexivity|].
    assert (Hl2 : listOrAbsent (snd (ensuredUser st u)) (messagesKeyOf r))
      by (unfold listOrAbsent; rewrite Hmk; exact Hlist).
    assert (Hk2 : kv (snd (ensuredUser st u)) !! roomKeyOf r = kv st !! roomKeyOf r)
      by (apply Hframe2; auto with keys).
    destruct (Hpost _ Hnf2 Hnow2 Hud2 Hl2 Hk2) as (H1 & H2).
    split; [exact H1|]. split; [exact H2|]. split; [exact Hnow2|].
    split; [intros k Hk _ _; apply Hframe2; exact Hk|].
    split; [|discriminate].
    intros _. split; [reflexivity|]. unfold messagesOf. rewrite Hmk. reflexivity.
  - destruct (Hok Hlen eq_refl)
      as (msg & st' & Hrun' & Hmu & Hmc & _ & Hnf' & Hnow' & Hl' & Hud' & Hframe').
    rewrite Hrun'. exists (mkResponse (BMessage msg) 201), st'. split; [reflexivity|].
    assert (Hl2 : listOrAbsent st' (messagesKeyOf r)) by (right; eexists; exact Hl').
    assert (Hk2 : kv st' !! roomKeyOf r = kv st !! roomKeyOf r)
      by (apply Hframe'; auto with keys).
    destruct (Hpost _ Hnf' Hnow' Hud' Hl2 Hk2) as (H1 & H2).
    split; [exact H1|]. split; [exact H2|]. split; [exact Hnow'|].
    split; [exact Hframe'|].
    split; [discriminate|].
    intros _. exists msg. split; [reflexivity|]. split; [exact Hmu|]. split; [exact Hmc|].
    unfold messagesOf at 1. rewrite Hl'. apply firstn_100_cons.
Qed.

Lemma isDuplicate_head msg l u content :
  isDuplicate (msg :: l) u content
  = String.eqb (Message.username msg) u && String.eqb (Message.content msg) content.
Proof. reflexivity. Qed.

End SendTheorems.

Section DuplicateTheorem.
Variable clean : string -> string.
Variable isProfane : string -> bool.


End DuplicateTheorem.

(** ** Sanitization *)

Lemma drop_app_length A rest : drop (String.length A) (A +:+ rest) = rest.
Proof. induction A as [|c A IH]; [reflexivity|]. rewrite append_cons. exact IH. Qed.

Lemma take_app_length t rest : take (String.length t) (t +:+ rest) = t.
Proof.
  induction t as [|c t IH]; [reflexivity|].
  rewrite append_cons. cbn [String.length take]. rewrite IH. reflexivity.
Qed.

Lemma substring_mid A t rest :
  substring (String.length A) (String.length A + String.length t) (A +:+ t +:+ rest) = t.
Proof.
  unfold substring. rewrite drop_app_length.
  replace (String.length A + String.length t - String.length A)%nat
    with (String.length t) by lia.
  apply take_app_length.
Qed.

Lemma joinSegments_segScan s : forall text cur,
  joinSegments (segScan s text cur) = text +:+ curText cur +:+ s.
Proof.
  unfold joinSegments.
  induction s as [|c r IH]; intros text cur; cbn [segScan].
  - destruct cur as [acc|]; cbn [List.map JsString.concat curText].
    + reflexivity.
    + destruct text; cbn [truthy List.map JsString.concat];
        rewrite ?append_nil_l, ?append_nil_r; reflexivity.
  - destruct cur as [acc|]; cbn [curText].
    + destruct (isSpace c).
      * cbn [List.map JsString.concat]. rewrite IH. reflexivity.
      * rewrite IH. cbn [curText]. rewrite append_assoc_str. reflexivity.
    + destruct (urlStartsAt (String c r)).
      * rewrite IH. reflexivity.
      * rewrite IH. cbn [curText]. rewrite append_nil_l, append_assoc_str. reflexivity.
Qed.

Lemma urlsOf_Text t l : urlsOf (Text t :: l) = urlsOf l.
Proof. reflexivity. Qed.

Lemma urlsOf_Url u l : urlsOf (Url u :: l) = u :: urlsOf l.
Proof. reflexivity. Qed.

Lemma urlsOf_segScan s : forall text cur pos st,
  urlsOf (segScan s text cur)
  = List.map url (urlScan s pos (option_map (fun acc => (st, acc)) cur)).
Proof.
  induction s as [|c r IH]; intros text cur pos st; cbn [segScan urlScan].
  - destruct cur as [acc|]; cbn [option_map]; [reflexivity|].
    destruct (truthy text); reflexivity.
  - destruct cur as [acc|]; cbn [option_map].
    + destruct (isSpace c).
      * cbn [List.map url]. rewrite urlsOf_Text, urlsOf_Url. f_equal.
        apply (IH _ None (S pos) 0%nat).
      * apply (IH text (Some (acc +:+ String c EmptyString)) (S pos) st).
    + destruct (urlStartsAt (String c r)).
      * apply (IH text (Some (String c EmptyString)) (S pos) pos).
      * apply (IH _ None (S pos) st).
Qed.

Section Filter.
Variable clean : string -> string.

Lemma filterLoop_segScan content s : forall A text cur result,
  content = A +:+ text +:+ curText cur +:+ s ->
  finalize clean content
    (filterLoop clean content
       (urlScan s (String.length A + String.length text + String.length (curText cur))
          (option_map (fun acc => ((String.length A + String.length text)%nat, acc)) cur))
       result (String.length A))
  = result +:+ render clean (segScan s text cur).
Proof.
  induction s as [|c r IH]; intros A text cur result Hc.
  - destruct cur as [acc|]; cbn [curText option_map urlScan segScan] in *.
    + assert (Hsub : substring (String.length A) (String.length A + String.length text)
                       content = text) by (rewrite Hc; apply substring_mid).
      cbn [filterLoop url start end_ finalize]. rewrite Hsub.
      assert (Hlen : String.length content
                     = (String.length A + String.length text + String.length acc)%nat).
      { rewrite Hc, !length_app_str. cbn [String.length]. lia. }
      rewrite Hlen, Nat.ltb_irrefl.
      unfold render. cbn [List.map JsString.concat].
      rewrite append_nil_r, !append_assoc_str. reflexivity.
    + cbn [filterLoop finalize].
      assert (Hlen : String.length content = (String.length A + String.length text)%nat).
      { rewrite Hc, !length_app_str. cbn [String.length]. lia. }
      rewrite Hlen.
      destruct text as [|x text]; cbn [truthy].
      * cbn [String.length]. rewrite Nat.add_0_r, Nat.ltb_irrefl.
        unfold render. cbn [List.map JsString.concat]. rewrite append_nil_r. reflexivity.
      * destruct (Nat.ltb_spec (String.length A)
                    (String.length A + String.length (String x text))) as [_|Hge];
          [|cbn [String.length] in Hge; lia].
        unfold substringFrom. rewrite Hc, drop_app_length.
        rewrite !append_nil_r. unfold render. cbn [List.map JsString.concat].
        rewrite append_nil_r. reflexivity.
  - destruct cur as [acc|]; cbn [curText option_map urlScan segScan] in *.
    + destruct (isSpace c).
      * assert (Hsub : substring (String.length A) (String.length A + String.length text)
                         content = text) by (rewrite Hc; apply substring_mid).
        cbn [filterLoop url start end_]. rewrite Hsub.
        unfold render. cbn [List.map JsString.concat]. fold (render clean).
        specialize (IH (A +:+ text +:+ acc) (String c EmptyString) None
                       ((result +:+ clean text) +:+ acc)).
        cbn [curText option_map] in IH.
        rewrite !length_app_str in IH. cbn [String.length] in IH.
        replace (String.length A + (String.length text + String.length acc) + 1 + 0)%nat
          with (S (String.length A + String.length text + String.length acc)) in IH by lia.
        replace (String.length A + (String.length text + String.length acc))%nat
          with (String.length A + String.length text + String.length acc)%nat in IH by lia.
        rewrite IH.
        -- rewrite !append_assoc_str. reflexivity.
        -- rewrite Hc, !append_assoc_str, append_nil_l. reflexivity.
      * specialize (IH A text (Some (acc +:+ String c EmptyString)) result).
        cbn [curText option_map] in IH.
        rewrite !length_app_str in IH. cbn [String.length] in IH.
        replace (String.length A + String.length text + (String.length acc + 1))%nat
          with (S (String.length A + String.length text + String.length acc)) in IH by lia.
        apply IH. rewrite Hc, !append_assoc_str. reflexivity.
    + rewrite Nat.add_0_r.
      destruct (urlStartsAt (String c r)).
      * specialize (IH A text (Some (String c EmptyString)) result).
        cbn [curText option_map String.length] in IH.
        replace (String.length A + String.length text + 1)%nat
          with (S (String.length A + String.length text)) in IH by lia.
        apply IH. rewrite Hc, append_nil_l. reflexivity.
      * specialize (IH A (text +:+ String c EmptyString) None result).
        cbn [curText option_map String.length] in IH.
        rewrite !length_app_str in IH. cbn [String.length] in IH.
        replace (String.length A + (String.length text + 1) + 0)%nat
          with (S (String.length A + String.length text)) in IH by lia.
        apply IH. rewrite Hc, !append_nil_l, !append_assoc_str. reflexivity.
Qed.

(** The filter of the source is the segment-wise filter of the
    specification. *)
Lemma filterProfanityPreservingUrls_segments content :
  filterProfanityPreservingUrls clean content = render clean (segmentsOf content).
Proof.
  unfold filterProfanityPreservingUrls, segmentsOf, urlMatches.
  rewrite (urlsOf_segScan content EmptyString None 0 0). cbn [option_map].
  pose proof (filterLoop_segScan content content EmptyString EmptyString None EmptyString
                eq_refl) as H.
  cbn [curText option_map String.length Nat.add] in H.
  rewrite append_nil_l in H.
  destruct (urlScan content 0 None) as [|m ms] eqn:Hms.
  - cbn [List.map]. unfold render. cbn [List.map JsString.concat].
    rewrite append_nil_r. reflexivity.
  - cbn [List.map]. rewrite <- H. unfold finalize.
    destruct (filterLoop clean content (m :: ms) EmptyString 0). reflexivity.
Qed.

Lemma joinSegments_segmentsOf content : joinSegments (segmentsOf content) = content.
Proof.
  unfold segmentsOf.
  destruct (urlsOf (segScan content EmptyString None)).
  - unfold joinSegments. cbn [List.map JsString.concat]. apply append_nil_r.
  - rewrite joinSegments_segScan. reflexivity.
Qed.

Lemma urlsOf_segmentsOf content : urlsOf (segmentsOf content) = List.map url (urlMatches content).
Proof.
  unfold segmentsOf, urlMatches.
  pose proof (urlsOf_segScan content EmptyString None 0 0) as H. cbn [option_map] in H.
  destruct (urlsOf (segScan content EmptyString None)) eqn:Hu.
  - rewrite <- H. reflexivity.
  - rewrite Hu. exact H.
Qed.

End Filter.

Lemma escapeChar_no_markup c : forallb (fun d => negb (isMarkupChar d)) (escapeChar c) = true.
Proof. destruct c as [[] [] [] [] [] [] [] []]; reflexivity. Qed.

Lemma forallb_app p a b : forallb p (a +:+ b) = forallb p a && forallb p b.
Proof.
  induction a as [|c a IH]; [reflexivity|].
  rewrite append_cons. cbn [forallb]. rewrite IH. apply andb_assoc.
Qed.

(** Nothing that opens a tag or closes an attribute survives. *)
Lemma escapeHTML_no_markup s : forallb (fun d => negb (isMarkupChar d)) (escapeHTML s) = true.
Proof.
  induction s as [|c s IH]; [reflexivity|].
  cbn [escapeHTML]. rewrite forallb_app, escapeChar_no_markup, IH. reflexivity.
Qed.

Section SanitizeTheorem.
Variable clean : string -> string.
Variable isProfane : string -> bool.

(** A message that is accepted and is not a duplicate is stored, with
    the sanitized content, at the head of the list of its room. *)
Lemma send_accepted_stores (data : SendMessageBody) st st1 :
  let r := sm_roomId data in
  let u := toLowerCase (sm_username data) in
  let content := sanitizeContent clean (sm_content data) in
  sendReady isProfane st r u ->
  truthy (sm_content data) = true ->
  (String.length content <= MAX_MESSAGE_LENGTH)%nat ->
  burstLimit r u st = (Ok None, st1) ->
  isDuplicate (messagesOf st r) u content = false ->
  exists msg st',
    handleSendMessage clean isProfane data st = (Ok (mkResponse (BMessage msg) 201), st')
    /\ Message.content msg = content
    /\ messagesOf st' r = msg :: firstn 99 (messagesOf st r).
Proof.
  intros r u content Hready Hc Hlen Hgate Hd.
  destruct (handleSendMessage_accepted clean isProfane data st st1 Hready Hc Hgate)
    as (Hrun & Hready1 & Hnow1 & Hmsgs1).
  fold r u content in Hrun, Hready1, Hmsgs1.
  destruct Hready1 as (Hnf & Hre & Hrid & Hprof & Hroom & Huser & Hlist).
  destruct (sendMessageMain_run isProfane r u content st1 Hnf Hre Hprof Hroom Huser Hlist)
    as (_ & _ & Hok).
  rewrite Hmsgs1 in Hok.
  destruct (Hok Hlen Hd) as (msg & st' & Hrun' & _ & Hmc & _ & _ & _ & Hl' & _).
  exists msg, st'. rewrite Hrun. split; [exact Hrun'|]. split; [exact Hmc|].
  unfold messagesOf at 1. rewrite Hl'. apply firstn_100_cons.
Qed.

(** The characters escapeHTML leaves alone. *)
Lemma escapeChar_other c : isHtmlSpecial c = false -> escapeChar c = String c EmptyString.
Proof.
  unfold isHtmlSpecial, isMarkupChar, escapeChar. intros H.
  apply orb_false_elim in H as [H1 H]. apply orb_false_elim in H as [H H5].
  apply orb_false_elim in H as [H H4]. apply orb_false_elim in H as [H2 H3].
  rewrite H1, H2, H3, H4, H5. reflexivity.
Qed.

Lemma escapeHTML_unchanged s :
  forallb (fun c => negb (isHtmlSpecial c)) s = true -> escapeHTML s = s.
Proof.
  induction s as [|c s IH]; [reflexivity|]. cbn [forallb escapeHTML].
  intros H. apply andb_true_iff in H as [Hc Hs].
  rewrite escapeChar_other by (apply negb_true_iff; exact Hc).
  rewrite (IH Hs). reflexivity.
Qed.

Lemma escapeHTML_render segs :
  escapeHTML (render clean segs) = JsString.concat (List.map (sanitizedSegment clean) segs).
Proof.
  unfold render. induction segs as [|seg segs IH]; [reflexivity|].
  cbn [List.map JsString.concat]. rewrite escapeHTML_app, IH.
  destruct seg; reflexivity.
Qed.

(** C2. The content handleSendMessage works with is the HTML-escaping
    of the profanity-filtered content, in that order: the content is
    split on its URL spans (the matches of the URL pattern; the
    segments reassemble to the raw content), each text segment is
    filtered and then escaped, and each URL span is put back as it was
    and escaped. Escaping replaces [&] by [&amp;], [<] by [&lt;], [>]
    by [&gt;], the double quote by [&quot;] and the single quote by
    [&#39;], and keeps every other character; so the escaped content
    has no [<], [>], double or single quote left, and a URL span that
    holds none of the five characters stays byte for byte. An accepted
    message is persisted with exactly this content. For the message
    [<script>alert(1)</script> see http://x.test], with a filter that
    finds nothing to replace, the persisted content is
    [&lt;script&gt;alert(1)&lt;/script&gt; see http://x.test]; in a
    message with all five characters each of them is encoded, none is
    dropped. *)
Theorem sanitize_filter_then_escape (raw : string) :
  sanitizeContent clean raw = escapeHTML (render clean (segmentsOf raw))
  /\ joinSegments (segmentsOf raw) = raw
  /\ urlsOf (segmentsOf raw) = List.map url (urlMatches raw)
  /\ forallb (fun c => negb (isMarkupChar c)) (sanitizeContent clean raw) = true
  /\ (forall data st st1,
        sm_content data = raw ->
        let r := sm_roomId data in
        let u := toLowerCase (sm_username data) in
        sendReady isProfane st r u ->
        truthy raw = true ->
        (String.length (sanitizeContent clean raw) <= MAX_MESSAGE_LENGTH)%nat ->
        burstLimit r u st = (Ok None, st1) ->
        isDuplicate (messagesOf st r) u (sanitizeContent clean raw) = false ->
        exists msg st',
          handleSendMessage clean isProfane data st
            = (Ok (mkResponse (BMessage msg) 201), st')
          /\ Message.content msg = sanitizeContent clean raw
          /\ messagesOf st' r = msg :: firstn 99 (messagesOf st r))
  /\ segmentsOf scriptExample = [Text scriptExampleText; Url scriptExampleUrl]
  /\ sanitizeContent clean scriptExample
     = escapeHTML (clean scriptExampleText) +:+ scriptExampleUrl
  /\ (clean scriptExampleText = scriptExampleText ->
      sanitizeContent clean scriptExample
      = "&lt;script&gt;alert(1)&lt;/script&gt; see http://x.test")
  /\ sanitizeContent clean raw
     = JsString.concat (List.map (sanitizedSegment clean) (segmentsOf raw))
  /\ (escapeHTML EmptyString = EmptyString
      /\ (forall s, escapeHTML (String "&" s) = "&amp;" +:+ escapeHTML s)
      /\ (forall s, escapeHTML (String "<" s) = "&lt;" +:+ escapeHTML s)
      /\ (forall s, escapeHTML (String ">" s) = "&gt;" +:+ escapeHTML s)
      /\ (forall s, escapeHTML (String doubleQuote s) = "&quot;" +:+ escapeHTML s)
      /\ (forall s, escapeHTML (String "'" s) = "&#39;" +:+ escapeHTML s)
      /\ (forall c s,
            c <> "&"%char -> c <> "<"%char -> c <> ">"%char -> c <> doubleQuote ->
            c <> "'"%char ->
            escapeHTML (String c s) = String c (escapeHTML s)))
  /\ (forall u, forallb (fun c => negb (isHtmlSpecial c)) u = true -> escapeHTML u = u)
  /\ segmentsOf quotedExample
     = [Text quotedExampleText; Url quotedExampleUrl; Text quotedExampleTail]
  /\ (clean quotedExampleText = quotedExampleText ->
      clean quotedExampleTail = quotedExampleTail ->
      sanitizeContent clean quotedExample
      = "Tom &amp; &quot;Jerry&#39;s&quot; &lt;b&gt; http://x.test/?a=1&amp;b=2 ok").
Proof.
  assert (Hex : sanitizeContent clean scriptExample
                = escapeHTML (clean scriptExampleText) +:+ scriptExampleUrl).
  { unfold sanitizeContent. rewrite filterProfanityPreservingUrls_segments.
    replace (segmentsOf scriptExample) with [Text scriptExampleText; Url scriptExampleUrl]
      by (vm_compute; reflexivity).
    unfold render. cbn [List.map JsString.concat].
    rewrite escapeHTML_app, append_nil_r. reflexivity. }
  assert (Hseg : sanitizeContent clean raw
                 = JsString.concat (List.map (sanitizedSegment clean) (segmentsOf raw))).
  { unfold sanitizeContent. rewrite filterProfanityPreservingUrls_segments.
    apply escapeHTML_render. }
  split; [unfold sanitizeContent; rewrite filterProfanityPreservingUrls_segments; reflexivity|].
  split; [apply joinSegments_segmentsOf|].
  split; [apply urlsOf_segmentsOf|].
  split; [apply escapeHTML_no_markup|].
  split.
  { intros data st st1 Hraw r u Hready Hc Hlen Hgate Hd. subst raw.
    apply (send_accepted_stores data st st1); assumption. }
  split; [vm_compute; reflexivity|].
  split; [exact Hex|].
  split; [intros Hclean; rewrite Hex, Hclean; vm_compute; reflexivity|].
  split; [exact Hseg|].
  split.
  { split; [reflexivity|]. do 5 (split; [intros s; reflexivity|]).
    intros c s H1 H2 H3 H4 H5. cbn [escapeHTML].
    rewrite escapeChar_other; [reflexivity|].
    unfold isHtmlSpecial, isMarkupChar.
    rewrite (proj2 (Ascii.eqb_neq _ _) H1), (proj2 (Ascii.eqb_neq _ _) H2),
      (proj2 (Ascii.eqb_neq _ _) H3), (proj2 (Ascii.eqb_neq _ _) H5).
    cbn [orb]. rewrite orb_false_r. apply N.eqb_neq. intros Hq. apply H4.
    rewrite <- (Ascii.ascii_N_embedding c). unfold doubleQuote. f_equal. exact Hq. }
  split; [apply escapeHTML_unchanged|].
  split; [vm_compute; reflexivity|].
  intros Hc1 Hc2.
  unfold sanitizeContent. rewrite filterProfanityPreservingUrls_segments.
  replace (segmentsOf quotedExample)
    with [Text quotedExampleText; Url quotedExampleUrl; Text quotedExampleTail]
    by (vm_compute; reflexivity).
  unfold render. cbn [List.map JsString.concat]. rewrite Hc1, Hc2.
  vm_compute. reflexivity.
Qed.

End SanitizeTheorem.

(** ** The burst limiter *)

Lemma expiryOf_absent st key : Redis.lookupLive st key = None -> Redis.expiryOf st key = None.
Proof.
  unfold Redis.lookupLive, Redis.expiryOf.
  destruct (kv st !! key) as [e|]; [|reflexivity].
  destruct (Redis.isLive (now st) e); [discriminate | reflexivity].
Qed.

Lemma noFaults_counted key W st : noFaults st -> noFaults (counted key W st).
Proof.
  intros H. unfold counted. destruct (countAfter st key =? 1); auto with nf.
Qed.
#[export] Hint Resolve noFaults_counted : nf.

Lemma now_counted key W st : now (counted key W st) = now st.
Proof.
  unfold counted. destruct (countAfter st key =? 1); [rewrite now_touch|]; reflexivity.
Qed.

Lemma kv_touch_ne key key' s st : key <> key' -> kv (touch key s st) !! key' = kv st !! key'.
Proof.
  intros Hne. unfold touch. destruct (Redis.lookupLive st key); [|reflexivity].
  unfold setKv. cbn [kv]. apply lookup_insert_ne. exact Hne.
Qed.

Lemma kv_putEntry_ne key key' e st :
  key <> key' -> kv (putEntry key e st) !! key' = kv st !! key'.
Proof. intros Hne. unfold putEntry, setKv. cbn [kv]. apply lookup_insert_ne. exact Hne. Qed.

Lemma kv_put_ne key key' v ex st :
  key <> key' -> kv (put key v ex st) !! key' = kv st !! key'.
Proof. intros Hne. unfold put, setKv. cbn [kv]. apply lookup_insert_ne. exact Hne. Qed.

Lemma kv_counted_ne key key' W st :
  key <> key' -> kv (counted key W st) !! key' = kv st !! key'.
Proof.
  intros Hne. unfold counted.
  destruct (countAfter st key =? 1); rewrite ?kv_touch_ne, kv_putEntry_ne by exact Hne;
    reflexivity.
Qed.

Lemma lookupLive_counted_ne key key' W st :
  key <> key' -> Redis.lookupLive (counted key W st) key' = Redis.lookupLive st key'.
Proof.
  intros Hne. apply lookupLive_frame; [apply now_counted | apply kv_counted_ne; exact Hne].
Qed.

(** The counter of a window just opened, and of a window already open. *)
Lemma kv_counted_fresh key W st :
  Redis.lookupLive st key = None ->
  kv (counted key W st) !! key = Some (mkEntry (VNum 1) (Some (now st + W * 1000))).
Proof.
  intros Hl. unfold counted, countAfter. rewrite Hl. cbn [Z.eqb Pos.eqb].
  rewrite (expiryOf_absent _ _ Hl).
  unfold touch.
  rewrite (lookupLive_putEntry_eq key (mkEntry (VNum 1) None)) by reflexivity.
  cbn [value]. unfold setKv. cbn [kv now putEntry setKv].
  apply lookup_insert_eq.
Qed.

Lemma kv_counted_open key W st k e :
  1 <= k -> kv st !! key = Some (mkEntry (VNum k) (Some e)) -> now st < e ->
  kv (counted key W st) !! key = Some (mkEntry (VNum (k + 1)) (Some e))
  /\ countAfter st key = k + 1.
Proof.
  intros Hk Hkv Hlive.
  assert (Hl : Redis.lookupLive st key = Some (VNum k)).
  { unfold Redis.lookupLive, Redis.isLive. rewrite Hkv. cbn [expiry value].
    destruct (Z.ltb_spec (now st) e); [reflexivity | lia]. }
  assert (He : Redis.expiryOf st key = Some e).
  { unfold Redis.expiryOf, Redis.isLive. rewrite Hkv. cbn [expiry].
    destruct (Z.ltb_spec (now st) e); [reflexivity | lia]. }
  unfold counted, countAfter. rewrite Hl, He.
  destruct (Z.eqb_spec (k + 1) 1); [lia|].
  split; [|reflexivity]. unfold putEntry, setKv. cbn [kv]. apply lookup_insert_eq.
Qed.

Lemma count_step {B} key W (body : Z -> M B) st :
  noFaults st -> numOrAbsent st key ->
  bind (Redis.incr key)
       (fun c => bind (if (c =? 1)
                       then bind (Redis.expire key W) (fun _ => ret tt)
                       else ret tt)
                      (fun _ => body c)) st
  = body (countAfter st key) (counted key W st).
Proof.
  intros Hnf [Hl | [n Hl]]; unfold counted, countAfter; rewrite Hl.
  - rewrite bind_incr_fresh by assumption. rewrite (expiryOf_absent _ _ Hl).
    cbn [Z.eqb Pos.eqb]. rewrite bind_bind, bind_expire by auto with nf.
    rewrite bind_ret. reflexivity.
  - rewrite bind_incr_num with (n := n) by assumption.
    destruct (n + 1 =? 1).
    + rewrite bind_bind, bind_expire by auto with nf. rewrite bind_ret. reflexivity.
    + rewrite bind_ret. reflexivity.
Qed.

Lemma burstLimit_public_run r u st :
  noFaults st -> publicRoomAt st r ->
  numOrAbsent st (shortKeyOf r u) -> numOrAbsent st (longKeyOf r u) ->
  plainAt st (lastSentKeyOf r u) ->
  burstLimit r u st = (Ok (fst (burstOutcome st r u)), snd (burstOutcome st r u)).
Proof.
  intros Hnf (room & Hroom & Hpub) Hshort Hlong Hlast.
  unfold burstLimit, tryCatch. fold (roomKeyOf r) (shortKeyOf r u) (longKeyOf r u)
    (lastSentKeyOf r u).
  rewrite bind_get by (try exact Hnf; unfold plainAt; rewrite Hroom; exact I).
  rewrite Hroom. cbn [truthyValue negb isPublicRoomValue]. rewrite Hpub.
  rewrite count_step by assumption.
  unfold burstOutcome.
  set (sA := counted (shortKeyOf r u) CHAT_BURST_SHORT_WINDOW_SECONDS st).
  assert (HnfA : noFaults sA) by (subst sA; auto with nf).
  assert (HlA : forall k, shortKeyOf r u <> k ->
                          Redis.lookupLive sA k = Redis.lookupLive st k)
    by (intros k Hk; apply lookupLive_counted_ne; exact Hk).
  destruct (CHAT_BURST_SHORT_LIMIT <? countAfter st (shortKeyOf r u)); [reflexivity|].
  assert (HlongA : numOrAbsent sA (longKeyOf r u)).
  { unfold numOrAbsent. rewrite HlA by auto with keys. exact Hlong. }
  rewrite count_step by assumption.
  assert (HcA : countAfter sA (longKeyOf r u) = countAfter st (longKeyOf r u)).
  { unfold countAfter. rewrite HlA by auto with keys. reflexivity. }
  rewrite HcA.
  set (sB := counted (longKeyOf r u) CHAT_BURST_LONG_WINDOW_SECONDS sA).
  assert (HnfB : noFaults sB) by (subst sB; auto with nf).
  assert (HlB : Redis.lookupLive sB (lastSentKeyOf r u)
                = Redis.lookupLive st (lastSentKeyOf r u)).
  { subst sB. rewrite lookupLive_counted_ne by auto with keys.
    apply HlA. auto with keys. }
  destruct (CHAT_BURST_LONG_LIMIT <? countAfter st (longKeyOf r u)); [reflexivity|].
  rewrite bind_dateNow.
  rewrite bind_get by (try exact HnfB; unfold plainAt; rewrite HlB; exact Hlast).
  rewrite HlB. unfold tooSoon.
  assert (HnowB : now sB = now st).
  { subst sB sA. rewrite !now_counted. reflexivity. }
  rewrite HnowB.
  match goal with
  | |- context [if ?c then ret (Some (createErrorResponse MSG_INTERVAL 429)) else _] =>
      destruct c
  end; [reflexivity|].
  rewrite bind_set by exact HnfB. reflexivity.
Qed.

Lemma lookupLive_no_expiry st key v :
  kv st !! key = Some (mkEntry v None) -> Redis.lookupLive st key = Some v.
Proof. intros H. unfold Redis.lookupLive. rewrite H. reflexivity. Qed.

(** Whatever the other two rules do, the limiter counts the message in
    the short window first. *)
Lemma burstLimit_short_step r u st :
  noFaults st -> publicRoomAt st r -> numOrAbsent st (shortKeyOf r u) ->
  exists o st1,
    burstLimit r u st = (Ok o, st1)
    /\ noFaults st1 /\ now st1 = now st
    /\ kv st1 !! roomKeyOf r = kv st !! roomKeyOf r
    /\ kv st1 !! shortKeyOf r u
       = kv (counted (shortKeyOf r u) CHAT_BURST_SHORT_WINDOW_SECONDS st) !! shortKeyOf r u
    /\ (CHAT_BURST_SHORT_LIMIT < countAfter st (shortKeyOf r u) -> o = Some RESP_SHORT).
Proof.
  intros Hnf (room & Hroom & Hpub) Hshort.
  unfold burstLimit, tryCatch. fold (roomKeyOf r) (shortKeyOf r u) (longKeyOf r u)
    (lastSentKeyOf r u).
  rewrite bind_get by (try exact Hnf; unfold plainAt; rewrite Hroom; exact I).
  rewrite Hroom. cbn [truthyValue negb isPublicRoomValue]. rewrite Hpub.
  rewrite count_step by assumption.
  set (sA := counted (shortKeyOf r u) CHAT_BURST_SHORT_WINDOW_SECONDS st).
  assert (HnfA : noFaults sA) by (subst sA; auto with nf).
  assert (HnowA : now sA = now st) by (subst sA; apply now_counted).
  assert (HroomA : kv sA !! roomKeyOf r = kv st !! roomKeyOf r).
  { subst sA. apply kv_counted_ne. auto with keys. }
  destruct (Z.ltb_spec CHAT_BURST_SHORT_LIMIT (countAfter st (shortKeyOf r u))) as [Hlt|Hle].
  - eexists _, _. split; [reflexivity|].
    refine (conj HnfA (conj HnowA (conj HroomA (conj eq_refl _)))). reflexivity.
  - match goal with
    | |- context [bind (Redis.incr (longKeyOf r u)) ?K sA] =>
        set (rest := bind (Redis.incr (longKeyOf r u)) K);
        assert (Hfoot : touchesOnly rest
                  (fun k => k = longKeyOf r u \/ k = lastSentKeyOf r u))
    end.
    { subst rest. footprint. }
    destruct (rest sA) as [[o|e] sB] eqn:Hrest;
      destruct (Hfoot _ _ _ Hrest) as (HnowB & HnfB & HkvB).
    all: eexists _, _; (split; [reflexivity|]).
    all: refine (conj (HnfB HnfA) (conj _ (conj _ (conj _ _)))).
    all: try congruence.
    all: try lia.
    all: rewrite HkvB; [try exact HroomA; reflexivity|].
    all: not_key.
Qed.

Section PublicBurst.
Variable clean : string -> string.
Variable isProfane : string -> bool.

Lemma sendMessageMain_total r u content st :
  exists resp st', sendMessageMain isProfane r u content st = (Ok resp, st').
Proof.
  unfold sendMessageMain, tryCatch.
  match goal with
  | |- context [match ?m st with _ => _ end] => destruct (m st) as [[resp|e] st']
  end; eexists _, _; reflexivity.
Qed.

Lemma send_public_counted (data : SendMessageBody) st k e room :
  let r := sm_roomId data in
  let u := toLowerCase (sm_username data) in
  noFaults st -> USERNAME_REGEX u = true -> ROOM_ID_REGEX r = true ->
  truthy (sm_content data) = true ->
  kv st !! roomKeyOf r = Some (mkEntry (VRoom room) None) ->
  isPublicType (Room.type room) = true ->
  shortWindow st r u k e ->
  exists resp st',
    handleSendMessage clean isProfane data st = (Ok resp, st')
    /\ noFaults st'
    /\ kv st' !! roomKeyOf r = kv st !! roomKeyOf r
    /\ kv st' !! shortKeyOf r u = Some (mkEntry (VNum (k + 1)) (Some e))
    /\ (CHAT_BURST_SHORT_LIMIT < k + 1 -> resp = RESP_SHORT).
Proof.
  intros r u Hnf Hre Hrid Hc Hroom Hpub Hwin.
  assert (Hpublic : publicRoomAt st r).
  { exists room. split; [apply lookupLive_no_expiry; exact Hroom | exact Hpub]. }
  assert (Hnum : numOrAbsent st (shortKeyOf r u)).
  { destruct Hwin as [(_ & Hl & _) | (Hk & Hkv & Hlive)]; [left; exact Hl|].
    right. exists k. unfold Redis.lookupLive, Redis.isLive. rewrite Hkv. cbn [expiry value].
    destruct (Z.ltb_spec (now st) e); [reflexivity | lia]. }
  assert (Hcount : kv (counted (shortKeyOf r u) CHAT_BURST_SHORT_WINDOW_SECONDS st)
                     !! shortKeyOf r u = Some (mkEntry (VNum (k + 1)) (Some e))
                   /\ countAfter st (shortKeyOf r u) = k + 1).
  { destruct Hwin as [(-> & Hl & ->) | (Hk & Hkv & Hlive)].
    - split; [apply kv_counted_fresh; exact Hl|]. unfold countAfter. rewrite Hl. reflexivity.
    - apply kv_counted_open; assumption. }
  destruct Hcount as (HkvC & HcC).
  destruct (burstLimit_short_step r u st Hnf Hpublic Hnum)
    as (o & st1 & Hgate & Hnf1 & Hnow1 & Hroom1 & Hshort1 & Hrefuse).
  rewrite (handleSendMessage_gate isProfane clean) by assumption.
  fold r u. rewrite Hgate.
  destruct o as [resp|].
  - exists resp, st1. split; [reflexivity|]. split; [exact Hnf1|].
    split; [exact Hroom1|]. split; [congruence|].
    intros Hlt. rewrite HcC in Hrefuse. specialize (Hrefuse Hlt). congruence.
  - destruct (sendMessageMain_total r u (sanitizeContent clean (sm_content data)) st1)
      as (resp & st' & Hmain).
    pose proof (touches_sendMessageMain isProfane
                  (fun k => k = userKeyOf u \/ k = messagesKeyOf r \/ k = presenceKeyOf r u)
                  r u _ (or_introl eq_refl) (or_intror (or_introl eq_refl))
                  (or_intror (or_intror eq_refl)) _ _ _ Hmain) as (Hnow' & Hnf' & Hkv').
    exists resp, st'. split; [exact Hmain|]. split; [auto|].
    split; [rewrite Hkv', Hroom1; [reflexivity | not_key]|].
    split.
    + rewrite Hkv', Hshort1; [exact HkvC | not_key].
    + intros Hlt. rewrite HcC in Hrefuse. specialize (Hrefuse Hlt). discriminate Hrefuse.
Qed.

Lemma public_burst_open r name room reqs : forall st k e,
  let u := toLowerCase name in
  USERNAME_REGEX u = true -> ROOM_ID_REGEX r = true ->
  isPublicType (Room.type room) = true ->
  1 <= k -> noFaults st ->
  kv st !! roomKeyOf r = Some (mkEntry (VRoom room) None) ->
  kv st !! shortKeyOf r u = Some (mkEntry (VNum k) (Some e)) ->
  Forall (fun q => fst q < e /\ truthy (snd q) = true) reqs ->
  forall i resp,
    nth_error (sendBurstAt clean isProfane r name reqs st) i = Some resp ->
    CHAT_BURST_SHORT_LIMIT < k + Z.of_nat i + 1 ->
    resp = Ok RESP_SHORT.
Proof.
  induction reqs as [|[t raw] reqs IH]; intros st k e u Hre Hrid Hpub Hk Hnf Hroom Hshort Hall
    i resp Hnth Hlim.
  - destruct i; discriminate Hnth.
  - apply Forall_cons in Hall as [[Ht Hraw] Hall]. cbn [fst snd] in Ht, Hraw.
    cbn [sendBurstAt] in Hnth.
    destruct (send_public_counted (mkSend r name raw) (advance t st) k e room)
      as (resp1 & st' & Hrun & Hnf' & Hroom' & Hshort' & Hrefuse); try assumption.
    { right. split; [exact Hk|]. split; [exact Hshort | exact Ht]. }
    cbn [sm_roomId sm_username] in Hrun, Hroom', Hshort', Hrefuse. fold u in Hshort'.
    rewrite Hrun in Hnth.
    destruct i as [|i]; cbn [nth_error] in Hnth.
    + injection Hnth as <-. f_equal. apply Hrefuse. lia.
    + apply (IH st' (k + 1) e) with (i := i); try assumption; try lia.
      rewrite Hroom'. exact Hroom.
Qed.

Lemma private_burst r name raws : forall st,
  let u := toLowerCase name in
  sendReady isProfane st r u -> privateRoomAt st r ->
  Forall (fun raw => truthy raw = true
                     /\ (String.length (sanitizeContent clean raw) <= MAX_MESSAGE_LENGTH)%nat)
         raws ->
  noRepeat (List.map (sanitizeContent clean) raws) ->
  match raws with
  | raw :: _ => isDuplicate (messagesOf st r) u (sanitizeContent clean raw) = false
  | [] => True
  end ->
  Forall isCreated (sendBurst clean isProfane r name raws st).
Proof.
  induction raws as [|raw raws IH]; intros st u Hready Hpriv Hall Hrep Hhead.
  - constructor.
  - apply Forall_cons in Hall as [[Hraw Hlen] Hall].
    cbn [sendBurst].
    destruct (send_private_step clean isProfane (mkSend r name raw) st)
      as (resp & st' & Hrun & Hready' & Hpriv' & _ & _ & _ & Hok); try assumption.
    cbn [sm_roomId sm_username sm_content] in Hrun, Hready', Hpriv', Hok. fold u in Hok.
    destruct (Hok Hhead) as (msg & -> & Hmu & Hmc & Hl).
    rewrite Hrun. constructor; [exists msg; reflexivity|].
    apply IH; try assumption.
    + destruct raws; [exact I | apply Hrep].
    + destruct raws as [|raw' raws]; [exact I|].
      rewrite Hl, isDuplicate_head, Hmc.
      apply andb_false_iff. right. apply String.eqb_neq. apply Hrep.
Qed.

End PublicBurst.

(** ** Leaving a room *)

Lemma ROOM_ID_REGEX_truthy r : ROOM_ID_REGEX r = true -> truthy r = true.
Proof. unfold ROOM_ID_REGEX. destruct (truthy r); [reflexivity | discriminate]. Qed.

Lemma USERNAME_REGEX_truthy u : USERNAME_REGEX u = true -> truthy u = true.
Proof. destruct u; [discriminate | reflexivity]. Qed.

Lemma forallb_app_str p a b : forallb p (a +:+ b) = forallb p a && forallb p b.
Proof.
  induction a as [|c a IH]; [reflexivity|].
  rewrite append_cons. cbn [forallb]. rewrite IH. apply andb_assoc.
Qed.

Lemma alnum_no_colon r r' : forallb isAlnum r = true -> r <> "users:" +:+ r'.
Proof.
  intros Hal ->. rewrite forallb_app_str in Hal.
  replace (forallb isAlnum "users:") with false in Hal by (vm_compute; reflexivity).
  discriminate Hal.
Qed.

Lemma append_inj_l p a b : p +:+ a = p +:+ b -> a = b.
Proof.
  induction p as [|c p IH]; [auto|]. rewrite !append_cons. intros [= H]. auto.
Qed.

(** A room key is not the key of a legacy user set. *)
Lemma roomKey_not_legacy r : ROOM_ID_REGEX r = true -> ~ isLegacySetKey (roomKeyOf r).
Proof.
  unfold ROOM_ID_REGEX. intros Hr [r' Heq].
  apply andb_true_iff in Hr as [_ Hal].
  apply (alnum_no_colon r r' Hal).
  apply (append_inj_l "chat:room:"). exact Heq.
Qed.

Lemma room_ne_legacy r r' : ROOM_ID_REGEX r = true -> roomKeyOf r <> legacySetKeyOf r'.
Proof. intros Hr Heq. apply (roomKey_not_legacy r Hr). exists r'. exact Heq. Qed.

Lemma messagesKey_not_legacy r : ~ isLegacySetKey (messagesKeyOf r).
Proof. intros [r' Heq]. revert Heq. key_neq. Qed.

Lemma presenceKey_not_legacy r u : ~ isLegacySetKey (presenceKeyOf r u).
Proof. intros [r' Heq]. revert Heq. key_neq. Qed.

Lemma legacy_ne_messages r r' : legacySetKeyOf r <> messagesKeyOf r'.
Proof. unfold legacySetKeyOf. key_neq. Qed.

Lemma legacy_ne_presence r r' u : legacySetKeyOf r <> presenceKeyOf r' u.
Proof. unfold legacySetKeyOf. key_neq. Qed.

Lemma bind_smembers {B} key (k : list string -> M B) st :
  noFaults st -> setOrAbsent st key ->
  bind (Redis.smembers key) k st
  = k (match Redis.lookupLive st key with Some (VSet l) => l | _ => [] end) st.
Proof.
  intros H Hs. unfold Redis.smembers. rewrite bind_bind, bind_tick by exact H.
  unfold bind. destruct Hs as [-> | [l ->]]; reflexivity.
Qed.

Lemma kv_remove_ne keys key st : key ∉ keys -> kv (remove keys st) !! key = kv st !! key.
Proof.
  intros Hk. unfold remove, setKv. cbn [kv]. rewrite lookup_deleteAll.
  rewrite bool_decide_eq_false_2 by exact Hk. reflexivity.
Qed.

Lemma not_elem_of_1 (a b : string) : a <> b -> a ∉ [b].
Proof. intros Hne Hin. apply list_elem_of_singleton in Hin. contradiction. Qed.

(** Recounting the users of a room rewrites the room record and, at
    most, drops the legacy user set of the room. *)
Lemma refreshRoomUserCount_run r room st :
  noFaults st -> ROOM_ID_REGEX r = true ->
  setOrAbsent st (legacySetKeyOf r) ->
  Redis.lookupLive st (roomKeyOf r) = Some (VRoom room) ->
  exists n st',
    refreshRoomUserCount r st = (Ok n, st')
    /\ noFaults st' /\ now st' = now st
    /\ Redis.lookupLive st' (roomKeyOf r) = Some (VRoom (Room.withUserCount room n))
    /\ (forall k, k <> roomKeyOf r -> k <> legacySetKeyOf r -> kv st' !! k = kv st !! k).
Proof.
  intros Hnf Hr Hset Hroom.
  unfold refreshRoomUserCount, getActiveUsersAndPrune, getActiveUsersInRoom.
  fold (legacySetKeyOf r) (roomKeyOf r).
  rewrite !bind_bind, bind_scanAll by exact Hnf. rewrite bind_ret.
  rewrite bind_bind, bind_smembers by assumption.
  set (users := List.map lastSegment _).
  set (old := match Redis.lookupLive st (legacySetKeyOf r) with Some (VSet l) => l | _ => [] end).
  assert (Hstep : exists st1,
    (forall B (k : unit -> M B),
       bind (if (0 <? List.length old)%nat
             then bind (Redis.del [legacySetKeyOf r]) (fun _ => ret tt)
             else ret tt) k st = k tt st1)
    /\ noFaults st1 /\ now st1 = now st
    /\ (forall k, k <> legacySetKeyOf r -> kv st1 !! k = kv st !! k)).
  { destruct (0 <? List.length old)%nat.
    - exists (remove [legacySetKeyOf r] st). split.
      + intros B k. rewrite bind_bind, bind_del by exact Hnf. reflexivity.
      + split; [exact Hnf|]. split; [reflexivity|].
        intros k Hk. apply kv_remove_ne. apply not_elem_of_1. exact Hk.
    - exists st. split; [intros B k; reflexivity|]. auto. }
  destruct Hstep as (st1 & Hstep & Hnf1 & Hnow1 & Hframe1).
  rewrite bind_bind, Hstep, bind_ret.
  assert (Hroom1 : Redis.lookupLive st1 (roomKeyOf r) = Some (VRoom room)).
  { rewrite <- Hroom. apply lookupLive_frame; [exact Hnow1|].
    apply Hframe1. apply room_ne_legacy. exact Hr. }
  rewrite bind_get by (try exact Hnf1; unfold plainAt; rewrite Hroom1; exact I).
  rewrite Hroom1. rewrite bind_set by exact Hnf1.
  eexists _, _. split; [reflexivity|].
  split; [exact Hnf1|]. split; [exact Hnow1|].
  split; [apply lookupLive_put_eq; intros s Hs; discriminate Hs|].
  intros k Hk1 Hk2. rewrite kv_put_ne_l by auto. apply Hframe1. exact Hk2.
Qed.

Lemma handleGetRoom_not_found r st :
  noFaults st -> ROOM_ID_REGEX r = true ->
  Redis.lookupLive st (roomKeyOf r) = None ->
  handleGetRoom r st = (Ok RESP_ROOM_NOT_FOUND, st).
Proof.
  intros Hnf Hr Hl. unfold handleGetRoom, tryCatch, assertValidRoomId.
  rewrite Hr. cbn [negb]. rewrite bind_ret. fold (roomKeyOf r).
  rewrite bind_get by (try exact Hnf; unfold plainAt; rewrite Hl; exact I).
  rewrite Hl. reflexivity.
Qed.

Lemma lookupLive_remove_ne keys key st :
  key ∉ keys -> Redis.lookupLive (remove keys st) key = Redis.lookupLive st key.
Proof.
  intros Hk. rewrite lookupLive_remove. rewrite bool_decide_eq_false_2 by exact Hk.
  reflexivity.
Qed.

Lemma filter_remove_length (u : string) (ms : list string) :
  NoDup ms -> In u ms ->
  List.length (List.filter (fun m => negb (String.eqb m u)) ms) = (List.length ms - 1)%nat.
Proof.
  induction ms as [|m ms IH]; intros Hnd Hin; [destruct Hin|].
  apply NoDup_cons in Hnd as [Hnotin Hnd]. cbn [List.filter List.length].
  destruct (String.eqb_spec m u) as [->|Hne]; cbn [negb].
  - assert (Hid : List.filter (fun m => negb (String.eqb m u)) ms = ms).
    { clear -Hnotin. induction ms as [|x ms IH]; [reflexivity|].
      cbn [List.filter]. apply not_elem_of_cons in Hnotin as [Hx Hms].
      destruct (String.eqb_spec x u) as [->|_]; [contradiction|].
      cbn [negb]. f_equal. apply IH. exact Hms. }
    rewrite Hid. lia.
  - destruct Hin as [Heq|Hin]; [contradiction|].
    cbn [List.length]. rewrite IH by assumption.
    destruct ms; [destruct Hin | cbn [List.length]; lia].
Qed.

(** C3, as the code has it. When a member of a private room leaves
    while the member's presence record is live, handleLeaveRoom takes
    the leaver out of the members list; when at most one member is
    left, the room and its message list are deleted (a later get of
    the room answers 404), otherwise the room persists with the
    remaining members. With distinct members, a room of two is deleted
    and a room of three persists with two. When the presence record
    of the leaver is not live (it expired, or was never set), the call
    answers success and leaves the room and its members as they were. *)
Theorem leave_private_room (r name : string) (room : Room.t) (st : State) :
  let u := toLowerCase name in
  let left := membersWithout room u in
  noFaults st ->
  USERNAME_REGEX u = true -> ROOM_ID_REGEX r = true ->
  Redis.lookupLive st (roomKeyOf r) = Some (VRoom room) ->
  Room.type room = Some Private ->
  setOrAbsent st (legacySetKeyOf r) ->
  exists st',
    handleLeaveRoom (mkJoinLeave (Some r) (Some name)) st = (Ok (okResponse BSuccess), st')
    /\ noFaults st'
    /\ (isLiveKey st (presenceKeyOf r u) = true ->
        Redis.lookupLive st' (presenceKeyOf r u) = None
        /\ ((List.length left <= 1)%nat ->
            Redis.lookupLive st' (roomKeyOf r) = None
            /\ Redis.lookupLive st' (messagesKeyOf r) = None
            /\ fst (handleGetRoom r st') = Ok RESP_ROOM_NOT_FOUND)
        /\ ((1 < List.length left)%nat ->
            exists n, Redis.lookupLive st' (roomKeyOf r)
                      = Some (VRoom (Room.withMembers room left n))))
    /\ (isLiveKey st (presenceKeyOf r u) = false ->
        Redis.lookupLive st' (roomKeyOf r) = Some (VRoom room))
    /\ (forall ms, Room.members room = Some ms -> NoDup ms -> In u ms ->
        List.length left = (List.length ms - 1)%nat).
Proof.
  intros u left Hnf Hre Hrid Hroom Hpriv Hset.
  unfold handleLeaveRoom. cbn [jl_roomId jl_username option_map]. fold u.
  rewrite (ROOM_ID_REGEX_truthy r Hrid), (USERNAME_REGEX_truthy u Hre). cbn [negb orb].
  rewrite (bind_ok _ _ _ _ _ (validateIds_ok u r st Hre Hrid)).
  unfold tryCatch. fold (roomKeyOf r) (presenceKeyOf r u) (messagesKeyOf r) (legacySetKeyOf r).
  rewrite bind_get by (try exact Hnf; unfold plainAt; rewrite Hroom; exact I).
  rewrite Hroom. cbn [truthyOpt truthyValue negb].
  rewrite bind_del by exact Hnf.
  set (st1 := remove [presenceKeyOf r u] st).
  assert (Hnf1 : noFaults st1) by exact Hnf.
  assert (Hroom1 : Redis.lookupLive st1 (roomKeyOf r) = Some (VRoom room)).
  { subst st1. rewrite lookupLive_remove_ne; [exact Hroom|].
    apply not_elem_of_1. auto with keys. }
  assert (Hset1 : setOrAbsent st1 (legacySetKeyOf r)).
  { unfold setOrAbsent. subst st1. rewrite lookupLive_remove_ne; [exact Hset|].
    apply not_elem_of_1. apply legacy_ne_presence. }
  assert (Hpres1 : Redis.lookupLive st1 (presenceKeyOf r u) = None).
  { subst st1. rewrite lookupLive_remove.
    rewrite bool_decide_eq_true_2 by (apply list_elem_of_singleton; reflexivity).
    reflexivity. }
  assert (Hlast : forall ms, Room.members room = Some ms -> NoDup ms -> In u ms ->
                             List.length left = (List.length ms - 1)%nat).
  { intros ms Hms Hnd Hin. subst left. unfold membersWithout. rewrite Hms.
    apply filter_remove_length; assumption. }
  assert (Hcount : Redis.liveCount st [presenceKeyOf r u]
                   = if isLiveKey st (presenceKeyOf r u) then 1 else 0).
  { unfold Redis.liveCount, isLiveKey. cbn [List.filter].
    destruct (bool_decide _); reflexivity. }
  rewrite Hcount.
  destruct (isLiveKey st (presenceKeyOf r u)) eqn:Hlive.
  2: { cbn [Z.eqb negb]. rewrite bind_ret.
       exists st1. split; [reflexivity|]. split; [exact Hnf1|].
       split; [discriminate|]. split; [intros _; exact Hroom1 | exact Hlast]. }
  cbn [Z.eqb negb Pos.eqb].
  destruct (refreshRoomUserCount_run r room st1 Hnf1 Hrid Hset1 Hroom1)
    as (n & st2 & Hrefresh & Hnf2 & Hnow2 & Hroom2 & Hframe2).
  rewrite !bind_bind. rewrite (bind_ok _ _ _ _ _ Hrefresh).
  rewrite Hpriv.
  assert (Hleft : match Room.members room with
                  | Some members => List.filter (fun m => negb (String.eqb m u)) members
                  | None => []
                  end = left).
  { subst left. unfold membersWithout. destruct (Room.members room); reflexivity. }
  rewrite Hleft.
  assert (Hpres2 : Redis.lookupLive st2 (presenceKeyOf r u) = None).
  { rewrite <- Hpres1. apply lookupLive_frame; [exact Hnow2|].
    apply Hframe2; apply not_eq_sym; [auto with keys | apply legacy_ne_presence]. }
  destruct (Nat.leb_spec (List.length left) 1) as [Hle|Hgt].
  - (* the room collapses *)
    rewrite bind_bind, bind_pipelineDel by exact Hnf2.
    set (st3 := remove _ st2).
    match goal with
    | |- context [bind (swallow ?m) _ st3] =>
        destruct (swallow_ok m st3) as (st4 & Hsw);
        pose proof (touches_tryCatch isLegacySetKey m (fun _ => ret tt)
                      (touches_broadcastToSpecificUsers isLegacySetKey _ (fun k H => H))
                      (fun e => touches_ret isLegacySetKey tt) _ _ _ Hsw)
          as (Hnow4 & Hnf4 & Hkv4)
    end.
    rewrite (bind_ok _ _ _ _ _ Hsw).
    assert (Hnf3 : noFaults st3) by exact Hnf2.
    assert (Hl4 : forall k, ~ isLegacySetKey k ->
                            Redis.lookupLive st4 k = Redis.lookupLive st3 k).
    { intros k Hk. apply lookupLive_frame; [exact Hnow4 | apply Hkv4; exact Hk]. }
    assert (Hr4 : Redis.lookupLive st4 (roomKeyOf r) = None).
    { rewrite Hl4 by (apply roomKey_not_legacy; exact Hrid).
      subst st3. rewrite lookupLive_remove.
      rewrite bool_decide_eq_true_2 by (apply elem_of_cons; left; reflexivity).
      reflexivity. }
    exists st4. split; [reflexivity|]. split; [auto|].
    split; [|split; [discriminate | exact Hlast]].
    intros _. split.
    { rewrite Hl4 by apply presenceKey_not_legacy.
      subst st3. rewrite lookupLive_remove. destruct (bool_decide _); [reflexivity|].
      exact Hpres2. }
    split; [|intros Hgt; lia].
    intros _. split; [exact Hr4|]. split.
    + rewrite Hl4 by apply messagesKey_not_legacy.
      subst st3. rewrite lookupLive_remove.
      rewrite bool_decide_eq_true_2; [reflexivity|].
      apply elem_of_cons; right; apply elem_of_cons; left; reflexivity.
    + rewrite handleGetRoom_not_found; auto.
  - (* the room persists *)
    rewrite bind_bind, bind_set by exact Hnf2.
    set (st3 := put _ _ _ st2).
    match goal with
    | |- context [bind (swallow ?m) _ st3] =>
        destruct (swallow_ok m st3) as (st4 & Hsw);
        pose proof (touches_tryCatch isLegacySetKey m (fun _ => ret tt)
                      (touches_broadcastRoomsUpdated isLegacySetKey (fun k H => H))
                      (fun e => touches_ret isLegacySetKey tt) _ _ _ Hsw)
          as (Hnow4 & Hnf4 & Hkv4)
    end.
    rewrite (bind_ok _ _ _ _ _ Hsw).
    assert (Hnf3 : noFaults st3) by exact Hnf2.
    assert (Hl4 : forall k, ~ isLegacySetKey k ->
                            Redis.lookupLive st4 k = Redis.lookupLive st3 k).
    { intros k Hk. apply lookupLive_frame; [exact Hnow4 | apply Hkv4; exact Hk]. }
    exists st4. split; [reflexivity|]. split; [auto|].
    split; [|split; [discriminate | exact Hlast]].
    intros _. split.
    { rewrite Hl4 by apply presenceKey_not_legacy.
      subst st3. rewrite lookupLive_put_ne by auto with keys. exact Hpres2. }
    split; [intros Hle; lia|].
    intros _. exists n.
    rewrite Hl4 by (apply roomKey_not_legacy; exact Hrid).
    subst st3. apply lookupLive_put_eq. intros s Hs. discriminate Hs.
Qed.

(** ** Glob patterns *)

Lemma globFuel_literal c p d s f :
  isGlobLiteral c = true ->
  Redis.globFuel (S f) (String c p) (String d s) = Ascii.eqb c d && Redis.globFuel f p s.
Proof.
  intros Hc. destruct c as [[] [] [] [] [] [] [] []]; try discriminate Hc; reflexivity.
Qed.

Lemma globFuel_literal_nil c p f :
  isGlobLiteral c = true -> Redis.globFuel (S f) (String c p) EmptyString = false.
Proof.
  intros Hc. destruct c as [[] [] [] [] [] [] [] []]; try discriminate Hc; reflexivity.
Qed.

Lemma globFuel_star p s f :
  Redis.globFuel (S f) (String "*" p) s
  = Redis.globFuel f p s
    || match s with
       | EmptyString => false
       | String _ t => Redis.globFuel (S f) (String "*" p) t
       end.
Proof. destruct s; reflexivity. Qed.

(** A literal prefix of the pattern must be a prefix of the key. *)
Lemma globFuel_prefix lit : forall p s f,
  forallb isGlobLiteral lit = true ->
  Redis.globFuel (String.length lit + f) (lit +:+ p) s = true ->
  exists s', s = lit +:+ s' /\ Redis.globFuel f p s' = true.
Proof.
  induction lit as [|c lit IH]; intros p s f Hlit Hm.
  - exists s. split; [reflexivity | exact Hm].
  - cbn [forallb] in Hlit. apply andb_true_iff in Hlit as [Hc Hlit].
    rewrite append_cons in Hm. cbn [String.length Nat.add] in Hm.
    destruct s as [|d s].
    + rewrite globFuel_literal_nil in Hm by exact Hc. discriminate Hm.
    + rewrite globFuel_literal in Hm by exact Hc.
      apply andb_true_iff in Hm as [Heq Hm]. apply Ascii.eqb_eq in Heq. subst d.
      destruct (IH p s f Hlit Hm) as (s' & -> & Hs').
      exists s'. split; [reflexivity | exact Hs'].
Qed.

Lemma globFuel_literal_match lit : forall p s f,
  forallb isGlobLiteral lit = true ->
  Redis.globFuel (String.length lit + f) (lit +:+ p) (lit +:+ s) = Redis.globFuel f p s.
Proof.
  induction lit as [|c lit IH]; intros p s f Hlit; [reflexivity|].
  cbn [forallb] in Hlit. apply andb_true_iff in Hlit as [Hc Hlit].
  rewrite !append_cons. cbn [String.length Nat.add].
  rewrite globFuel_literal by exact Hc. rewrite Ascii.eqb_refl. cbn [andb].
  apply IH. exact Hlit.
Qed.

Lemma globFuel_star_skip p f x : forall s,
  Redis.globFuel f p s = true ->
  Redis.globFuel (S f) (String "*" p) (x +:+ s) = true.
Proof.
  induction x as [|c x IH]; intros s Hs.
  - rewrite append_nil_l, globFuel_star, Hs. reflexivity.
  - rewrite append_cons, globFuel_star. rewrite (IH s Hs). apply orb_true_r.
Qed.

Lemma hex_is_literal c : isHexChar c = true -> isGlobLiteral c = true.
Proof. destruct c as [[] [] [] [] [] [] [] []]; intros H; try discriminate H; reflexivity. Qed.

Lemma hexToken_literal t : forallb isHexChar t = true -> forallb isGlobLiteral t = true.
Proof.
  induction t as [|c t IH]; [reflexivity|]. cbn [forallb].
  intros H. apply andb_true_iff in H as [Hc Ht].
  rewrite (hex_is_literal c Hc), (IH Ht). reflexivity.
Qed.

(** The pattern of deleteToken finds the user-scoped record of a
    hexadecimal token, whoever the user. *)
Lemma userTokenPattern_matches u t :
  forallb isHexChar t = true ->
  Redis.globMatch (userTokenPatternOf t) (getUserTokenKey u t) = true.
Proof.
  intros Hhex. unfold Redis.globMatch, userTokenPatternOf, getUserTokenKey, AUTH_TOKEN_PREFIX.
  change ("chat:token:" +:+ "user:*:" +:+ t) with ("chat:token:user:" +:+ String "*" (":" +:+ t)).
  change ("chat:token:" +:+ "user:" +:+ toLowerCase u +:+ ":" +:+ t)
    with ("chat:token:user:" +:+ (toLowerCase u +:+ (":" +:+ t))).
  rewrite length_app_str.
  replace (S (String.length "chat:token:user:" + String.length (String "*" (":" +:+ t))))
    with (String.length "chat:token:user:" + S (S (String.length (":" +:+ t))))%nat
    by (cbn [String.length]; lia).
  rewrite globFuel_literal_match by reflexivity.
  apply globFuel_star_skip.
  replace (S (String.length (":" +:+ t))) with (String.length (":" +:+ t) + 1)%nat by lia.
  rewrite <- (append_nil_r (":" +:+ t)) at 2 3.
  rewrite globFuel_literal_match; [reflexivity|].
  change (":" +:+ t) with (String ":" t). cbn [forallb].
  rewrite (hexToken_literal t Hhex). reflexivity.
Qed.

(** It finds nothing but user-scoped records. *)
Lemma userTokenPattern_only key t :
  Redis.globMatch (userTokenPatternOf t) key = true -> isUserTokenKey key.
Proof.
  unfold Redis.globMatch, userTokenPatternOf, AUTH_TOKEN_PREFIX.
  change ("chat:token:" +:+ "user:*:" +:+ t) with ("chat:token:user:" +:+ String "*" (":" +:+ t)).
  rewrite length_app_str.
  replace (S (String.length "chat:token:user:" + String.length (String "*" (":" +:+ t))))
    with (String.length "chat:token:user:" + S (String.length (String "*" (":" +:+ t))))%nat
    by lia.
  intros Hm. apply globFuel_prefix in Hm as (s' & -> & _); [|reflexivity].
  exists s'. reflexivity.
Qed.

(** ** Refreshing a token *)

Lemma In_liveKeys st k : In k (Redis.liveKeys st) <-> is_Some (Redis.lookupLive st k).
Proof.
  unfold Redis.liveKeys. rewrite List.filter_In, bool_decide_eq_true.
  split; [intros [_ H]; exact H|].
  intros H. split; [|exact H].
  unfold Redis.lookupLive in H. destruct (kv st !! k) as [e|] eqn:Hk.
  - apply List.in_map_iff. exists (k, e). split; [reflexivity|].
    apply list_elem_of_In, elem_of_map_to_list. exact Hk.
  - destruct H as [v Hv]. discriminate Hv.
Qed.

Lemma getUserTokenKey_lower u t :
  getUserTokenKey (toLowerCase u) t = getUserTokenKey u t.
Proof. unfold getUserTokenKey. rewrite toLowerCase_idem. reflexivity. Qed.

(** *** Tokens are hexadecimal *)

Lemma hexDigit_byte (b : ascii) :
  isHexChar (hexDigit (code b / 16)) = true
  /\ isHexChar (hexDigit (code b mod 16)) = true
  /\ lowerChar (hexDigit (code b / 16)) = hexDigit (code b / 16)
  /\ lowerChar (hexDigit (code b mod 16)) = hexDigit (code b mod 16).
Proof.
  destruct b as [[] [] [] [] [] [] [] []]; vm_compute; repeat split; reflexivity.
Qed.

Lemma toHex_hex bytes : forallb isHexChar (toHex bytes) = true.
Proof.
  induction bytes as [|b r IH]; [reflexivity|].
  cbn [toHex forallb]. destruct (hexDigit_byte b) as (H1 & H2 & _).
  rewrite H1, H2, IH. reflexivity.
Qed.

Lemma toHex_lower bytes : toLowerCase (toHex bytes) = toHex bytes.
Proof.
  induction bytes as [|b r IH]; [reflexivity|].
  cbn [toHex toLowerCase]. destruct (hexDigit_byte b) as (_ & _ & H3 & H4).
  rewrite H3, H4, IH. reflexivity.
Qed.

Lemma toHex_truthy bytes : bytes <> [] -> truthy (toHex bytes) = true.
Proof. destruct bytes; [congruence | reflexivity]. Qed.

Lemma hex_not_user t r : forallb isHexChar t = true -> t <> "user:" +:+ r.
Proof.
  intros Hh ->. rewrite forallb_app_str in Hh.
  replace (forallb isHexChar "user:") with false in Hh by (vm_compute; reflexivity).
  discriminate Hh.
Qed.

Lemma hex_not_last t r : forallb isHexChar t = true -> t <> "last:" +:+ r.
Proof.
  intros Hh ->. rewrite forallb_app_str in Hh.
  replace (forallb isHexChar "last:") with false in Hh by (vm_compute; reflexivity).
  discriminate Hh.
Qed.

Lemma length_toLowerCase s : String.length (toLowerCase s) = String.length s.
Proof. induction s as [|c s IH]; [reflexivity|]. cbn [toLowerCase String.length]. now rewrite IH. Qed.

(** *** The keys of one (user, token) pair are distinct *)

Lemma tokenKey_inj a b : getTokenKey a = getTokenKey b -> a = b.
Proof. apply append_inj_l. Qed.

Lemma tokenKey_not_userToken t :
  forallb isHexChar t = true -> ~ isUserTokenKey (getTokenKey t).
Proof.
  intros Hh [rest H]. unfold getTokenKey, AUTH_TOKEN_PREFIX in H.
  change ("chat:token:user:" +:+ rest) with ("chat:token:" +:+ ("user:" +:+ rest)) in H.
  apply append_inj_l in H. exact (hex_not_user _ _ Hh H).
Qed.

Lemma userTokenKey_is u t : isUserTokenKey (getUserTokenKey u t).
Proof. exists (toLowerCase u +:+ ":" +:+ t). reflexivity. Qed.

Lemma userTokenKey_ne_tokenKey u a t :
  forallb isHexChar t = true -> getUserTokenKey u a <> getTokenKey t.
Proof.
  intros Hh H. apply (tokenKey_not_userToken t Hh). rewrite <- H. apply userTokenKey_is.
Qed.

Lemma userTokenKey_inj u a b : getUserTokenKey u a = getUserTokenKey u b -> a = b.
Proof.
  unfold getUserTokenKey. intros H.
  do 4 apply append_inj_l in H. exact H.
Qed.

Lemma lastKey_not_userToken u : ~ isUserTokenKey (lastTokenKeyOf u).
Proof.
  intros [rest H]. unfold lastTokenKeyOf, AUTH_TOKEN_PREFIX in H.
  change ("chat:token:user:" +:+ rest) with ("chat:token:" +:+ ("user:" +:+ rest)) in H.
  apply append_inj_l in H. cbv [String.append] in H. discriminate H.
Qed.

Lemma lastKey_ne_tokenKey u t :
  forallb isHexChar t = true -> lastTokenKeyOf u <> getTokenKey t.
Proof.
  intros Hh H. unfold lastTokenKeyOf, getTokenKey in H.
  apply append_inj_l in H. exact (hex_not_last _ _ Hh (eq_sym H)).
Qed.

Lemma lastKey_ne_legacy u : lastTokenKeyOf u <> legacyKeyOf u.
Proof.
  intros H. unfold lastTokenKeyOf, legacyKeyOf in H. apply append_inj_l in H.
  apply (f_equal String.length) in H. rewrite length_app_str in H.
  cbn [String.length] in H. lia.
Qed.

Lemma legacy_not_userToken u t : legacyKeyOf u <> getUserTokenKey u t.
Proof.
  intros H. unfold legacyKeyOf, getUserTokenKey in H. apply append_inj_l in H.
  apply (f_equal String.length) in H. rewrite !length_app_str, length_toLowerCase in H.
  cbn [String.length] in H. lia.
Qed.

(** *** Time passing *)

Lemma lookupLive_advance_None st key t :
  now st <= t -> Redis.lookupLive st key = None ->
  Redis.lookupLive (advance t st) key = None.
Proof.
  intros Ht. unfold Redis.lookupLive, advance. cbn [kv now].
  destruct (kv st !! key) as [e|]; [|reflexivity].
  unfold Redis.isLive. destruct (expiry e) as [x|]; [|discriminate].
  destruct (Z.ltb_spec (now st) x); [discriminate|].
  intros _. destruct (Z.ltb_spec t x); [lia | reflexivity].
Qed.

Lemma lookupLive_advance_put_ne key key' v ex st t :
  key <> key' ->
  Redis.lookupLive (advance t (put key v ex st)) key' = Redis.lookupLive (advance t st) key'.
Proof.
  intros Hne. unfold Redis.lookupLive, advance, put, setKv. cbn [kv now].
  rewrite lookup_insert_ne by exact Hne. reflexivity.
Qed.

Lemma lookupLive_advance_put_eq key v s st t :
  Redis.lookupLive (advance t (put key v (Some s) st)) key
  = if t <? now st + s * 1000 then Some v else None.
Proof.
  unfold Redis.lookupLive, advance, put, setKv. cbn [kv now].
  rewrite lookup_insert_eq. reflexivity.
Qed.

Lemma lookupLive_advance_frame st st' key t :
  kv st' !! key = kv st !! key ->
  Redis.lookupLive (advance t st') key = Redis.lookupLive (advance t st) key.
Proof. intros H. unfold Redis.lookupLive, advance. cbn [kv now]. rewrite H. reflexivity. Qed.

(** *** deleteToken *)

(** Deleting a hexadecimal token whose reverse record, if any, names
    the user: the reverse record and the user-scoped record are gone,
    and nothing but reverse and user-scoped records is touched. *)
Lemma deleteToken_run (T u : string) (st : State) :
  noFaults st ->
  truthy T = true -> forallb isHexChar T = true ->
  plainAt st (getTokenKey T) ->
  reverseRecordOf st T u ->
  toLowerCase u = u ->
  exists sD,
    deleteToken T st = (Ok tt, sD)
    /\ noFaults sD /\ now sD = now st /\ entropy sD = entropy st
    /\ kv sD !! getTokenKey T = None
    /\ Redis.lookupLive sD (getUserTokenKey u T) = None
    /\ (forall k, k <> getTokenKey T -> ~ isUserTokenKey k -> kv sD !! k = kv st !! k).
Proof.
  intros Hnf HT Hhex Hplain Hrev Hu.
  unfold deleteToken. rewrite HT. cbn [negb].
  rewrite bind_get by assumption.
  rewrite bind_del by exact Hnf.
  unfold reverseRecordOf in Hrev.
  set (K2 := getTokenKey T) in *.
  set (s1 := remove [K2] st).
  assert (Hnf1 : noFaults s1) by (subst s1; auto with nf).
  assert (HK2 : forall keys, kv (remove keys s1) !! K2 = None).
  { intros keys. unfold remove, setKv. cbn [kv]. rewrite lookup_deleteAll.
    destruct (bool_decide (K2 ∈ keys)); [reflexivity|].
    subst s1. unfold remove, setKv. cbn [kv]. rewrite lookup_deleteAll.
    rewrite bool_decide_eq_true_2 by (apply list_elem_of_singleton; reflexivity).
    reflexivity. }
  assert (Hframe : forall keys, (forall k, k ∈ keys -> isUserTokenKey k) ->
            forall k, k <> K2 -> ~ isUserTokenKey k -> kv (remove keys s1) !! k = kv st !! k).
  { intros keys Hkeys k Hk2 Hk.
    rewrite kv_remove_ne by (intros Hin; exact (Hk (Hkeys k Hin))).
    subst s1. apply kv_remove_ne. apply not_elem_of_1. exact Hk2. }
  destruct Hrev as [Hnone | (m & Hm & Hname)].
  - (* no reverse record: scan *)
    rewrite Hnone. cbn [truthyOpt].
    fold (userTokenPatternOf T).
    rewrite bind_scanAll by exact Hnf1.
    set (keys := List.filter (Redis.globMatch (userTokenPatternOf T)) (Redis.liveKeys s1)).
    assert (Hkeys : forall k, k ∈ keys -> isUserTokenKey k).
    { intros k Hin. apply list_elem_of_In in Hin. subst keys.
      apply List.filter_In in Hin as [_ Hg]. exact (userTokenPattern_only _ _ Hg). }
    assert (Hfound : is_Some (Redis.lookupLive s1 (getUserTokenKey u T)) ->
                     getUserTokenKey u T ∈ keys).
    { intros Hl. apply list_elem_of_In. subst keys. apply List.filter_In. split.
      - apply In_liveKeys. exact Hl.
      - apply userTokenPattern_matches. exact Hhex. }
    destruct (0 <? List.length keys)%nat eqn:Hlen.
    + rewrite bind_del by exact Hnf1. unfold ret.
      exists (remove keys s1).
      split; [reflexivity|]. split; [auto with nf|].
      split; [reflexivity|]. split; [reflexivity|].
      split; [apply HK2|]. split; [|apply Hframe; exact Hkeys].
      rewrite lookupLive_remove.
      destruct (decide (getUserTokenKey u T ∈ keys)) as [Hin|Hin].
      * rewrite bool_decide_eq_true_2 by exact Hin. reflexivity.
      * rewrite bool_decide_eq_false_2 by exact Hin.
        destruct (Redis.lookupLive s1 (getUserTokenKey u T)) eqn:Hl; [|reflexivity].
        exfalso. apply Hin, Hfound. eauto.
    + exists s1. unfold ret.
      split; [reflexivity|]. split; [exact Hnf1|].
      split; [reflexivity|]. split; [reflexivity|].
      split; [exact (HK2 [])|]. split; [|exact (Hframe [] ltac:(intros k Hin; inversion Hin))].
      destruct (Redis.lookupLive s1 (getUserTokenKey u T)) eqn:Hl; [|reflexivity].
      exfalso. assert (Hin : getUserTokenKey u T ∈ keys) by (apply Hfound; eauto).
      destruct keys; [inversion Hin | discriminate Hlen].
  - rewrite Hm. cbn [truthyOpt truthyValue].
    destruct (truthy m) eqn:Htm.
    + (* the reverse record names the user *)
      specialize (Hname eq_refl).
      rewrite bind_del by exact Hnf1. unfold ret.
      assert (Hkey : getUserTokenKey m T = getUserTokenKey u T).
      { rewrite <- (getUserTokenKey_lower m), Hname. reflexivity. }
      rewrite Hkey.
      exists (remove [getUserTokenKey u T] s1).
      split; [reflexivity|]. split; [auto with nf|].
      split; [reflexivity|]. split; [reflexivity|].
      split; [apply HK2|]. split.
      * rewrite lookupLive_remove.
        rewrite bool_decide_eq_true_2 by (apply list_elem_of_singleton; reflexivity).
        reflexivity.
      * apply Hframe. intros k Hin. apply list_elem_of_singleton in Hin. subst k.
        apply userTokenKey_is.
    + (* an empty reverse record: scan *)
      fold (userTokenPatternOf T).
      rewrite bind_scanAll by exact Hnf1.
      set (keys := List.filter (Redis.globMatch (userTokenPatternOf T)) (Redis.liveKeys s1)).
      assert (Hkeys : forall k, k ∈ keys -> isUserTokenKey k).
      { intros k Hin. apply list_elem_of_In in Hin. subst keys.
        apply List.filter_In in Hin as [_ Hg]. exact (userTokenPattern_only _ _ Hg). }
      assert (Hfound : is_Some (Redis.lookupLive s1 (getUserTokenKey u T)) ->
                       getUserTokenKey u T ∈ keys).
      { intros Hl. apply list_elem_of_In. subst keys. apply List.filter_In. split.
        - apply In_liveKeys. exact Hl.
        - apply userTokenPattern_matches. exact Hhex. }
      destruct (0 <? List.length keys)%nat eqn:Hlen.
      * rewrite bind_del by exact Hnf1. unfold ret.
        exists (remove keys s1).
        split; [reflexivity|]. split; [auto with nf|].
        split; [reflexivity|]. split; [reflexivity|].
        split; [apply HK2|]. split; [|apply Hframe; exact Hkeys].
        rewrite lookupLive_remove.
        destruct (decide (getUserTokenKey u T ∈ keys)) as [Hin|Hin].
        -- rewrite bool_decide_eq_true_2 by exact Hin. reflexivity.
        -- rewrite bool_decide_eq_false_2 by exact Hin.
           destruct (Redis.lookupLive s1 (getUserTokenKey u T)) eqn:Hl; [|reflexivity].
           exfalso. apply Hin, Hfound. eauto.
      * exists s1. unfold ret.
        split; [reflexivity|]. split; [exact Hnf1|].
        split; [reflexivity|]. split; [reflexivity|].
        split; [exact (HK2 [])|]. split; [|exact (Hframe [] ltac:(intros k Hin; inversion Hin))].
        destruct (Redis.lookupLive s1 (getUserTokenKey u T)) eqn:Hl; [|reflexivity].
        exfalso. assert (Hin : getUserTokenKey u T ∈ keys) by (apply Hfound; eauto).
        destruct keys; [inversion Hin | discriminate Hlen].
Qed.

(** *** What a validation leaves behind *)

Lemma lookupLive_touch_any key key' s st :
  0 < s -> Redis.lookupLive (touch key s st) key' = Redis.lookupLive st key'.
Proof.
  intros Hs. destruct (decide (key = key')) as [->|Hne].
  - apply lookupLive_touch_eq. exact Hs.
  - apply lookupLive_touch_ne. exact Hne.
Qed.

Lemma entropy_touch key s st : entropy (touch key s st) = entropy st.
Proof. unfold touch. destruct (Redis.lookupLive st key); reflexivity. Qed.

Lemma noFaults_authEffect p u t st : noFaults st -> noFaults (authEffect p u t st).
Proof. intros H. destruct p; cbn [authEffect]; auto with nf. Qed.

Lemma now_authEffect p u t st : now (authEffect p u t st) = now st.
Proof. destruct p; cbn [authEffect]; rewrite ?now_put, ?now_touch; reflexivity. Qed.

Lemma entropy_authEffect p u t st : entropy (authEffect p u t st) = entropy st.
Proof.
  destruct p; cbn [authEffect]; unfold put, setKv; cbn [entropy];
    rewrite ?entropy_touch; reflexivity.
Qed.

(** A validation leaves the reverse record of the token as it was. *)
Lemma authEffect_tokenKey p u t st :
  forallb isHexChar t = true ->
  Redis.lookupLive (authEffect p u t st) (getTokenKey t) = Redis.lookupLive st (getTokenKey t).
Proof.
  intros Hh. assert (Hpos : 0 < USER_TTL_SECONDS) by reflexivity.
  destruct p; cbn [authEffect];
    rewrite ?(lookupLive_put_ne _ _ _ _ _ (userTokenKey_ne_tokenKey _ _ _ Hh));
    rewrite ?lookupLive_touch_any by exact Hpos; reflexivity.
Qed.

Lemma validateAuth_run_lower (u t : string) (allowExpired : bool) (st : State) :
  toLowerCase u = u ->
  noFaults st ->
  truthy u = true -> truthy t = true ->
  plainAt st (getTokenKey t) ->
  plainAt st (legacyKeyOf u) ->
  plainAt st (lastTokenKeyOf u) ->
  validateAuth (Some u) (Some t) allowExpired st
  = (Ok (authResultOf (authPath st u t allowExpired)),
     authEffect (authPath st u t allowExpired) u t st).
Proof.
  intros Hu Hnf Htu Ht H1 H2 H3.
  pose proof (validateAuth_run u t allowExpired st Hnf Htu Ht H1) as H.
  rewrite Hu in H. exact (H H2 H3).
Qed.

Lemma generateAuthToken_run {B} (k : string -> M B) st :
  bind generateAuthToken k st = k (nextToken st) (spend TOKEN_LENGTH st).
Proof.
  unfold generateAuthToken. rewrite bind_bind.
  unfold bind at 1. unfold randomBytes. rewrite bind_ret. reflexivity.
Qed.

Lemma nextToken_hex st : forallb isHexChar (nextToken st) = true.
Proof. apply toHex_hex. Qed.

Lemma nextToken_lower st : toLowerCase (nextToken st) = nextToken st.
Proof. apply toHex_lower. Qed.

Lemma nextToken_truthy st : truthy (nextToken st) = true.
Proof.
  apply toHex_truthy. intros H. apply (f_equal (@List.length ascii)) in H.
  rewrite List.length_firstn, List.length_app, List.repeat_length in H.
  unfold TOKEN_LENGTH in H. cbn [List.length] in H. lia.
Qed.

Lemma storeToken_run u t st :
  noFaults st -> truthy t = true -> toLowerCase u = u ->
  storeToken u t st
  = (Ok tt, put (getTokenKey t) (VStr u) (Some USER_EXPIRATION_TIME)
              (put (getUserTokenKey u t) (VNum (now st)) (Some USER_EXPIRATION_TIME) st)).
Proof.
  intros Hnf Ht Hu. unfold storeToken. rewrite Ht, Hu. cbn [negb].
  rewrite bind_getCurrentTimestamp.
  rewrite bind_set by exact Hnf.
  unfold Redis.set. rewrite bind_tick by auto with nf. reflexivity.
Qed.

Lemma valid_authResultOf p : p <> PathNone -> valid (authResultOf p) = true.
Proof. destruct p; [reflexivity..|congruence]. Qed.

(** The run of a refresh that is accepted: the store after it is the
    store [sD] left by deleteToken, with the entropy spent and the
    three records of the new token written. *)
Lemma handleRefreshToken_run (name T : string) (st : State) :
  let u := toLowerCase name in
  let A := nextToken st in
  noFaults st ->
  truthy name = true ->
  isHexToken T = true ->
  userKnown st u ->
  plainAt st (getTokenKey T) ->
  plainAt st (legacyKeyOf u) ->
  plainAt st (lastTokenKeyOf u) ->
  reverseRecordOf st T u ->
  authPath st u T true <> PathNone ->
  exists sD,
    handleRefreshToken (mkRefresh (Some name) (Some T)) st
    = (Ok (mkResponse (BToken A) 201),
       put (getTokenKey A) (VStr u) (Some USER_EXPIRATION_TIME)
         (put (getUserTokenKey u A) (VNum (now sD)) (Some USER_EXPIRATION_TIME)
            (put (legacyKeyOf u) (VStr A) (Some USER_EXPIRATION_TIME)
               (spend TOKEN_LENGTH sD))))
    /\ noFaults sD
    /\ now sD = now st
    /\ kv sD !! getTokenKey T = None
    /\ Redis.lookupLive sD (getUserTokenKey u T) = None
    /\ kv sD !! lastTokenKeyOf u
       = Some (mkEntry (VTokenData (TokenData.mk T (now st))) (Some (now st + GRACE_MS))).
Proof.
  intros u A Hnf Hname Htok [Hup Hut] Hp1 Hp2 Hp3 Hrev Hacc.
  apply andb_true_iff in Htok as [HT Hhex].
  assert (Hu : toLowerCase u = u) by apply toLowerCase_idem.
  assert (Htu : truthy u = true) by (subst u; rewrite truthy_toLowerCase; exact Hname).
  set (p := authPath st u T true) in *.
  set (sV := authEffect p u T st).
  set (sL := put (lastTokenKeyOf u) (VTokenData (TokenData.mk T (now st)))
                 (Some TOKEN_GRACE_PERIOD) sV).
  assert (HnfV : noFaults sV) by (apply noFaults_authEffect; exact Hnf).
  assert (HnfL : noFaults sL) by (subst sL; auto with nf).
  assert (HtokL : Redis.lookupLive sL (getTokenKey T) = Redis.lookupLive st (getTokenKey T)).
  { subst sL. rewrite lookupLive_put_ne by (apply lastKey_ne_tokenKey; exact Hhex).
    apply authEffect_tokenKey. exact Hhex. }
  destruct (deleteToken_run T u sL HnfL HT Hhex) as (sD & Hdel & HnfD & HnowD & HentD & HD2 & HD1 & HDf).
  { unfold plainAt. rewrite HtokL. exact Hp1. }
  { unfold reverseRecordOf. rewrite HtokL. exact Hrev. }
  { exact Hu. }
  assert (HnowL : now sL = now st).
  { subst sL. rewrite now_put. apply now_authEffect. }
  exists sD.
  split; [|split; [exact HnfD|split; [congruence|split; [exact HD2|split; [exact HD1|]]]]].
  - unfold handleRefreshToken. cbn [rt_username rt_oldToken].
    rewrite Hname, HT. cbn [negb orb]. fold u.
    unfold tryCatch.
    fold (userKeyOf u).
    rewrite bind_get by assumption.
    rewrite Hut. cbn [negb].
    rewrite (bind_ok _ _ _ _ _ (validateAuth_run_lower u T true st Hu Hnf Htu HT Hp1 Hp2 Hp3)).
    fold p. rewrite (valid_authResultOf p Hacc). cbn [negb].
    rewrite bind_dateNow.
    unfold storeLastValidToken. rewrite Hu.
    fold (lastTokenKeyOf u). fold sV.
    rewrite bind_set by exact HnfV.
    replace (now sV) with (now st) by (symmetry; apply now_authEffect).
    fold sL.
    rewrite (bind_ok _ _ _ _ _ Hdel).
    rewrite generateAuthToken_run.
    replace (nextToken sD) with A.
    2:{ unfold A, nextToken. rewrite HentD. subst sL. unfold put, setKv. cbn [entropy].
        subst sV. rewrite entropy_authEffect. reflexivity. }
    fold (legacyKeyOf u).
    rewrite bind_set by exact HnfD.
    rewrite (bind_ok _ _ _ _ _
               (storeToken_run u A
                  (put (legacyKeyOf u) (VStr A) (Some USER_EXPIRATION_TIME)
                     (spend TOKEN_LENGTH sD))
                  HnfD (nextToken_truthy st) Hu)).
    reflexivity.
  - rewrite HDf.
    + subst sL. unfold put, setKv. cbn [kv option_map].
      rewrite lookup_insert_eq. subst sV. rewrite now_authEffect. reflexivity.
    + apply lastKey_ne_tokenKey. exact Hhex.
    + apply lastKey_not_userToken.
Qed.

(** C4. A refresh that accepts the old token answers 201 with a new
    token, records the old token as the last known token of the user
    and deletes it from the live-token records: from then on
    validateAuth without allowExpired rejects the old token, and with
    allowExpired it answers valid and expired until the grace window
    has elapsed (and rejects it afterwards).  The old token is a
    hexadecimal token whose reverse record, if there is one, names the
    user, and the new token differs from it. *)
Theorem refresh_invalidates_old_token (name T : string) (st : State) :
  let u := toLowerCase name in
  noFaults st ->
  truthy name = true ->
  isHexToken T = true ->
  userKnown st u ->
  plainAt st (getTokenKey T) ->
  plainAt st (legacyKeyOf u) ->
  plainAt st (lastTokenKeyOf u) ->
  reverseRecordOf st T u ->
  authPath st u T true <> PathNone ->
  nextToken st <> T ->
  exists st',
    handleRefreshToken (mkRefresh (Some name) (Some T)) st
    = (Ok (mkResponse (BToken (nextToken st)) 201), st')
    /\ forall t, now st <= t ->
         Redis.lookupLive (advance t st') (lastTokenKeyOf u)
         = (if t <? now st + GRACE_MS
            then Some (VTokenData (TokenData.mk T (now st))) else None)
         /\ directRecord (advance t st') u T = false
         /\ reverseRecordNames (advance t st') u T = false
         /\ legacyRecordIs (advance t st') u T = false
         /\ validateAuth (Some name) (Some T) false (advance t st')
            = (Ok (mkAuth false None), advance t st')
         /\ validateAuth (Some name) (Some T) true (advance t st')
            = (Ok (afterRefresh (now st) t), advance t st').
Proof.
  intros u Hnf Hname Htok Huser Hp1 Hp2 Hp3 Hrev Hacc Hnew.
  destruct (handleRefreshToken_run name T st Hnf Hname Htok Huser Hp1 Hp2 Hp3 Hrev Hacc)
    as (sD & Hrun & HnfD & HnowD & HD2 & HD1 & HD4).
  fold u in Hrun, HD1, HD4.
  apply andb_true_iff in Htok as [HT Hhex].
  set (A := nextToken st) in *.
  assert (HhexA : forallb isHexChar A = true) by apply nextToken_hex.
  match type of Hrun with _ = (_, ?s) => set (st' := s) in * end.
  exists st'. split; [exact Hrun|].
  intros t Ht.
  assert (H1 : Redis.lookupLive (advance t st') (getUserTokenKey u T) = None).
  { subst st'.
    rewrite lookupLive_advance_put_ne
      by (apply not_eq_sym, userTokenKey_ne_tokenKey; exact HhexA).
    rewrite lookupLive_advance_put_ne
      by (intros H; apply userTokenKey_inj in H; exact (Hnew H)).
    rewrite lookupLive_advance_put_ne by apply legacy_not_userToken.
    change (Redis.lookupLive (advance t sD) (getUserTokenKey u T) = None).
    apply lookupLive_advance_None; [lia | exact HD1]. }
  assert (H2 : Redis.lookupLive (advance t st') (getTokenKey T) = None
               \/ (Redis.lookupLive (advance t st') (getTokenKey T) = Some (VStr A)
                   /\ u = T)).
  { subst st'.
    rewrite lookupLive_advance_put_ne
      by (intros H; apply tokenKey_inj in H; exact (Hnew H)).
    rewrite lookupLive_advance_put_ne
      by (apply userTokenKey_ne_tokenKey; exact Hhex).
    destruct (decide (legacyKeyOf u = getTokenKey T)) as [e|Hne].
    - rewrite <- e, lookupLive_advance_put_eq.
      destruct (t <? _); [right | left; reflexivity].
      split; [reflexivity|]. exact (tokenKey_inj _ _ e).
    - rewrite lookupLive_advance_put_ne by exact Hne.
      left. unfold Redis.lookupLive, advance, spend. cbn [kv now].
      rewrite HD2. reflexivity. }
  assert (H3 : Redis.lookupLive (advance t st') (legacyKeyOf u) = None
               \/ Redis.lookupLive (advance t st') (legacyKeyOf u) = Some (VStr A)).
  { subst st'.
    destruct (decide (getTokenKey A = legacyKeyOf u)) as [e|Hne].
    - rewrite <- e, lookupLive_advance_put_eq.
      destruct (t <? _); [right | left; reflexivity].
      rewrite <- (tokenKey_inj _ _ e). reflexivity.
    - rewrite lookupLive_advance_put_ne by exact Hne.
      rewrite lookupLive_advance_put_ne by (apply not_eq_sym, legacy_not_userToken).
      rewrite lookupLive_advance_put_eq.
      destruct (t <? _); [right | left]; reflexivity. }
  assert (H4 : Redis.lookupLive (advance t st') (lastTokenKeyOf u)
               = (if t <? now st + GRACE_MS
                  then Some (VTokenData (TokenData.mk T (now st))) else None)).
  { subst st'.
    rewrite lookupLive_advance_put_ne
      by (apply not_eq_sym, lastKey_ne_tokenKey; exact HhexA).
    rewrite lookupLive_advance_put_ne
      by (intros H; apply (lastKey_not_userToken u); rewrite <- H; apply userTokenKey_is).
    rewrite lookupLive_advance_put_ne by (apply not_eq_sym, lastKey_ne_legacy).
    unfold Redis.lookupLive, advance, spend. cbn [kv now].
    rewrite HD4. reflexivity. }
  assert (Hd : directRecord (advance t st') u T = false).
  { unfold directRecord, isLiveKey. rewrite H1.
    apply bool_decide_eq_false_2. intros [v Hv]. discriminate Hv. }
  assert (Hr : reverseRecordNames (advance t st') u T = false).
  { unfold reverseRecordNames. apply bool_decide_eq_false_2.
    destruct H2 as [-> | [-> HuT]]; cbn [mappedLowerOf]; [discriminate|].
    unfold A. rewrite nextToken_lower. intros [= H]. apply Hnew. unfold A. congruence. }
  assert (Hl : legacyRecordIs (advance t st') u T = false).
  { unfold legacyRecordIs. destruct H3 as [-> | ->]; cbn [isToken]; [reflexivity|].
    apply String.eqb_neq. exact Hnew. }
  assert (Hg : graceRecordAdmits (advance t st') u T = (t <? now st + GRACE_MS)).
  { unfold graceRecordAdmits. rewrite H4.
    destruct (t <? now st + GRACE_MS) eqn:Hlt; [|reflexivity].
    cbn [TokenData.token TokenData.expiredAt]. rewrite String.eqb_refl.
    exact Hlt. }
  assert (Hrunv : forall allow,
            validateAuth (Some name) (Some T) allow (advance t st')
            = (Ok (authResultOf (authPath (advance t st') u T allow)),
               authEffect (authPath (advance t st') u T allow) u T (advance t st'))).
  { intros allow. apply validateAuth_run; [exact HnfD | exact Hname | exact HT | | |].
    - unfold plainAt. destruct H2 as [-> | [-> _]]; exact I.
    - fold u. unfold plainAt. destruct H3 as [-> | ->]; exact I.
    - fold u. unfold plainAt. rewrite H4. destruct (t <? _); exact I. }
  split; [exact H4|]. split; [exact Hd|]. split; [exact Hr|]. split; [exact Hl|].
  split.
  - rewrite Hrunv. unfold authPath. rewrite Hd, Hr, Hl. reflexivity.
  - rewrite Hrunv. unfold authPath. rewrite Hd, Hr, Hl, Hg. cbn [andb].
    unfold afterRefresh. destruct (t <? now st + GRACE_MS); reflexivity.
Qed.

(** ** The theorems at work on concrete stores *)

Ltac run := vm_compute; reflexivity.

Lemma sendReady_privateStore : sendReady profaneNothing privateStore "r1" "alice".
Proof.
  unfold sendReady.
  refine (conj _ (conj _ (conj _ (conj _ (conj _ (conj _ _)))))); try run.
  - left. run.
  - right. eexists. run.
Defined.

(** C8 at work: a store that fails lets the request through; a counter
    at the limit refuses it and the store keeps its data. *)
Lemma checkRateLimit_fail_open_witness :
  fst (checkRateLimit "generateToken" "alice" failingStore) = Ok true
  /\ fst (checkRateLimit "generateToken" "alice" limitedStore) = Ok false
  /\ kv (snd (checkRateLimit "generateToken" "alice" limitedStore)) = kv limitedStore.
Proof.
  split.
  - destruct (checkRateLimit_fail_open "generateToken" "alice" failingStore)
      as (allowed & st' & Hrun & Hthrow & _).
    rewrite Hrun. cbn [fst]. f_equal. apply Hthrow.
    assert (Hst : st' = snd (checkRateLimit "generateToken" "alice" failingStore))
      by (rewrite Hrun; reflexivity).
    rewrite Hst. vm_compute. eexists. reflexivity.
  - destruct (checkRateLimit_fail_open "generateToken" "alice" limitedStore)
      as (allowed & st' & Hrun & _ & Hsame & Hlim).
    assert (Hat : atLimit limitedStore (rateKey "generateToken" "alice")).
    { refine (ex_intro _ (VNum 10) (ex_intro _ 10 (conj _ (conj _ (conj _ _))))); try run.
      unfold RATE_LIMIT_ATTEMPTS. lia. }
    assert (Hfalse : allowed = false) by (apply Hlim; [exact Hat | reflexivity]).
    destruct (Hsame Hfalse) as [(Hkv & _) _].
    rewrite Hrun, Hfalse. cbn [fst snd]. split; [reflexivity | exact Hkv].
Defined.

(** C5 at work: alice's token is found by the first path. *)
Lemma validateAuth_four_paths_witness :
  authPath tokenStore "alice" "ab12" false = PathDirect
  /\ validateAuth (Some "Alice") (Some "ab12") false tokenStore
     = (Ok (mkAuth true (Some false)), authEffect PathDirect "alice" "ab12" tokenStore)
  /\ fst (validateAuth (Some "Alice") (Some "0000") true tokenStore) = Ok (mkAuth false None).
Proof.
  assert (Hp : authPath tokenStore "alice" "ab12" false = PathDirect) by run.
  split; [exact Hp|]. split.
  - pose proof (validateAuth_four_paths "Alice" "ab12" false tokenStore) as H.
    cbv zeta in H.
    destruct H as (Hrun & _ & _); [reflexivity | reflexivity | reflexivity
                                   | vm_compute; exact I | vm_compute; exact I
                                   | vm_compute; exact I |].
    change (toLowerCase "Alice") with "alice" in Hrun.
    rewrite Hp in Hrun. exact Hrun.
  - pose proof (validateAuth_four_paths "Alice" "0000" true tokenStore) as H.
    cbv zeta in H.
    destruct H as (Hrun & Hnone & _); [reflexivity | reflexivity | reflexivity
                                       | vm_compute; exact I | vm_compute; exact I
                                       | vm_compute; exact I |].
    rewrite Hrun. cbn [fst].
    assert (Hv : valid (authResultOf (authPath tokenStore (toLowerCase "Alice") "0000" true))
                 = false).
    { apply Hnone. repeat split; try run. }
    destruct (authPath tokenStore (toLowerCase "Alice") "0000" true);
      try discriminate Hv; reflexivity.
Defined.

(** C10 (amended) at work: createRoom with alice in the body and bob in
    the header is answered 401 and the store is left as it was. *)
Lemma POST_username_mismatch_witness :
  POST runNothing (mismatchRequest "createRoom") privateStore
  = (Ok (createErrorResponse "Username mismatch" 401), privateStore).
Proof.
  destruct (POST_username_mismatch runNothing (mismatchRequest "createRoom") privateStore
              "createRoom" "alice") as (H & _);
    [reflexivity | run | reflexivity | reflexivity
     | intros E; vm_compute in E; discriminate E |].
  apply H. run.
Defined.

(** C10 as stated fails: generateToken is a protected action, and a
    sensitive one; with alice in the body and bob in the header the
    limiter answers 429 when alice's counter is at the limit, and
    otherwise writes the counter before the 401. *)
Lemma POST_mismatch_limiter_runs_first :
  includes "generateToken" protectedActions = true
  /\ Some (toLowerCase "alice")
     <> option_map toLowerCase (authUsername (extractAuth (headers (mismatchRequest "generateToken"))))
  /\ fst (POST runNothing (mismatchRequest "generateToken") limitedStore)
     = Ok (createErrorResponse "Too many requests, please slow down" 429)
  /\ fst (POST runNothing (mismatchRequest "generateToken") limitedStore)
     <> Ok (createErrorResponse "Username mismatch" 401)
  /\ fst (POST runNothing (mismatchRequest "generateToken") (storeOf [] 1000))
     = Ok (createErrorResponse "Username mismatch" 401)
  /\ Redis.lookupLive (storeOf [] 1000) "rl:generateToken:alice" = None
  /\ Redis.lookupLive (snd (POST runNothing (mismatchRequest "generateToken") (storeOf [] 1000)))
       "rl:generateToken:alice" = Some (VNum 1).
Proof.
  split; [run|]. split; [intros E; vm_compute in E; discriminate E|].
  split; [run|]. split; [intros E; vm_compute in E; discriminate E|].
  split; [run|]. split; run.
Qed.


(** C9 at work: a URL of 1000 characters, 991 of them ampersands, is
    refused as too long. *)
Lemma length_limit_on_sanitized_witness :
  (String.length ampersandUrl <= MAX_MESSAGE_LENGTH)%nat
  /\ fst (handleSendMessage cleanNothing profaneNothing
            (mkSend "r1" "Alice" ampersandUrl) privateStore)
     = Ok RESP_TOO_LONG.
Proof.
  split; [apply Nat.leb_le; run|].
  pose proof (length_limit_on_sanitized cleanNothing profaneNothing
                (mkSend "r1" "Alice" ampersandUrl) privateStore privateStore) as H.
  cbv zeta in H.
  destruct H as (Hiff & _); [exact sendReady_privateStore | reflexivity | run |].
  apply Hiff. apply Nat.ltb_lt. run.
Defined.

(** C3 (amended) at work: alice, present, leaves the room of two and
    the room is gone; she leaves the room of three and it stays, with
    bob and carol. *)
Lemma leave_private_room_witness :
  (exists st',
      handleLeaveRoom (mkJoinLeave (Some "r1") (Some "Alice")) privateStore
      = (Ok (okResponse BSuccess), st')
      /\ fst (handleGetRoom "r1" st') = Ok RESP_ROOM_NOT_FOUND)
  /\ (exists st' n,
        handleLeaveRoom (mkJoinLeave (Some "r1") (Some "Alice")) threePartyStore
        = (Ok (okResponse BSuccess), st')
        /\ Redis.lookupLive st' (roomKeyOf "r1")
           = Some (VRoom (Room.withMembers threeParty ["bob"; "carol"] n))).
Proof.
  split.
  - pose proof (leave_private_room "r1" "Alice" twoParty privateStore) as H.
    cbv zeta in H.
    destruct H as (st' & Hrun & _ & Hlive & _);
      [reflexivity | run | run | run | reflexivity | left; run |].
    exists st'. split; [exact Hrun|].
    destruct (Hlive ltac:(run)) as (_ & Hdel & _).
    apply Hdel. apply Nat.leb_le. run.
  - pose proof (leave_private_room "r1" "Alice" threeParty threePartyStore) as H.
    cbv zeta in H.
    destruct H as (st' & Hrun & _ & Hlive & _);
      [reflexivity | run | run | run | reflexivity | left; run |].
    destruct (Hlive ltac:(run)) as (_ & _ & Hkeep).
    destruct (Hkeep ltac:(apply Nat.ltb_lt; run)) as [n Hn].
    exists st', n. split; [exact Hrun | exact Hn].
Defined.

(** C3 as stated fails: alice is a member of the room of two, her
    presence record has lapsed; she leaves, and the room stays, alice
    still a member of it. *)
Lemma leave_without_presence_keeps_room :
  Redis.lookupLive lapsedStore (roomKeyOf "r1") = Some (VRoom twoParty)
  /\ Room.type twoParty = Some Private
  /\ Room.members twoParty = Some ["alice"; "bob"]
  /\ fst (handleLeaveRoom (mkJoinLeave (Some "r1") (Some "alice")) lapsedStore)
     = Ok (okResponse BSuccess)
  /\ Redis.lookupLive (snd (handleLeaveRoom (mkJoinLeave (Some "r1") (Some "alice")) lapsedStore))
       (roomKeyOf "r1") = Some (VRoom twoParty)
  /\ fst (handleGetRoom "r1"
            (snd (handleLeaveRoom (mkJoinLeave (Some "r1") (Some "alice")) lapsedStore)))
     <> Ok RESP_ROOM_NOT_FOUND.
Proof.
  split; [run|]. split; [run|]. split; [run|]. split; [run|]. split; [run|].
  intros E. vm_compute in E. discriminate E.
Qed.

(** C4 at work: alice refreshes the token [ab12]; four seconds later
    the old token is refused, and accepted as expired when expired
    tokens are allowed. *)
Lemma refresh_invalidates_old_token_witness :
  exists st',
    handleRefreshToken (mkRefresh (Some "Alice") (Some "ab12")) tokenStore
    = (Ok (mkResponse (BToken (nextToken tokenStore)) 201), st')
    /\ fst (validateAuth (Some "Alice") (Some "ab12") false (advance 5000 st'))
       = Ok (mkAuth false None)
    /\ fst (validateAuth (Some "Alice") (Some "ab12") true (advance 5000 st'))
       = Ok (mkAuth true (Some true)).
Proof.
  pose proof (refresh_invalidates_old_token "Alice" "ab12" tokenStore) as H.
  cbv zeta in H.
  destruct H as (st' & Hrun & Hall);
    [ reflexivity | reflexivity | run
    | split; vm_compute; [exact I | reflexivity]
    | vm_compute; exact I | vm_compute; exact I | vm_compute; exact I
    | right; exists "alice"; split; [run | intros _; reflexivity]
    | intros E; vm_compute in E; discriminate E
    | intros E; vm_compute in E; discriminate E | ].
  exists st'. split; [exact Hrun|].
  destruct (Hall 5000) as (_ & _ & _ & _ & Hf & Ht).
  { intros E; vm_compute in E; discriminate E. }
  rewrite Hf, Ht. split; reflexivity.
Defined.

(** * Further properties *)

(** * Further properties of the service *)

(** ** Escaping *)

Ltac by_byte c := destruct c as [[] [] [] [] [] [] [] []].

(** What escapeHTML does to one character. *)
Lemma escapeChar_spec c :
  (isHtmlSpecial c = false /\ escapeChar c = String c EmptyString)
  \/ (c = "&"%char /\ escapeChar c = "&amp;")
  \/ (c = "<"%char /\ escapeChar c = "&lt;")
  \/ (c = ">"%char /\ escapeChar c = "&gt;")
  \/ (c = ascii_of_N 34 /\ escapeChar c = "&quot;")
  \/ (c = "'"%char /\ escapeChar c = "&#39;").
Proof.
  by_byte c;
    first [ left; split; reflexivity
          | right; left; split; reflexivity
          | right; right; left; split; reflexivity
          | right; right; right; left; split; reflexivity
          | right; right; right; right; left; split; reflexivity
          | right; right; right; right; right; split; reflexivity ].
Qed.

Lemma escapeHTML_cons c r : escapeHTML (String c r) = escapeChar c +:+ escapeHTML r.
Proof. reflexivity. Qed.

Lemma escapeChar_length c :
  (1 <= String.length (escapeChar c) <= 6)%nat.
Proof.
  destruct (escapeChar_spec c) as [[_ ->] | [[_ ->] | [[_ ->] | [[_ ->] | [[_ ->] | [_ ->]]]]]];
    cbn [String.length]; lia.
Qed.

Ltac norm_app := repeat rewrite append_cons in *; rewrite ?append_nil_l in *.

Lemma escapeHTML_inj : forall a b, escapeHTML a = escapeHTML b -> a = b.
Proof.
  induction a as [|c r IH]; intros [|d r'] H.
  - reflexivity.
  - exfalso. rewrite escapeHTML_cons in H. cbn [escapeHTML] in H.
    apply (f_equal String.length) in H. rewrite length_app_str in H.
    pose proof (escapeChar_length d). cbn [String.length] in H. lia.
  - exfalso. rewrite escapeHTML_cons in H. cbn [escapeHTML] in H.
    apply (f_equal String.length) in H. rewrite length_app_str in H.
    pose proof (escapeChar_length c). cbn [String.length] in H. lia.
  - rewrite !escapeHTML_cons in H.
    destruct (escapeChar_spec c) as [[Hc Ec] | [[-> Ec] | [[-> Ec] | [[-> Ec] | [[-> Ec] | [-> Ec]]]]]];
      destruct (escapeChar_spec d) as [[Hd Ed] | [[-> Ed] | [[-> Ed] | [[-> Ed] | [[-> Ed] | [-> Ed]]]]]];
      rewrite ?Ec, ?Ed in H; norm_app;
      try discriminate H;
      try (injection H as H; f_equal; apply IH; exact H);
      try (injection H as Hcd H; subst; discriminate);
      try (injection H as Hcd H; f_equal; [exact Hcd | apply IH; exact H]).
Qed.

Lemma escapeHTML_length s :
  (String.length s <= String.length (escapeHTML s) <= 6 * String.length s)%nat.
Proof.
  induction s as [|c r IH]; [cbn; lia|].
  rewrite escapeHTML_cons, length_app_str. pose proof (escapeChar_length c).
  cbn [String.length]. lia.
Qed.

Lemma escapeHTML_plain s :
  forallb (fun c => negb (isHtmlSpecial c)) s = true -> escapeHTML s = s.
Proof.
  induction s as [|c r IH]; [reflexivity|]. cbn [forallb].
  intros H. apply andb_true_iff in H as [Hc Hr].
  rewrite escapeHTML_cons, (IH Hr).
  destruct (escapeChar_spec c) as [[_ ->] | [[-> _] | [[-> _] | [[-> _] | [[-> _] | [-> _]]]]]];
    try discriminate Hc.
  reflexivity.
Qed.

Lemma escapeHTML_grows s :
  forallb (fun c => negb (isHtmlSpecial c)) s = false ->
  (String.length s < String.length (escapeHTML s))%nat.
Proof.
  induction s as [|c r IH]; [discriminate|]. cbn [forallb].
  rewrite escapeHTML_cons, length_app_str. cbn [String.length].
  pose proof (escapeHTML_length r) as Hr.
  destruct (escapeChar_spec c) as [[Hc ->] | [[-> ->] | [[-> ->] | [[-> ->] | [[-> ->] | [-> ->]]]]]];
    cbn [String.length]; try lia.
  rewrite Hc. cbn [negb andb]. intros H. specialize (IH H). lia.
Qed.

(** X1. escapeHTML loses nothing and leaves no markup: it is
    injective; it never shortens its input and at most multiplies its
    length by six; it leaves a string unchanged exactly when the string
    holds none of the five characters; it distributes over
    concatenation; and its output holds no [<], [>], double or single
    quote. *)
Theorem escapeHTML_injective :
  (forall a b, escapeHTML a = escapeHTML b -> a = b)
  /\ (forall s, (String.length s <= String.length (escapeHTML s) <= 6 * String.length s)%nat)
  /\ (forall s, escapeHTML s = s <-> forallb (fun c => negb (isHtmlSpecial c)) s = true)
  /\ (forall a b, escapeHTML (a +:+ b) = escapeHTML a +:+ escapeHTML b)
  /\ (forall s, forallb (fun c => negb (isMarkupChar c)) (escapeHTML s) = true).
Proof.
  split; [exact escapeHTML_inj|]. split; [exact escapeHTML_length|].
  split; [|split; [exact escapeHTML_app | exact escapeHTML_no_markup]].
  intros s. split; [|apply escapeHTML_plain].
  intros H. destruct (forallb _ s) eqn:Hf; [reflexivity|].
  apply escapeHTML_grows in Hf. rewrite H in Hf. lia.
Qed.

(** ** Usernames *)

Lemma alnum_not_separator c : isAlnum c = true -> isSeparator c = false.
Proof. by_byte c; first [reflexivity | discriminate]. Qed.

Lemma letter_is_alnum c : isLetter c = true -> isAlnum c = true.
Proof. unfold isAlnum. intros ->. reflexivity. Qed.

Lemma lowerChar_classes c :
  isLetter (lowerChar c) = isLetter c
  /\ isAlnum (lowerChar c) = isAlnum c
  /\ isSeparator (lowerChar c) = isSeparator c.
Proof. by_byte c; repeat split; reflexivity. Qed.

(** The tail of the regular expression, in the words of validName. *)
Lemma usernameTail_spec r :
  usernameTail r
  = if forallb isNameChar r && separatorsFollowed r then Some (String.length r) else None.
Proof.
  induction r as [|c r IH]; [reflexivity|].
  cbn [usernameTail forallb separatorsFollowed String.length].
  unfold isNameChar at 1. fold (isSeparator c).
  destruct (isAlnum c) eqn:Ha.
  - rewrite (alnum_not_separator c Ha). cbn [orb andb]. rewrite IH.
    destruct (forallb isNameChar r && separatorsFollowed r); reflexivity.
  - cbn [orb]. destruct (isSeparator c) eqn:Hs; [|reflexivity]. cbn [andb].
    destruct r as [|d r']; [reflexivity|].
    cbn [headIs]. destruct (isAlnum d) eqn:Hd.
    + rewrite IH. cbn [andb].
      destruct (forallb isNameChar (String d r')); cbn [andb]; [|reflexivity].
      destruct (separatorsFollowed (String d r')); reflexivity.
    + cbn [andb]. rewrite andb_false_r. reflexivity.
Qed.

Lemma usernameTail_lower r : usernameTail (toLowerCase r) = usernameTail r.
Proof.
  induction r as [|c r IH]; [reflexivity|].
  cbn [toLowerCase usernameTail].
  destruct (lowerChar_classes c) as (_ & Ha & Hs). rewrite Ha.
  unfold isSeparator in Hs. rewrite Hs, IH.
  destruct r as [|d r']; [reflexivity|].
  cbn [toLowerCase]. destruct (lowerChar_classes d) as (_ & Hd & _). rewrite Hd.
  cbn [toLowerCase] in IH. reflexivity.
Qed.

Lemma separatorsFollowed_last r c :
  separatorsFollowed r = true -> lastChar r = Some c -> isSeparator c = false.
Proof.
  induction r as [|d r IH]; [discriminate|].
  cbn [separatorsFollowed lastChar]. intros H Hl. apply andb_true_iff in H as [Hd Hr].
  destruct r as [|e r'].
  - injection Hl as <-. destruct (isSeparator d); [discriminate Hd | reflexivity].
  - apply IH; assumption.
Qed.

Lemma USERNAME_REGEX_validName u : USERNAME_REGEX u = validName u.
Proof.
  unfold USERNAME_REGEX, validName, MIN_USERNAME_LENGTH, MAX_USERNAME_LENGTH.
  destruct u as [|c r]; [reflexivity|].
  cbn [headIs forallb separatorsFollowed String.length].
  rewrite usernameTail_spec.
  destruct (isLetter c) eqn:Hl.
  - pose proof (letter_is_alnum c Hl) as Ha.
    change (isNameChar c) with (isAlnum c || isSeparator c).
    rewrite Ha, (alnum_not_separator c Ha). cbn [orb andb].
    destruct (forallb isNameChar r); cbn [andb];
      [|rewrite !andb_false_r; reflexivity].
    destruct (separatorsFollowed r); cbn [andb];
      [|rewrite !andb_false_r; reflexivity].
    rewrite !andb_true_r.
    change (3 <=? S (String.length r))%nat with (2 <=? String.length r)%nat.
    change (S (String.length r) <=? 30)%nat with (String.length r <=? 29)%nat.
    reflexivity.
  - cbn [andb]. rewrite andb_false_r. reflexivity.
Qed.

Lemma validName_chars u : validName u = true -> forallb isNameChar u = true.
Proof.
  unfold validName. intros H.
  apply andb_true_iff in H as [H _]. apply andb_true_iff in H as [_ H]. exact H.
Qed.

Lemma lastChar_forallb p u c : forallb p u = true -> lastChar u = Some c -> p c = true.
Proof.
  induction u as [|d r IH]; [discriminate|].
  cbn [lastChar forallb]. intros Hf Hl. apply andb_true_iff in Hf as [Hd Hr].
  destruct r; [injection Hl as <-; exact Hd | apply IH; assumption].
Qed.

Lemma lastChar_cons d r : exists c, lastChar (String d r) = Some c.
Proof.
  revert d. induction r as [|e r IH]; intros d; [exists d; reflexivity|].
  destruct (IH e) as [c Hc]. exists c. exact Hc.
Qed.

(** X2. USERNAME_REGEX accepts exactly the names its log message
    describes: 3 to 30 characters, the first a letter, all of them
    letters, digits, [-] or [_], every [-] or [_] followed by a letter
    or a digit. So an accepted name does not end in a separator, and
    acceptance does not depend on the case of the letters. *)
Theorem USERNAME_REGEX_accepts (u : string) :
  USERNAME_REGEX u = validName u
  /\ USERNAME_REGEX (toLowerCase u) = USERNAME_REGEX u
  /\ (USERNAME_REGEX u = true ->
      exists c, lastChar u = Some c /\ isAlnum c = true).
Proof.
  split; [apply USERNAME_REGEX_validName|]. split.
  - unfold USERNAME_REGEX. destruct u as [|c r]; [reflexivity|].
    cbn [toLowerCase]. destruct (lowerChar_classes c) as (Hl & _ & _).
    rewrite Hl, usernameTail_lower. reflexivity.
  - rewrite USERNAME_REGEX_validName. intros H.
    pose proof (validName_chars u H) as Hchars.
    unfold validName in H. apply andb_true_iff in H as [H Hsep].
    destruct u as [|d r]; [discriminate H|].
    destruct (lastChar_cons d r) as [c Hc]. exists c. split; [exact Hc|].
    pose proof (lastChar_forallb _ _ _ Hchars Hc) as Hn.
    pose proof (separatorsFollowed_last _ c Hsep Hc) as Hs.
    unfold isNameChar in Hn. rewrite Hs, orb_false_r in Hn. exact Hn.
Qed.

(** ** Channel names *)

Lemma sanitizeChannelChar_spec c :
  isChannelChar (sanitizeChannelChar c) = true
  /\ (isChannelChar c = true -> sanitizeChannelChar c = c)
  /\ (isNameChar c = true -> isChannelChar c = true).
Proof. by_byte c; repeat split; first [reflexivity | discriminate]. Qed.

(** X3. sanitizeForChannel keeps the length of a name, yields only
    letters, digits, [_], [-] and [.], changes nothing in a name made
    of these (so it is idempotent), and leaves every name that
    USERNAME_REGEX accepts as it is: the channel of a valid user is
    [chats-] followed by the username itself. *)
Theorem sanitizeForChannel_safe (name : string) :
  String.length (sanitizeForChannel name) = String.length name
  /\ forallb isChannelChar (sanitizeForChannel name) = true
  /\ (forallb isChannelChar name = true -> sanitizeForChannel name = name)
  /\ sanitizeForChannel (sanitizeForChannel name) = sanitizeForChannel name
  /\ (USERNAME_REGEX name = true -> sanitizeForChannel name = name).
Proof.
  assert (Hlen : String.length (sanitizeForChannel name) = String.length name).
  { induction name as [|c r IH]; [reflexivity|].
    cbn [sanitizeForChannel String.length]. rewrite IH. reflexivity. }
  assert (Hsafe : forall n, forallb isChannelChar (sanitizeForChannel n) = true).
  { induction n as [|c r IH]; [reflexivity|].
    cbn [sanitizeForChannel forallb].
    destruct (sanitizeChannelChar_spec c) as (-> & _). exact IH. }
  assert (Hfix : forall n, forallb isChannelChar n = true -> sanitizeForChannel n = n).
  { induction n as [|c r IH]; [reflexivity|].
    cbn [sanitizeForChannel forallb]. intros H. apply andb_true_iff in H as [Hc Hr].
    destruct (sanitizeChannelChar_spec c) as (_ & Hid & _).
    rewrite (Hid Hc), (IH Hr). reflexivity. }
  split; [exact Hlen|]. split; [apply Hsafe|]. split; [apply Hfix|].
  split; [apply Hfix, Hsafe|].
  intros Hu. apply Hfix.
  rewrite USERNAME_REGEX_validName in Hu. apply validName_chars in Hu.
  rename Hu into Hchars. clear - Hchars. induction name as [|c r IH]; [reflexivity|].
  cbn [forallb] in *. apply andb_true_iff in Hchars as [Hc Hr].
  destruct (sanitizeChannelChar_spec c) as (_ & _ & Hn).
  rewrite (Hn Hc), (IH Hr). reflexivity.
Qed.

(** ** Credentials in the headers *)

Lemma startsWith_app p s : startsWith p (p +:+ s) = true.
Proof.
  induction p as [|c p IH]; [reflexivity|].
  rewrite append_cons. cbn [startsWith]. rewrite Ascii.eqb_refl. exact IH.
Qed.

Lemma startsWith_drop p s : startsWith p s = true -> s = p +:+ drop (String.length p) s.
Proof.
  revert s. induction p as [|c p IH]; intros s; [reflexivity|].
  destruct s as [|d s]; [discriminate|]. cbn [startsWith String.length drop].
  destruct (Ascii.eqb c d) eqn:E; [|discriminate].
  apply Ascii.eqb_eq in E as <-. intros H. rewrite append_cons. f_equal. apply IH. exact H.
Qed.

(** X4. extractAuth yields a token exactly when the Authorization
    header is [Bearer ] followed by that token, and then the username
    is the X-Username header as it stands; in every other case it
    yields neither: a username is never taken from a request that
    carries no bearer token. *)
Theorem extractAuth_bearer (h : Headers) :
  (forall un t,
      extractAuth h = mkAuthInfo un (Some t)
      <-> authorization h = Some ("Bearer " +:+ t) /\ un = xUsername h)
  /\ (authToken (extractAuth h) = None -> extractAuth h = mkAuthInfo None None).
Proof.
  unfold extractAuth. split.
  - intros un t. split.
    + destruct (authorization h) as [a|]; [|discriminate].
      destruct (truthy a) eqn:Ht; cbn [negb orb]; [|discriminate].
      destruct (startsWith "Bearer " a) eqn:Hs; cbn [negb]; [|discriminate].
      intros [= <- <-]. split; [|reflexivity].
      f_equal. exact (startsWith_drop "Bearer " a Hs).
    + intros [-> ->].
      change (truthy ("Bearer " +:+ t)) with true.
      rewrite startsWith_app. cbn [negb orb]. f_equal.
  - destruct (authorization h) as [a|]; [|reflexivity].
    destruct (negb (truthy a) || negb (startsWith "Bearer " a)); [reflexivity|].
    cbn [authToken]. discriminate.
Qed.

(** ** Room visibility, continued *)

(** The test filterRoomsForUser applies to each room. *)
Lemma filterRoomsForUser_filter viewer :
  exists p,
    (forall rooms, filterRoomsForUser rooms viewer = List.filter p rooms)
    /\ (forall r, isPublicType (roomTypeOf r) = true -> p r = true).
Proof.
  unfold filterRoomsForUser, roomTypeOf.
  destruct viewer as [u|]; [destruct (truthy u)|];
    eexists; (split; [intros rooms; reflexivity|]); cbv beta; intros r Hr; rewrite ?Hr; reflexivity.
Qed.

Lemma filter_idem {A} (p : A -> bool) l : List.filter p (List.filter p l) = List.filter p l.
Proof.
  induction l as [|a l IH]; [reflexivity|]. cbn [List.filter].
  destruct (p a) eqn:E; [|exact IH]. cbn [List.filter]. rewrite E, IH. reflexivity.
Qed.

(** X5. filterRoomsForUser only ever removes rooms and keeps their
    order: filtering a listing in two parts gives the two filtered
    parts, filtering twice changes nothing, whatever an anonymous
    viewer sees every viewer sees, and the case of the viewer's name
    does not matter. *)
Theorem filterRoomsForUser_stable (rooms : list RoomWithUsers.t) (viewer : option string) :
  filterRoomsForUser (filterRoomsForUser rooms viewer) viewer = filterRoomsForUser rooms viewer
  /\ (forall more, filterRoomsForUser (rooms ++ more)%list viewer
                   = (filterRoomsForUser rooms viewer ++ filterRoomsForUser more viewer)%list)
  /\ (forall r, In r (filterRoomsForUser rooms viewer) -> In r rooms)
  /\ (forall r, In r (filterRoomsForUser rooms None) -> In r (filterRoomsForUser rooms viewer))
  /\ (forall u, viewer = Some u ->
      filterRoomsForUser rooms (Some (toLowerCase u)) = filterRoomsForUser rooms viewer).
Proof.
  destruct (filterRoomsForUser_filter viewer) as (p & Hp & Hpub).
  split; [rewrite !Hp; apply filter_idem|].
  split; [intros more; rewrite !Hp; apply List.filter_app|].
  split; [intros r; rewrite Hp; intros H; apply List.filter_In in H as [H _]; exact H|].
  split.
  - intros r. rewrite Hp. cbn [filterRoomsForUser]. intros H.
    apply List.filter_In in H as [Hin Hr]. apply List.filter_In. split; [exact Hin|].
    apply Hpub. exact Hr.
  - intros u ->. unfold filterRoomsForUser.
    rewrite truthy_toLowerCase, toLowerCase_idem. reflexivity.
Qed.

(** ** Generated tokens and identifiers *)

Lemma hexDigit_roundtrip (b : ascii) :
  ascii_of_N (16 * hexValue (hexDigit (code b / 16)) + hexValue (hexDigit (code b mod 16))) = b
  /\ isLowerHex (hexDigit (code b / 16)) = true
  /\ isLowerHex (hexDigit (code b mod 16)) = true.
Proof. by_byte b; repeat split; reflexivity. Qed.

Lemma fromHex_toHex bytes : fromHex (toHex bytes) = bytes.
Proof.
  induction bytes as [|b r IH]; [reflexivity|].
  cbn [toHex fromHex]. destruct (hexDigit_roundtrip b) as (-> & _). rewrite IH. reflexivity.
Qed.

Lemma toHex_length bytes : String.length (toHex bytes) = (2 * List.length bytes)%nat.
Proof.
  induction bytes as [|b r IH]; [reflexivity|].
  cbn [toHex String.length List.length]. rewrite IH. lia.
Qed.

Lemma toHex_lowerHex bytes : forallb isLowerHex (toHex bytes) = true.
Proof.
  induction bytes as [|b r IH]; [reflexivity|].
  cbn [toHex forallb]. destruct (hexDigit_roundtrip b) as (_ & -> & ->). exact IH.
Qed.

Lemma randomBytes_length n st bytes st' :
  randomBytes n st = (Ok bytes, st') -> List.length bytes = n.
Proof.
  unfold randomBytes. intros [= <- _].
  rewrite List.length_firstn, List.length_app, List.repeat_length. lia.
Qed.

(** X6. A generated token is 64 digits of [0-9a-f] and a generated
    identifier 32, whatever the entropy source yields; generating them
    changes no key of the store and not the clock; and the hexadecimal text
    determines the random bytes, so two draws give the same token only
    when they drew the same bytes. *)
Theorem generated_tokens_are_hex (st : State) :
  (exists token st',
      generateAuthToken st = (Ok token, st')
      /\ String.length token = 64%nat /\ forallb isLowerHex token = true
      /\ kv st' = kv st /\ now st' = now st /\ pushes st' = pushes st)
  /\ (exists ident st',
        generateId st = (Ok ident, st')
        /\ String.length ident = 32%nat /\ forallb isLowerHex ident = true
        /\ kv st' = kv st /\ now st' = now st /\ pushes st' = pushes st)
  /\ (forall bytes, fromHex (toHex bytes) = bytes)
  /\ (forall a b, toHex a = toHex b -> a = b).
Proof.
  split; [|split; [|split; [exact fromHex_toHex|]]].
  - unfold generateAuthToken, bind, ret.
    destruct (randomBytes TOKEN_LENGTH st) as [[bytes|e] st'] eqn:Hr; [|discriminate Hr].
    exists (toHex bytes), st'. split; [reflexivity|].
    rewrite toHex_length, (randomBytes_length _ _ _ _ Hr), toHex_lowerHex.
    unfold randomBytes in Hr. injection Hr as _ <-. repeat split.
  - unfold generateId, bind, ret.
    destruct (randomBytes 16 st) as [[bytes|e] st'] eqn:Hr; [|discriminate Hr].
    exists (toHex bytes), st'. split; [reflexivity|].
    rewrite toHex_length, (randomBytes_length _ _ _ _ Hr), toHex_lowerHex.
    unfold randomBytes in Hr. injection Hr as _ <-. repeat split.
  - intros a b H. rewrite <- (fromHex_toHex a), <- (fromHex_toHex b), H. reflexivity.
Qed.

(** ** The window of the sensitive-action limiter *)

Lemma lookupLive_advance_live st key v e t :
  kv st !! key = Some (mkEntry v (Some e)) -> t < e ->
  Redis.lookupLive (advance t st) key = Some v.
Proof.
  intros Hk Ht. unfold Redis.lookupLive, advance. cbn [kv now]. rewrite Hk.
  unfold Redis.isLive. cbn [expiry value].
  destruct (Z.ltb_spec t e); [reflexivity | lia].
Qed.

Lemma lookupLive_advance_lapsed st key v e t :
  kv st !! key = Some (mkEntry v (Some e)) -> e <= t ->
  Redis.lookupLive (advance t st) key = None.
Proof.
  intros Hk Ht. unfold Redis.lookupLive, advance. cbn [kv now]. rewrite Hk.
  unfold Redis.isLive. cbn [expiry value].
  destruct (Z.ltb_spec t e); [lia | reflexivity].
Qed.

(** The attempt that opens a window. *)
Lemma checkRateLimit_open action identifier st :
  noFaults st -> Redis.lookupLive st (rateKey action identifier) = None ->
  exists st',
    checkRateLimit action identifier st = (Ok true, st')
    /\ noFaults st'
    /\ windowAt st' (rateKey action identifier) 1
         (now st + RATE_LIMIT_WINDOW_SECONDS * 1000).
Proof.
  intros Hnf Hl. unfold checkRateLimit, checkRateLimitBody, tryCatch.
  fold (rateKey action identifier).
  rewrite bind_get by (try exact Hnf; unfold plainAt; rewrite Hl; exact I).
  rewrite Hl. cbn [truthyOpt negb].
  rewrite bind_set by exact Hnf. unfold ret.
  eexists. split; [reflexivity|]. split; [auto with nf|].
  unfold windowAt, put, setKv. cbn [kv option_map]. apply lookup_insert_eq.
Qed.

(** An attempt inside an open window. *)
Lemma checkRateLimit_counted action identifier st k e t :
  noFaults st -> windowAt st (rateKey action identifier) k e -> 1 <= k -> t < e ->
  exists st',
    checkRateLimit action identifier (advance t st) = (Ok (k <? RATE_LIMIT_ATTEMPTS), st')
    /\ noFaults st'
    /\ windowAt st' (rateKey action identifier)
         (if k <? RATE_LIMIT_ATTEMPTS then k + 1 else k) e.
Proof.
  intros Hnf Hw Hk Ht.
  pose proof (lookupLive_advance_live st _ _ _ t Hw Ht) as Hl.
  assert (Hnf' : noFaults (advance t st)) by exact Hnf.
  unfold checkRateLimit, checkRateLimitBody, tryCatch.
  fold (rateKey action identifier).
  rewrite bind_get by (try exact Hnf'; unfold plainAt; rewrite Hl; exact I).
  rewrite Hl. cbn [truthyOpt truthyValue parseIntValue].
  destruct (Z.eqb_spec k 0) as [->|_]; [lia|]. cbn [negb].
  rewrite (Z.leb_antisym k RATE_LIMIT_ATTEMPTS).
  destruct (k <? RATE_LIMIT_ATTEMPTS) eqn:Hlt; cbn [negb].
  - rewrite (bind_incr_num _ k) by assumption. unfold ret.
    eexists. split; [reflexivity|]. split; [exact Hnf|].
    unfold windowAt, putEntry, setKv. cbn [kv]. rewrite lookup_insert_eq.
    unfold Redis.expiryOf, advance. cbn [kv now]. unfold windowAt in Hw. rewrite Hw.
    unfold Redis.isLive. cbn [expiry]. destruct (Z.ltb_spec t e); [reflexivity | lia].
  - unfold ret. eexists. split; [reflexivity|]. split; [exact Hnf|]. exact Hw.
Qed.

Lemma rateLimitRun_counted action identifier e : forall times st k,
  noFaults st -> windowAt st (rateKey action identifier) k e -> 1 <= k ->
  Forall (fun t => t < e) times ->
  exists st',
    rateLimitRun action identifier times st
    = (List.map (fun i => Ok (k + Z.of_nat i <? RATE_LIMIT_ATTEMPTS))
         (seq 0 (List.length times)), st')
    /\ noFaults st'
    /\ exists k', 1 <= k' /\ windowAt st' (rateKey action identifier) k' e.
Proof.
  induction times as [|t rest IH]; intros st k Hnf Hw Hk Hall.
  - exists st. split; [reflexivity|]. split; [exact Hnf|]. eauto.
  - apply Forall_cons in Hall as [Ht Hrest].
    destruct (checkRateLimit_counted action identifier st k e t Hnf Hw Hk Ht)
      as (st1 & Hrun & Hnf1 & Hw1).
    set (k1 := if k <? RATE_LIMIT_ATTEMPTS then k + 1 else k) in *.
    assert (Hk1 : 1 <= k1) by (subst k1; destruct (k <? RATE_LIMIT_ATTEMPTS); lia).
    destruct (IH st1 k1 Hnf1 Hw1 Hk1 Hrest) as (st2 & Hrest2 & Hnf2 & Hend).
    exists st2. split; [|split; [exact Hnf2 | exact Hend]].
    cbn [rateLimitRun]. rewrite Hrun, Hrest2.
    cbn [List.length seq List.map]. rewrite Z.add_0_r. f_equal. f_equal.
    rewrite <- seq_shift, List.map_map. apply List.map_ext. intros i.
    f_equal. subst k1. unfold RATE_LIMIT_ATTEMPTS.
    destruct (Z.ltb_spec k 10);
      destruct (Z.ltb_spec (k + 1 + Z.of_nat i) 10);
      destruct (Z.ltb_spec (k + Z.of_nat (S i)) 10); try reflexivity; lia.
Qed.

(** X7. From a closed window, the attempts of one (action, identifier)
    pair that fall within 60 seconds of the first are allowed up to
    the tenth and refused from the eleventh on, however many follow;
    once the 60 seconds have passed the next attempt is allowed
    again. *)
Theorem checkRateLimit_window (action identifier : string) (t1 : Z) (rest : list Z)
    (st : State) :
  noFaults st ->
  Redis.lookupLive (advance t1 st) (rateKey action identifier) = None ->
  Forall (fun t => t < t1 + RATE_LIMIT_WINDOW_SECONDS * 1000) rest ->
  fst (rateLimitRun action identifier (t1 :: rest) st)
  = List.map (fun i => Ok (Z.of_nat i <? RATE_LIMIT_ATTEMPTS)) (seq 0 (S (List.length rest)))
  /\ forall t, t1 + RATE_LIMIT_WINDOW_SECONDS * 1000 <= t ->
       fst (checkRateLimit action identifier
              (advance t (snd (rateLimitRun action identifier (t1 :: rest) st))))
       = Ok true.
Proof.
  intros Hnf Hclosed Hrest.
  destruct (checkRateLimit_open action identifier (advance t1 st) Hnf Hclosed)
    as (st1 & Hrun1 & Hnf1 & Hw1).
  change (now (advance t1 st)) with t1 in Hw1.
  destruct (rateLimitRun_counted action identifier _ rest st1 1 Hnf1 Hw1 ltac:(lia) Hrest)
    as (st2 & Hrun2 & Hnf2 & k' & Hk' & Hw2).
  cbn [rateLimitRun]. rewrite Hrun1, Hrun2. cbn [fst snd]. split.
  - cbn [seq List.map]. f_equal.
    rewrite <- seq_shift, List.map_map. apply List.map_ext. intros i.
    f_equal. f_equal. lia.
  - intros t Ht.
    pose proof (lookupLive_advance_lapsed st2 _ _ _ t Hw2 Ht) as Hl.
    destruct (checkRateLimit_open action identifier (advance t st2) Hnf2 Hl) as (st3 & -> & _).
    reflexivity.
Qed.

(** ** Validation keeps a token alive *)

Lemma kv_touch_eq key s st v :
  Redis.lookupLive st key = Some v ->
  kv (touch key s st) !! key = Some (mkEntry v (Some (now st + s * 1000))).
Proof.
  intros Hl. unfold touch. rewrite Hl. unfold setKv. cbn [kv]. apply lookup_insert_eq.
Qed.

Lemma kv_touch_other key key' s st :
  key <> key' -> kv (touch key s st) !! key' = kv st !! key'.
Proof.
  intros Hne. unfold touch. destruct (Redis.lookupLive st key); [|reflexivity].
  unfold setKv. cbn [kv]. apply lookup_insert_ne. exact Hne.
Qed.

Lemma kv_put_eq key v s st :
  kv (put key v (Some s) st) !! key = Some (mkEntry v (Some (now st + s * 1000))).
Proof. unfold put, setKv. cbn [kv option_map]. apply lookup_insert_eq. Qed.

Lemma userTokenKey_ne_tokenKey_same U t : getUserTokenKey U t <> getTokenKey t.
Proof.
  unfold getUserTokenKey, getTokenKey. intros H. apply append_inj_l in H.
  apply (f_equal String.length) in H. rewrite !length_app_str in H.
  cbn [String.length] in H. lia.
Qed.

Lemma userTokenKey_ne_lastKey U t : getUserTokenKey U t <> lastTokenKeyOf U.
Proof.
  intros H. apply (lastKey_not_userToken U). rewrite <- H. apply userTokenKey_is.
Qed.

(** A validation writes the user-scoped record and refreshes the
    others: the value of every other key is what it was. *)
Lemma lookupLive_authEffect p U t st key :
  key <> getUserTokenKey U t ->
  Redis.lookupLive (authEffect p U t st) key = Redis.lookupLive st key.
Proof.
  intros Hne. assert (Hpos : 0 < USER_TTL_SECONDS) by reflexivity.
  destruct p; cbn [authEffect];
    rewrite ?(lookupLive_put_ne _ _ _ _ _ (not_eq_sym Hne));
    rewrite ?lookupLive_touch_any by exact Hpos; reflexivity.
Qed.

(** After a hit on one of the first three paths the user-scoped
    record is there, with 90 days to live. *)
Lemma authEffect_direct p U t st :
  authResultOf p = mkAuth true (Some false) ->
  p = authPath st U t true \/ p = authPath st U t false ->
  exists v, kv (authEffect p U t st) !! getUserTokenKey U t
            = Some (mkEntry v (Some (now st + USER_TTL_SECONDS * 1000))).
Proof.
  intros Hres Hp. destruct p; try discriminate Hres; cbn [authEffect].
  - assert (Hd : directRecord st U t = true).
    { destruct Hp as [Hp | Hp]; unfold authPath in Hp;
        destruct (directRecord st U t); [reflexivity| |reflexivity|];
        destruct (reverseRecordNames st U t); try discriminate Hp;
        destruct (legacyRecordIs st U t); try discriminate Hp;
        destruct (_ && _); discriminate Hp. }
    unfold directRecord, isLiveKey in Hd. apply bool_decide_eq_true in Hd as [v Hv].
    exists v. rewrite kv_touch_other by (apply not_eq_sym, userTokenKey_ne_tokenKey_same).
    apply kv_touch_eq. exact Hv.
  - eexists. rewrite kv_put_eq, now_touch. reflexivity.
  - eexists. rewrite kv_put_eq, now_touch. reflexivity.
Qed.

(** X8. A validation that fails, or succeeds on the grace record,
    leaves the store as it was. One that succeeds on a live record
    leaves the user-scoped record of the pair with 90 days to live: any
    time before that the pair validates again, by the first path. *)
Theorem validateAuth_slides_expiry (u t : string) (allowExpired : bool) (st : State) :
  noFaults st ->
  truthy u = true -> truthy t = true ->
  plainAt st (getTokenKey t) ->
  plainAt st (legacyKeyOf (toLowerCase u)) ->
  plainAt st (lastTokenKeyOf (toLowerCase u)) ->
  exists r st1,
    validateAuth (Some u) (Some t) allowExpired st = (Ok r, st1)
    /\ (expired r <> Some false -> st1 = st)
    /\ (expired r = Some false ->
        forall t', t' < now st + USER_TTL_SECONDS * 1000 ->
          directRecord (advance t' st1) (toLowerCase u) t = true
          /\ forall allow',
               fst (validateAuth (Some u) (Some t) allow' (advance t' st1))
               = Ok (mkAuth true (Some false))).
Proof.
  intros Hnf Hu Ht Hp1 Hp2 Hp3.
  pose proof (validateAuth_run u t allowExpired st Hnf Hu Ht Hp1 Hp2 Hp3) as Hrun.
  cbv zeta in Hrun.
  set (U := toLowerCase u) in *.
  set (p := authPath st U t allowExpired) in *.
  exists (authResultOf p), (authEffect p U t st).
  split; [exact Hrun|]. split.
  - destruct p; cbn [authResultOf expired authEffect]; congruence.
  - intros Hexp t' Ht'.
    assert (Hres : authResultOf p = mkAuth true (Some false))
      by (destruct p; try discriminate Hexp; reflexivity).
    destruct (authEffect_direct p U t st Hres) as [v Hv].
    { subst p. destruct allowExpired; auto. }
    set (st1 := authEffect p U t st) in *.
    assert (Hlive : Redis.lookupLive (advance t' st1) (getUserTokenKey U t) = Some v)
      by (apply (lookupLive_advance_live _ _ _ _ _ Hv Ht')).
    assert (Hd : directRecord (advance t' st1) U t = true).
    { unfold directRecord, isLiveKey. rewrite Hlive. apply bool_decide_eq_true. eauto. }
    split; [exact Hd|]. intros allow'.
    unfold validateAuth. rewrite Hu, Ht. cbn [negb orb]. fold U.
    assert (Hnf1 : noFaults (advance t' st1)).
    { change (noFaults st1). subst st1. apply noFaults_authEffect. exact Hnf. }
    rewrite bind_exists by exact Hnf1.
    unfold directRecord in Hd. rewrite Hd.
    rewrite bind_expire by exact Hnf1.
    rewrite bind_expire by auto with nf.
    reflexivity.
Qed.

(** ** Storing and deleting a token *)

Lemma validateAuth_direct (u t : string) (allowExpired : bool) (st : State) :
  noFaults st -> truthy u = true -> truthy t = true ->
  directRecord st (toLowerCase u) t = true ->
  validateAuth (Some u) (Some t) allowExpired st
  = (Ok (mkAuth true (Some false)), authEffect PathDirect (toLowerCase u) t st).
Proof.
  intros Hnf Hu Ht Hd. unfold validateAuth. rewrite Hu, Ht. cbn [negb orb].
  rewrite bind_exists by exact Hnf. unfold directRecord in Hd. rewrite Hd.
  rewrite bind_expire by exact Hnf.
  rewrite bind_expire by auto with nf.
  reflexivity.
Qed.


Lemma isLiveKey_false st key : Redis.lookupLive st key = None -> isLiveKey st key = false.
Proof.
  intros H. unfold isLiveKey. rewrite H. apply bool_decide_eq_false_2.
  intros [v Hv]. discriminate Hv.
Qed.



(** ** What the handlers leave alone *)

Lemma touchesOnly_keptAt {A} (m : M A) (P : string -> Prop) st r st' k :
  touchesOnly m P -> m st = (r, st') -> ~ P k -> keptAt st st' k.
Proof.
  intros Hm Hrun Hk. destruct (Hm _ _ _ Hrun) as (Hn & _ & Hkv).
  split; [apply Hkv; exact Hk | exact Hn].
Qed.

Lemma keptAt_lookupLive st st' k :
  keptAt st st' k -> Redis.lookupLive st' k = Redis.lookupLive st k.
Proof. intros [Hk Hn]. apply lookupLive_frame; assumption. Qed.

Section HandlerFootprints.
Variable clean : string -> string.
Variable isProfane : string -> bool.

Lemma touches_handleSendMessage data :
  touchesOnly (handleSendMessage clean isProfane data)
    (sendKeys (sm_roomId data) (toLowerCase (sm_username data))).
Proof.
  unfold handleSendMessage. footprint.
  - apply touches_validateIds.
  - apply touches_burstLimit; unfold sendKeys; tauto.
  - apply touches_sendMessageMain; unfold sendKeys; tauto.
Qed.

End HandlerFootprints.

Lemma touches_handleLeaveRoom_gen (P : string -> Prop) r name :
  P (presenceKeyOf r (toLowerCase name)) -> P (roomKeyOf r) -> P (messagesKeyOf r) ->
  (forall k, isLegacySetKey k -> P k) ->
  touchesOnly (handleLeaveRoom (mkJoinLeave (Some r) (Some name))) P.
Proof.
  intros H1 H2 H3 H4.
  assert (H5 : P (CHAT_ROOM_USERS_PREFIX +:+ r)) by (apply H4; eexists; reflexivity).
  unfold handleLeaveRoom. cbn [jl_roomId jl_username option_map].
  fold (roomKeyOf r) (messagesKeyOf r) (presenceKeyOf r (toLowerCase name)).
  unfold illTyped, swallow. footprint.
  all: try apply touches_validateIds.
  all: try (apply touches_refreshRoomUserCount; assumption).
  all: try (apply touches_broadcastToSpecificUsers; assumption).
  all: try (apply touches_broadcastRoomsUpdated; assumption).
Qed.

Lemma touches_handleLeaveRoom r name :
  touchesOnly (handleLeaveRoom (mkJoinLeave (Some r) (Some name)))
    (leaveKeys r (toLowerCase name)).
Proof. apply touches_handleLeaveRoom_gen; unfold leaveKeys; tauto. Qed.

Ltac prefix_neq H :=
  cbv [roomKeyOf messagesKeyOf userKeyOf presenceKeyOf shortKeyOf longKeyOf
       lastSentKeyOf legacySetKeyOf getTokenKey getUserTokenKey legacyKeyOf lastTokenKeyOf
       CHAT_ROOM_PREFIX CHAT_MESSAGES_PREFIX CHAT_USERS_PREFIX
       CHAT_ROOM_PRESENCE_PREFIX CHAT_BURST_PREFIX CHAT_ROOM_USERS_PREFIX
       AUTH_TOKEN_PREFIX RATE_LIMIT_PREFIX String.append] in H;
  discriminate H.

Lemma tokenKey_not_sendKey r u k : isTokenKey k -> ~ sendKeys r u k.
Proof.
  intros [rest ->] H. unfold sendKeys in H.
  repeat (destruct H as [H|H]); prefix_neq H.
Qed.

Lemma tokenKey_not_leaveKey r u k : isTokenKey k -> ~ leaveKeys r u k.
Proof.
  intros [rest ->] H. unfold leaveKeys in H.
  destruct H as [H|[H|[H|[x H]]]]; prefix_neq H.
Qed.

Lemma userKey_not_legacy u : ~ isLegacySetKey (userKeyOf u).
Proof. intros [x H]. prefix_neq H. Qed.

Lemma messagesKey_inj r r' : messagesKeyOf r = messagesKeyOf r' -> r = r'.
Proof. apply append_inj_l. Qed.

Lemma userKey_inj u u' : userKeyOf u = userKeyOf u' -> u = u'.
Proof. apply append_inj_l. Qed.

Lemma roomKey_inj r r' : roomKeyOf r = roomKeyOf r' -> r = r'.
Proof. apply append_inj_l. Qed.

Section Isolation.
Variable clean : string -> string.
Variable isProfane : string -> bool.

(** X10. Whatever the request, the store and its faults,
    handleSendMessage leaves the clock alone and writes at most six
    keys: the three burst-limiter keys, the user record, the message
    list and the presence record of its own (room, user) pair. It
    never writes a room record or a token record, nor the messages of
    another room or the record of another user. *)
Theorem handleSendMessage_isolation (data : SendMessageBody) (st : State) :
  let r := sm_roomId data in
  let u := toLowerCase (sm_username data) in
  let st' := snd (handleSendMessage clean isProfane data st) in
  (forall k, ~ sendKeys r u k -> keptAt st st' k)
  /\ (forall r', keptAt st st' (roomKeyOf r'))
  /\ (forall k, isTokenKey k -> keptAt st st' k)
  /\ (forall r', r' <> r -> keptAt st st' (messagesKeyOf r'))
  /\ (forall u', u' <> u -> keptAt st st' (userKeyOf u')).
Proof.
  intros r u st'.
  assert (H : forall k, ~ sendKeys r u k -> keptAt st st' k).
  { intros k Hk. subst st'.
    destruct (handleSendMessage clean isProfane data st) as [resp s1] eqn:Hrun.
    exact (touchesOnly_keptAt _ _ _ _ _ _ (touches_handleSendMessage clean isProfane data) Hrun Hk). }
  split; [exact H|]. split; [|split; [|split]].
  - intros r'. apply H. not_key.
  - intros k Hk. apply H, tokenKey_not_sendKey, Hk.
  - intros r' Hne. apply H. unfold sendKeys.
    intros [E|[E|[E|[E|[E|E]]]]]; try prefix_neq E.
    apply Hne, messagesKey_inj, E.
  - intros u' Hne. apply H. unfold sendKeys.
    intros [E|[E|[E|[E|[E|E]]]]]; try prefix_neq E.
    apply Hne, userKey_inj, E.
Qed.

End Isolation.

(** X11. Whatever the store and its faults, handleLeaveRoom leaves the
    clock alone and writes at most the presence record of its own
    (room, user) pair, the record and the message list of its own room,
    and legacy user sets. It never writes a user record or a token
    record, nor the record or the messages of another room; and a
    request without a room id or without a username is answered 400
    with the store as it was. *)
Theorem handleLeaveRoom_isolation (r name : string) (st : State) :
  let u := toLowerCase name in
  let st' := snd (handleLeaveRoom (mkJoinLeave (Some r) (Some name)) st) in
  (forall k, ~ leaveKeys r u k -> keptAt st st' k)
  /\ (forall u', keptAt st st' (userKeyOf u'))
  /\ (forall k, isTokenKey k -> keptAt st st' k)
  /\ (forall r', r' <> r -> keptAt st st' (messagesKeyOf r'))
  /\ (forall r', r' <> r -> ROOM_ID_REGEX r' = true -> keptAt st st' (roomKeyOf r'))
  /\ (forall data, truthyStr (jl_roomId data) = false \/ truthyStr (jl_username data) = false ->
        handleLeaveRoom data st
        = (Ok (createErrorResponse "Room ID and username are required" 400), st)).
Proof.
  intros u st'.
  assert (H : forall k, ~ leaveKeys r u k -> keptAt st st' k).
  { intros k Hk. subst st'.
    destruct (handleLeaveRoom (mkJoinLeave (Some r) (Some name)) st) as [resp s1] eqn:Hrun.
    exact (touchesOnly_keptAt _ _ _ _ _ _ (touches_handleLeaveRoom r name) Hrun Hk). }
  split; [exact H|]. split; [|split; [|split; [|split]]].
  - intros u'. apply H. unfold leaveKeys.
    intros [E|[E|[E|E]]]; try prefix_neq E. exact (userKey_not_legacy u' E).
  - intros k Hk. apply H, tokenKey_not_leaveKey, Hk.
  - intros r' Hne. apply H. unfold leaveKeys.
    intros [E|[E|[E|E]]]; try prefix_neq E.
    + apply Hne, messagesKey_inj, E.
    + exact (messagesKey_not_legacy r' E).
  - intros r' Hne Hr'. apply H. unfold leaveKeys.
    intros [E|[E|[E|E]]]; try prefix_neq E.
    + apply Hne, roomKey_inj, E.
    + exact (roomKey_not_legacy r' Hr' E).
  - intros [[rid|] [un|]] Hmiss; unfold handleLeaveRoom;
      cbn [jl_roomId jl_username option_map truthyStr] in *; try reflexivity.
    rewrite truthy_toLowerCase.
    destruct Hmiss as [-> | ->]; cbn [negb orb]; [reflexivity|].
    rewrite orb_true_r. reflexivity.
Qed.

(** ** What the token functions leave alone *)

Lemma touches_validateAuth_gen (P : string -> Prop) u t allowExpired :
  P (getUserTokenKey (toLowerCase u) t) -> P (getTokenKey t) ->
  P (legacyKeyOf (toLowerCase u)) ->
  touchesOnly (validateAuth (Some u) (Some t) allowExpired) P.
Proof.
  intros H1 H2 H3. unfold validateAuth, getUsernameForToken.
  fold (legacyKeyOf (toLowerCase u)). footprint.
Qed.

Lemma touches_validateAuth u t allowExpired :
  touchesOnly (validateAuth u t allowExpired)
    (authKeys (toLowerCase (default EmptyString u)) (default EmptyString t)).
Proof.
  destruct u as [u|], t as [t|]; cbn [default from_option id];
    try (unfold validateAuth; apply touches_ret).
  apply touches_validateAuth_gen; unfold authKeys; tauto.
Qed.

Lemma touches_bind_post {A B} (P : string -> Prop) (Q : B -> Prop) (m : M B) (k : B -> M A) :
  touchesOnly m P ->
  (forall st b st', m st = (Ok b, st') -> Q b) ->
  (forall b, Q b -> touchesOnly (k b) P) ->
  touchesOnly (bind m k) P.
Proof.
  intros Hm HQ Hk st r st'. unfold bind.
  destruct (m st) as [[b|e] st1] eqn:Hrun; intros Hres.
  - destruct (Hm _ _ _ Hrun) as (Hn1 & Hf1 & Hk1).
    destruct (Hk b (HQ _ _ _ Hrun) _ _ _ Hres) as (Hn2 & Hf2 & Hk2).
    split; [congruence|]. split; [auto|].
    intros key Hkey. rewrite Hk2, Hk1 by exact Hkey. reflexivity.
  - injection Hres as <- <-. exact (Hm _ _ _ Hrun).
Qed.

Lemma scanAll_matches pat st keys st' :
  Redis.scanAll pat st = (Ok keys, st') ->
  Forall (fun key => Redis.globMatch pat key = true) keys.
Proof.
  unfold Redis.scanAll, bind, Redis.tick.
  destruct (faults st) as [|[|] f]; intros [= <- _]; apply Forall_forall;
    intros key Hin; apply list_elem_of_In, List.filter_In in Hin as [_ Hm]; exact Hm.
Qed.

Lemma tokenKey_of_userTokenKey k : isUserTokenKey k -> isTokenKey k.
Proof. intros [rest ->]. exists ("user:" +:+ rest). reflexivity. Qed.

Lemma touches_deleteToken (P : string -> Prop) t :
  (forall k, isTokenKey k -> P k) -> touchesOnly (deleteToken t) P.
Proof.
  intros HP. unfold deleteToken.
  assert (Htok : forall x, P (getTokenKey x)) by (intros x; apply HP; eexists; reflexivity).
  assert (Hut : forall a b, P (getUserTokenKey a b))
    by (intros a b; apply HP, tokenKey_of_userTokenKey, userTokenKey_is).
  destruct (negb (truthy t)); [apply touches_ret|].
  apply touches_bind; [apply touches_get|]. intros username.
  apply touches_bind; [apply touches_del; repeat constructor; apply Htok|]. intros _.
  destruct (truthyOpt username).
  - destruct username as [[]|]; footprint.
  - fold (userTokenPatternOf t).
    apply (touches_bind_post P
             (Forall (fun key => Redis.globMatch (userTokenPatternOf t) key = true))).
    + apply touches_scanAll.
    + intros st b st'. apply scanAll_matches.
    + intros keys Hkeys. destruct (0 <? List.length keys)%nat; [|apply touches_ret].
      apply touches_bind; [|intros _; apply touches_ret].
      apply touches_del. eapply Forall_impl; [exact Hkeys|].
      intros key Hm. cbv beta in Hm. apply HP, tokenKey_of_userTokenKey.
      exact (userTokenPattern_only _ _ Hm).
Qed.

Lemma touches_storeToken (P : string -> Prop) u t :
  (forall k, isTokenKey k -> P k) -> touchesOnly (storeToken u t) P.
Proof.
  intros HP. unfold storeToken.
  assert (Htok : forall x, P (getTokenKey x)) by (intros x; apply HP; eexists; reflexivity).
  assert (Hut : forall a b, P (getUserTokenKey a b))
    by (intros a b; apply HP, tokenKey_of_userTokenKey, userTokenKey_is).
  footprint.
Qed.

Lemma touches_handleRefreshToken (P : string -> Prop) data :
  (forall k, isTokenKey k -> P k) -> touchesOnly (handleRefreshToken data) P.
Proof.
  intros HP. unfold handleRefreshToken, storeLastValidToken, generateAuthToken.
  assert (Hpre : forall x, P (AUTH_TOKEN_PREFIX +:+ x)) by (intros x; apply HP; eexists; reflexivity).
  destruct (rt_username data) as [name|]; [|apply touches_ret].
  destruct (rt_oldToken data) as [old|]; [|apply touches_ret].
  destruct (_ || _); [apply touches_ret|].
  apply touches_tryCatch; [|intros e; apply touches_ret].
  apply touches_bind; [apply touches_get|]. intros userData.
  destruct (negb (truthyOpt userData)); [apply touches_ret|].
  apply touches_bind.
  { apply touches_validateAuth_gen.
    - apply HP, tokenKey_of_userTokenKey, userTokenKey_is.
    - apply Hpre.
    - apply Hpre. }
  intros res. destruct (negb (valid res)); [apply touches_ret|].
  apply touches_bind; [apply touches_dateNow|]. intros t.
  apply touches_bind; [apply touches_set, Hpre|]. intros _.
  apply touches_bind; [apply touches_deleteToken, HP|]. intros _.
  apply touches_bind.
  { apply touches_bind; [apply touches_randomBytes | intros b; apply touches_ret]. }
  intros tok.
  apply touches_bind; [apply touches_set, Hpre|]. intros _.
  apply touches_bind; [apply touches_storeToken, HP | intros _; apply touches_ret].
Qed.

Lemma not_tokenKey k : (forall rest, k <> AUTH_TOKEN_PREFIX +:+ rest) -> ~ isTokenKey k.
Proof. intros H [rest E]. exact (H rest E). Qed.

(** X12. Whatever the store and its faults, validateAuth leaves the
    clock alone and writes at most the three live-token records of its
    own (user, token) pair, and handleRefreshToken writes token records
    only: no user record, room record, message list or presence record
    is ever written by either, and handleRefreshToken never throws. *)
Theorem token_functions_isolation (st : State) :
  (forall u t allowExpired k,
      ~ authKeys (toLowerCase (default EmptyString u)) (default EmptyString t) k ->
      keptAt st (snd (validateAuth u t allowExpired st)) k)
  /\ (forall data k, ~ isTokenKey k -> keptAt st (snd (handleRefreshToken data st)) k)
  /\ (forall data, exists resp, fst (handleRefreshToken data st) = Ok resp)
  /\ (forall r u, ~ isTokenKey (roomKeyOf r) /\ ~ isTokenKey (messagesKeyOf r)
                  /\ ~ isTokenKey (userKeyOf u) /\ ~ isTokenKey (presenceKeyOf r u)).
Proof.
  split; [|split; [|split]].
  - intros u t allowExpired k Hk.
    destruct (validateAuth u t allowExpired st) as [r s1] eqn:Hrun.
    exact (touchesOnly_keptAt _ _ _ _ _ _ (touches_validateAuth u t allowExpired) Hrun Hk).
  - intros data k Hk.
    destruct (handleRefreshToken data st) as [r s1] eqn:Hrun.
    exact (touchesOnly_keptAt _ _ _ _ _ _
             (touches_handleRefreshToken isTokenKey data (fun k H => H)) Hrun Hk).
  - intros data. unfold handleRefreshToken.
    destruct (rt_username data) as [name|]; [|eexists; reflexivity].
    destruct (rt_oldToken data) as [old|]; [|eexists; reflexivity].
    destruct (_ || _); [eexists; reflexivity|].
    unfold tryCatch.
    match goal with |- context [match ?m st with _ => _ end] => destruct (m st) as [[a|e] s1] end;
      eexists; reflexivity.
  - intros r u. repeat split; intros [rest E]; prefix_neq E.
Qed.

(** ** Presence *)

Lemma globFuel_star_any s : Redis.globFuel 2 "*" s = true.
Proof.
  induction s as [|c s IH]; [reflexivity|].
  rewrite globFuel_star, IH. apply orb_true_r.
Qed.

(** A pattern that is a literal text followed by a star matches the
    keys that begin with the text. *)
Lemma globMatch_prefix_star lit key :
  forallb isGlobLiteral lit = true ->
  Redis.globMatch (lit +:+ "*") key = true <-> exists rest, key = lit +:+ rest.
Proof.
  intros Hlit. unfold Redis.globMatch. rewrite length_app_str.
  replace (S (String.length lit + String.length "*")) with (String.length lit + 2)%nat
    by (cbn [String.length]; lia).
  split.
  - intros Hm. apply globFuel_prefix in Hm as (s' & -> & _); [|exact Hlit]. eauto.
  - intros [rest ->]. rewrite globFuel_literal_match by exact Hlit. apply globFuel_star_any.
Qed.

Lemma alnum_literal c : isAlnum c = true -> isGlobLiteral c = true /\ Ascii.eqb c ":" = false.
Proof. by_byte c; intros H; try discriminate H; split; reflexivity. Qed.

Lemma alnum_str_literal r :
  forallb isAlnum r = true -> forallb isGlobLiteral r = true /\ hasColon r = false.
Proof.
  unfold hasColon. induction r as [|c r IH]; [split; reflexivity|].
  cbn [forallb existsb]. intros H. apply andb_true_iff in H as [Hc Hr].
  destruct (alnum_literal c Hc) as [-> ->]. exact (IH Hr).
Qed.

Lemma ROOM_ID_REGEX_plain r :
  ROOM_ID_REGEX r = true -> forallb isGlobLiteral r = true /\ hasColon r = false.
Proof.
  unfold ROOM_ID_REGEX. intros H. apply andb_true_iff in H as [_ H].
  apply alnum_str_literal. exact H.
Qed.

Lemma hasColon_app a b : hasColon (a +:+ b) = hasColon a || hasColon b.
Proof.
  unfold hasColon. induction a as [|c a IH]; [reflexivity|].
  rewrite append_cons. cbn [existsb]. rewrite IH. apply orb_assoc.
Qed.

Lemma lastSegment_app p u : hasColon u = false -> lastSegment (p +:+ ":" +:+ u) = u.
Proof.
  intros Hu. induction p as [|c p IH].
  - rewrite append_nil_l. change (":" +:+ u) with (String ":" u).
    cbn [lastSegment]. fold (hasColon u). rewrite Hu. reflexivity.
  - rewrite append_cons. cbn [lastSegment].
    fold (hasColon (p +:+ ":" +:+ u)). rewrite hasColon_app.
    change (hasColon (":" +:+ u)) with (true || hasColon u).
    cbn [orb]. rewrite orb_true_r. exact IH.
Qed.

(** A text splits at its first colon in one way only. *)
Lemma colon_split a : forall a' b b',
  hasColon a = false -> hasColon a' = false ->
  a +:+ ":" +:+ b = a' +:+ ":" +:+ b' -> a = a' /\ b = b'.
Proof.
  unfold hasColon.
  induction a as [|c a IH]; intros [|c' a'] b b' Ha Ha' H.
  - rewrite !append_nil_l in H. injection H as H. auto.
  - exfalso. rewrite append_nil_l, append_cons in H. injection H as Hc _.
    cbn [existsb] in Ha'. rewrite <- Hc in Ha'. discriminate Ha'.
  - exfalso. rewrite append_nil_l, append_cons in H. injection H as Hc _.
    cbn [existsb] in Ha. rewrite Hc in Ha. discriminate Ha.
  - rewrite !append_cons in H. injection H as -> H.
    cbn [existsb] in Ha, Ha'.
    apply orb_false_iff in Ha as [_ Ha]. apply orb_false_iff in Ha' as [_ Ha'].
    destruct (IH a' b b' Ha Ha' H) as [-> ->]. auto.
Qed.

Lemma presenceKey_split r u :
  presenceKeyOf r u = CHAT_ROOM_PRESENCE_PREFIX +:+ (r +:+ ":" +:+ u).
Proof. reflexivity. Qed.

Lemma presencePattern_split r :
  presencePatternOf r = (CHAT_ROOM_PRESENCE_PREFIX +:+ r +:+ ":") +:+ "*".
Proof. unfold presencePatternOf. rewrite !append_assoc_str. reflexivity. Qed.

Lemma NoDup_liveKeys st : List.NoDup (Redis.liveKeys st).
Proof.
  unfold Redis.liveKeys. apply List.NoDup_filter.
  apply (proj1 (NoDup_ListNoDup _)), NoDup_fst_map_to_list.
Qed.

Lemma NoDup_map_on {A B} (f : A -> B) l :
  (forall x y, In x l -> In y l -> f x = f y -> x = y) ->
  List.NoDup l -> List.NoDup (List.map f l).
Proof.
  intros Hinj Hnd. induction Hnd as [|a l Hnotin Hnd IH]; [constructor|].
  cbn [List.map]. constructor.
  - intros Hin. apply List.in_map_iff in Hin as (y & Hfy & Hy).
    assert (y = a) by (apply Hinj; [right; exact Hy | left; reflexivity | exact Hfy]).
    subst y. contradiction.
  - apply IH. intros x y Hx Hy. apply Hinj; right; assumption.
Qed.

(** The keys the scan of a room's presence finds. *)
Lemma presence_scan r st k :
  ROOM_ID_REGEX r = true ->
  In k (List.filter (Redis.globMatch (presencePatternOf r)) (Redis.liveKeys st))
  <-> isLiveKey st k = true /\ exists rest, k = presenceKeyOf r rest.
Proof.
  intros Hr. destruct (ROOM_ID_REGEX_plain r Hr) as [Hlit _].
  rewrite List.filter_In, In_liveKeys, presencePattern_split.
  rewrite globMatch_prefix_star.
  2:{ rewrite !forallb_app, Hlit. reflexivity. }
  unfold isLiveKey. rewrite bool_decide_eq_true.
  split; intros [Hl [rest ->]]; (split; [exact Hl|]); exists rest;
    unfold presenceKeyOf; rewrite !append_assoc_str; reflexivity.
Qed.

Lemma getActiveUsersInRoom_run r st :
  noFaults st ->
  getActiveUsersInRoom r st
  = (Ok (List.map lastSegment
           (List.filter (Redis.globMatch (presencePatternOf r)) (Redis.liveKeys st))), st).
Proof.
  intros Hnf. unfold getActiveUsersInRoom. fold (presencePatternOf r).
  rewrite bind_scanAll by exact Hnf. reflexivity.
Qed.

(** A scanned key of a well-formed store is the presence record of a
    user of the room, and its last segment is the user. *)
Lemma presence_scan_user r st k :
  ROOM_ID_REGEX r = true -> presenceWellFormed st ->
  In k (List.filter (Redis.globMatch (presencePatternOf r)) (Redis.liveKeys st)) ->
  exists u, k = presenceKeyOf r u /\ hasColon u = false /\ lastSegment k = u
            /\ isLiveKey st k = true.
Proof.
  intros Hr Hwf Hin. destruct (ROOM_ID_REGEX_plain r Hr) as [_ Hcol].
  apply presence_scan in Hin as [Hlive [rest ->]]; [|exact Hr].
  rewrite presenceKey_split in Hlive.
  destruct (Hwf _ Hlive) as (r0 & u0 & Hsplit & Hr0 & Hu0).
  destruct (colon_split r r0 rest u0 Hcol Hr0 Hsplit) as [<- ->].
  exists u0. split; [reflexivity|]. split; [exact Hu0|]. split.
  - unfold presenceKeyOf. rewrite <- append_assoc_str. apply lastSegment_app. exact Hu0.
  - rewrite presenceKey_split. exact Hlive.
Qed.

(** The users listed for a room of a well-formed store. *)
Lemma activeUsersOf_spec r st :
  ROOM_ID_REGEX r = true -> presenceWellFormed st ->
  List.NoDup (activeUsersOf st r)
  /\ forall u, In u (activeUsersOf st r) <-> hasColon u = false /\ presentIn st r u.
Proof.
  intros Hr Hwf. unfold activeUsersOf. split.
  - apply NoDup_map_on; [|apply List.NoDup_filter, NoDup_liveKeys].
    intros x y Hx Hy Heq.
    destruct (presence_scan_user r st x Hr Hwf Hx) as (u & -> & _ & Hu & _).
    destruct (presence_scan_user r st y Hr Hwf Hy) as (v & -> & _ & Hv & _).
    congruence.
  - intros u. rewrite List.in_map_iff. split.
    + intros (k & Hk & Hin).
      destruct (presence_scan_user r st k Hr Hwf Hin) as (v & -> & Hcol & Hlast & Hlive).
      assert (v = u) by congruence. subst v. split; [exact Hcol | exact Hlive].
    + intros [Hcol Hlive]. exists (presenceKeyOf r u). split.
      * unfold presenceKeyOf. rewrite <- append_assoc_str. apply lastSegment_app. exact Hcol.
      * apply presence_scan; [exact Hr|]. split; [exact Hlive | eauto].
Qed.

(** X13. On a store whose live presence records are well formed,
    getActiveUsersInRoom yields, once each, exactly the users with a
    live presence record in the room: a user present in another room
    only, or whose presence has expired, is not listed, and another
    room whose id begins with the id of this one does not count. The
    store is left as it was. *)
Theorem getActiveUsersInRoom_presence (r : string) (st : State) :
  noFaults st -> ROOM_ID_REGEX r = true -> presenceWellFormed st ->
  exists users,
    getActiveUsersInRoom r st = (Ok users, st)
    /\ List.NoDup users
    /\ forall u, In u users <-> hasColon u = false /\ presentIn st r u.
Proof.
  intros Hnf Hr Hwf. rewrite getActiveUsersInRoom_run by exact Hnf.
  exists (activeUsersOf st r). split; [reflexivity|].
  apply activeUsersOf_spec; assumption.
Qed.

(** ** The life of a presence record *)

Lemma setRoomPresence_run r u st :
  noFaults st ->
  setRoomPresence r u st
  = (Ok tt, put (presenceKeyOf r u) (VNum (now st)) (Some ROOM_PRESENCE_TTL_SECONDS) st).
Proof.
  intros Hnf. unfold setRoomPresence. rewrite bind_getCurrentTimestamp.
  unfold Redis.set. rewrite bind_tick by exact Hnf. reflexivity.
Qed.

Lemma isLiveKey_advance_live st key v e t :
  kv st !! key = Some (mkEntry v (Some e)) -> t < e -> isLiveKey (advance t st) key = true.
Proof.
  intros Hk Ht. unfold isLiveKey. rewrite (lookupLive_advance_live _ _ _ _ _ Hk Ht).
  apply bool_decide_eq_true. eauto.
Qed.

Lemma isLiveKey_advance_lapsed st key v e t :
  kv st !! key = Some (mkEntry v (Some e)) -> e <= t -> isLiveKey (advance t st) key = false.
Proof.
  intros Hk Ht. apply isLiveKey_false. exact (lookupLive_advance_lapsed _ _ _ _ _ Hk Ht).
Qed.

(** X14. A presence record set at some time lasts 24 hours: the user
    counts as present in the room until then and no longer afterwards.
    A refresh within the 24 hours gives the record 24 hours from the
    time of the refresh; a refresh after them changes nothing, it
    does not bring the presence back. *)
Theorem presence_lasts_a_day (r u : string) (st : State) :
  noFaults st ->
  exists st1,
    setRoomPresence r u st = (Ok tt, st1)
    /\ (forall t, t < now st + ROOM_PRESENCE_TTL_SECONDS * 1000 -> presentIn (advance t st1) r u)
    /\ (forall t, now st + ROOM_PRESENCE_TTL_SECONDS * 1000 <= t ->
          ~ presentIn (advance t st1) r u
          /\ refreshRoomPresence r u (advance t st1) = (Ok tt, advance t st1))
    /\ (forall t, t < now st + ROOM_PRESENCE_TTL_SECONDS * 1000 ->
          exists st2,
            refreshRoomPresence r u (advance t st1) = (Ok tt, st2)
            /\ forall t', presentIn (advance t' st2) r u
                          <-> t' < t + ROOM_PRESENCE_TTL_SECONDS * 1000).
Proof.
  intros Hnf. rewrite setRoomPresence_run by exact Hnf.
  set (K := presenceKeyOf r u).
  set (st1 := put K (VNum (now st)) (Some ROOM_PRESENCE_TTL_SECONDS) st).
  assert (Hk1 : kv st1 !! K
                = Some (mkEntry (VNum (now st)) (Some (now st + ROOM_PRESENCE_TTL_SECONDS * 1000))))
    by apply kv_put_eq.
  assert (Hnf1 : forall t, noFaults (advance t st1)) by (intros t; exact Hnf).
  exists st1. split; [reflexivity|]. split; [|split].
  - intros t Ht. exact (isLiveKey_advance_live _ _ _ _ _ Hk1 Ht).
  - intros t Ht. pose proof (isLiveKey_advance_lapsed _ _ _ _ _ Hk1 Ht) as Hdead.
    split; [unfold presentIn; fold K; rewrite Hdead; discriminate|].
    rewrite refreshRoomPresence_run by apply Hnf1. fold K. rewrite Hdead. reflexivity.
  - intros t Ht. pose proof (isLiveKey_advance_live _ _ _ _ _ Hk1 Ht) as Hlive.
    rewrite refreshRoomPresence_run by apply Hnf1. fold K. rewrite Hlive.
    eexists. split; [reflexivity|].
    assert (Hk2 : kv (touch K ROOM_PRESENCE_TTL_SECONDS (advance t st1)) !! K
                  = Some (mkEntry (VNum (now st)) (Some (t + ROOM_PRESENCE_TTL_SECONDS * 1000)))).
    { apply (kv_touch_eq K ROOM_PRESENCE_TTL_SECONDS (advance t st1)).
      exact (lookupLive_advance_live _ _ _ _ _ Hk1 Ht). }
    intros t'. unfold presentIn. fold K. split.
    + intros Hp. destruct (Z.lt_ge_cases t' (t + ROOM_PRESENCE_TTL_SECONDS * 1000)) as [Hlt|Hge];
        [exact Hlt|].
      rewrite (isLiveKey_advance_lapsed _ _ _ _ _ Hk2 Hge) in Hp. discriminate Hp.
    + intros Hlt. exact (isLiveKey_advance_live _ _ _ _ _ Hk2 Hlt).
Qed.

(** ** Reading a room *)

(** Recounting the users of a room: the count is the number of users
    getActiveUsersInRoom lists. *)
Lemma refreshRoomUserCount_count r room st :
  noFaults st -> ROOM_ID_REGEX r = true ->
  setOrAbsent st (legacySetKeyOf r) ->
  Redis.lookupLive st (roomKeyOf r) = Some (VRoom room) ->
  exists st',
    refreshRoomUserCount r st = (Ok (Z.of_nat (List.length (activeUsersOf st r))), st')
    /\ noFaults st' /\ now st' = now st
    /\ Redis.lookupLive st' (roomKeyOf r)
       = Some (VRoom (Room.withUserCount room (Z.of_nat (List.length (activeUsersOf st r)))))
    /\ (forall k, k <> roomKeyOf r -> k <> legacySetKeyOf r -> kv st' !! k = kv st !! k).
Proof.
  intros Hnf Hr Hset Hroom.
  unfold refreshRoomUserCount, getActiveUsersAndPrune, getActiveUsersInRoom.
  fold (legacySetKeyOf r) (roomKeyOf r) (presencePatternOf r).
  rewrite !bind_bind, bind_scanAll by exact Hnf. rewrite bind_ret.
  rewrite bind_bind, bind_smembers by assumption.
  fold (activeUsersOf st r).
  set (old := match Redis.lookupLive st (legacySetKeyOf r) with Some (VSet l) => l | _ => [] end).
  assert (Hstep : exists st1,
    (forall B (k : unit -> M B),
       bind (if (0 <? List.length old)%nat
             then bind (Redis.del [legacySetKeyOf r]) (fun _ => ret tt)
             else ret tt) k st = k tt st1)
    /\ noFaults st1 /\ now st1 = now st
    /\ (forall k, k <> legacySetKeyOf r -> kv st1 !! k = kv st !! k)).
  { destruct (0 <? List.length old)%nat.
    - exists (remove [legacySetKeyOf r] st). split.
      + intros B k. rewrite bind_bind, bind_del by exact Hnf. reflexivity.
      + split; [exact Hnf|]. split; [reflexivity|].
        intros k Hk. apply kv_remove_ne. apply not_elem_of_1. exact Hk.
    - exists st. split; [intros B k; reflexivity|]. auto. }
  destruct Hstep as (st1 & Hstep & Hnf1 & Hnow1 & Hframe1).
  rewrite bind_bind, Hstep, bind_ret.
  assert (Hroom1 : Redis.lookupLive st1 (roomKeyOf r) = Some (VRoom room)).
  { rewrite <- Hroom. apply lookupLive_frame; [exact Hnow1|].
    apply Hframe1. apply room_ne_legacy. exact Hr. }
  rewrite bind_get by (try exact Hnf1; unfold plainAt; rewrite Hroom1; exact I).
  rewrite Hroom1. rewrite bind_set by exact Hnf1.
  eexists. split; [reflexivity|].
  split; [exact Hnf1|]. split; [exact Hnow1|].
  split; [apply lookupLive_put_eq; intros s Hs; discriminate Hs|].
  intros k Hk1 Hk2. rewrite kv_put_ne_l by auto. apply Hframe1. exact Hk2.
Qed.

(** X15. handleGetRoom answers 500 for a room id that is not letters and
    digits, without reading the store (the validation throws inside
    the handler's try block); 404 for a room that is not there, the
    store untouched; and for a room that is there, 200 with the room
    and a user count that is the number of users getActiveUsersInRoom
    lists, written back to the room record, every other key (the
    legacy user set of the room apart) left as it was. *)
Theorem handleGetRoom_outcomes (r : string) (st : State) :
  (ROOM_ID_REGEX r = false -> handleGetRoom r st = (Ok RESP_FETCH_ROOM_FAILED, st))
  /\ (noFaults st -> ROOM_ID_REGEX r = true ->
      (Redis.lookupLive st (roomKeyOf r) = None ->
       handleGetRoom r st = (Ok RESP_ROOM_NOT_FOUND, st))
      /\ (forall room,
            Redis.lookupLive st (roomKeyOf r) = Some (VRoom room) ->
            setOrAbsent st (legacySetKeyOf r) ->
            let counted := Room.withUserCount room (Z.of_nat (List.length (activeUsersOf st r))) in
            exists st',
              handleGetRoom r st = (Ok (okResponse (BRoom counted)), st')
              /\ fst (getActiveUsersInRoom r st) = Ok (activeUsersOf st r)
              /\ Redis.lookupLive st' (roomKeyOf r) = Some (VRoom counted)
              /\ (forall k, k <> roomKeyOf r -> k <> legacySetKeyOf r ->
                    kv st' !! k = kv st !! k))).
Proof.
  split.
  - intros Hr. unfold handleGetRoom, tryCatch, assertValidRoomId. rewrite Hr. reflexivity.
  - intros Hnf Hr. split; [apply handleGetRoom_not_found; assumption|].
    intros room Hroom Hset counted.
    destruct (refreshRoomUserCount_count r room st Hnf Hr Hset Hroom)
      as (st' & Hrun & _ & _ & Hroom' & Hframe).
    exists st'. split; [|split; [|split; [exact Hroom' | exact Hframe]]].
    + unfold handleGetRoom, tryCatch, assertValidRoomId. rewrite Hr. cbn [negb].
      rewrite bind_ret. fold (roomKeyOf r).
      rewrite bind_get by (try exact Hnf; unfold plainAt; rewrite Hroom; exact I).
      rewrite Hroom. rewrite (bind_ok _ _ _ _ _ Hrun). reflexivity.
    + rewrite getActiveUsersInRoom_run by exact Hnf. reflexivity.
Qed.

(** ** Reading messages *)

Lemma touches_handleGetMessages P r : touchesOnly (handleGetMessages r) P.
Proof. unfold handleGetMessages, assertValidRoomId. footprint. Qed.

Lemma handleGetMessages_run r st :
  noFaults st -> ROOM_ID_REGEX r = true ->
  isLiveKey st (roomKeyOf r) = true -> listOrAbsent st (messagesKeyOf r) ->
  handleGetMessages r st = (Ok (Served 200 (firstn 20 (messagesOf st r))), st).
Proof.
  intros Hnf Hr Hroom Hlist.
  unfold handleGetMessages, tryCatch, assertValidRoomId. rewrite Hr. cbn [negb].
  rewrite bind_ret. fold (roomKeyOf r) (messagesKeyOf r).
  rewrite bind_exists by exact Hnf. rewrite Hroom. cbn [negb].
  unfold messagesOf. destruct Hlist as [Hl | [l Hl]]; rewrite Hl.
  - rewrite bind_lrange_none by assumption. reflexivity.
  - rewrite (bind_lrange_list _ _ l) by assumption. reflexivity.
Qed.

(** X16. handleGetMessages never writes to the store. It answers 500
    for a room id that is not letters and digits (the validation
    throws inside the handler's try block), 404 for a room that is not
    there, and otherwise 200 with the 20 newest messages of the room,
    newest first. *)
Theorem handleGetMessages_outcomes (r : string) (st : State) :
  (forall k, keptAt st (snd (handleGetMessages r st)) k)
  /\ (ROOM_ID_REGEX r = false ->
      handleGetMessages r st
      = (Ok (Refused (createErrorResponse "Failed to fetch messages" 500)), st))
  /\ (noFaults st -> ROOM_ID_REGEX r = true ->
      (isLiveKey st (roomKeyOf r) = false ->
       handleGetMessages r st = (Ok (Refused RESP_ROOM_NOT_FOUND), st))
      /\ (isLiveKey st (roomKeyOf r) = true -> listOrAbsent st (messagesKeyOf r) ->
          handleGetMessages r st = (Ok (Served 200 (firstn 20 (messagesOf st r))), st))).
Proof.
  split; [|split].
  - intros k. destruct (handleGetMessages r st) as [res s1] eqn:Hrun.
    exact (touchesOnly_keptAt _ _ _ _ _ _ (touches_handleGetMessages (fun _ => False) r)
             Hrun (fun H => H)).
  - intros Hr. unfold handleGetMessages, tryCatch, assertValidRoomId. rewrite Hr. reflexivity.
  - intros Hnf Hr. split; [|apply handleGetMessages_run; assumption].
    intros Hroom. unfold handleGetMessages, tryCatch, assertValidRoomId. rewrite Hr. cbn [negb].
    rewrite bind_ret. fold (roomKeyOf r).
    rewrite bind_exists by exact Hnf. rewrite Hroom. reflexivity.
Qed.

Section SendThenGet.
Variable clean : string -> string.
Variable isProfane : string -> bool.

(** X17. A message that handleSendMessage accepts is the first of the
    messages handleGetMessages then answers for the room, with the
    sanitized content, followed by the 19 newest of the messages that
    were there. *)
Theorem send_then_get (data : SendMessageBody) (st st1 : State) :
  let r := sm_roomId data in
  let u := toLowerCase (sm_username data) in
  let content := sanitizeContent clean (sm_content data) in
  sendReady isProfane st r u ->
  truthy (sm_content data) = true ->
  (String.length content <= MAX_MESSAGE_LENGTH)%nat ->
  burstLimit r u st = (Ok None, st1) ->
  isDuplicate (messagesOf st r) u content = false ->
  exists msg st',
    handleSendMessage clean isProfane data st = (Ok (mkResponse (BMessage msg) 201), st')
    /\ Message.content msg = content
    /\ handleGetMessages r st'
       = (Ok (Served 200 (msg :: firstn 19 (messagesOf st r))), st').
Proof.
  intros r u content Hready Hc Hlen Hgate Hd.
  destruct (send_accepted_stores clean isProfane data st st1 Hready Hc Hlen Hgate Hd)
    as (msg & st' & Hrun & Hcontent & Hlist).
  fold r in Hlist. fold content in Hcontent.
  exists msg, st'. split; [exact Hrun|]. split; [exact Hcontent|].
  destruct Hready as (Hnf & _ & Hrid & _ & Hroom & _).
  destruct (touches_handleSendMessage clean isProfane data _ _ _ Hrun) as (Hnow & Hnf' & Hkv).
  fold r u in Hkv.
  rewrite handleGetMessages_run.
  - rewrite Hlist. cbn [firstn]. rewrite List.firstn_firstn. reflexivity.
  - auto.
  - exact Hrid.
  - unfold isLiveKey in *. rewrite (lookupLive_frame st st'); [exact Hroom | exact Hnow|].
    apply Hkv. not_key.
  - right. unfold messagesOf in Hlist.
    destruct (Redis.lookupLive st' (messagesKeyOf r)) as [[]|]; try discriminate Hlist.
    eauto.
Qed.

End SendThenGet.

(** ** Reading the messages of several rooms *)

Lemma mapM_reads {A B} (f : A -> M B) (g : A -> B) l st :
  (forall a, In a l -> f a st = (Ok (g a), st)) ->
  mapM f l st = (Ok (List.map g l), st).
Proof.
  induction l as [|a l IH]; intros H; [reflexivity|].
  cbn [mapM List.map]. rewrite (bind_ok _ _ _ _ _ (H a (or_introl eq_refl))).
  rewrite (bind_ok _ _ _ _ _ (IH (fun b Hb => H b (or_intror Hb)))). reflexivity.
Qed.

Lemma filterByIndex_map {A} (g : A -> bool) l keep :
  filterByIndex l (List.map g l) keep = List.filter (fun a => Bool.eqb (g a) keep) l.
Proof.
  induction l as [|a l IH]; [reflexivity|].
  cbn [List.map filterByIndex List.filter]. rewrite IH. reflexivity.
Qed.

Lemma toMessagesMap_lookup (h : string -> list Message.t) l r :
  toMessagesMap (List.map (fun x => (x, h x)) l) !! r
  = if bool_decide (r ∈ l) then Some (h r) else None.
Proof.
  unfold toMessagesMap.
  assert (H : forall (m : gmap string (list Message.t)),
            List.fold_left (fun m '(roomId, messages) => <[roomId := messages]> m)
              (List.map (fun x => (x, h x)) l) m !! r
            = if bool_decide (r ∈ l) then Some (h r) else m !! r).
  { induction l as [|a l IH]; intros m.
    - cbn. rewrite bool_decide_eq_false_2 by apply not_elem_of_nil. reflexivity.
    - cbn [List.map List.fold_left]. rewrite IH.
      destruct (decide (r ∈ l)) as [Hin|Hin].
      + rewrite !bool_decide_eq_true_2;
          [reflexivity | apply elem_of_cons; right; exact Hin | exact Hin].
      + rewrite (bool_decide_eq_false_2 _ Hin).
        destruct (decide (a = r)) as [->|Hne].
        * rewrite bool_decide_eq_true_2 by (apply elem_of_cons; left; reflexivity).
          apply lookup_insert_eq.
        * rewrite bool_decide_eq_false_2
            by (intros [?|?]%elem_of_cons; [congruence | contradiction]).
          apply lookup_insert_ne. exact Hne. }
  rewrite H. destruct (bool_decide (r ∈ l)); [reflexivity | apply lookup_empty].
Qed.

(** X18. handleGetBulkMessages refuses the whole request with 400 when
    one of the ids is not letters and digits. Otherwise it splits the
    ids, in their order, into those of rooms that are there and the
    others, and answers for each room that is there its 20 newest
    messages; a room that is not there has no entry in the answer.
    The store is left as it was. *)
Theorem handleGetBulkMessages_splits (roomIds : list string) (st : State) :
  (List.existsb (fun id => negb (ROOM_ID_REGEX id)) roomIds = true ->
   handleGetBulkMessages roomIds st
   = (Ok (Refused (createErrorResponse "Invalid room ID format" 400)), st))
  /\ (noFaults st ->
      List.existsb (fun id => negb (ROOM_ID_REGEX id)) roomIds = false ->
      (forall r, In r roomIds -> listOrAbsent st (messagesKeyOf r)) ->
      exists bulk,
        handleGetBulkMessages roomIds st = (Ok (Served 200 bulk), st)
        /\ validRoomIds bulk = List.filter (fun r => isLiveKey st (roomKeyOf r)) roomIds
        /\ invalidRoomIds bulk
           = List.filter (fun r => negb (isLiveKey st (roomKeyOf r))) roomIds
        /\ (forall r, In r (validRoomIds bulk) ->
              messagesMap bulk !! r = Some (firstn 20 (messagesOf st r)))
        /\ (forall r, ~ In r (validRoomIds bulk) -> messagesMap bulk !! r = None)).
Proof.
  split.
  - intros Hbad. unfold handleGetBulkMessages, tryCatch. rewrite Hbad. reflexivity.
  - intros Hnf Hok Hlists. unfold handleGetBulkMessages, tryCatch. rewrite Hok.
    set (live := fun r => isLiveKey st (roomKeyOf r)).
    assert (Hchecks : mapM (fun roomId => Redis.exists_ (CHAT_ROOM_PREFIX +:+ roomId)) roomIds st
                      = (Ok (List.map live roomIds), st)).
    { apply mapM_reads. intros a _. unfold Redis.exists_.
      unfold bind. rewrite tick_noFaults by exact Hnf. reflexivity. }
    rewrite (bind_ok _ _ _ _ _ Hchecks). rewrite !filterByIndex_map.
    set (valid := List.filter (fun a => Bool.eqb (live a) true) roomIds).
    set (h := fun r => firstn 20 (messagesOf st r)).
    assert (Hvalid_in : forall r, In r valid -> In r roomIds).
    { intros r Hin. apply List.filter_In in Hin as [Hin _]. exact Hin. }
    assert (Hresults :
      mapM (fun roomId =>
              bind (Redis.lrange (CHAT_MESSAGES_PREFIX +:+ roomId) 19)
                   (fun messagesStrings => ret (roomId, messagesStrings))) valid st
      = (Ok (List.map (fun x => (x, h x)) valid), st)).
    { apply mapM_reads. intros r Hin. fold (messagesKeyOf r). subst h. cbv beta.
      unfold messagesOf.
      destruct (Hlists r (Hvalid_in r Hin)) as [Hl | [l Hl]]; rewrite Hl.
      - rewrite bind_lrange_none by assumption. reflexivity.
      - rewrite (bind_lrange_list _ _ l) by assumption. reflexivity. }
    rewrite (bind_ok _ _ _ _ _ Hresults).
    eexists. split; [reflexivity|]. cbn [validRoomIds invalidRoomIds messagesMap].
    assert (Hv : valid = List.filter (fun r => isLiveKey st (roomKeyOf r)) roomIds).
    { subst valid live. apply List.filter_ext. intros a.
      destruct (isLiveKey st (roomKeyOf a)); reflexivity. }
    split; [exact Hv|]. split.
    { apply List.filter_ext. intros a. subst live. cbv beta.
      destruct (isLiveKey st (roomKeyOf a)); reflexivity. }
    split.
    + intros r Hin. rewrite toMessagesMap_lookup.
      rewrite bool_decide_eq_true_2 by (apply list_elem_of_In; exact Hin). reflexivity.
    + intros r Hin. rewrite toMessagesMap_lookup.
      rewrite bool_decide_eq_false_2
        by (intros H; apply Hin, list_elem_of_In; exact H).
      reflexivity.
Qed.

(** ** Joining a room *)

Lemma USERNAME_REGEX_noColon u : USERNAME_REGEX u = true -> hasColon u = false.
Proof.
  rewrite USERNAME_REGEX_validName. intros H. apply validName_chars in H.
  unfold hasColon. induction u as [|c u IH]; [reflexivity|].
  cbn [forallb existsb] in *. apply andb_true_iff in H as [Hc Hu].
  rewrite (IH Hu), orb_false_r.
  clear - Hc. by_byte c; first [reflexivity | discriminate Hc].
Qed.

(** Setting the presence of a valid pair keeps the store well formed. *)
Lemma presenceWellFormed_put r u v ex st :
  hasColon r = false -> hasColon u = false ->
  presenceWellFormed st -> presenceWellFormed (put (presenceKeyOf r u) v ex st).
Proof.
  intros Hr Hu Hwf rest Hlive.
  destruct (decide (presenceKeyOf r u = CHAT_ROOM_PRESENCE_PREFIX +:+ rest)) as [E|Hne].
  - rewrite presenceKey_split in E. apply append_inj_l in E. subst rest. eauto.
  - apply Hwf. unfold isLiveKey in *. rewrite lookupLive_put_ne in Hlive by exact Hne.
    exact Hlive.
Qed.

Lemma presentIn_put r u v s st r' u' :
  0 < s ->
  presentIn (put (presenceKeyOf r u) v (Some s) st) r' u'
  <-> presenceKeyOf r' u' = presenceKeyOf r u \/ presentIn st r' u'.
Proof.
  intros Hs. unfold presentIn, isLiveKey.
  destruct (decide (presenceKeyOf r u = presenceKeyOf r' u')) as [E|Hne].
  - rewrite <- E, lookupLive_put_eq by (intros x [= <-]; exact Hs).
    rewrite bool_decide_eq_true. split; [auto | eauto].
  - rewrite lookupLive_put_ne by exact Hne. split; [auto|].
    intros [E|H]; [congruence | exact H].
Qed.

Lemma presenceKey_inj r u r' u' :
  hasColon r = false -> hasColon r' = false ->
  presenceKeyOf r' u' = presenceKeyOf r u -> r' = r /\ u' = u.
Proof.
  intros Hr Hr' E. rewrite !presenceKey_split in E. apply append_inj_l in E.
  exact (colon_split r' r u' u Hr' Hr E).
Qed.

Lemma presenceKey_not_prefixed (key : string) r u :
  (forall rest, key <> CHAT_ROOM_PRESENCE_PREFIX +:+ rest) -> key <> presenceKeyOf r u.
Proof. intros H E. apply (H (r +:+ ":" +:+ u)). rewrite E. apply presenceKey_split. Qed.

(** Writes at keys that are no presence records leave the presence
    of every pair as it was. *)
Lemma presentIn_frame st st' r u :
  now st' = now st -> kv st' !! presenceKeyOf r u = kv st !! presenceKeyOf r u ->
  presentIn st' r u <-> presentIn st r u.
Proof.
  intros Hn Hk. unfold presentIn, isLiveKey.
  rewrite (lookupLive_frame st st' _ Hn Hk). reflexivity.
Qed.

(** X19. On a well-formed store, handleJoinRoom for a valid user and a
    valid room that both exist answers success whatever the type of
    the room and whether or not the user is one of its members. The
    user is then present in the room for 24 hours; the user count of
    the room record is the number of users present, the joiner
    included and counted once; the members, the type and the name of
    the room are what they were; the user record has the time of the
    join as its last activity; and no other key is written, legacy user
    sets apart. *)
Theorem handleJoinRoom_joins (r name : string) (room : Room.t) (ud : User.t) (st : State) :
  let u := toLowerCase name in
  noFaults st ->
  USERNAME_REGEX u = true -> ROOM_ID_REGEX r = true ->
  Redis.lookupLive st (roomKeyOf r) = Some (VRoom room) ->
  Redis.lookupLive st (userKeyOf u) = Some (VUser ud) ->
  setOrAbsent st (legacySetKeyOf r) ->
  presenceWellFormed st ->
  exists st' users,
    handleJoinRoom (mkJoinLeave (Some r) (Some name)) st = (Ok (okResponse BSuccess), st')
    /\ (forall t, t < now st + ROOM_PRESENCE_TTL_SECONDS * 1000 -> presentIn (advance t st') r u)
    /\ List.NoDup users
    /\ (forall u', In u' users <-> hasColon u' = false /\ (u' = u \/ presentIn st r u'))
    /\ Redis.lookupLive st' (roomKeyOf r)
       = Some (VRoom (Room.withUserCount room (Z.of_nat (List.length users))))
    /\ Redis.lookupLive st' (userKeyOf u) = Some (VUser (User.mk (User.username ud) (now st)))
    /\ (forall k, k <> presenceKeyOf r u -> k <> roomKeyOf r -> k <> userKeyOf u ->
          ~ isLegacySetKey k -> keptAt st st' k).
Proof.
  intros u Hnf Hre Hrid Hroom Huser Hset Hwf.
  destruct (ROOM_ID_REGEX_plain r Hrid) as [_ Hrcol].
  pose proof (USERNAME_REGEX_noColon u Hre) as Hucol.
  unfold handleJoinRoom. cbn [jl_roomId jl_username option_map]. fold u.
  rewrite (ROOM_ID_REGEX_truthy r Hrid), (USERNAME_REGEX_truthy u Hre). cbn [negb orb].
  rewrite (bind_ok _ _ _ _ _ (validateIds_ok u r st Hre Hrid)).
  unfold tryCatch. fold (roomKeyOf r) (userKeyOf u).
  rewrite bind_get by (try exact Hnf; unfold plainAt; rewrite Hroom; exact I).
  rewrite bind_get by (try exact Hnf; unfold plainAt; rewrite Huser; exact I).
  rewrite Hroom, Huser. cbn [truthyOpt truthyValue negb].
  rewrite (bind_ok _ _ _ _ _ (setRoomPresence_run r u st Hnf)).
  set (st1 := put (presenceKeyOf r u) (VNum (now st)) (Some ROOM_PRESENCE_TTL_SECONDS) st).
  assert (Hnf1 : noFaults st1) by exact Hnf.
  assert (Hroom1 : Redis.lookupLive st1 (roomKeyOf r) = Some (VRoom room)).
  { subst st1. rewrite lookupLive_put_ne by auto with keys. exact Hroom. }
  assert (Hset1 : setOrAbsent st1 (legacySetKeyOf r)).
  { unfold setOrAbsent. subst st1.
    rewrite lookupLive_put_ne by (apply not_eq_sym, legacy_ne_presence). exact Hset. }
  assert (Hwf1 : presenceWellFormed st1) by (apply presenceWellFormed_put; assumption).
  destruct (refreshRoomUserCount_count r room st1 Hnf1 Hrid Hset1 Hroom1)
    as (st2 & Hrefresh & Hnf2 & Hnow2 & Hroom2 & Hframe2).
  rewrite (bind_ok _ _ _ _ _ Hrefresh).
  set (users := activeUsersOf st1 r) in *.
  set (n := Z.of_nat (List.length users)) in *.
  rewrite bind_set by exact Hnf2.
  set (st3 := put (roomKeyOf r) (VRoom (Room.withUserCount room n)) None st2).
  rewrite bind_getCurrentTimestamp.
  rewrite bind_set by exact Hnf2.
  set (st4 := put (userKeyOf u) (VUser (User.mk (User.username ud) (now st3))) None st3).
  assert (Hnow4 : now st4 = now st) by exact Hnow2.
  match goal with
  | |- context [bind (swallow ?m) _ st4] =>
      destruct (swallow_ok m st4) as (st5 & Hsw);
      pose proof (touches_tryCatch isLegacySetKey m (fun _ => ret tt)
                    (touches_broadcastRoomsUpdated isLegacySetKey (fun k H => H))
                    (fun e => touches_ret isLegacySetKey tt) _ _ _ Hsw)
        as (Hnow5 & Hnf5 & Hkv5)
  end.
  rewrite (bind_ok _ _ _ _ _ Hsw).
  assert (Hkv4 : forall k, k <> roomKeyOf r -> k <> userKeyOf u -> k <> legacySetKeyOf r ->
                           kv st4 !! k = kv st1 !! k).
  { intros k H1 H2 H3. subst st4 st3. unfold put, setKv. cbn [kv].
    rewrite lookup_insert_ne by (apply not_eq_sym; exact H2).
    rewrite lookup_insert_ne by (apply not_eq_sym; exact H1).
    apply Hframe2; assumption. }
  exists st5, users. split; [reflexivity|].
  destruct (activeUsersOf_spec r st1 Hrid Hwf1) as [Hnodup Husers].
  split; [|split; [exact Hnodup|split; [|split; [|split]]]].
  - intros t Ht.
    apply (isLiveKey_advance_live st5 _ (VNum (now st))
             (now st + ROOM_PRESENCE_TTL_SECONDS * 1000)); [|exact Ht].
    rewrite Hkv5 by apply presenceKey_not_legacy.
    rewrite Hkv4; [apply kv_put_eq | | |]; apply not_eq_sym;
      [auto with keys | auto with keys | apply legacy_ne_presence].
  - intros u'. unfold users. rewrite (Husers u'). unfold st1.
    rewrite presentIn_put by reflexivity. split.
    + intros [Hc [E|H]]; (split; [exact Hc|]); [left | right; exact H].
      exact (proj2 (presenceKey_inj r u r u' Hrcol Hrcol E)).
    + intros [Hc [->|H]]; (split; [exact Hc|]); [left; reflexivity | right; exact H].
  - rewrite (lookupLive_frame st4 st5) by
      (try exact Hnow5; apply Hkv5, roomKey_not_legacy; exact Hrid).
    subst st4. rewrite lookupLive_put_ne by auto with keys.
    subst st3. apply lookupLive_put_eq. intros s Hs. discriminate Hs.
  - rewrite (lookupLive_frame st4 st5) by (try exact Hnow5; apply Hkv5, userKey_not_legacy).
    subst st4. rewrite lookupLive_put_eq by (intros s Hs; discriminate Hs).
    change (now st3) with (now st2). rewrite Hnow2. reflexivity.
  - intros k H1 H2 H3 H4. split; [|congruence].
    rewrite Hkv5 by exact H4.
    rewrite Hkv4; [| exact H2 | exact H3 | intros ->; apply H4; eexists; reflexivity].
    subst st1. unfold put, setKv. cbn [kv]. apply lookup_insert_ne. apply not_eq_sym. exact H1.
Qed.

(** ** The DELETE dispatcher *)

Lemma authKeys_tokenKey U t k : authKeys U t k -> isTokenKey k.
Proof.
  intros [->|[->| ->]].
  - apply tokenKey_of_userTokenKey, userTokenKey_is.
  - eexists; reflexivity.
  - eexists; reflexivity.
Qed.

Lemma touches_DELETE request : touchesOnly (DELETE request) isTokenKey.
Proof.
  unfold DELETE, handleDeleteRoom, handleDeleteMessage.
  apply touches_tryCatch; [|intros e; apply touches_ret].
  apply touches_bind.
  { eapply touches_weaken; [|apply touches_validateAuth]. apply authKeys_tokenKey. }
  intros a. destruct (negb (valid a)); [apply touches_ret|].
  destruct (del_action request) as [act|]; [|apply touches_ret].
  destruct (String.eqb act "deleteRoom").
  { destruct (del_roomId request) as [r|]; [|apply touches_ret].
    destruct (negb (truthy r)); apply touches_ret. }
  destruct (String.eqb act "deleteMessage"); [|apply touches_ret].
  destruct (del_roomId request) as [r|]; [|apply touches_ret].
  destruct (del_messageId request) as [m|]; [|apply touches_ret].
  destruct (_ || _); apply touches_ret.
Qed.

(** X20. Whatever the request, the store and its faults, DELETE answers
    401, 400, 501 or 500 and never a success; it answers 401 whenever
    validateAuth (expired tokens not allowed) does not accept the
    credentials of the request; and it deletes nothing: every key that
    is not a token record holds what it held, rooms and messages
    included. *)
Theorem DELETE_never_deletes (request : DeleteRequest) (st : State) :
  let auth := extractAuth (del_headers request) in
  exists resp,
    fst (DELETE request st) = Ok resp
    /\ In (status resp) [400; 401; 500; 501]
    /\ (forall a s1,
          validateAuth (authUsername auth) (authToken auth) false st = (Ok a, s1) ->
          valid a = false -> resp = RESP_UNAUTHORIZED)
    /\ (forall k, ~ isTokenKey k -> keptAt st (snd (DELETE request st)) k).
Proof.
  intros auth.
  assert (Hkept : forall k, ~ isTokenKey k -> keptAt st (snd (DELETE request st)) k).
  { intros k Hk. destruct (DELETE request st) as [r s1] eqn:Hrun.
    exact (touchesOnly_keptAt _ _ _ _ _ _ (touches_DELETE request) Hrun Hk). }
  revert Hkept. unfold DELETE, tryCatch, bind, handleDeleteRoom, handleDeleteMessage.
  fold auth.
  destruct (validateAuth (authUsername auth) (authToken auth) false st) as [[a|e] s1].
  2:{ intros Hkept. eexists. split; [reflexivity|]. split; [cbn; tauto|].
      split; [|exact Hkept]. intros a s2 [=]. }
  assert (Hdone : forall (resp : Response) (K : State -> Prop),
             In (status resp) [400; 401; 500; 501] ->
             (valid a = false -> resp = RESP_UNAUTHORIZED) ->
             K s1 ->
             exists resp',
               Ok resp = Ok resp' /\ In (status resp') [400; 401; 500; 501]
               /\ (forall a' s', (Ok a, s1) = (Ok a', s') -> valid a' = false ->
                                 resp' = RESP_UNAUTHORIZED)
               /\ K s1).
  { intros resp K H1 H2 H3. exists resp. split; [reflexivity|]. split; [exact H1|].
    split; [|exact H3]. intros a' s' [= <- <-]. exact H2. }
  destruct (valid a) eqn:Hv; cbn [negb].
  2:{ intros Hkept.
      apply (Hdone RESP_UNAUTHORIZED (fun s => forall k, ~ isTokenKey k -> keptAt st s k));
        [cbn; tauto | reflexivity | exact Hkept]. }
  destruct (del_action request) as [act|].
  2:{ intros Hkept. unfold ret. cbn [fst snd] in *.
      apply (Hdone _ (fun s => forall k, ~ isTokenKey k -> keptAt st s k));
        [cbn; tauto | discriminate | exact Hkept]. }
  destruct (String.eqb act "deleteRoom").
  { destruct (del_roomId request) as [r|]; [destruct (negb (truthy r))|];
      intros Hkept; unfold ret; cbn [fst snd] in *;
      apply (Hdone _ (fun s => forall k, ~ isTokenKey k -> keptAt st s k));
        try discriminate; try exact Hkept; cbn; tauto. }
  destruct (String.eqb act "deleteMessage").
  { destruct (del_roomId request) as [r|]; [destruct (del_messageId request) as [m|];
      [destruct (_ || _)|]|];
      intros Hkept; unfold ret; cbn [fst snd] in *;
      apply (Hdone _ (fun s => forall k, ~ isTokenKey k -> keptAt st s k));
        try discriminate; try exact Hkept; cbn; tauto. }
  intros Hkept. unfold ret. cbn [fst snd] in *.
  apply (Hdone _ (fun s => forall k, ~ isTokenKey k -> keptAt st s k));
    [cbn; tauto | discriminate | exact Hkept].
Qed.

(** ** Issuing a token *)

Lemma handleGenerateToken_run (name : string) (force : bool) (st : State) :
  let u := toLowerCase name in
  let A := nextToken st in
  noFaults st -> truthy name = true -> userKnown st u -> plainAt st (legacyKeyOf u) ->
  handleGenerateToken (mkGenerate (Some name) force) st
  = (Ok (mkResponse (BToken A) 201),
     put (lastTokenKeyOf u) (VTokenData (TokenData.mk A (now st + USER_EXPIRATION_TIME * 1000)))
         (Some (USER_EXPIRATION_TIME + TOKEN_GRACE_PERIOD))
       (put (getTokenKey A) (VStr u) (Some USER_EXPIRATION_TIME)
          (put (getUserTokenKey u A) (VNum (now st)) (Some USER_EXPIRATION_TIME)
             (put (legacyKeyOf u) (VStr A) (Some USER_EXPIRATION_TIME)
                (spend TOKEN_LENGTH st))))).
Proof.
  intros u A Hnf Hname [Hup Hut] Hleg.
  assert (Hu : toLowerCase u = u) by apply toLowerCase_idem.
  unfold handleGenerateToken. cbn [gt_username]. rewrite Hname. cbn [negb]. fold u.
  unfold tryCatch. fold (userKeyOf u) (legacyKeyOf u).
  rewrite bind_get by assumption.
  rewrite Hut. cbn [negb].
  rewrite bind_get by assumption.
  rewrite generateAuthToken_run. fold A.
  assert (HnfS : noFaults (spend TOKEN_LENGTH st)) by exact Hnf.
  rewrite bind_set by exact HnfS.
  rewrite (bind_ok _ _ _ _ _
             (storeToken_run u A
                (put (legacyKeyOf u) (VStr A) (Some USER_EXPIRATION_TIME) (spend TOKEN_LENGTH st))
                Hnf (nextToken_truthy st) Hu)).
  rewrite bind_dateNow.
  unfold storeLastValidToken. rewrite Hu. fold (lastTokenKeyOf u).
  rewrite bind_set by exact Hnf.
  reflexivity.
Qed.

(** X21. For a known user handleGenerateToken answers 201 with a fresh
    token, whether or not a token was already issued and whatever the
    force flag. For the next 90 days validateAuth accepts the token as
    current; from then on, without any refresh in between, it is
    accepted as expired for one more year when expired tokens are
    allowed, and rejected otherwise and afterwards. Only token records
    are written. *)
Theorem handleGenerateToken_issues (name : string) (force : bool) (st : State) :
  let u := toLowerCase name in
  let A := nextToken st in
  let expiry := now st + USER_EXPIRATION_TIME * 1000 in
  noFaults st -> truthy name = true -> userKnown st u -> plainAt st (legacyKeyOf u) ->
  exists st',
    handleGenerateToken (mkGenerate (Some name) force) st
    = (Ok (mkResponse (BToken A) 201), st')
    /\ (forall t allowExpired, t < expiry ->
          fst (validateAuth (Some name) (Some A) allowExpired (advance t st'))
          = Ok (mkAuth true (Some false)))
    /\ (forall t allowExpired, expiry <= t ->
          fst (validateAuth (Some name) (Some A) allowExpired (advance t st'))
          = Ok (if allowExpired && (t <? expiry + TOKEN_GRACE_PERIOD * 1000)
                then mkAuth true (Some true) else mkAuth false None))
    /\ (forall k, ~ isTokenKey k -> kv st' !! k = kv st !! k).
Proof.
  intros u A expiry Hnf Hname Hknown Hleg.
  pose proof (handleGenerateToken_run name force st Hnf Hname Hknown Hleg) as Hrun.
  fold u A in Hrun.
  set (s0 := spend TOKEN_LENGTH st) in *.
  set (s1 := put (legacyKeyOf u) (VStr A) (Some USER_EXPIRATION_TIME) s0) in *.
  set (s2 := put (getUserTokenKey u A) (VNum (now st)) (Some USER_EXPIRATION_TIME) s1) in *.
  set (s3 := put (getTokenKey A) (VStr u) (Some USER_EXPIRATION_TIME) s2) in *.
  set (st' := put (lastTokenKeyOf u)
                (VTokenData (TokenData.mk A (now st + USER_EXPIRATION_TIME * 1000)))
                (Some (USER_EXPIRATION_TIME + TOKEN_GRACE_PERIOD)) s3) in *.
  assert (Hhex : forallb isHexChar A = true) by apply nextToken_hex.
  assert (HA : truthy A = true) by apply nextToken_truthy.
  assert (Hlast : kv st' !! lastTokenKeyOf u
                  = Some (mkEntry (VTokenData (TokenData.mk A expiry))
                            (Some (expiry + TOKEN_GRACE_PERIOD * 1000)))).
  { unfold st'. rewrite kv_put_eq. do 3 f_equal. change (now s3) with (now st).
    unfold expiry. lia. }
  assert (Htok : kv st' !! getTokenKey A = Some (mkEntry (VStr u) (Some expiry))).
  { unfold st'. rewrite kv_put_ne by (apply lastKey_ne_tokenKey; exact Hhex).
    unfold s3. rewrite kv_put_eq. reflexivity. }
  assert (Hdir : kv st' !! getUserTokenKey u A = Some (mkEntry (VNum (now st)) (Some expiry))).
  { unfold st'. rewrite kv_put_ne by (apply not_eq_sym, userTokenKey_ne_lastKey).
    unfold s3. rewrite kv_put_ne by (apply not_eq_sym, userTokenKey_ne_tokenKey_same).
    unfold s2. rewrite kv_put_eq. reflexivity. }
  assert (Hlegacy : exists v, kv st' !! legacyKeyOf u = Some (mkEntry v (Some expiry))).
  { destruct (decide (legacyKeyOf u = getTokenKey A)) as [E|Hne].
    - rewrite E. eexists. exact Htok.
    - exists (VStr A). unfold st'. rewrite kv_put_ne by apply lastKey_ne_legacy.
      unfold s3. rewrite kv_put_ne by (apply not_eq_sym; exact Hne).
      unfold s2. rewrite kv_put_ne by (apply not_eq_sym, legacy_not_userToken).
      unfold s1. rewrite kv_put_eq. reflexivity. }
  exists st'. split; [exact Hrun|]. split; [|split].
  - intros t allowExpired Ht.
    rewrite (validateAuth_direct name A allowExpired (advance t st')); [reflexivity | | | |].
    + exact Hnf.
    + exact Hname.
    + exact HA.
    + fold u. unfold directRecord. exact (isLiveKey_advance_live _ _ _ _ _ Hdir Ht).
  - intros t allowExpired Ht.
    destruct Hlegacy as [lv Hlegacy].
    pose proof (lookupLive_advance_lapsed _ _ _ _ _ Htok Ht) as Ltok.
    pose proof (lookupLive_advance_lapsed _ _ _ _ _ Hlegacy Ht) as Lleg.
    pose proof (isLiveKey_advance_lapsed _ _ _ _ _ Hdir Ht) as Ldir.
    assert (Llast : Redis.lookupLive (advance t st') (lastTokenKeyOf u)
                    = if t <? expiry + TOKEN_GRACE_PERIOD * 1000
                      then Some (VTokenData (TokenData.mk A expiry)) else None).
    { destruct (Z.ltb_spec t (expiry + TOKEN_GRACE_PERIOD * 1000)).
      - exact (lookupLive_advance_live _ _ _ _ _ Hlast H).
      - exact (lookupLive_advance_lapsed _ _ _ _ _ Hlast H). }
    rewrite (validateAuth_run name A allowExpired (advance t st')).
    + cbn [fst]. fold u. f_equal.
      unfold authPath, directRecord, reverseRecordNames, legacyRecordIs, graceRecordAdmits.
      rewrite Ldir, Ltok, Lleg, Llast. cbn [mappedLowerOf isToken].
      rewrite bool_decide_eq_false_2 by discriminate.
      destruct allowExpired; cbn [andb]; [|reflexivity].
      destruct (t <? expiry + TOKEN_GRACE_PERIOD * 1000) eqn:Hg; [|reflexivity].
      cbn [TokenData.token TokenData.expiredAt]. rewrite String.eqb_refl.
      change (now (advance t st')) with t. rewrite Hg. reflexivity.
    + exact Hnf.
    + exact Hname.
    + exact HA.
    + unfold plainAt. rewrite Ltok. exact I.
    + fold u. unfold plainAt. rewrite Lleg. exact I.
    + fold u. unfold plainAt. rewrite Llast. destruct (_ <? _); exact I.
  - intros k Hk.
    assert (Hpre : forall rest, AUTH_TOKEN_PREFIX +:+ rest <> k).
    { intros rest E. apply Hk. exists rest. symmetry. exact E. }
    unfold st', s3, s2, s1, lastTokenKeyOf, getTokenKey, legacyKeyOf.
    rewrite kv_put_ne by apply Hpre.
    rewrite kv_put_ne by apply Hpre.
    rewrite kv_put_ne.
    2:{ intros E. apply Hk, tokenKey_of_userTokenKey. rewrite <- E. apply userTokenKey_is. }
    rewrite kv_put_ne by apply Hpre.
    reflexivity.
Qed.

(** ** Creating a room *)

Lemma insertSorted_perm x l : Permutation (x :: l) (insertSorted x l).
Proof.
  induction l as [|y r IH]; cbn [insertSorted]; [reflexivity|].
  destruct (String.leb x y); [reflexivity|].
  rewrite perm_swap. apply perm_skip, IH.
Qed.

Lemma sortStrings_perm l : Permutation l (sortStrings l).
Proof.
  induction l as [|x r IH]; cbn [sortStrings List.fold_right]; [reflexivity|].
  rewrite <- insertSorted_perm. apply perm_skip, IH.
Qed.

Lemma insertSorted_ascending x l :
  ascending l = true -> ascending (insertSorted x l) = true.
Proof.
  induction l as [|y r IH]; intros Hs; cbn [insertSorted]; [reflexivity|].
  destruct (String.leb x y) eqn:Hxy.
  - change (String.leb x y && ascending (y :: r) = true). rewrite Hxy. exact Hs.
  - assert (Hyx : String.leb y x = true).
    { destruct (String.leb_total x y) as [H|H]; [congruence | exact H]. }
    destruct r as [|z r].
    + cbn [insertSorted ascending]. rewrite Hyx. reflexivity.
    + cbn [ascending] in Hs. fold (ascending (z :: r)) in Hs.
      apply andb_true_iff in Hs as [Hyz Hr]. specialize (IH Hr).
      cbn [insertSorted] in IH |- *.
      destruct (String.leb x z).
      * change (String.leb y x && ascending (x :: z :: r) = true). rewrite Hyx. exact IH.
      * change (String.leb y z && ascending (z :: insertSorted x r) = true).
        rewrite Hyz. exact IH.
Qed.

Lemma sortStrings_ascending l : ascending (sortStrings l) = true.
Proof.
  induction l as [|x r IH]; cbn [sortStrings List.fold_right]; [reflexivity|].
  apply insertSorted_ascending, IH.
Qed.

Lemma hex_is_alnum c : isHexChar c = true -> isAlnum c = true.
Proof. by_byte c; vm_compute; first [reflexivity | discriminate]. Qed.

Lemma forallb_impl_str (p q : ascii -> bool) s :
  (forall c, p c = true -> q c = true) -> forallb p s = true -> forallb q s = true.
Proof.
  intros Hpq. induction s as [|c r IH]; [reflexivity|]. cbn [forallb].
  intros H. apply andb_true_iff in H as [Hc Hr]. rewrite (Hpq c Hc), (IH Hr). reflexivity.
Qed.

Lemma nextId_valid st : ROOM_ID_REGEX (nextId st) = true.
Proof.
  unfold ROOM_ID_REGEX. apply andb_true_iff. split.
  - apply toHex_truthy. intros H. apply (f_equal (@List.length ascii)) in H.
    rewrite List.length_firstn, List.length_app, List.repeat_length in H.
    cbn [List.length] in H. lia.
  - eapply forallb_impl_str; [|apply toHex_hex]. apply hex_is_alnum.
Qed.

Lemma generateId_next {B} (k : string -> M B) st :
  bind generateId k st = k (nextId st) (spend 16 st).
Proof.
  unfold generateId. rewrite bind_bind.
  unfold bind at 1. unfold randomBytes. rewrite bind_ret. reflexivity.
Qed.

Lemma membersWith_In u requested m :
  In m (membersWith u requested) <-> m = u \/ In m (List.map toLowerCase requested).
Proof.
  unfold membersWith. destruct (includes u (List.map toLowerCase requested)) eqn:Hin.
  - apply includes_In in Hin. split; [tauto|]. intros [->|H]; assumption.
  - rewrite List.in_app_iff. cbn [In]. split.
    + intros [H|[H|[]]]; [right; exact H | left; symmetry; exact H].
    + intros [H|H]; [right; left; symmetry; exact H | left; exact H].
Qed.

(** X22. Whatever the store and its faults, handleCreateRoom answers
    201, 400, 403 or 500 and never throws, and a refusal (400 or 403)
    writes nothing. A room it reports as created is either a public
    room, which only the user ryo obtains, named after the lower-cased
    clean name of the request with dashes for spaces, without members
    and with user count 0; or a private room whose members are the
    requested ones in lower case and the creator, whose user count is
    the length of that list, and whose name lists the members in
    ascending order as "@a, @b, ...". *)
Theorem handleCreateRoom_outcomes (isProfane : string -> bool)
    (data : CreateRoomBody) (username : string) (st : State) :
  let u := toLowerCase username in
  exists resp,
    fst (handleCreateRoom isProfane data username st) = Ok resp
    /\ In (status resp) [201; 400; 403; 500]
    /\ (status resp = 400 \/ status resp = 403 ->
        snd (handleCreateRoom isProfane data username st) = st)
    /\ (status resp = 201 ->
        exists room,
          body resp = BRoom room
          /\ ((Room.type room = Some Public /\ u = "ryo"
               /\ (exists name, cr_name data = Some name /\ isProfane name = false
                                /\ Room.name room = dashSpaces (toLowerCase name))
               /\ Room.members room = None /\ Room.userCount room = 0)
              \/ (Room.type room = Some Private
                  /\ exists requested M L,
                       cr_members data = Some requested /\ requested <> []
                       /\ Room.members room = Some M
                       /\ (forall m, In m M <-> m = u \/ In m (List.map toLowerCase requested))
                       /\ Room.userCount room = Z.of_nat (List.length M)
                       /\ Permutation M L /\ ascending L = true
                       /\ Room.name room = join ", " (List.map (fun m => "@" +:+ m) L)))).
Proof.
  intros u.
  assert (Hrefuse : forall msg code, In code [400; 403] ->
            exists resp, fst (ret (createErrorResponse msg code) st) = Ok resp
              /\ In (status resp) [201; 400; 403; 500]
              /\ (status resp = 400 \/ status resp = 403 ->
                  snd (ret (createErrorResponse msg code) st) = st)
              /\ (status resp = 201 -> False)).
  { intros msg code Hc. eexists. split; [reflexivity|]. cbn [status createErrorResponse].
    split; [cbn in Hc |- *; tauto|]. split; [reflexivity|].
    intros ->. cbn in Hc. destruct Hc as [H|[H|[]]]; discriminate H. }
  assert (Hweak : forall (m : M Response) (Q : Response -> Prop),
            (exists resp, fst (m st) = Ok resp
               /\ In (status resp) [201; 400; 403; 500]
               /\ (status resp = 400 \/ status resp = 403 -> snd (m st) = st)
               /\ (status resp = 201 -> False)) ->
            exists resp, fst (m st) = Ok resp
               /\ In (status resp) [201; 400; 403; 500]
               /\ (status resp = 400 \/ status resp = 403 -> snd (m st) = st)
               /\ (status resp = 201 -> Q resp)).
  { intros m Q (resp & H1 & H2 & H3 & H4). exists resp. repeat split; try assumption.
    intros H. destruct (H4 H). }
  unfold handleCreateRoom. fold u.
  set (type := default "public" (cr_type data)).
  unfold includes. cbn [List.existsb].
  destruct (String.eqb_spec type "public") as [Hpub|Hnpub].
  - (* a public room *)
    rewrite Hpub. cbn [String.eqb Ascii.eqb Bool.eqb orb negb andb].
    destruct (cr_name data) as [name|] eqn:Hname; cbn [default from_option id];
      [|apply Hweak, Hrefuse; cbn; tauto].
    destruct (truthy name) eqn:Htn; cbn [negb];
      [|apply Hweak, Hrefuse; cbn; tauto].
    destruct (String.eqb_spec u "ryo") as [Hryo|Hnryo]; cbn [negb];
      [|apply Hweak, Hrefuse; cbn; tauto].
    destruct (isProfane name) eqn:Hprof; [apply Hweak, Hrefuse; cbn; tauto|].
    unfold tryCatch. rewrite generateId_next, bind_getCurrentTimestamp.
    unfold bind.
    destruct (Redis.set _ _ _ _) as [[[]|e] s1].
    2:{ eexists. split; [reflexivity|]. cbn. split; [tauto|].
        split; [intros [H|H]; discriminate H | intros H; discriminate H]. }
    unfold ret at 1.
    destruct (swallow broadcastRoomsUpdated s1) as [[[]|e] s2].
    2:{ eexists. split; [reflexivity|]. cbn. split; [tauto|].
        split; [intros [H|H]; discriminate H | intros H; discriminate H]. }
    eexists. split; [reflexivity|]. cbn [status body].
    split; [cbn; tauto|]. split; [intros [H|H]; discriminate H|]. intros _.
    eexists. split; [reflexivity|]. left. cbn.
    repeat split; try reflexivity; try assumption.
    exists name. repeat split; try reflexivity; assumption.
  - cbn [orb andb].
    destruct (String.eqb_spec type "private") as [Hpriv|Hnpriv]; cbn [orb negb];
      [|apply Hweak, Hrefuse; cbn; tauto].
    (* a private room *)
    destruct (cr_members data) as [requested|] eqn:Hreq; cbn [default from_option id];
      [|apply Hweak, Hrefuse; cbn; tauto].
    destruct requested as [|m0 requested]; [apply Hweak, Hrefuse; cbn; tauto|].
    cbn [List.length Nat.eqb andb].
    set (M := membersWith u (m0 :: requested)).
    unfold tryCatch. rewrite generateId_next, bind_getCurrentTimestamp.
    unfold bind.
    destruct (Redis.set _ _ _ _) as [[[]|e] s1].
    2:{ eexists. split; [reflexivity|]. cbn. split; [tauto|].
        split; [intros [H|H]; discriminate H | intros H; discriminate H]. }
    destruct (promiseAll _ _ s1) as [[[]|e] s2].
    2:{ eexists. split; [reflexivity|]. cbn. split; [tauto|].
        split; [intros [H|H]; discriminate H | intros H; discriminate H]. }
    destruct (swallow broadcastRoomsUpdated s2) as [[[]|e] s3].
    2:{ eexists. split; [reflexivity|]. cbn. split; [tauto|].
        split; [intros [H|H]; discriminate H | intros H; discriminate H]. }
    eexists. split; [reflexivity|]. cbn [status body].
    split; [cbn; tauto|]. split; [intros [H|H]; discriminate H|]. intros _.
    eexists. split; [reflexivity|]. right.
    cbn [Room.type Room.members Room.userCount Room.name].
    split; [unfold roomTypeNamed; rewrite Hpriv; reflexivity|].
    exists (m0 :: requested), M, (sortStrings M).
    split; [reflexivity|]. split; [discriminate|]. split; [reflexivity|].
    split; [intros m; apply membersWith_In|]. split; [reflexivity|].
    split; [apply sortStrings_perm|]. split; [apply sortStrings_ascending|]. reflexivity.
Qed.

Lemma markPresent_cons r m l st :
  markPresent r (m :: l) st
  = markPresent r l (put (presenceKeyOf r m) (VNum (now st)) (Some ROOM_PRESENCE_TTL_SECONDS) st).
Proof. reflexivity. Qed.

Lemma promiseAll_presence r l st :
  noFaults st -> promiseAll (setRoomPresence r) l st = (Ok tt, markPresent r l st).
Proof.
  revert st. induction l as [|m l IH]; intros st Hnf; [reflexivity|].
  cbn [promiseAll]. rewrite (setRoomPresence_run r m st Hnf).
  rewrite markPresent_cons. apply IH. exact Hnf.
Qed.

Lemma markPresent_now r l st : now (markPresent r l st) = now st.
Proof.
  revert st. induction l as [|m l IH]; intros st; [reflexivity|].
  rewrite markPresent_cons, IH. reflexivity.
Qed.

Lemma markPresent_noFaults r l st : noFaults st -> noFaults (markPresent r l st).
Proof.
  revert st. induction l as [|m l IH]; intros st Hnf; [exact Hnf|].
  rewrite markPresent_cons. apply IH. exact Hnf.
Qed.

Lemma markPresent_other r l st k :
  (forall m, In m l -> k <> presenceKeyOf r m) ->
  kv (markPresent r l st) !! k = kv st !! k.
Proof.
  revert st. induction l as [|m l IH]; intros st Hk; [reflexivity|].
  rewrite markPresent_cons.
  rewrite IH by (intros m' Hm'; apply Hk; right; exact Hm').
  apply kv_put_ne, not_eq_sym, Hk. left. reflexivity.
Qed.

Lemma presenceKey_inj_user r u u' : presenceKeyOf r u = presenceKeyOf r u' -> u = u'.
Proof.
  unfold presenceKeyOf. intros H. do 3 apply append_inj_l in H. exact H.
Qed.

Lemma markPresent_member r l st m :
  In m l ->
  kv (markPresent r l st) !! presenceKeyOf r m
  = Some (mkEntry (VNum (now st)) (Some (now st + ROOM_PRESENCE_TTL_SECONDS * 1000))).
Proof.
  revert st. induction l as [|a l IH]; intros st Hin; [destruct Hin|].
  rewrite markPresent_cons.
  destruct (in_dec String.string_dec m l) as [Hl|Hl].
  - rewrite (IH _ Hl). reflexivity.
  - destruct Hin as [->|Hin]; [|contradiction].
    rewrite markPresent_other.
    + apply kv_put_eq.
    + intros m' Hm' E. apply presenceKey_inj_user in E. subst m'. contradiction.
Qed.

(** What the store holds once the room record is written, the members
    are marked present and the update is announced. *)
Lemma created_room_facts (r : string) (room : Room.t) (members : list string)
    (st s' : State) :
  ROOM_ID_REGEX r = true ->
  swallow broadcastRoomsUpdated
    (markPresent r members (put (roomKeyOf r) (VRoom room) None (spend 16 st))) = (Ok tt, s') ->
  Redis.lookupLive s' (roomKeyOf r) = Some (VRoom room)
  /\ (forall m t, In m members -> t < now st + ROOM_PRESENCE_TTL_SECONDS * 1000 ->
        presentIn (advance t s') r m)
  /\ (forall k, k <> roomKeyOf r -> (forall m, k <> presenceKeyOf r m) ->
        ~ isLegacySetKey k -> keptAt st s' k).
Proof.
  intros Hr Hsw.
  set (s1 := put (roomKeyOf r) (VRoom room) None (spend 16 st)) in *.
  set (s2 := markPresent r members s1) in *.
  pose proof (touches_tryCatch isLegacySetKey broadcastRoomsUpdated (fun _ => ret tt)
                (touches_broadcastRoomsUpdated isLegacySetKey (fun k H => H))
                (fun e => touches_ret isLegacySetKey tt) _ _ _ Hsw)
    as (Hnow & _ & Hkv).
  assert (Hnow2 : now s2 = now st) by (unfold s2; rewrite markPresent_now; reflexivity).
  split; [|split].
  - rewrite (lookupLive_frame s2 s') by
      (try exact Hnow; apply Hkv, roomKey_not_legacy; exact Hr).
    rewrite (lookupLive_frame s1 s2) by
      (first [apply markPresent_now | apply markPresent_other; intros m _; key_neq]).
    unfold s1. apply lookupLive_put_eq. intros s Hs. discriminate Hs.
  - intros m t Hm Ht.
    apply (isLiveKey_advance_live s' _ (VNum (now st))
             (now st + ROOM_PRESENCE_TTL_SECONDS * 1000)); [|exact Ht].
    rewrite Hkv by apply presenceKey_not_legacy.
    unfold s2. rewrite (markPresent_member r members s1 m Hm). reflexivity.
  - intros k H1 H2 H3. split; [|congruence].
    rewrite Hkv by exact H3. unfold s2.
    rewrite markPresent_other by (intros m _; apply H2).
    unfold s1. rewrite kv_put_ne by (apply not_eq_sym; exact H1). reflexivity.
Qed.

(** X23. On a store without faults every room handleCreateRoom reports
    as created is stored under the identifier generateId draws, a
    valid room id, with the time of the request as its creation time; each member
    of a private room, the creator included, is present in it for the
    next 24 hours; and nothing else is written, legacy user sets
    apart. *)
Theorem handleCreateRoom_stores (isProfane : string -> bool)
    (data : CreateRoomBody) (username : string) (st st' : State) (resp : Response) :
  noFaults st ->
  handleCreateRoom isProfane data username st = (Ok resp, st') ->
  status resp = 201 ->
  let r := nextId st in
  exists room,
    body resp = BRoom room
    /\ Room.id room = r /\ ROOM_ID_REGEX r = true /\ Room.createdAt room = now st
    /\ Redis.lookupLive st' (roomKeyOf r) = Some (VRoom room)
    /\ (forall M m t, Room.members room = Some M -> In m M ->
          t < now st + ROOM_PRESENCE_TTL_SECONDS * 1000 -> presentIn (advance t st') r m)
    /\ (forall k, k <> roomKeyOf r -> (forall m, k <> presenceKeyOf r m) ->
          ~ isLegacySetKey k -> keptAt st st' k).
Proof.
  intros Hnf Hrun H201 r.
  pose proof (nextId_valid st) as Hr. fold r in Hr.
  revert Hrun. unfold handleCreateRoom.
  set (u := toLowerCase username).
  set (type := default "public" (cr_type data)).
  unfold includes. cbn [List.existsb].
  assert (Hrefused : forall msg code,
            ret (createErrorResponse msg code) st = (Ok resp, st') -> code = 201).
  { intros msg code [= <- <-]. exact H201. }
  assert (HnfS : noFaults (spend 16 st)) by exact Hnf.
  destruct (String.eqb_spec type "public") as [Hpub|Hnpub].
  - rewrite Hpub. cbn [String.eqb Ascii.eqb Bool.eqb orb negb andb].
    destruct (negb (truthy _)); [intros H; apply Hrefused in H; discriminate H|].
    destruct (negb (String.eqb u "ryo"));
      [intros H; apply Hrefused in H; discriminate H|].
    destruct (isProfane _); [intros H; apply Hrefused in H; discriminate H|].
    unfold tryCatch. rewrite generateId_next, bind_getCurrentTimestamp. fold r.
    fold (roomKeyOf r).
    rewrite bind_set by exact HnfS.
    rewrite bind_ret.
    match goal with
    | |- context [put (roomKeyOf r) (VRoom ?room) None _] => set (theRoom := room)
    end.
    destruct (swallow_ok broadcastRoomsUpdated
                (put (roomKeyOf r) (VRoom theRoom) None (spend 16 st))) as (s5 & Hsw).
    rewrite (bind_ok _ _ _ _ _ Hsw). intros [= <- <-].
    destruct (created_room_facts r theRoom [] st s5 Hr Hsw) as (F1 & F2 & F3).
    exists theRoom. split; [reflexivity|]. split; [reflexivity|]. split; [exact Hr|].
    split; [reflexivity|]. split; [exact F1|]. split; [|exact F3].
    intros M m t HM. discriminate HM.
  - cbn [orb andb].
    destruct (String.eqb_spec type "private") as [Hpriv|Hnpriv]; cbn [orb negb];
      [|intros H; apply Hrefused in H; discriminate H].
    destruct (List.length _ =? 0)%nat; cbn [andb];
      [intros H; apply Hrefused in H; discriminate H|].
    set (M := membersWith u (default [] (cr_members data))).
    unfold tryCatch. rewrite generateId_next, bind_getCurrentTimestamp. fold r.
    fold (roomKeyOf r).
    rewrite bind_set by exact HnfS.
    match goal with
    | |- context [put (roomKeyOf r) (VRoom ?room) None _] => set (theRoom := room)
    end.
    rewrite (bind_ok _ _ _ _ _
               (promiseAll_presence r M (put (roomKeyOf r) (VRoom theRoom) None (spend 16 st))
                  HnfS)).
    destruct (swallow_ok broadcastRoomsUpdated
                (markPresent r M (put (roomKeyOf r) (VRoom theRoom) None (spend 16 st))))
      as (s5 & Hsw).
    rewrite (bind_ok _ _ _ _ _ Hsw). intros [= <- <-].
    destruct (created_room_facts r theRoom M st s5 Hr Hsw) as (F1 & F2 & F3).
    exists theRoom. split; [reflexivity|]. split; [reflexivity|]. split; [exact Hr|].
    split; [reflexivity|]. split; [exact F1|]. split; [|exact F3].
    intros M' m t [= <-]. apply F2.
Qed.

(** ** Leaving a public room *)

Lemma presentIn_remove key st r u :
  presentIn (remove [key] st) r u <-> presenceKeyOf r u <> key /\ presentIn st r u.
Proof.
  unfold presentIn, isLiveKey. rewrite lookupLive_remove.
  destruct (bool_decide (presenceKeyOf r u ∈ [key])) eqn:Hb.
  - apply bool_decide_eq_true in Hb. apply list_elem_of_singleton in Hb. split.
    + intros H. apply bool_decide_eq_true in H as [v Hv]. discriminate Hv.
    + intros [Hne _]. contradiction.
  - apply bool_decide_eq_false in Hb. rewrite list_elem_of_singleton in Hb. tauto.
Qed.

Lemma presenceWellFormed_remove keys st :
  presenceWellFormed st -> presenceWellFormed (remove keys st).
Proof.
  intros Hwf rest Hlive. apply Hwf. unfold isLiveKey in *.
  rewrite lookupLive_remove in Hlive.
  destruct (bool_decide (_ ∈ keys)); [|exact Hlive].
  apply bool_decide_eq_true in Hlive. destruct Hlive as [v Hv]. discriminate Hv.
Qed.

(** X24. Leaving a room that is not private never deletes it: on a
    well-formed store the call answers success, the leaver is no
    longer present, everybody else's presence and the messages of the
    room are what they were, and the room record is kept, its user
    count set to the number of users still present when the leaver
    was present and untouched otherwise. *)
Theorem leave_public_room (r name : string) (room : Room.t) (st : State) :
  let u := toLowerCase name in
  noFaults st ->
  USERNAME_REGEX u = true -> ROOM_ID_REGEX r = true ->
  Redis.lookupLive st (roomKeyOf r) = Some (VRoom room) ->
  Room.type room <> Some Private ->
  setOrAbsent st (legacySetKeyOf r) ->
  presenceWellFormed st ->
  exists st' users,
    handleLeaveRoom (mkJoinLeave (Some r) (Some name)) st = (Ok (okResponse BSuccess), st')
    /\ ~ presentIn st' r u
    /\ (forall r' u', presenceKeyOf r' u' <> presenceKeyOf r u ->
          (presentIn st' r' u' <-> presentIn st r' u'))
    /\ List.NoDup users
    /\ (forall u', In u' users <-> hasColon u' = false /\ u' <> u /\ presentIn st r u')
    /\ Redis.lookupLive st' (roomKeyOf r)
       = Some (VRoom (if isLiveKey st (presenceKeyOf r u)
                      then Room.withUserCount room (Z.of_nat (List.length users))
                      else room))
    /\ Redis.lookupLive st' (messagesKeyOf r) = Redis.lookupLive st (messagesKeyOf r).
Proof.
  intros u Hnf Hre Hrid Hroom Hpub Hset Hwf.
  destruct (ROOM_ID_REGEX_plain r Hrid) as [_ Hrcol].
  unfold handleLeaveRoom. cbn [jl_roomId jl_username option_map]. fold u.
  rewrite (ROOM_ID_REGEX_truthy r Hrid), (USERNAME_REGEX_truthy u Hre). cbn [negb orb].
  rewrite (bind_ok _ _ _ _ _ (validateIds_ok u r st Hre Hrid)).
  unfold tryCatch. fold (roomKeyOf r) (presenceKeyOf r u) (messagesKeyOf r) (legacySetKeyOf r).
  rewrite bind_get by (try exact Hnf; unfold plainAt; rewrite Hroom; exact I).
  rewrite Hroom. cbn [truthyOpt truthyValue negb].
  rewrite bind_del by exact Hnf.
  set (st1 := remove [presenceKeyOf r u] st).
  assert (Hnf1 : noFaults st1) by exact Hnf.
  assert (Hroom1 : Redis.lookupLive st1 (roomKeyOf r) = Some (VRoom room)).
  { subst st1. rewrite lookupLive_remove_ne; [exact Hroom|].
    apply not_elem_of_1. auto with keys. }
  assert (Hmsg1 : Redis.lookupLive st1 (messagesKeyOf r) = Redis.lookupLive st (messagesKeyOf r)).
  { subst st1. apply lookupLive_remove_ne. apply not_elem_of_1. auto with keys. }
  assert (Hset1 : setOrAbsent st1 (legacySetKeyOf r)).
  { unfold setOrAbsent. subst st1. rewrite lookupLive_remove_ne; [exact Hset|].
    apply not_elem_of_1. apply legacy_ne_presence. }
  assert (Hwf1 : presenceWellFormed st1) by (apply presenceWellFormed_remove; exact Hwf).
  destruct (activeUsersOf_spec r st1 Hrid Hwf1) as [Hnodup Husers].
  set (users := activeUsersOf st1 r) in *.
  assert (Hspec : forall u', In u' users <-> hasColon u' = false /\ u' <> u /\ presentIn st r u').
  { intros u'. rewrite (Husers u'). unfold st1. rewrite presentIn_remove. split.
    - intros (Hc & Hne & Hp). repeat split; try assumption. intros ->. apply Hne. reflexivity.
    - intros (Hc & Hne & Hp). repeat split; try assumption.
      intros E. apply Hne. symmetry. exact (presenceKey_inj_user r u u' (eq_sym E)). }
  assert (Hgone : forall s, now s = now st1 ->
                    kv s !! presenceKeyOf r u = kv st1 !! presenceKeyOf r u ->
                    ~ presentIn s r u).
  { intros s Hn Hk. rewrite (presentIn_frame st1 s r u Hn Hk). unfold st1.
    rewrite presentIn_remove. tauto. }
  assert (Hothers : forall s, now s = now st1 ->
                      (forall r' u', kv s !! presenceKeyOf r' u' = kv st1 !! presenceKeyOf r' u') ->
                      forall r' u', presenceKeyOf r' u' <> presenceKeyOf r u ->
                        (presentIn s r' u' <-> presentIn st r' u')).
  { intros s Hn Hk r' u' Hne. rewrite (presentIn_frame st1 s r' u' Hn (Hk r' u')).
    unfold st1. rewrite presentIn_remove. tauto. }
  assert (Hcount : Redis.liveCount st [presenceKeyOf r u]
                   = if isLiveKey st (presenceKeyOf r u) then 1 else 0).
  { unfold Redis.liveCount, isLiveKey. cbn [List.filter].
    destruct (bool_decide _); reflexivity. }
  rewrite Hcount.
  destruct (isLiveKey st (presenceKeyOf r u)) eqn:Hlive.
  2: { cbn [Z.eqb negb]. rewrite bind_ret.
       exists st1, users. split; [reflexivity|].
       split; [apply Hgone; reflexivity|].
       split; [apply Hothers; auto|].
       split; [exact Hnodup|]. split; [exact Hspec|]. split; [exact Hroom1 | exact Hmsg1]. }
  cbn [Z.eqb negb Pos.eqb].
  destruct (refreshRoomUserCount_count r room st1 Hnf1 Hrid Hset1 Hroom1)
    as (st2 & Hrefresh & Hnf2 & Hnow2 & Hroom2 & Hframe2).
  fold users in Hrefresh, Hroom2.
  rewrite !bind_bind. rewrite (bind_ok _ _ _ _ _ Hrefresh).
  assert (Hpk2 : forall r' u', kv st2 !! presenceKeyOf r' u' = kv st1 !! presenceKeyOf r' u').
  { intros r' u'. apply Hframe2; apply not_eq_sym; [auto with keys | apply legacy_ne_presence]. }
  assert (Hmsg2 : Redis.lookupLive st2 (messagesKeyOf r) = Redis.lookupLive st (messagesKeyOf r)).
  { rewrite <- Hmsg1. apply lookupLive_frame; [exact Hnow2|].
    apply Hframe2; [auto with keys | apply not_eq_sym, legacy_ne_messages]. }
  assert (Hfinal : forall s5, now s5 = now st2 ->
            (forall k, ~ isLegacySetKey k -> kv s5 !! k = kv st2 !! k) ->
            ~ presentIn s5 r u
            /\ (forall r' u', presenceKeyOf r' u' <> presenceKeyOf r u ->
                  (presentIn s5 r' u' <-> presentIn st r' u'))
            /\ List.NoDup users
            /\ (forall u', In u' users <-> hasColon u' = false /\ u' <> u /\ presentIn st r u')
            /\ Redis.lookupLive s5 (roomKeyOf r)
               = Some (VRoom (Room.withUserCount room (Z.of_nat (List.length users))))
            /\ Redis.lookupLive s5 (messagesKeyOf r) = Redis.lookupLive st (messagesKeyOf r)).
  { intros s5 Hn5 Hk5.
    assert (Hpk5 : forall r' u', kv s5 !! presenceKeyOf r' u' = kv st1 !! presenceKeyOf r' u').
    { intros r' u'. rewrite Hk5 by apply presenceKey_not_legacy. apply Hpk2. }
    split; [apply Hgone; [congruence | apply Hpk5]|].
    split; [apply Hothers; [congruence | exact Hpk5]|].
    split; [exact Hnodup|]. split; [exact Hspec|]. split.
    - rewrite (lookupLive_frame st2 s5) by
        (try exact Hn5; apply Hk5, roomKey_not_legacy; exact Hrid).
      exact Hroom2.
    - rewrite (lookupLive_frame st2 s5) by
        (try exact Hn5; apply Hk5, messagesKey_not_legacy).
      exact Hmsg2. }
  assert (Hbranch : forall (b : bool) (k : unit -> M Response),
            exists s5, bind (if b then swallow broadcastRoomsUpdated else ret tt) k st2 = k tt s5
                       /\ now s5 = now st2
                       /\ (forall key, ~ isLegacySetKey key -> kv s5 !! key = kv st2 !! key)).
  { intros b k. destruct b.
    - destruct (swallow_ok broadcastRoomsUpdated st2) as (s5 & Hsw).
      pose proof (touches_tryCatch isLegacySetKey broadcastRoomsUpdated (fun _ => ret tt)
                    (touches_broadcastRoomsUpdated isLegacySetKey (fun k H => H))
                    (fun e => touches_ret isLegacySetKey tt) _ _ _ Hsw)
        as (Hnow5 & _ & Hkv5).
      exists s5. split; [exact (bind_ok _ _ _ _ _ Hsw) | split; assumption].
    - exists st2. split; [apply bind_ret | split; auto]. }
  destruct (Room.type room) as [[|]|] eqn:Hty; try congruence.
  - destruct (Hbranch (negb (Z.of_nat (List.length users) =? Room.userCount room))
                (fun _ => ret (okResponse BSuccess))) as (s5 & Hrun & Hn5 & Hk5).
    exists s5, users. split; [rewrite Hrun; reflexivity | apply Hfinal; assumption].
  - destruct (Hbranch (negb (Z.of_nat (List.length users) =? Room.userCount room))
                (fun _ => ret (okResponse BSuccess))) as (s5 & Hrun & Hn5 & Hk5).
    exists s5, users. split; [rewrite Hrun; reflexivity | apply Hfinal; assumption].
Qed.

(** ** The further theorems at work on concrete stores *)

(** A live key of a scenario store is one of its entries. *)
Lemma live_in_entries entries t k :
  isLiveKey (storeOf entries t) k = true -> In k (List.map fst entries).
Proof.
  unfold isLiveKey, Redis.lookupLive, storeOf. cbn [kv]. intros H.
  apply bool_decide_eq_true in H as [v Hv].
  destruct (list_to_map entries !! k) as [e|] eqn:E; [|discriminate Hv].
  apply elem_of_list_to_map_2, list_elem_of_In in E.
  exact (in_map fst _ _ E).
Defined.

Lemma wellFormed_privateStore : presenceWellFormed privateStore.
Proof.
  intros rest H. apply live_in_entries in H. cbn [List.map fst In] in H.
  cbv [CHAT_ROOM_PRESENCE_PREFIX String.append] in H.
  destruct H as [H|[H|[H|[H|[]]]]]; try discriminate H; injection H as <-.
  - exists "r1", "alice". repeat split.
  - exists "r1", "bob". repeat split.
Defined.

Lemma wellFormed_loungeStore : presenceWellFormed loungeStore.
Proof.
  intros rest H. apply live_in_entries in H. cbn [List.map fst In] in H.
  cbv [CHAT_ROOM_PRESENCE_PREFIX String.append] in H.
  destruct H as [H|[H|[H|[]]]]; try discriminate H; injection H as <-.
  exists "r1", "bob". repeat split.
Defined.

Lemma wellFormed_partyStore : presenceWellFormed partyStore.
Proof.
  intros rest H. apply live_in_entries in H. cbn [List.map fst In] in H.
  cbv [CHAT_ROOM_PRESENCE_PREFIX String.append] in H.
  destruct H as [H|[H|[H|[]]]]; try discriminate H; injection H as <-.
  - exists "r1", "alice". repeat split.
  - exists "r1", "bob". repeat split.
Defined.

(** The limiter at work: twelve attempts within one minute, the first
    ten allowed; a minute after the first, the next one is allowed. *)
Lemma checkRateLimit_window_witness :
  fst (rateLimitRun "generateToken" "alice"
         [1000; 2000; 3000; 4000; 5000; 6000; 7000; 8000; 9000; 10000; 11000; 12000]
         (storeOf [] 1000))
  = [Ok true; Ok true; Ok true; Ok true; Ok true; Ok true; Ok true; Ok true; Ok true; Ok true;
     Ok false; Ok false]
  /\ fst (checkRateLimit "generateToken" "alice"
            (advance 61000
               (snd (rateLimitRun "generateToken" "alice"
                       [1000; 2000; 3000; 4000; 5000; 6000; 7000; 8000; 9000; 10000; 11000;
                        12000]
                       (storeOf [] 1000)))))
     = Ok true.
Proof.
  destruct (checkRateLimit_window "generateToken" "alice" 1000
              [2000; 3000; 4000; 5000; 6000; 7000; 8000; 9000; 10000; 11000; 12000]
              (storeOf [] 1000)) as [Hfirst Hafter];
    [reflexivity | run | repeat constructor |].
  split; [exact Hfirst|]. apply Hafter. vm_compute. discriminate.
Defined.

(** A validation at work: alice's token, validated at t = 1000, is
    found by the first path any time in the 90 days that follow. *)
Lemma validateAuth_slides_expiry_witness :
  exists st1,
    validateAuth (Some "Alice") (Some "ab12") false tokenStore
    = (Ok (mkAuth true (Some false)), st1)
    /\ fst (validateAuth (Some "Alice") (Some "ab12") false (advance 7776000999 st1))
       = Ok (mkAuth true (Some false)).
Proof.
  destruct (validateAuth_slides_expiry "Alice" "ab12" false tokenStore)
    as (r & st1 & Hrun & _ & Hslide);
    [reflexivity | reflexivity | reflexivity
     | vm_compute; exact I | vm_compute; exact I | vm_compute; exact I |].
  assert (Hr : r = mkAuth true (Some false)).
  { apply (f_equal fst) in Hrun. cbn [fst] in Hrun.
    assert (Hc : fst (validateAuth (Some "Alice") (Some "ab12") false tokenStore)
                 = Ok (mkAuth true (Some false))) by run.
    rewrite Hc in Hrun. injection Hrun as <-. reflexivity. }
  exists st1. split; [rewrite Hrun, Hr; reflexivity|].
  destruct (Hslide ltac:(rewrite Hr; reflexivity) 7776000999) as [_ Hvalid].
  { vm_compute. reflexivity. }
  apply Hvalid.
Defined.


(** The listing at work: alice and bob are the users of the room. *)
Lemma getActiveUsersInRoom_presence_witness :
  exists users,
    getActiveUsersInRoom "r1" privateStore = (Ok users, privateStore)
    /\ In "alice" users /\ In "bob" users /\ ~ In "carol" users.
Proof.
  destruct (getActiveUsersInRoom_presence "r1" privateStore)
    as (users & Hrun & _ & Hspec); [reflexivity | run | exact wellFormed_privateStore |].
  exists users. split; [exact Hrun|]. split; [|split].
  - apply Hspec. split; run.
  - apply Hspec. split; run.
  - intros H. apply Hspec in H as [_ H]. vm_compute in H. discriminate H.
Defined.

(** Presence at work: set at t = 1000, alice's presence is live one
    second before the 24 hours are over and gone when they are. *)
Lemma presence_lasts_a_day_witness :
  exists st1,
    setRoomPresence "r1" "alice" (storeOf [] 1000) = (Ok tt, st1)
    /\ presentIn (advance 86400000 st1) "r1" "alice"
    /\ ~ presentIn (advance 86401000 st1) "r1" "alice".
Proof.
  destruct (presence_lasts_a_day "r1" "alice" (storeOf [] 1000))
    as (st1 & Hrun & Hlive & Hgone & _); [reflexivity|].
  exists st1. split; [exact Hrun|]. split.
  - apply Hlive. vm_compute. reflexivity.
  - apply (Hgone 86401000). vm_compute. discriminate.
Defined.

(** Sending at work: alice's [hi] is the first message of the room,
    before her [hello]. *)
Lemma send_then_get_witness :
  exists msg st',
    handleSendMessage cleanNothing profaneNothing (mkSend "r1" "Alice" "hi") privateStore
    = (Ok (mkResponse (BMessage msg) 201), st')
    /\ Message.content msg = "hi"
    /\ handleGetMessages "r1" st' = (Ok (Served 200 [msg; helloFromAlice]), st').
Proof.
  pose proof (send_then_get cleanNothing profaneNothing
                (mkSend "r1" "Alice" "hi") privateStore privateStore) as H.
  cbv zeta in H.
  destruct H as (msg & st' & Hrun & Hcontent & Hget);
    [exact sendReady_privateStore | reflexivity | apply Nat.leb_le; run | run | run |].
  exists msg, st'. split; [exact Hrun|]. split; [exact Hcontent|].
  etransitivity; [exact Hget|]. do 3 f_equal.
Defined.

(** Joining at work: alice joins the public room where bob is; the
    room counts the two of them. *)
Lemma handleJoinRoom_joins_witness :
  exists st' users,
    handleJoinRoom (mkJoinLeave (Some "r1") (Some "Alice")) loungeStore
    = (Ok (okResponse BSuccess), st')
    /\ presentIn (advance 2000 st') "r1" "alice"
    /\ In "alice" users /\ In "bob" users /\ ~ In "carol" users
    /\ Redis.lookupLive st' (roomKeyOf "r1")
       = Some (VRoom (Room.withUserCount lounge (Z.of_nat (List.length users)))).
Proof.
  pose proof (handleJoinRoom_joins "r1" "Alice" lounge (User.mk "alice" 500) loungeStore) as H.
  cbv zeta in H.
  destruct H as (st' & users & Hrun & Hpres & _ & Hspec & Hroom & _);
    [reflexivity | run | run | run | run | left; run | exact wellFormed_loungeStore |].
  exists st', users. split; [exact Hrun|]. split; [|split; [|split; [|split]]].
  - apply (Hpres 2000). vm_compute. reflexivity.
  - apply Hspec. split; [run | left; run].
  - apply Hspec. split; [run | right; run].
  - intros Hin. apply Hspec in Hin as [_ [Hin|Hin]]; vm_compute in Hin; discriminate Hin.
  - exact Hroom.
Defined.

(** Issuing at work: the token issued to alice at t = 1000 is current
    a second later, and 90 days later it is accepted as expired only. *)
Lemma handleGenerateToken_issues_witness :
  exists st',
    handleGenerateToken (mkGenerate (Some "Alice") false) tokenStore
    = (Ok (mkResponse (BToken (nextToken tokenStore)) 201), st')
    /\ fst (validateAuth (Some "Alice") (Some (nextToken tokenStore)) false (advance 2000 st'))
       = Ok (mkAuth true (Some false))
    /\ fst (validateAuth (Some "Alice") (Some (nextToken tokenStore)) true
              (advance 7776001000 st'))
       = Ok (mkAuth true (Some true))
    /\ fst (validateAuth (Some "Alice") (Some (nextToken tokenStore)) false
              (advance 7776001000 st'))
       = Ok (mkAuth false None).
Proof.
  pose proof (handleGenerateToken_issues "Alice" false tokenStore) as H.
  cbv zeta in H.
  destruct H as (st' & Hrun & Hlive & Hgrace & _);
    [reflexivity | reflexivity | split; vm_compute; [exact I | reflexivity]
     | vm_compute; exact I |].
  exists st'. split; [exact Hrun|]. split; [|split].
  - apply Hlive. vm_compute. reflexivity.
  - rewrite (Hgrace 7776001000 true) by (vm_compute; discriminate). reflexivity.
  - rewrite (Hgrace 7776001000 false) by (vm_compute; discriminate). reflexivity.
Defined.

(** Creating at work: alice asks for a private room with Bob; the room
    is stored with the two of them as members, and both are present. *)
Lemma handleCreateRoom_stores_witness :
  exists room st',
    handleCreateRoom profaneNothing withBob "Alice" (storeOf [] 1000)
    = (Ok (mkResponse (BRoom room) 201), st')
    /\ Room.members room = Some ["bob"; "alice"]
    /\ Room.name room = "@alice, @bob"
    /\ Redis.lookupLive st' (roomKeyOf (Room.id room)) = Some (VRoom room)
    /\ presentIn (advance 2000 st') (Room.id room) "alice"
    /\ presentIn (advance 2000 st') (Room.id room) "bob".
Proof.
  set (p := handleCreateRoom profaneNothing withBob "Alice" (storeOf [] 1000)).
  assert (Hf : exists room, fst p = Ok (mkResponse (BRoom room) 201)
                            /\ Room.members room = Some ["bob"; "alice"]
                            /\ Room.name room = "@alice, @bob")
    by (vm_compute; eexists; repeat split).
  destruct Hf as (room & Hf & Hmembers & Hname).
  assert (Hrun : p = (Ok (mkResponse (BRoom room) 201), snd p))
    by (rewrite <- Hf; destruct p; reflexivity).
  pose proof (handleCreateRoom_stores profaneNothing withBob "Alice" (storeOf [] 1000)
                (snd p) (mkResponse (BRoom room) 201)) as H.
  cbv zeta in H.
  destruct H as (room' & Hbody & Hid & _ & _ & Hstored & Hpresent & _);
    [reflexivity | exact Hrun | reflexivity |].
  injection Hbody as <-.
  exists room, (snd p). split; [exact Hrun|]. split; [exact Hmembers|].
  split; [exact Hname|]. rewrite Hid. split; [exact Hstored|]. split.
  - apply (Hpresent ["bob"; "alice"] "alice" 2000 Hmembers); [right; left; reflexivity|].
    vm_compute. reflexivity.
  - apply (Hpresent ["bob"; "alice"] "bob" 2000 Hmembers); [left; reflexivity|].
    vm_compute. reflexivity.
Defined.

(** Leaving at work: alice leaves the public room; it stays, and
    counts bob alone. *)
Lemma leave_public_room_witness :
  exists st' users,
    handleLeaveRoom (mkJoinLeave (Some "r1") (Some "Alice")) partyStore
    = (Ok (okResponse BSuccess), st')
    /\ ~ presentIn st' "r1" "alice" /\ presentIn st' "r1" "bob"
    /\ In "bob" users /\ ~ In "alice" users
    /\ Redis.lookupLive st' (roomKeyOf "r1")
       = Some (VRoom (Room.withUserCount lounge (Z.of_nat (List.length users)))).
Proof.
  pose proof (leave_public_room "r1" "Alice" lounge partyStore) as H.
  cbv zeta in H.
  destruct H as (st' & users & Hrun & Hgone & Hothers & _ & Hspec & Hroom & _);
    [reflexivity | run | run | run | discriminate | left; run
     | exact wellFormed_partyStore |].
  exists st', users. split; [exact Hrun|]. split; [exact Hgone|].
  split; [|split; [|split]].
  - apply Hothers; [intros E; vm_compute in E; discriminate E | run].
  - apply Hspec. split; [run|]. split; [discriminate | run].
  - intros Hin. apply Hspec in Hin as (_ & Hne & _). apply Hne. reflexivity.
  - exact Hroom.
Defined.

(** Reading a room at work: the room of alice and bob counts two; an
    identifier with a space is answered 500, an unknown one 404. *)
Lemma handleGetRoom_outcomes_witness :
  (exists st',
      handleGetRoom "r1" privateStore
      = (Ok (okResponse (BRoom (Room.withUserCount twoParty 2))), st'))
  /\ handleGetRoom "r 1" privateStore = (Ok RESP_FETCH_ROOM_FAILED, privateStore)
  /\ handleGetRoom "r9" privateStore = (Ok RESP_ROOM_NOT_FOUND, privateStore).
Proof.
  split; [|split].
  - destruct (handleGetRoom_outcomes "r1" privateStore) as [_ H].
    destruct (H ltac:(reflexivity) ltac:(run)) as [_ Hfound].
    destruct (Hfound twoParty ltac:(run) ltac:(left; run)) as (st' & Hrun & _).
    exists st'. etransitivity; [exact Hrun|]. do 4 f_equal.
  - destruct (handleGetRoom_outcomes "r 1" privateStore) as [H _]. apply H. run.
  - destruct (handleGetRoom_outcomes "r9" privateStore) as [_ H].
    destruct (H ltac:(reflexivity) ltac:(run)) as [Hnone _]. apply Hnone. run.
Defined.

(** Reading messages at work. *)
Lemma handleGetMessages_outcomes_witness :
  handleGetMessages "r1" privateStore = (Ok (Served 200 [helloFromAlice]), privateStore)
  /\ handleGetMessages "r9" privateStore = (Ok (Refused RESP_ROOM_NOT_FOUND), privateStore)
  /\ handleGetMessages "r 1" privateStore
     = (Ok (Refused (createErrorResponse "Failed to fetch messages" 500)), privateStore).
Proof.
  split; [|split].
  - destruct (handleGetMessages_outcomes "r1" privateStore) as (_ & _ & H).
    destruct (H ltac:(reflexivity) ltac:(run)) as [_ Hfound].
    etransitivity; [apply Hfound; [run | right; eexists; run]|]. do 3 f_equal.
  - destruct (handleGetMessages_outcomes "r9" privateStore) as (_ & _ & H).
    destruct (H ltac:(reflexivity) ltac:(run)) as [Hnone _]. apply Hnone. run.
  - destruct (handleGetMessages_outcomes "r 1" privateStore) as (_ & H & _). apply H. run.
Defined.

(** Reading in bulk at work: of two rooms asked for, the one that
    exists is answered with its messages and the other is listed as
    invalid. *)
Lemma handleGetBulkMessages_splits_witness :
  (exists bulk,
      handleGetBulkMessages ["r1"; "r9"] privateStore = (Ok (Served 200 bulk), privateStore)
      /\ validRoomIds bulk = ["r1"] /\ invalidRoomIds bulk = ["r9"]
      /\ messagesMap bulk !! "r1" = Some [helloFromAlice])
  /\ handleGetBulkMessages ["r1"; "r 9"] privateStore
     = (Ok (Refused (createErrorResponse "Invalid room ID format" 400)), privateStore).
Proof.
  split.
  - destruct (handleGetBulkMessages_splits ["r1"; "r9"] privateStore) as [_ H].
    destruct H as (bulk & Hrun & Hvalid & Hinvalid & Hmap & _); [reflexivity | run | |].
    { intros r [<-|[<-|[]]]; [right; eexists; run | left; run]. }
    exists bulk. split; [exact Hrun|]. split; [rewrite Hvalid; run|].
    split; [rewrite Hinvalid; run|].
    rewrite (Hmap "r1") by (rewrite Hvalid; left; reflexivity). f_equal.
  - destruct (handleGetBulkMessages_splits ["r1"; "r 9"] privateStore) as [H _].
    apply H. run.
Defined.

(** * The burst limiter over time *)

(** ** What a computation can return *)

Lemma yields_ret {A} (a : A) (Q : A -> Prop) : Q a -> yields (ret a) Q.
Proof. intros H st x st' [= <- _]. exact H. Qed.

Lemma yields_throw {A} e (Q : A -> Prop) : yields (@throw A e) Q.
Proof. intros st x st' H. discriminate H. Qed.

Lemma yields_bind {A B} (m : M B) (k : B -> M A) (Q : A -> Prop) :
  (forall b, yields (k b) Q) -> yields (bind m k) Q.
Proof.
  intros Hk st a st'. unfold bind. destruct (m st) as [[b|e] s1]; [|discriminate].
  apply Hk.
Qed.

Lemma yields_bind_post {A B} (m : M B) (k : B -> M A) (P : B -> Prop) (Q : A -> Prop) :
  yields m P -> (forall b, P b -> yields (k b) Q) -> yields (bind m k) Q.
Proof.
  intros Hm Hk st a st'. unfold bind. destruct (m st) as [[b|e] s1] eqn:Hrun; [|discriminate].
  apply Hk. exact (Hm _ _ _ Hrun).
Qed.

Lemma yields_tryCatch {A} (m : M A) (h : string -> M A) (Q : A -> Prop) :
  yields m Q -> (forall e, yields (h e) Q) -> yields (tryCatch m h) Q.
Proof.
  intros Hm Hh st a st'. unfold tryCatch. destruct (m st) as [[b|e] s1] eqn:Hrun.
  - intros [= <- _]. exact (Hm _ _ _ Hrun).
  - apply Hh.
Qed.

Section MainAnswers.
Variable isProfane : string -> bool.

Lemma ensureUserOrFail_answers u :
  yields (ensureUserOrFail isProfane u)
    (fun x => match x with inl _ => True | inr r => status r <> 429 end).
Proof.
  unfold ensureUserOrFail. apply yields_tryCatch.
  - apply yields_bind. intros [ud|]; apply yields_ret; [exact I | discriminate].
  - intros e. destruct (String.eqb e _); [apply yields_ret; discriminate|].
    destruct (strIncludes _ e); apply yields_ret; discriminate.
Qed.

(** Past the limiter, handleSendMessage answers 201, 400, 404 or 500:
    never 429. *)
Lemma sendMessageMain_answers r u content :
  yields (sendMessageMain isProfane r u content) (fun resp => status resp <> 429).
Proof.
  unfold sendMessageMain. apply yields_tryCatch; [|intros e; apply yields_ret; discriminate].
  apply yields_bind. intros roomExists.
  destruct (negb roomExists); [apply yields_ret; discriminate|].
  eapply yields_bind_post; [apply ensureUserOrFail_answers|].
  intros [userData|resp] Hx; [|apply yields_ret; exact Hx].
  destruct (_ <? _)%nat; [apply yields_ret; discriminate|].
  apply yields_bind. intros lastMessagesRaw.
  destruct (isDuplicate _ _ _); [apply yields_ret; discriminate|].
  repeat (apply yields_bind; intros ?).
  apply yields_ret. discriminate.
Qed.

End MainAnswers.

(** ** The records of the limiter after one request *)

Lemma lookupLive_expiryOf_some st key v :
  Redis.isLive (now st) (mkEntry v (Redis.expiryOf st key)) = true.
Proof.
  unfold Redis.expiryOf. destruct (kv st !! key) as [e|]; [|reflexivity].
  destruct (Redis.isLive (now st) e) eqn:Hl; [|reflexivity].
  unfold Redis.isLive in *. cbn [expiry]. exact Hl.
Qed.

(** The counter after the request is counted: a count of 1 opens a
    window of [W] seconds, another count keeps the window as it is. *)
Lemma kv_counted_eq key W st :
  kv (counted key W st) !! key
  = Some (mkEntry (VNum (countAfter st key))
            (if countAfter st key =? 1 then Some (now st + W * 1000)
             else Redis.expiryOf st key)).
Proof.
  unfold counted. set (c := countAfter st key).
  destruct (c =? 1).
  - unfold touch.
    rewrite (lookupLive_putEntry_eq key (mkEntry (VNum c) (Redis.expiryOf st key)))
      by apply lookupLive_expiryOf_some.
    cbn [value]. unfold setKv. cbn [kv now putEntry setKv]. apply lookup_insert_eq.
  - unfold putEntry, setKv. cbn [kv]. apply lookup_insert_eq.
Qed.

Lemma countAfter_frame st st' key :
  now st' = now st -> kv st' !! key = kv st !! key -> countAfter st' key = countAfter st key.
Proof. intros Hn Hk. unfold countAfter. rewrite (lookupLive_frame st st' key Hn Hk). reflexivity. Qed.

Lemma expiryOf_frame st st' key :
  now st' = now st -> kv st' !! key = kv st !! key ->
  Redis.expiryOf st' key = Redis.expiryOf st key.
Proof. intros Hn Hk. unfold Redis.expiryOf. rewrite Hn, Hk. reflexivity. Qed.

(** The three records of the pair once the limiter has run. *)
Lemma burstOutcome_records st r u :
  let sc := countAfter st (shortKeyOf r u) in
  let lc := countAfter st (longKeyOf r u) in
  let o := fst (burstOutcome st r u) in
  let sL := snd (burstOutcome st r u) in
  (noFaults st -> noFaults sL) /\ now sL = now st
  /\ (forall k, k <> shortKeyOf r u -> k <> longKeyOf r u -> k <> lastSentKeyOf r u ->
        kv sL !! k = kv st !! k)
  /\ kv sL !! shortKeyOf r u
     = Some (mkEntry (VNum sc)
               (if sc =? 1 then Some (now st + CHAT_BURST_SHORT_WINDOW_SECONDS * 1000)
                else Redis.expiryOf st (shortKeyOf r u)))
  /\ (sc <= CHAT_BURST_SHORT_LIMIT ->
      kv sL !! longKeyOf r u
      = Some (mkEntry (VNum lc)
                (if lc =? 1 then Some (now st + CHAT_BURST_LONG_WINDOW_SECONDS * 1000)
                 else Redis.expiryOf st (longKeyOf r u))))
  /\ (CHAT_BURST_SHORT_LIMIT < sc -> kv sL !! longKeyOf r u = kv st !! longKeyOf r u)
  /\ (sc <= CHAT_BURST_SHORT_LIMIT -> lc <= CHAT_BURST_LONG_LIMIT -> tooSoon st r u = false ->
      o = None
      /\ kv sL !! lastSentKeyOf r u
         = Some (mkEntry (VNum (now st / 1000))
                   (Some (now st + CHAT_BURST_LONG_WINDOW_SECONDS * 1000))))
  /\ (CHAT_BURST_SHORT_LIMIT < sc \/ CHAT_BURST_LONG_LIMIT < lc \/ tooSoon st r u = true ->
      kv sL !! lastSentKeyOf r u = kv st !! lastSentKeyOf r u)
  /\ (CHAT_BURST_SHORT_LIMIT < sc -> o = Some RESP_SHORT)
  /\ (sc <= CHAT_BURST_SHORT_LIMIT -> CHAT_BURST_LONG_LIMIT < lc -> o = Some RESP_LONG)
  /\ (sc <= CHAT_BURST_SHORT_LIMIT -> lc <= CHAT_BURST_LONG_LIMIT -> tooSoon st r u = true ->
      o = Some RESP_INTERVAL).
Proof.
  intros sc lc o sL. subst o sL. unfold burstOutcome. fold sc lc.
  set (sA := counted (shortKeyOf r u) CHAT_BURST_SHORT_WINDOW_SECONDS st).
  set (sB := counted (longKeyOf r u) CHAT_BURST_LONG_WINDOW_SECONDS sA).
  assert (HnowA : now sA = now st) by apply now_counted.
  assert (HnowB : now sB = now st) by (unfold sB; rewrite now_counted; exact HnowA).
  assert (HAs : kv sA !! shortKeyOf r u
                = Some (mkEntry (VNum sc)
                          (if sc =? 1 then Some (now st + CHAT_BURST_SHORT_WINDOW_SECONDS * 1000)
                           else Redis.expiryOf st (shortKeyOf r u))))
    by apply kv_counted_eq.
  assert (HAo : forall k, k <> shortKeyOf r u -> kv sA !! k = kv st !! k)
    by (intros k Hk; apply kv_counted_ne; auto).
  assert (HBo : forall k, k <> longKeyOf r u -> kv sB !! k = kv sA !! k)
    by (intros k Hk; apply kv_counted_ne; auto).
  assert (Hsl : shortKeyOf r u <> longKeyOf r u) by auto with keys.
  assert (Hsx : shortKeyOf r u <> lastSentKeyOf r u) by auto with keys.
  assert (Hlx : longKeyOf r u <> lastSentKeyOf r u) by auto with keys.
  assert (HBl : kv sB !! longKeyOf r u
                = Some (mkEntry (VNum lc)
                          (if lc =? 1 then Some (now st + CHAT_BURST_LONG_WINDOW_SECONDS * 1000)
                           else Redis.expiryOf st (longKeyOf r u)))).
  { unfold sB. rewrite kv_counted_eq.
    rewrite (countAfter_frame st sA) by (try exact HnowA; apply HAo; auto).
    rewrite (expiryOf_frame st sA) by (try exact HnowA; apply HAo; auto).
    rewrite HnowA. reflexivity. }
  destruct (Z.ltb_spec CHAT_BURST_SHORT_LIMIT sc) as [H1|H1]; cbn [fst snd].
  { split; [intros Hnf; unfold sA; auto with nf|]. split; [exact HnowA|].
    split; [intros k Hk _ _; apply HAo; exact Hk|]. split; [exact HAs|].
    split; [intros; lia|]. split; [intros _; apply HAo; auto|].
    split; [intros; lia|]. split; [intros _; apply HAo; auto|].
    split; [reflexivity|]. split; intros; lia. }
  destruct (Z.ltb_spec CHAT_BURST_LONG_LIMIT lc) as [H2|H2]; cbn [fst snd].
  { split; [intros Hnf; unfold sB, sA; auto with nf|]. split; [exact HnowB|].
    split; [intros k Hk1 Hk2 _; rewrite HBo, HAo by assumption; reflexivity|].
    split; [rewrite HBo by auto; exact HAs|].
    split; [intros _; exact HBl|]. split; [intros; lia|].
    split; [intros; lia|].
    split; [intros _; rewrite HBo, HAo by auto; reflexivity|].
    split; [intros; lia|]. split; [reflexivity | intros; lia]. }
  destruct (tooSoon st r u) eqn:H3; cbn [fst snd].
  { split; [intros Hnf; unfold sB, sA; auto with nf|]. split; [exact HnowB|].
    split; [intros k Hk1 Hk2 _; rewrite HBo, HAo by assumption; reflexivity|].
    split; [rewrite HBo by auto; exact HAs|].
    split; [intros _; exact HBl|]. split; [intros; lia|].
    split; [intros _ _ Hf; discriminate Hf|].
    split; [intros _; rewrite HBo, HAo by auto; reflexivity|].
    split; [intros; lia|]. split; [intros; lia | reflexivity]. }
  split; [intros Hnf; unfold sB, sA; auto with nf|]. split; [reflexivity || exact HnowB|].
  split.
  { intros k Hk1 Hk2 Hk3. rewrite kv_put_ne by auto. rewrite HBo, HAo by assumption.
    reflexivity. }
  split; [rewrite kv_put_ne by auto; rewrite HBo by auto; exact HAs|].
  split; [intros _; rewrite kv_put_ne by auto; exact HBl|]. split; [intros; lia|].
  split.
  { intros _ _ _. split; [reflexivity|]. rewrite kv_put_eq, HnowB. reflexivity. }
  split; [intros [H|[H|H]]; [lia | lia | discriminate H]|].
  split; [intros; lia|]. split; intros; [lia | discriminate].
Qed.

(** *** The records of the limiter at a later time *)

Lemma lookupLive_advance_open st key v e t :
  kv st !! key = Some (mkEntry v (Some e)) -> t < e ->
  Redis.lookupLive (advance t st) key = Some v.
Proof.
  intros Hkv Ht. unfold Redis.lookupLive, Redis.isLive. cbn [advance kv now].
  rewrite Hkv. cbn [expiry value]. destruct (Z.ltb_spec t e); [reflexivity | lia].
Qed.

Lemma lookupLive_advance_gone st key v e t :
  kv st !! key = Some (mkEntry v (Some e)) -> e <= t ->
  Redis.lookupLive (advance t st) key = None.
Proof.
  intros Hkv Ht. unfold Redis.lookupLive, Redis.isLive. cbn [advance kv now].
  rewrite Hkv. cbn [expiry value]. destruct (Z.ltb_spec t e); [lia | reflexivity].
Qed.

Lemma lookupLive_advance_cases st key v ex t :
  kv st !! key = Some (mkEntry v ex) ->
  Redis.lookupLive (advance t st) key = Some v
  \/ Redis.lookupLive (advance t st) key = None.
Proof.
  intros Hkv. unfold Redis.lookupLive. cbn [advance kv now]. rewrite Hkv. cbn [value].
  destruct (Redis.isLive _ _); [left | right]; reflexivity.
Qed.

Lemma numOrAbsent_advance st key n ex t :
  kv st !! key = Some (mkEntry (VNum n) ex) -> numOrAbsent (advance t st) key.
Proof.
  intros Hkv. destruct (lookupLive_advance_cases st key _ _ t Hkv) as [H|H];
    [right; exists n; exact H | left; exact H].
Qed.

Lemma plainAt_advance st key n ex t :
  kv st !! key = Some (mkEntry (VNum n) ex) -> plainAt (advance t st) key.
Proof.
  intros Hkv. unfold plainAt.
  destruct (lookupLive_advance_cases st key _ _ t Hkv) as [-> | ->]; exact I.
Qed.

Lemma countAfter_advance st key n ex t :
  kv st !! key = Some (mkEntry (VNum n) ex) ->
  countAfter (advance t st) key = n + 1 \/ countAfter (advance t st) key = 1.
Proof.
  intros Hkv. unfold countAfter.
  destruct (lookupLive_advance_cases st key _ _ t Hkv) as [-> | ->]; [left | right]; reflexivity.
Qed.

Lemma publicRoomAt_advance st r room t :
  kv st !! roomKeyOf r = Some (mkEntry (VRoom room) None) ->
  isPublicType (Room.type room) = true -> publicRoomAt (advance t st) r.
Proof.
  intros Hroom Hpub. exists room. split; [|exact Hpub].
  unfold Redis.lookupLive. cbn [advance kv now]. rewrite Hroom. reflexivity.
Qed.

Section PublicRequests.
Variable isProfane : string -> bool.

(** One request to a public room: the limiter decides, and what
    follows it leaves the records of the limiter and the room alone. *)
Lemma send_public_records (clean : string -> string) (data : SendMessageBody) st :
  let r := sm_roomId data in
  let u := toLowerCase (sm_username data) in
  let o := fst (burstOutcome st r u) in
  let sL := snd (burstOutcome st r u) in
  noFaults st -> USERNAME_REGEX u = true -> ROOM_ID_REGEX r = true ->
  truthy (sm_content data) = true ->
  publicRoomAt st r ->
  numOrAbsent st (shortKeyOf r u) -> numOrAbsent st (longKeyOf r u) ->
  plainAt st (lastSentKeyOf r u) ->
  exists resp st',
    handleSendMessage clean isProfane data st = (Ok resp, st')
    /\ noFaults st' /\ now st' = now st
    /\ (forall k, k <> userKeyOf u -> k <> messagesKeyOf r -> k <> presenceKeyOf r u ->
          kv st' !! k = kv sL !! k)
    /\ (forall x, o = Some x -> resp = x)
    /\ (o = None -> status resp <> 429).
Proof.
  intros r u o sL Hnf Hre Hrid Hc Hpub Hshort Hlong Hlast.
  pose proof (burstLimit_public_run r u st Hnf Hpub Hshort Hlong Hlast) as Hrun.
  fold o sL in Hrun.
  destruct (burstOutcome_records st r u) as (HnfL & HnowL & _).
  fold sL in HnfL, HnowL.
  rewrite (handleSendMessage_gate isProfane clean) by assumption.
  fold r u. rewrite Hrun.
  destruct o as [x|].
  - exists x, sL. split; [reflexivity|]. split; [auto|]. split; [exact HnowL|].
    split; [reflexivity|]. split; [intros y [= <-]; reflexivity | discriminate].
  - destruct (sendMessageMain_total isProfane r u (sanitizeContent clean (sm_content data)) sL)
      as (resp & st' & Hmain).
    pose proof (touches_sendMessageMain isProfane
                  (fun k => k = userKeyOf u \/ k = messagesKeyOf r \/ k = presenceKeyOf r u)
                  r u _ (or_introl eq_refl) (or_intror (or_introl eq_refl))
                  (or_intror (or_intror eq_refl)) _ _ _ Hmain) as (Hnow' & Hnf' & Hkv').
    exists resp, st'. split; [exact Hmain|]. split; [auto|]. split; [congruence|].
    split; [intros k H1 H2 H3; apply Hkv'; tauto|].
    split; [discriminate|]. intros _.
    exact (sendMessageMain_answers isProfane r u _ _ _ _ Hmain).
Qed.

(** What one request to a public room answers and records, on any
    store. *)
Lemma send_public_single (clean : string -> string) (name r raw : string) st :
  let u := toLowerCase name in
  let resp := fst (handleSendMessage clean isProfane (mkSend r name raw) st) in
  let st' := snd (handleSendMessage clean isProfane (mkSend r name raw) st) in
  let sc := countAfter st (shortKeyOf r u) in
  let lc := countAfter st (longKeyOf r u) in
  noFaults st -> USERNAME_REGEX u = true -> ROOM_ID_REGEX r = true ->
  truthy raw = true ->
  publicRoomAt st r ->
  numOrAbsent st (shortKeyOf r u) -> numOrAbsent st (longKeyOf r u) ->
  plainAt st (lastSentKeyOf r u) ->
  (3 < sc -> resp = Ok RESP_SHORT)
  /\ (sc <= 3 -> 20 < lc -> resp = Ok RESP_LONG)
  /\ (sc <= 3 -> lc <= 20 -> tooSoon st r u = true -> resp = Ok RESP_INTERVAL)
  /\ (sc <= 3 -> lc <= 20 -> tooSoon st r u = false -> notLimited resp)
  /\ (isCreated resp -> sc <= 3 /\ lc <= 20 /\ tooSoon st r u = false)
  /\ kv st' !! shortKeyOf r u
     = Some (mkEntry (VNum sc)
               (if sc =? 1 then Some (now st + 10000)
                else Redis.expiryOf st (shortKeyOf r u)))
  /\ (sc <= 3 ->
      kv st' !! longKeyOf r u
      = Some (mkEntry (VNum lc)
                (if lc =? 1 then Some (now st + 60000)
                 else Redis.expiryOf st (longKeyOf r u))))
  /\ (3 < sc -> kv st' !! longKeyOf r u = kv st !! longKeyOf r u)
  /\ (sc <= 3 -> lc <= 20 -> tooSoon st r u = false ->
      kv st' !! lastSentKeyOf r u
      = Some (mkEntry (VNum (now st / 1000)) (Some (now st + 60000))))
  /\ (3 < sc \/ 20 < lc \/ tooSoon st r u = true ->
      kv st' !! lastSentKeyOf r u = kv st !! lastSentKeyOf r u)
  /\ noFaults st' /\ now st' = now st
  /\ kv st' !! roomKeyOf r = kv st !! roomKeyOf r.
Proof.
  intros u resp st' sc lc Hnf Hre Hrid Hraw Hpub Hshort Hlong Hlast.
  destruct (send_public_records clean (mkSend r name raw) st)
    as (x & s' & Hrun & Hnf' & Hnow' & Hkv' & Hsome & Hnone); try assumption.
  cbn [sm_roomId sm_username] in Hrun, Hkv', Hsome, Hnone. fold u in Hkv', Hsome, Hnone.
  destruct (burstOutcome_records st r u)
    as (_ & _ & Hother & Hs & Hl & Hl' & Hpass & Hx' & Ho1 & Ho2 & Ho3).
  fold sc lc in Hs, Hl, Hl', Hpass, Hx', Ho1, Ho2, Ho3.
  change CHAT_BURST_SHORT_LIMIT with 3 in *. change CHAT_BURST_LONG_LIMIT with 20 in *.
  change (CHAT_BURST_SHORT_WINDOW_SECONDS * 1000) with 10000 in *.
  change (CHAT_BURST_LONG_WINDOW_SECONDS * 1000) with 60000 in *.
  assert (Hresp : resp = Ok x) by (subst resp; rewrite Hrun; reflexivity).
  assert (Hst' : st' = s') by (subst st'; rewrite Hrun; reflexivity).
  rewrite Hresp, Hst'. clear Hresp Hst' resp st'.
  assert (Kshort : kv s' !! shortKeyOf r u = kv (snd (burstOutcome st r u)) !! shortKeyOf r u)
    by (apply Hkv'; auto with keys).
  assert (Klong : kv s' !! longKeyOf r u = kv (snd (burstOutcome st r u)) !! longKeyOf r u)
    by (apply Hkv'; auto with keys).
  assert (Klast : kv s' !! lastSentKeyOf r u
                  = kv (snd (burstOutcome st r u)) !! lastSentKeyOf r u)
    by (apply Hkv'; auto with keys).
  assert (Kroom : kv s' !! roomKeyOf r = kv st !! roomKeyOf r).
  { rewrite Hkv' by auto with keys. apply Hother; auto with keys. }
  split; [intros H; f_equal; apply Hsome, Ho1, H|].
  split; [intros H1 H2; f_equal; apply Hsome, Ho2; assumption|].
  split; [intros H1 H2 H3; f_equal; apply Hsome, Ho3; assumption|].
  split.
  { intros H1 H2 H3. exists x. split; [reflexivity|]. apply Hnone. apply (Hpass H1 H2 H3). }
  split.
  { intros [msg Hmsg]. injection Hmsg as ->.
    destruct (Z.ltb_spec 3 sc) as [H1|H1].
    { specialize (Hsome _ (Ho1 H1)). discriminate Hsome. }
    destruct (Z.ltb_spec 20 lc) as [H2|H2].
    { specialize (Hsome _ (Ho2 H1 H2)). discriminate Hsome. }
    destruct (tooSoon st r u) eqn:H3.
    { specialize (Hsome _ (Ho3 H1 H2 eq_refl)). discriminate Hsome. }
    auto. }
  split; [rewrite Kshort; exact Hs|].
  split; [intros H; rewrite Klong; apply Hl; exact H|].
  split; [intros H; rewrite Klong; apply Hl'; exact H|].
  split; [intros H1 H2 H3; rewrite Klast; apply (Hpass H1 H2 H3)|].
  split; [intros H; rewrite Klast; apply Hx'; exact H|].
  split; [exact Hnf'|]. split; [exact Hnow' | exact Kroom].
Qed.

(** Past the short window the limiter does not answer with the reason
    of the short window, whatever the other two records hold. *)
Lemma send_short_passes (clean : string -> string) (name r raw : string) st :
  let u := toLowerCase name in
  noFaults st -> USERNAME_REGEX u = true -> ROOM_ID_REGEX r = true ->
  truthy raw = true ->
  publicRoomAt st r -> numOrAbsent st (shortKeyOf r u) ->
  countAfter st (shortKeyOf r u) <= 3 ->
  fst (handleSendMessage clean isProfane (mkSend r name raw) st) <> Ok RESP_SHORT.
Proof.
  intros u Hnf Hre Hrid Hraw (room & Hroom & Hpub) Hshort Hsc.
  rewrite (handleSendMessage_gate isProfane clean) by assumption.
  cbn [sm_roomId sm_username sm_content]. fold u.
  assert (Hgate : exists o s1, burstLimit r u st = (Ok o, s1) /\ o <> Some RESP_SHORT).
  { unfold burstLimit, tryCatch. fold (roomKeyOf r) (shortKeyOf r u) (longKeyOf r u)
      (lastSentKeyOf r u).
    rewrite bind_get by (try exact Hnf; unfold plainAt; rewrite Hroom; exact I).
    rewrite Hroom. cbn [truthyValue negb isPublicRoomValue]. rewrite Hpub.
    rewrite count_step by assumption.
    change CHAT_BURST_SHORT_LIMIT with 3.
    destruct (Z.ltb_spec 3 (countAfter st (shortKeyOf r u))) as [H|_]; [lia|].
    match goal with
    | |- context [bind (Redis.incr (longKeyOf r u)) ?K ?sA] =>
        assert (Hy : yields (bind (Redis.incr (longKeyOf r u)) K)
                       (fun o => o <> Some RESP_SHORT));
        [|destruct (bind (Redis.incr (longKeyOf r u)) K sA) as [[o|e] sB] eqn:Hrest]
    end.
    - apply yields_bind. intros lc. apply yields_bind. intros _.
      destruct (_ <? lc); [apply yields_ret; intros E; discriminate E|].
      apply yields_bind. intros t. apply yields_bind. intros lastSent.
      match goal with |- yields (if ?c then _ else _) _ => destruct c end.
      + apply yields_ret. intros E. discriminate E.
      + apply yields_bind. intros _. apply yields_ret. discriminate.
    - exists o, sB. split; [reflexivity | exact (Hy _ _ _ Hrest)].
    - exists None, sB. split; [reflexivity | discriminate]. }
  destruct Hgate as (o & s1 & -> & Ho).
  destruct o as [x|].
  - cbn [fst]. intros [= ->]. apply Ho. reflexivity.
  - destruct (sendMessageMain isProfane r u (sanitizeContent clean raw) s1)
      as [[resp|e] s2] eqn:Hmain; cbn [fst]; [|discriminate].
    intros [= ->].
    exact (sendMessageMain_answers isProfane r u _ _ _ _ Hmain eq_refl).
Qed.

(** A series of requests within an open short window: every request
    is counted, and the window stays as it was opened. *)
Lemma public_series_open r name room reqs : forall st k e,
  let u := toLowerCase name in
  USERNAME_REGEX u = true -> ROOM_ID_REGEX r = true ->
  isPublicType (Room.type room) = true ->
  1 <= k -> noFaults st ->
  kv st !! roomKeyOf r = Some (mkEntry (VRoom room) None) ->
  kv st !! shortKeyOf r u = Some (mkEntry (VNum k) (Some e)) ->
  Forall (fun a => at_time a < e /\ truthy (at_raw a) = true) reqs ->
  (forall i resp,
     nth_error (fst (sendSeries isProfane r name reqs st)) i = Some resp ->
     (3 < k + Z.of_nat i + 1 -> resp = Ok RESP_SHORT)
     /\ (k + Z.of_nat i + 1 <= 3 -> resp <> Ok RESP_SHORT))
  /\ noFaults (snd (sendSeries isProfane r name reqs st))
  /\ kv (snd (sendSeries isProfane r name reqs st)) !! roomKeyOf r
     = Some (mkEntry (VRoom room) None)
  /\ kv (snd (sendSeries isProfane r name reqs st)) !! shortKeyOf r u
     = Some (mkEntry (VNum (k + Z.of_nat (List.length reqs))) (Some e)).
Proof.
  induction reqs as [|a reqs IH]; intros st k e u Hre Hrid Hpub Hk Hnf Hroom Hshort Hall.
  - cbn [sendSeries fst snd List.length]. split; [intros [|i] resp H; discriminate H|].
    split; [exact Hnf|]. split; [exact Hroom|]. rewrite Hshort. do 3 f_equal. lia.
  - apply Forall_cons in Hall as [[Ht Hraw] Hall].
    cbn [sendSeries].
    destruct (send_public_counted (at_clean a) isProfane (mkSend r name (at_raw a))
                (advance (at_time a) st) k e room)
      as (resp1 & st' & Hrun & Hnf' & Hroom' & Hshort' & Hrefuse); try assumption.
    { right. split; [exact Hk|]. split; [exact Hshort | exact Ht]. }
    cbn [sm_roomId sm_username] in Hrun, Hroom', Hshort', Hrefuse. fold u in Hshort'.
    rewrite Hrun.
    assert (Hroom1 : kv st' !! roomKeyOf r = Some (mkEntry (VRoom room) None))
      by (rewrite Hroom'; exact Hroom).
    destruct (IH st' (k + 1) e Hre Hrid Hpub ltac:(lia) Hnf' Hroom1 Hshort' Hall)
      as (Hresps & HnfF & HroomF & HshortF).
    destruct (sendSeries isProfane r name reqs st') as [resps sF].
    cbn [fst snd] in *.
    split.
    + intros [|i] resp Hnth; cbn [nth_error] in Hnth.
      * injection Hnth as <-. split.
        { intros Hlim. f_equal. apply Hrefuse.
          change CHAT_BURST_SHORT_LIMIT with 3. lia. }
        intros Hlim.
        pose proof (send_short_passes (at_clean a) name r (at_raw a)
                      (advance (at_time a) st)) as Hpass.
        cbv zeta in Hpass. rewrite Hrun in Hpass. cbn [fst] in Hpass.
        apply Hpass; try assumption.
        { exists room. split; [apply lookupLive_no_expiry; exact Hroom | exact Hpub]. }
        { right. exists k. apply (lookupLive_advance_open _ _ _ _ _ Hshort Ht). }
        { pose proof (lookupLive_advance_open _ _ _ _ _ Hshort Ht) as Hl.
          unfold u in Hl. unfold countAfter. rewrite Hl. lia. }
      * destruct (Hresps i resp Hnth) as [Ha Hb]. split; intros Hlim; [apply Ha | apply Hb]; lia.
    + split; [exact HnfF|]. split; [exact HroomF|].
      unfold u in *. cbn [fst snd]. rewrite HshortF. do 3 f_equal.
      cbn [List.length]. lia.
Qed.

(** In a private room every request of a series is accepted, as long
    as no request repeats the sanitized content of the one before. *)
Lemma private_each r name reqs : forall st,
  let u := toLowerCase name in
  sendReady isProfane st r u -> privateRoomAt st r ->
  Forall (fun q => truthy (snd q) = true
                   /\ (String.length (sanitizedOf q) <= MAX_MESSAGE_LENGTH)%nat) reqs ->
  noRepeat (List.map sanitizedOf reqs) ->
  match reqs with
  | q :: _ => isDuplicate (messagesOf st r) u (sanitizedOf q) = false
  | [] => True
  end ->
  Forall isCreated (sendEach isProfane r name reqs st).
Proof.
  induction reqs as [|[clean raw] reqs IH]; intros st u Hready Hpriv Hall Hrep Hhead.
  - constructor.
  - apply Forall_cons in Hall as [[Hraw Hlen] Hall].
    cbn [fst snd] in Hraw. unfold sanitizedOf in Hlen, Hhead. cbn [fst snd] in Hlen, Hhead.
    cbn [sendEach].
    destruct (send_private_step clean isProfane (mkSend r name raw) st)
      as (resp & st' & Hrun & Hready' & Hpriv' & _ & _ & _ & Hok); try assumption.
    cbn [sm_roomId sm_username sm_content] in Hrun, Hready', Hpriv', Hok. fold u in Hok.
    destruct (Hok Hhead) as (msg & -> & Hmu & Hmc & Hl).
    rewrite Hrun. constructor; [exists msg; reflexivity|].
    apply IH; try assumption.
    + destruct reqs; [exact I | apply Hrep].
    + destruct reqs as [|q' reqs']; [exact I|].
      rewrite Hl, isDuplicate_head, Hmc.
      apply andb_false_iff. right. apply String.eqb_neq. apply Hrep.
Qed.

Lemma refusals_differ :
  RESP_SHORT <> RESP_LONG /\ RESP_SHORT <> RESP_INTERVAL /\ RESP_LONG <> RESP_INTERVAL.
Proof. repeat split; intros E; vm_compute in E; discriminate E. Qed.

(** Two requests, the first of which passes the limiter: the second
    is refused when it comes within two seconds by the clock of the
    limiter, and is not refused for the interval when it comes later. *)
Lemma send_public_then (clean1 clean2 : string -> string) (name r raw1 raw2 : string)
    (room : Room.t) (t2 : Z) st :
  let u := toLowerCase name in
  let s1 := snd (handleSendMessage clean1 isProfane (mkSend r name raw1) st) in
  let resp2 :=
    fst (handleSendMessage clean2 isProfane (mkSend r name raw2) (advance t2 s1)) in
  let sc := countAfter st (shortKeyOf r u) in
  let lc := countAfter st (longKeyOf r u) in
  noFaults st -> USERNAME_REGEX u = true -> ROOM_ID_REGEX r = true ->
  kv st !! roomKeyOf r = Some (mkEntry (VRoom room) None) ->
  isPublicType (Room.type room) = true ->
  numOrAbsent st (shortKeyOf r u) -> numOrAbsent st (longKeyOf r u) ->
  plainAt st (lastSentKeyOf r u) ->
  truthy raw1 = true -> truthy raw2 = true ->
  1000 <= now st -> now st <= t2 ->
  sc <= 3 -> lc <= 20 -> tooSoon st r u = false ->
  (t2 / 1000 - now st / 1000 < 2 ->
   limited resp2 /\ (sc < 3 -> lc < 20 -> resp2 = Ok RESP_INTERVAL))
  /\ (2 <= t2 / 1000 - now st / 1000 -> resp2 <> Ok RESP_INTERVAL).
Proof.
  intros u s1 resp2 sc lc Hnf Hre Hrid Hroom Hpub Hshort Hlong Hlast Hraw1 Hraw2
    Hnow Ht2 Hsc Hlc Hsoon.
  assert (Hpublic : publicRoomAt st r).
  { exists room. split; [apply lookupLive_no_expiry; exact Hroom | exact Hpub]. }
  destruct (send_public_single clean1 name r raw1 st Hnf Hre Hrid Hraw1 Hpublic
              Hshort Hlong Hlast)
    as (_ & _ & _ & _ & _ & Ks & Kl & _ & Kx & _ & Hnf1 & Hnow1 & Kroom).
  fold u s1 sc lc in Ks, Kl, Kx, Hnf1, Hnow1, Kroom.
  specialize (Kl Hsc). specialize (Kx Hsc Hlc Hsoon).
  rewrite Hroom in Kroom.
  pose proof (send_public_single clean2 name r raw2 (advance t2 s1) Hnf1 Hre Hrid Hraw2
                (publicRoomAt_advance s1 r room t2 Kroom Hpub)
                (numOrAbsent_advance _ _ _ _ t2 Ks)
                (numOrAbsent_advance _ _ _ _ t2 Kl)
                (plainAt_advance _ _ _ _ t2 Kx))
    as (J1 & J2 & J3 & J4 & _).
  fold u resp2 in J1, J2, J3, J4.
  pose proof (countAfter_advance _ _ _ _ t2 Ks) as Csc.
  pose proof (countAfter_advance _ _ _ _ t2 Kl) as Clc.
  set (sc2 := countAfter (advance t2 s1) (shortKeyOf r u)) in *.
  set (lc2 := countAfter (advance t2 s1) (longKeyOf r u)) in *.
  split.
  - intros Hgap.
    assert (Hlive : t2 < now st + 60000) by (Z.div_mod_to_equations; lia).
    assert (Hx : tooSoon (advance t2 s1) r u = true).
    { unfold tooSoon. rewrite (lookupLive_advance_open _ _ _ _ _ Kx Hlive).
      cbn [truthyValue parseIntValue advance now].
      change CHAT_MIN_INTERVAL_SECONDS with 2.
      destruct (Z.eqb_spec (now st / 1000) 0) as [E|_];
        [Z.div_mod_to_equations; lia|].
      destruct (Z.ltb_spec (t2 / 1000 - now st / 1000) 2); [reflexivity | lia]. }
    split.
    + destruct (Z.ltb_spec 3 sc2) as [H1|H1];
        [exists RESP_SHORT; split; [apply J1; exact H1 | reflexivity]|].
      destruct (Z.ltb_spec 20 lc2) as [H2|H2];
        [exists RESP_LONG; split; [apply J2; assumption | reflexivity]|].
      exists RESP_INTERVAL. split; [apply J3; assumption | reflexivity].
    + intros Hs Hl. apply J3; [lia | lia | exact Hx].
  - intros Hgap.
    assert (Hx : tooSoon (advance t2 s1) r u = false).
    { unfold tooSoon.
      destruct (lookupLive_advance_cases _ _ _ _ t2 Kx) as [-> | ->]; [|reflexivity].
      cbn [truthyValue parseIntValue advance now].
      change CHAT_MIN_INTERVAL_SECONDS with 2.
      destruct (Z.ltb_spec (t2 / 1000 - now st / 1000) 2); [lia|].
      apply andb_false_r. }
    destruct refusals_differ as (D1 & D2 & D3).
    destruct (Z.ltb_spec 3 sc2) as [H1|H1].
    { rewrite (J1 H1). intros E. apply D2. congruence. }
    destruct (Z.ltb_spec 20 lc2) as [H2|H2].
    { rewrite (J2 H1 H2). intros E. apply D3. congruence. }
    destruct (J4 H1 H2 Hx) as (x & -> & Hst). intros [= ->]. apply Hst. reflexivity.
Qed.

(** The long window: a request that the short window lets through is
    refused while the window is open and holds twenty requests or
    more; once the window has closed, the request opens a new one of
    sixty seconds. *)
Lemma send_public_long (clean : string -> string) (name r raw : string)
    (room : Room.t) (k e t : Z) st :
  let u := toLowerCase name in
  let resp := fst (handleSendMessage clean isProfane (mkSend r name raw) (advance t st)) in
  let st' := snd (handleSendMessage clean isProfane (mkSend r name raw) (advance t st)) in
  noFaults st -> USERNAME_REGEX u = true -> ROOM_ID_REGEX r = true ->
  kv st !! roomKeyOf r = Some (mkEntry (VRoom room) None) ->
  isPublicType (Room.type room) = true ->
  windowAt st (longKeyOf r u) k e ->
  numOrAbsent (advance t st) (shortKeyOf r u) ->
  plainAt (advance t st) (lastSentKeyOf r u) ->
  truthy raw = true ->
  countAfter (advance t st) (shortKeyOf r u) <= 3 ->
  (t < e -> 20 <= k -> resp = Ok RESP_LONG /\ windowAt st' (longKeyOf r u) (k + 1) e)
  /\ (t < e -> 1 <= k < 20 ->
      resp <> Ok RESP_LONG /\ windowAt st' (longKeyOf r u) (k + 1) e)
  /\ (e <= t -> resp <> Ok RESP_LONG /\ windowAt st' (longKeyOf r u) 1 (t + 60000)).
Proof.
  intros u resp st' Hnf Hre Hrid Hroom Hpub Hwin Hshort Hlast Hraw Hsc.
  unfold windowAt in Hwin.
  pose proof (send_public_single clean name r raw (advance t st) Hnf Hre Hrid Hraw
                (publicRoomAt_advance st r room t Hroom Hpub) Hshort
                (numOrAbsent_advance _ _ _ _ t Hwin) Hlast)
    as (_ & J2 & J3 & J4 & _ & _ & Kl & _).
  fold u resp st' in J2, J3, J4, Kl. specialize (Kl Hsc).
  cbn [advance now] in Kl.
  destruct refusals_differ as (D1 & D2 & D3).
  assert (Hnot : countAfter (advance t st) (longKeyOf r u) <= 20 -> resp <> Ok RESP_LONG).
  { intros Hlc. destruct (tooSoon (advance t st) r u) eqn:Hx.
    - rewrite (J3 Hsc Hlc eq_refl). intros E. apply D3. congruence.
    - destruct (J4 Hsc Hlc eq_refl) as (x & -> & Hst). intros [= ->]. apply Hst. reflexivity. }
  assert (Hopen : t < e -> countAfter (advance t st) (longKeyOf r u) = k + 1
                           /\ Redis.expiryOf (advance t st) (longKeyOf r u) = Some e).
  { intros Ht. split.
    - unfold countAfter. rewrite (lookupLive_advance_open _ _ _ _ _ Hwin Ht). reflexivity.
    - unfold Redis.expiryOf, Redis.isLive. cbn [advance kv now]. rewrite Hwin.
      cbn [expiry]. destruct (Z.ltb_spec t e); [reflexivity | lia]. }
  split; [|split].
  - intros Ht Hk. destruct (Hopen Ht) as (Hc & He). split.
    + apply J2; [exact Hsc | lia].
    + unfold windowAt. rewrite Kl, Hc, He.
      destruct (Z.eqb_spec (k + 1) 1); [lia | reflexivity].
  - intros Ht Hk. destruct (Hopen Ht) as (Hc & He). split.
    + apply Hnot. lia.
    + unfold windowAt. rewrite Kl, Hc, He.
      destruct (Z.eqb_spec (k + 1) 1); [lia | reflexivity].
  - intros Ht.
    assert (Hc : countAfter (advance t st) (longKeyOf r u) = 1).
    { unfold countAfter. rewrite (lookupLive_advance_gone _ _ _ _ _ Hwin Ht). reflexivity. }
    split; [apply Hnot; lia|].
    unfold windowAt. rewrite Kl, Hc. reflexivity.
Qed.

(** The short window: from a request that opens it, the first three
    requests are not refused for it and every later one within ten
    seconds is; the first request after the ten seconds is let through
    and opens a new window. *)
Lemma send_public_short (name r : string) (room : Room.t) (first : Attempt)
    (rest : list Attempt) (late : Attempt) st :
  let u := toLowerCase name in
  let run := sendSeries isProfane r name (first :: rest) st in
  let after :=
    handleSendMessage (at_clean late) isProfane (mkSend r name (at_raw late))
                      (advance (at_time late) (snd run)) in
  noFaults st -> USERNAME_REGEX u = true -> ROOM_ID_REGEX r = true ->
  kv st !! roomKeyOf r = Some (mkEntry (VRoom room) None) ->
  isPublicType (Room.type room) = true ->
  Redis.lookupLive (advance (at_time first) st) (shortKeyOf r u) = None ->
  truthy (at_raw first) = true ->
  Forall (fun a => at_time a < at_time first + 10000 /\ truthy (at_raw a) = true) rest ->
  at_time first + 10000 <= at_time late -> truthy (at_raw late) = true ->
  (forall i resp, nth_error (fst run) i = Some resp ->
     ((3 <= i)%nat -> resp = Ok RESP_SHORT) /\ ((i < 3)%nat -> resp <> Ok RESP_SHORT))
  /\ windowAt (snd run) (shortKeyOf r u) (Z.of_nat (List.length (first :: rest)))
              (at_time first + 10000)
  /\ fst after <> Ok RESP_SHORT
  /\ windowAt (snd after) (shortKeyOf r u) 1 (at_time late + 10000).
Proof.
  intros u run after Hnf Hre Hrid Hroom Hpub Hfresh Hraw1 Hall Hlate Hrawl.
  subst run after. cbn [sendSeries].
  destruct (send_public_counted (at_clean first) isProfane (mkSend r name (at_raw first))
              (advance (at_time first) st) 0 (at_time first + 10000) room)
    as (resp1 & st1 & Hrun & Hnf1 & Hroom1 & Hshort1 & _); try assumption.
  { left. split; [reflexivity|]. split; [exact Hfresh | reflexivity]. }
  cbn [sm_roomId sm_username] in Hrun, Hroom1, Hshort1. fold u in Hshort1.
  pose proof (send_short_passes (at_clean first) name r (at_raw first)
                (advance (at_time first) st)) as Hpass1.
  cbv zeta in Hpass1. rewrite Hrun in Hpass1 |- *. cbn [fst] in Hpass1.
  assert (Hroom1' : kv st1 !! roomKeyOf r = Some (mkEntry (VRoom room) None))
    by (rewrite Hroom1; exact Hroom).
  destruct (public_series_open r name room rest st1 1 (at_time first + 10000)
              Hre Hrid Hpub ltac:(lia) Hnf1 Hroom1' Hshort1 Hall)
    as (Hresps & HnfF & HroomF & HshortF).
  destruct (sendSeries isProfane r name rest st1) as [resps sF].
  cbn [fst snd] in *.
  split; [|split].
  - intros [|i] resp Hnth; cbn [nth_error] in Hnth.
    + injection Hnth as <-. split; [intros H; lia|]. intros _.
      apply Hpass1; try assumption.
      * apply (publicRoomAt_advance st r room _ Hroom Hpub).
      * left. exact Hfresh.
      * unfold countAfter. fold u. rewrite Hfresh. lia.
    + destruct (Hresps i resp Hnth) as [Ha Hb].
      split; intros H; [apply Ha | apply Hb]; lia.
  - unfold windowAt. fold u in HshortF. rewrite HshortF. do 3 f_equal.
    cbn [List.length]. lia.
  - fold u in HshortF.
    pose proof (lookupLive_advance_gone _ _ _ _ (at_time late) HshortF Hlate) as Hgone.
    destruct (send_public_counted (at_clean late) isProfane (mkSend r name (at_raw late))
                (advance (at_time late) sF) 0 (at_time late + 10000) room)
      as (respL & stL & HrunL & _ & _ & HshortL & _); try assumption.
    { left. split; [reflexivity|]. split; [exact Hgone | reflexivity]. }
    cbn [sm_roomId sm_username] in HrunL, HshortL. fold u in HshortL.
    pose proof (send_short_passes (at_clean late) name r (at_raw late)
                  (advance (at_time late) sF)) as HpassL.
    cbv zeta in HpassL. rewrite HrunL in HpassL |- *. cbn [fst snd] in HpassL |- *.
    split.
    + apply HpassL; try assumption.
      * apply (publicRoomAt_advance sF r room _ HroomF Hpub).
      * left. exact Hgone.
      * unfold countAfter. fold u. rewrite Hgone. lia.
    + exact HshortL.
Qed.

(** A private room: no request is answered with a 429. *)
Lemma send_private_answers (clean : string -> string) (name r raw : string) st :
  let u := toLowerCase name in
  noFaults st -> USERNAME_REGEX u = true -> ROOM_ID_REGEX r = true ->
  truthy raw = true -> privateRoomAt st r ->
  notLimited (fst (handleSendMessage clean isProfane (mkSend r name raw) st)).
Proof.
  intros u Hnf Hre Hrid Hraw Hpriv.
  rewrite (handleSendMessage_gate isProfane clean) by assumption.
  cbn [sm_roomId sm_username sm_content]. fold u.
  rewrite (burstLimit_private r u st Hnf Hpriv).
  destruct (sendMessageMain_total isProfane r u (sanitizeContent clean raw) st)
    as (resp & st' & Hmain).
  rewrite Hmain. exists resp. split; [reflexivity|].
  exact (sendMessageMain_answers isProfane r u _ _ _ _ Hmain).
Qed.

End PublicRequests.

Section BurstTheorem.
Variable isProfane : string -> bool.

(** C6. In a public room handleSendMessage counts the message in the
    short window (3 per 10 s), then in the long window (20 per 60 s),
    then checks the 2 s minimum interval, and answers 429 with the
    reason of the first rule that is violated; the three reasons
    differ, and a message that passes the three rules is answered
    without a 429 and records the second at which it was sent, for
    60 s. The request that finds no counter opens the window: 10 s for
    the short one, 60 s for the long one; a later request only counts.
    After a message that passed, the next one is refused when it comes
    less than two seconds later by the clock of the limiter, and is not
    refused for the interval otherwise. From a request that opens the
    short window, the first three requests are not refused for it, the
    fourth and every later one within the 10 s are, and the first
    request after the 10 s is let through and opens a new window. With
    twenty requests or more in an open long window the next one is
    refused for it; once the 60 s are over the request opens a new
    window. In a private room the limiter does nothing (no counter is
    read or written), no request is answered 429, and a burst of any
    length succeeds. *)
Theorem burst_limits_public_rooms_only (name r : string) (st : State) :
  let u := toLowerCase name in
  noFaults st -> USERNAME_REGEX u = true -> ROOM_ID_REGEX r = true ->
  (publicRoomAt st r ->
   numOrAbsent st (shortKeyOf r u) -> numOrAbsent st (longKeyOf r u) ->
   plainAt st (lastSentKeyOf r u) ->
   forall (clean : string -> string) (raw : string), truthy raw = true ->
     let resp := fst (handleSendMessage clean isProfane (mkSend r name raw) st) in
     let st' := snd (handleSendMessage clean isProfane (mkSend r name raw) st) in
     let sc := countAfter st (shortKeyOf r u) in
     let lc := countAfter st (longKeyOf r u) in
     (3 < sc -> resp = Ok RESP_SHORT)
     /\ (sc <= 3 -> 20 < lc -> resp = Ok RESP_LONG)
     /\ (sc <= 3 -> lc <= 20 -> tooSoon st r u = true -> resp = Ok RESP_INTERVAL)
     /\ (sc <= 3 -> lc <= 20 -> tooSoon st r u = false -> notLimited resp)
     /\ (isCreated resp -> sc <= 3 /\ lc <= 20 /\ tooSoon st r u = false)
     /\ kv st' !! shortKeyOf r u
        = Some (mkEntry (VNum sc)
                  (if sc =? 1 then Some (now st + 10000)
                   else Redis.expiryOf st (shortKeyOf r u)))
     /\ (sc <= 3 ->
         kv st' !! longKeyOf r u
         = Some (mkEntry (VNum lc)
                   (if lc =? 1 then Some (now st + 60000)
                    else Redis.expiryOf st (longKeyOf r u))))
     /\ (3 < sc -> kv st' !! longKeyOf r u = kv st !! longKeyOf r u)
     /\ (sc <= 3 -> lc <= 20 -> tooSoon st r u = false ->
         kv st' !! lastSentKeyOf r u
         = Some (mkEntry (VNum (now st / 1000)) (Some (now st + 60000))))
     /\ (3 < sc \/ 20 < lc \/ tooSoon st r u = true ->
         kv st' !! lastSentKeyOf r u = kv st !! lastSentKeyOf r u))
  /\ (status RESP_SHORT = 429 /\ status RESP_LONG = 429 /\ status RESP_INTERVAL = 429
      /\ MSG_SHORT <> MSG_LONG /\ MSG_SHORT <> MSG_INTERVAL /\ MSG_LONG <> MSG_INTERVAL)
  /\ (forall room,
        kv st !! roomKeyOf r = Some (mkEntry (VRoom room) None) ->
        isPublicType (Room.type room) = true ->
        (forall (clean1 clean2 : string -> string) (raw1 raw2 : string) (t2 : Z),
           numOrAbsent st (shortKeyOf r u) -> numOrAbsent st (longKeyOf r u) ->
           plainAt st (lastSentKeyOf r u) ->
           truthy raw1 = true -> truthy raw2 = true ->
           1000 <= now st -> now st <= t2 ->
           countAfter st (shortKeyOf r u) <= 3 -> countAfter st (longKeyOf r u) <= 20 ->
           tooSoon st r u = false ->
           let s1 := snd (handleSendMessage clean1 isProfane (mkSend r name raw1) st) in
           let resp2 :=
             fst (handleSendMessage clean2 isProfane (mkSend r name raw2) (advance t2 s1)) in
           (t2 / 1000 - now st / 1000 < 2 ->
            limited resp2
            /\ (countAfter st (shortKeyOf r u) < 3 -> countAfter st (longKeyOf r u) < 20 ->
                resp2 = Ok RESP_INTERVAL))
           /\ (2 <= t2 / 1000 - now st / 1000 -> resp2 <> Ok RESP_INTERVAL))
        /\ (forall (first : Attempt) (rest : list Attempt) (late : Attempt),
              Redis.lookupLive (advance (at_time first) st) (shortKeyOf r u) = None ->
              truthy (at_raw first) = true ->
              Forall (fun a => at_time a < at_time first + 10000
                               /\ truthy (at_raw a) = true) rest ->
              at_time first + 10000 <= at_time late -> truthy (at_raw late) = true ->
              let run := sendSeries isProfane r name (first :: rest) st in
              let after :=
                handleSendMessage (at_clean late) isProfane (mkSend r name (at_raw late))
                                  (advance (at_time late) (snd run)) in
              (forall i resp, nth_error (fst run) i = Some resp ->
                 ((3 <= i)%nat -> resp = Ok RESP_SHORT)
                 /\ ((i < 3)%nat -> resp <> Ok RESP_SHORT))
              /\ windowAt (snd run) (shortKeyOf r u)
                          (Z.of_nat (List.length (first :: rest))) (at_time first + 10000)
              /\ fst after <> Ok RESP_SHORT
              /\ windowAt (snd after) (shortKeyOf r u) 1 (at_time late + 10000))
        /\ (forall (clean : string -> string) (raw : string) (k e t : Z),
              windowAt st (longKeyOf r u) k e ->
              numOrAbsent (advance t st) (shortKeyOf r u) ->
              plainAt (advance t st) (lastSentKeyOf r u) ->
              truthy raw = true ->
              countAfter (advance t st) (shortKeyOf r u) <= 3 ->
              let resp :=
                fst (handleSendMessage clean isProfane (mkSend r name raw) (advance t st)) in
              let st' :=
                snd (handleSendMessage clean isProfane (mkSend r name raw) (advance t st)) in
              (t < e -> 20 <= k ->
               resp = Ok RESP_LONG /\ windowAt st' (longKeyOf r u) (k + 1) e)
              /\ (t < e -> 1 <= k < 20 ->
                  resp <> Ok RESP_LONG /\ windowAt st' (longKeyOf r u) (k + 1) e)
              /\ (e <= t ->
                  resp <> Ok RESP_LONG /\ windowAt st' (longKeyOf r u) 1 (t + 60000))))
  /\ (privateRoomAt st r ->
      burstLimit r u st = (Ok None, st)
      /\ (forall (clean : string -> string) (raw : string), truthy raw = true ->
            notLimited (fst (handleSendMessage clean isProfane (mkSend r name raw) st)))
      /\ forall reqs : list ((string -> string) * string),
          sendReady isProfane st r u ->
          Forall (fun q => truthy (snd q) = true
                    /\ (String.length (sanitizedOf q) <= MAX_MESSAGE_LENGTH)%nat) reqs ->
          noRepeat (List.map sanitizedOf reqs) ->
          match reqs with
          | q :: _ => isDuplicate (messagesOf st r) u (sanitizedOf q) = false
          | [] => True
          end ->
          Forall isCreated (sendEach isProfane r name reqs st)).
Proof.
  intros u Hnf Hre Hrid. split; [|split; [|split]].
  - intros Hpub Hshort Hlong Hlast clean raw Hraw.
    pose proof (send_public_single isProfane clean name r raw st Hnf Hre Hrid Hraw
                  Hpub Hshort Hlong Hlast) as H.
    cbv zeta in H |- *. fold u in H.
    destruct H as (H1 & H2 & H3 & H4 & H5 & H6 & H7 & H8 & H9 & H10 & _).
    repeat (split; [assumption|]). assumption.
  - repeat split; try reflexivity; intros H; discriminate H.
  - intros room Hroom Hpub. split; [|split].
    + intros clean1 clean2 raw1 raw2 t2 Hshort Hlong Hlast Hraw1 Hraw2 Hnow Ht2 Hsc Hlc Hsoon.
      exact (send_public_then isProfane clean1 clean2 name r raw1 raw2 room t2 st
               Hnf Hre Hrid Hroom Hpub Hshort Hlong Hlast Hraw1 Hraw2 Hnow Ht2 Hsc Hlc Hsoon).
    + intros first rest late Hfresh Hraw1 Hall Hlate Hrawl.
      exact (send_public_short isProfane name r room first rest late st
               Hnf Hre Hrid Hroom Hpub Hfresh Hraw1 Hall Hlate Hrawl).
    + intros clean raw k e t Hwin Hshort Hlast Hraw Hsc.
      exact (send_public_long isProfane clean name r raw room k e t st
               Hnf Hre Hrid Hroom Hpub Hwin Hshort Hlast Hraw Hsc).
  - intros Hpriv. split; [apply burstLimit_private; assumption|]. split.
    + intros clean raw Hraw.
      exact (send_private_answers isProfane clean name r raw st Hnf Hre Hrid Hraw Hpriv).
    + intros reqs Hready Hall Hrep Hhead.
      apply private_each; assumption.
Qed.

End BurstTheorem.

(** ** The listing of the rooms *)

Lemma Forall2_In_l {A B} (R : A -> B -> Prop) l l' x :
  Forall2 R l l' -> In x l -> exists y, In y l' /\ R x y.
Proof.
  induction 1 as [|a b l l' Hab _ IH]; intros Hin; [destruct Hin|].
  destruct Hin as [<- | Hin]; [exists b; split; [left; reflexivity | exact Hab]|].
  destruct (IH Hin) as (y & Hy & Hxy). exists y. split; [right; exact Hy | exact Hxy].
Qed.

Lemma Forall2_In_r {A B} (R : A -> B -> Prop) l l' y :
  Forall2 R l l' -> In y l' -> exists x, In x l /\ R x y.
Proof.
  induction 1 as [|a b l l' Hab _ IH]; intros Hin; [destruct Hin|].
  destruct Hin as [<- | Hin]; [exists a; split; [left; reflexivity | exact Hab]|].
  destruct (IH Hin) as (x & Hx & Hxy). exists x. split; [right; exact Hx | exact Hxy].
Qed.

Lemma prunedFrom_refl st : noFaults st -> prunedFrom st st.
Proof. intros Hnf. split; [exact Hnf|]. split; [reflexivity|]. intros k. left. reflexivity. Qed.

Lemma setOrAbsent_pruned st s key :
  prunedFrom st s -> setOrAbsent st key -> setOrAbsent s key.
Proof.
  intros (_ & _ & Hk) Hset. unfold setOrAbsent in *. destruct (Hk key) as [-> | [_ ->]]; [exact Hset | left; reflexivity].
Qed.

Lemma isLegacySetKey_presence r u : ~ isLegacySetKey (presenceKeyOf r u).
Proof. intros [r' H]. symmetry in H. revert H. apply legacy_ne_presence. Qed.

(** The users listed for a room do not depend on the user sets of the
    earlier versions. *)
Lemma activeUsersOf_pruned st s id :
  ROOM_ID_REGEX id = true -> prunedFrom st s ->
  forall u, In u (activeUsersOf s id) <-> In u (activeUsersOf st id).
Proof.
  intros Hid (_ & _ & Hk) u. unfold activeUsersOf. rewrite !List.in_map_iff.
  assert (Hsame : forall k,
    In k (List.filter (Redis.globMatch (presencePatternOf id)) (Redis.liveKeys s))
    <-> In k (List.filter (Redis.globMatch (presencePatternOf id)) (Redis.liveKeys st))).
  { assert (Hlive : forall rest,
              isLiveKey s (presenceKeyOf id rest) = isLiveKey st (presenceKeyOf id rest)).
    { intros rest. unfold isLiveKey.
      destruct (Hk (presenceKeyOf id rest)) as [E | [Hleg _]];
        [rewrite E; reflexivity | destruct (isLegacySetKey_presence _ _ Hleg)]. }
    intros k. rewrite !presence_scan by exact Hid.
    split; intros [Hl [rest ->]]; (split; [|exists rest; reflexivity]);
      [rewrite <- Hlive | rewrite Hlive]; exact Hl. }
  split; intros (k & Hku & Hin); exists k; (split; [exact Hku|]); apply Hsame; exact Hin.
Qed.

Lemma getActiveUsersAndPrune_run id s :
  noFaults s -> setOrAbsent s (legacySetKeyOf id) ->
  exists s',
    getActiveUsersAndPrune id s = (Ok (activeUsersOf s id), s')
    /\ noFaults s' /\ now s' = now s
    /\ forall k, Redis.lookupLive s' k = Redis.lookupLive s k
                 \/ (k = legacySetKeyOf id /\ Redis.lookupLive s' k = None).
Proof.
  intros Hnf Hset. unfold getActiveUsersAndPrune, getActiveUsersInRoom.
  fold (legacySetKeyOf id) (presencePatternOf id).
  rewrite !bind_bind, bind_scanAll by exact Hnf. rewrite bind_ret.
  rewrite bind_smembers by assumption.
  fold (activeUsersOf s id).
  destruct (0 <? List.length _)%nat.
  - exists (remove [legacySetKeyOf id] s).
    rewrite bind_bind, bind_del by exact Hnf. rewrite !bind_ret.
    split; [reflexivity|]. split; [apply noFaults_remove; exact Hnf|].
    split; [reflexivity|]. intros k. rewrite lookupLive_remove.
    destruct (bool_decide (k ∈ [legacySetKeyOf id])) eqn:Hb; [|left; reflexivity].
    right. apply bool_decide_eq_true in Hb. apply list_elem_of_singleton in Hb.
    split; [exact Hb | reflexivity].
  - exists s. rewrite bind_ret. split; [reflexivity|]. split; [exact Hnf|].
    split; [reflexivity|]. intros k. left. reflexivity.
Qed.

Lemma detailedRoom_run st roomObj s :
  prunedFrom st s ->
  ROOM_ID_REGEX (Room.id roomObj) = true ->
  setOrAbsent st (legacySetKeyOf (Room.id roomObj)) ->
  exists x s',
    detailedRoom (Some (VRoom roomObj)) s = (Ok (Some x), s')
    /\ prunedFrom st s' /\ entryOf st x roomObj.
Proof.
  intros Hpr Hid Hset. pose proof Hpr as (Hnf & Hnow & Hk).
  destruct (getActiveUsersAndPrune_run (Room.id roomObj) s Hnf
              (setOrAbsent_pruned st s _ Hpr Hset))
    as (s' & Hrun & Hnf' & Hnow' & Hk').
  unfold detailedRoom. cbn [truthyOpt truthyValue negb].
  rewrite (bind_ok _ _ _ _ _ Hrun).
  eexists _, s'. split; [reflexivity|]. split.
  - split; [exact Hnf'|]. split; [congruence|]. intros k.
    destruct (Hk' k) as [E | [-> E]].
    + rewrite E. apply Hk.
    + right. split; [eexists; reflexivity | exact E].
  - split; [reflexivity|]. cbn [RoomWithUsers.users].
    apply activeUsersOf_pruned; assumption.
Qed.

Lemma mapM_detailedRoom_run st raws : forall s,
  prunedFrom st s -> Forall (listableRaw st) raws ->
  exists batch s',
    mapM detailedRoom raws s = (Ok batch, s')
    /\ prunedFrom st s'
    /\ Forall2 (entryOf st) (omap (fun r => r) batch) (omap roomOfRaw raws).
Proof.
  induction raws as [|raw raws IH]; intros s Hpr Hall.
  - exists [], s. split; [reflexivity|]. split; [exact Hpr | constructor].
  - apply Forall_cons in Hall as [Hraw Hall]. cbn [mapM].
    destruct raw as [v|].
    + destruct v; try solve [destruct Hraw]. destruct Hraw as [Hid Hset].
      destruct (detailedRoom_run st _ s Hpr Hid Hset) as (x & s1 & Hrun & Hpr1 & Hent).
      destruct (IH s1 Hpr1 Hall) as (batch & s2 & Hrest & Hpr2 & Hf).
      exists (Some x :: batch), s2.
      rewrite (bind_ok _ _ _ _ _ Hrun), (bind_ok _ _ _ _ _ Hrest).
      split; [reflexivity|]. split; [exact Hpr2|].
      cbn [omap list_omap roomOfRaw]. constructor; assumption.
    + destruct (IH s Hpr Hall) as (batch & s2 & Hrest & Hpr2 & Hf).
      exists (None :: batch), s2.
      unfold detailedRoom at 1. cbn [truthyOpt negb].
      rewrite bind_ret, (bind_ok _ _ _ _ _ Hrest).
      split; [reflexivity|]. split; [exact Hpr2|].
      cbn [omap list_omap roomOfRaw]. exact Hf.
Qed.

Lemma roomPattern_keys key :
  Redis.globMatch roomPattern key = true <-> exists rest, key = roomKeyOf rest.
Proof. unfold roomPattern. apply globMatch_prefix_star. reflexivity. Qed.

Lemma In_roomKeys st key :
  In key (roomKeys st) <-> (exists rest, key = roomKeyOf rest) /\ is_Some (Redis.lookupLive st key).
Proof.
  unfold roomKeys. rewrite List.filter_In, In_liveKeys, roomPattern_keys. tauto.
Qed.

(** The rooms of the directory are the room records held under the
    room keys. *)
Lemma In_storedRooms st roomObj :
  In roomObj (storedRooms st)
  <-> exists id, Redis.lookupLive st (roomKeyOf id) = Some (VRoom roomObj).
Proof.
  unfold storedRooms. rewrite <- list_elem_of_In, list_elem_of_omap. split.
  - intros (key & Hkey & Hat). apply list_elem_of_In, In_roomKeys in Hkey as [[id ->] _].
    exists id. unfold roomAt in Hat.
    destruct (Redis.lookupLive st (roomKeyOf id)) as [[]|]; try discriminate Hat.
    congruence.
  - intros (id & Hl). exists (roomKeyOf id). split.
    + apply list_elem_of_In, In_roomKeys. split; [eexists; reflexivity|].
      rewrite Hl. eexists; reflexivity.
    + unfold roomAt. rewrite Hl. reflexivity.
Qed.

Lemma legacy_is_roomKey id : legacySetKeyOf id = roomKeyOf ("users:" +:+ id).
Proof. reflexivity. Qed.

Lemma directory_record st key :
  directoryWellFormed st = true -> In key (roomKeys st) -> roomRecordOk st key = true.
Proof.
  intros Hwf Hin. unfold directoryWellFormed in Hwf.
  rewrite List.forallb_forall in Hwf. apply Hwf. exact Hin.
Qed.

(** In a well-formed directory the key of the user set of a room with
    a valid id holds a set, or nothing. *)
Lemma directory_legacy st id :
  directoryWellFormed st = true -> setOrAbsent st (legacySetKeyOf id).
Proof.
  intros Hwf. unfold setOrAbsent.
  destruct (Redis.lookupLive st (legacySetKeyOf id)) as [v|] eqn:Hl; [|left; reflexivity].
  assert (Hin : In (legacySetKeyOf id) (roomKeys st)).
  { apply In_roomKeys. split; [exists ("users:" +:+ id); apply legacy_is_roomKey|].
    rewrite Hl. eexists; reflexivity. }
  pose proof (directory_record st _ Hwf Hin) as Hok. unfold roomRecordOk in Hok.
  rewrite Hl in Hok. destruct v; try discriminate Hok.
  - apply andb_true_iff in Hok as [Hre Heq]. apply String.eqb_eq in Heq.
    rewrite legacy_is_roomKey in Heq. apply roomKey_inj in Heq.
    destruct (ROOM_ID_REGEX_plain _ Hre) as [_ Hcol]. rewrite <- Heq in Hcol.
    rewrite hasColon_app in Hcol. discriminate Hcol.
  - right. eexists; reflexivity.
Qed.

Lemma directory_listable st key :
  directoryWellFormed st = true -> In key (roomKeys st) ->
  listableRaw st (mgetView st key) /\ roomOfRaw (mgetView st key) = roomAt st key.
Proof.
  intros Hwf Hin. pose proof (directory_record st _ Hwf Hin) as Hok.
  unfold roomRecordOk in Hok. unfold mgetView, roomAt, listableRaw.
  destruct (Redis.lookupLive st key) as [v|]; [|discriminate Hok].
  destruct v; try discriminate Hok; cbn [roomOfRaw]; (split; [|reflexivity]); try exact I.
  apply andb_true_iff in Hok as [Hre _]. split; [exact Hre|].
  apply directory_legacy. exact Hwf.
Qed.

Lemma bind_mget {B} keys (k : list (option Value) -> M B) st :
  noFaults st ->
  bind (Redis.mget keys) k st = k (List.map (mgetView st) keys) st.
Proof.
  intros H. unfold Redis.mget. rewrite bind_bind, bind_tick by exact H. reflexivity.
Qed.

(** getDetailedRooms on a well-formed directory: one entry for each
    stored room, in the order of the scan. *)
Lemma getDetailedRooms_run st :
  noFaults st -> directoryWellFormed st = true ->
  exists rooms st',
    getDetailedRooms st = (Ok rooms, st')
    /\ Forall2 (entryOf st) rooms (storedRooms st).
Proof.
  intros Hnf Hwf. unfold getDetailedRooms. fold roomPattern.
  rewrite bind_scanAll by exact Hnf. fold (roomKeys st).
  assert (Hall : Forall (listableRaw st) (List.map (mgetView st) (roomKeys st))
                 /\ omap roomOfRaw (List.map (mgetView st) (roomKeys st)) = storedRooms st).
  { unfold storedRooms.
    assert (Hkeys : forall key, In key (roomKeys st) -> In key (roomKeys st)) by auto.
    revert Hkeys. generalize (roomKeys st) at 1 3 4 5. intros keys Hkeys.
    induction keys as [|key keys IH]; [split; [constructor | reflexivity]|].
    destruct (directory_listable st key Hwf (Hkeys key (or_introl eq_refl))) as [H1 H2].
    destruct (IH (fun k Hk => Hkeys k (or_intror Hk))) as [H3 H4].
    split; [constructor; assumption|].
    cbn [List.map omap list_omap]. rewrite H2, H4. reflexivity. }
  destruct Hall as [Hall Hstored].
  destruct (0 <? List.length (roomKeys st))%nat eqn:Hlen.
  - rewrite bind_mget by exact Hnf.
    destruct (mapM_detailedRoom_run st _ st (prunedFrom_refl st Hnf) Hall)
      as (batch & s' & Hrun & _ & Hf).
    rewrite (bind_ok _ _ _ _ _ Hrun). exists (omap (fun r => r) batch), s'.
    split; [reflexivity|]. rewrite <- Hstored. exact Hf.
  - exists [], st. split; [reflexivity|].
    unfold storedRooms. destruct (roomKeys st); [constructor | discriminate Hlen].
Qed.

(** What the filter of handleGetRooms keeps, for the viewer named by
    the [username] parameter of the request. *)
Lemma listed_iff rooms param x :
  In x (filterRoomsForUser rooms (viewerOfParam param))
  <-> In x rooms
      /\ (isPublicType (roomTypeOf x) = true
          \/ exists name ms, param = Some name /\ truthy name = true
               /\ Room.members (RoomWithUsers.room x) = Some ms
               /\ In (toLowerCase name) ms).
Proof.
  unfold filterRoomsForUser, viewerOfParam, roomTypeOf.
  destruct param as [name|].
  - rewrite truthy_toLowerCase. destruct (truthy name) eqn:Hname.
    + rewrite truthy_toLowerCase, Hname, toLowerCase_idem, List.filter_In.
      split; intros [Hin Hc]; (split; [exact Hin|]).
      * destruct (isPublicType _); [left; reflexivity|]. right.
        destruct (Room.members (RoomWithUsers.room x)) as [ms|]; [|discriminate Hc].
        exists name, ms. split; [reflexivity|]. split; [exact Hname|]. split; [reflexivity|].
        apply includes_In. exact Hc.
      * destruct Hc as [-> | (name' & ms & [= <-] & _ & -> & Hmem)]; [reflexivity|].
        destruct (isPublicType _); [reflexivity | apply includes_In; exact Hmem].
    + rewrite List.filter_In. split; intros [Hin Hc]; (split; [exact Hin|]).
      * left. exact Hc.
      * destruct Hc as [Hc | (name' & ms & [= <-] & Ht & _)]; [exact Hc | congruence].
  - rewrite List.filter_In. split; intros [Hin Hc]; (split; [exact Hin|]).
    + left. exact Hc.
    + destruct Hc as [Hc | (name' & ms & Habs & _)]; [exact Hc | discriminate Habs].
Qed.

(** C7. In the listing for a viewer, a public room is always included;
    a private room is never included for an anonymous viewer (no
    username, or an empty one) and is included for a named viewer if
    and only if the lower-cased username is in its members list. The
    listing only ever contains rooms of the directory, and
    handleGetRooms answers with this very listing of the rooms it
    fetched. On a store whose directory is well formed, handleGetRooms
    fetches the directory itself and answers 200 with the listing:
    every entry of it is made of a stored room; every stored public
    room has its entry, whoever asks; a stored private room has its
    entry if and only if the request names a viewer and the lower-cased
    name is in the members list of the room; and a request without a
    name, or with an empty one, is answered with public rooms only. *)
Theorem listVisible_private_iff_member (rooms : list RoomWithUsers.t)
    (viewer : option string) (r : RoomWithUsers.t) :
  In r rooms ->
  (isPublicType (roomTypeOf r) = true -> In r (filterRoomsForUser rooms viewer))
  /\ (roomTypeOf r = Some Private -> truthyStr viewer = false ->
      ~ In r (filterRoomsForUser rooms viewer))
  /\ (forall u, roomTypeOf r = Some Private -> viewer = Some u -> truthy u = true ->
      (In r (filterRoomsForUser rooms viewer) <-> listsMember r (toLowerCase u)))
  /\ (forall x, In x (filterRoomsForUser rooms viewer) -> In x rooms)
  /\ (forall st st' param,
        getDetailedRooms st = (Ok rooms, st') ->
        handleGetRooms param st
        = (Ok (okResponse (BRooms (filterRoomsForUser rooms (viewerOfParam param)))), st'))
  /\ (forall (st : State) (param : option string),
        noFaults st -> directoryWellFormed st = true ->
        exists listed st',
          handleGetRooms param st = (Ok (mkResponse (BRooms listed) 200), st')
          /\ (forall x, In x listed ->
                exists roomObj, In roomObj (storedRooms st) /\ entryOf st x roomObj)
          /\ (forall roomObj, In roomObj (storedRooms st) ->
                (isPublicType (Room.type roomObj) = true -> listsRoom st listed roomObj)
                /\ (Room.type roomObj = Some Private ->
                    (listsRoom st listed roomObj
                     <-> exists name ms,
                           param = Some name /\ truthy name = true
                           /\ Room.members roomObj = Some ms
                           /\ In (toLowerCase name) ms)))
          /\ (param = None \/ param = Some EmptyString ->
              forall x, In x listed -> isPublicType (roomTypeOf x) = true)
          /\ (forall roomObj,
                In roomObj (storedRooms st)
                <-> exists id, Redis.lookupLive st (roomKeyOf id) = Some (VRoom roomObj))).
Proof.
  intros Hin. unfold roomTypeOf, listsMember.
  split; [|split; [|split; [|split; [|split]]]].
  - intros Hpub. unfold filterRoomsForUser.
    destruct viewer as [u|]; [destruct (truthy u)|];
      apply List.filter_In; (split; [exact Hin|]); rewrite ?Hpub; reflexivity.
  - intros Hpriv Hanon Hc. unfold filterRoomsForUser, truthyStr in *.
    destruct viewer as [u|]; [rewrite Hanon in Hc|];
      apply List.filter_In in Hc as [_ Hc]; rewrite Hpriv in Hc; discriminate.
  - intros u Hpriv -> Hu. unfold filterRoomsForUser. rewrite Hu. split.
    + intros Hc. apply List.filter_In in Hc as [_ Hc]. rewrite Hpriv in Hc.
      cbn [isPublicType] in Hc.
      destruct (Room.members (RoomWithUsers.room r)) as [ms|]; [|discriminate].
      exists ms. split; [reflexivity | apply includes_In; exact Hc].
    + intros (ms & Hms & Hmem). apply List.filter_In. split; [exact Hin|].
      rewrite Hpriv, Hms. cbn [isPublicType]. apply includes_In. exact Hmem.
  - intros x Hx. unfold filterRoomsForUser in Hx.
    destruct viewer as [u|]; [destruct (truthy u)|];
      apply List.filter_In in Hx as [Hx _]; exact Hx.
  - intros st st' param Hget. rewrite handleGetRooms_filter, Hget. reflexivity.
  - intros st param Hnf Hwf.
    destruct (getDetailedRooms_run st Hnf Hwf) as (all & st' & Hrun & Hf).
    exists (filterRoomsForUser all (viewerOfParam param)), st'.
    split; [rewrite handleGetRooms_filter, Hrun; reflexivity|].
    split; [|split; [|split]].
    + intros x Hx. apply listed_iff in Hx as [Hx _].
      exact (Forall2_In_l _ _ _ _ Hf Hx).
    + intros roomObj Hstored.
      destruct (Forall2_In_r _ _ _ _ Hf Hstored) as (x & Hx & Hent).
      split.
      * intros Hpub. exists x. split; [|exact Hent].
        apply listed_iff. split; [exact Hx|]. left.
        unfold roomTypeOf. rewrite (proj1 Hent). exact Hpub.
      * intros Hpriv. split.
        -- intros (y & Hy & Hyent). apply listed_iff in Hy as [_ Hy].
           unfold roomTypeOf in Hy. rewrite (proj1 Hyent) in Hy.
           cbn [Room.withUserCount Room.type Room.members] in Hy.
           destruct Hy as [Hy | Hy]; [rewrite Hpriv in Hy; discriminate Hy | exact Hy].
        -- intros (name & ms & Hparam & Hname & Hms & Hmem).
           exists x. split; [|exact Hent].
           apply listed_iff. split; [exact Hx|]. right. exists name, ms.
           rewrite (proj1 Hent). cbn [Room.withUserCount Room.members]. auto.
    + intros Hanon x Hx. apply listed_iff in Hx as [_ [Hpub | (name & ms & Hp & Ht & _)]];
        [exact Hpub|].
      destruct Hanon as [Hanon | Hanon]; rewrite Hanon in Hp; [discriminate Hp|].
      injection Hp as <-. discriminate Ht.
    + intros roomObj. apply In_storedRooms.
Qed.

(** ** The revised theorems at work *)

Ltac holds :=
  first [ run
        | vm_compute; exact I
        | vm_compute; discriminate
        | vm_compute; intros E; discriminate E
        | left; run
        | apply Nat.leb_le; run ].


(** C2 at work: the example of the specification, and a text with the
    five characters around a URL. *)
Lemma sanitize_filter_then_escape_witness :
  sanitizeContent cleanNothing scriptExample
  = "&lt;script&gt;alert(1)&lt;/script&gt; see http://x.test"
  /\ urlsOf (segmentsOf scriptExample) = ["http://x.test"]
  /\ sanitizeContent cleanNothing quotedExample
     = "Tom &amp; &quot;Jerry&#39;s&quot; &lt;b&gt; http://x.test/?a=1&amp;b=2 ok".
Proof.
  pose proof (sanitize_filter_then_escape cleanNothing profaneNothing scriptExample) as H.
  destruct H as (_ & _ & Hurls & _ & _ & _ & _ & Hex & _ & _ & _ & _ & Hquoted).
  split; [apply Hex; reflexivity|]. split; [rewrite Hurls; reflexivity|].
  apply Hquoted; reflexivity.
Defined.

(** C6 at work: in the public room the first three of four requests
    within ten seconds are not refused for the short window, the fourth
    is answered 429, and a fifth after the ten seconds is let through;
    a second request within two seconds is refused for the interval;
    in the private room a burst of four is accepted. *)
Lemma burst_limits_public_rooms_only_witness :
  nth_error (fst (sendSeries profaneNothing "r1" "Alice" fourAttempts publicStore)) 3
  = Some (Ok RESP_SHORT)
  /\ fst (handleSendMessage cleanNothing profaneNothing (mkSend "r1" "Alice" "five")
            (advance 11000
               (snd (sendSeries profaneNothing "r1" "Alice" fourAttempts publicStore))))
     <> Ok RESP_SHORT
  /\ fst (handleSendMessage cleanNothing profaneNothing (mkSend "r1" "Alice" "two")
            (advance 2500
               (snd (handleSendMessage cleanNothing profaneNothing
                       (mkSend "r1" "Alice" "one") publicStore))))
     = Ok RESP_INTERVAL
  /\ Forall isCreated
       (sendEach profaneNothing "r1" "Alice"
          [ (cleanNothing, "one"); (cleanNothing, "two");
            (cleanNothing, "three"); (cleanNothing, "four") ] privateStore).
Proof.
  pose proof (burst_limits_public_rooms_only profaneNothing "Alice" "r1" publicStore) as H.
  cbv zeta in H.
  destruct H as (_ & _ & Hpublic & _); [reflexivity | run | run |].
  destruct (Hpublic lounge ltac:(run) ltac:(run)) as (Hinterval & Hshort & _).
  assert (Hrest : Forall (fun a => at_time a < 1000 + 10000 /\ truthy (at_raw a) = true)
                    (tl fourAttempts)).
  { repeat (constructor; [split; [run | reflexivity]|]). constructor. }
  destruct (Hshort (mkAttempt 1000 cleanNothing "one") (tl fourAttempts) fifthAttempt
              ltac:(run) ltac:(run) Hrest ltac:(holds) ltac:(run))
    as (Hfour & _ & Hfifth & _).
  split; [|split; [exact Hfifth|split]].
  - assert (Hn : exists resp,
               nth_error (fst (sendSeries profaneNothing "r1" "Alice" fourAttempts
                                 publicStore)) 3 = Some resp)
      by (vm_compute; eexists; reflexivity).
    destruct Hn as [resp Hn]. rewrite Hn. f_equal.
    apply (Hfour 3%nat resp Hn). lia.
  - destruct (Hinterval cleanNothing cleanNothing "one" "two" 2500
                ltac:(holds) ltac:(holds) ltac:(holds) ltac:(holds) ltac:(holds)
                ltac:(holds) ltac:(holds) ltac:(holds) ltac:(holds) ltac:(holds))
      as [Hsoon _].
    destruct Hsoon as [_ Hsoon]; [run|].
    apply Hsoon; run.
  - pose proof (burst_limits_public_rooms_only profaneNothing "Alice" "r1" privateStore)
      as H.
    cbv zeta in H.
    destruct H as (_ & _ & _ & Hprivate); [reflexivity | run | run |].
    destruct Hprivate as (_ & _ & Hall).
    { exists twoParty. split; run. }
    apply Hall.
    + exact sendReady_privateStore.
    + repeat (constructor; [split; [reflexivity | apply Nat.leb_le; run]|]). constructor.
    + cbn [List.map noRepeat]. repeat split; intros E; vm_compute in E; discriminate E.
    + run.
Defined.

(** C7 at work: alice is listed her private room and the public one;
    carol and a viewer without a name are listed the public room
    only. *)
Lemma listVisible_private_iff_member_witness :
  In privateListed (filterRoomsForUser listing (Some "Alice"))
  /\ ~ In privateListed (filterRoomsForUser listing None)
  /\ (exists listed st',
        handleGetRooms (Some "Alice") directoryStore
        = (Ok (mkResponse (BRooms listed) 200), st')
        /\ listsRoom directoryStore listed twoParty
        /\ listsRoom directoryStore listed hall)
  /\ (exists listed st',
        handleGetRooms (Some "carol") directoryStore
        = (Ok (mkResponse (BRooms listed) 200), st')
        /\ ~ listsRoom directoryStore listed twoParty
        /\ listsRoom directoryStore listed hall)
  /\ (exists listed st',
        handleGetRooms None directoryStore = (Ok (mkResponse (BRooms listed) 200), st')
        /\ ~ listsRoom directoryStore listed twoParty
        /\ listsRoom directoryStore listed hall)
  /\ fst (handleGetRooms (Some "Alice") directoryStore)
     = Ok (mkResponse
             (BRooms [ RoomWithUsers.mk (Room.withUserCount twoParty 1) ["alice"];
                       RoomWithUsers.mk hall [] ]) 200).
Proof.
  assert (Hin : In privateListed listing) by (right; left; reflexivity).
  assert (Hparty : In twoParty (storedRooms directoryStore))
    by (vm_compute; left; reflexivity).
  assert (Hhall : In hall (storedRooms directoryStore))
    by (vm_compute; right; left; reflexivity).
  pose proof (listVisible_private_iff_member listing (Some "Alice") privateListed Hin)
    as (_ & _ & Hiff & _ & _ & Hlist).
  split; [|split; [|split; [|split; [|split]]]].
  - apply (Hiff "Alice" eq_refl eq_refl eq_refl).
    exists ["alice"; "bob"]. split; [reflexivity | left; reflexivity].
  - destruct (listVisible_private_iff_member listing None privateListed Hin)
      as (_ & Hanon & _).
    apply Hanon; reflexivity.
  - destruct (Hlist directoryStore (Some "Alice") ltac:(run) ltac:(run))
      as (listed & st' & Hrun & _ & Hrooms & _).
    exists listed, st'. split; [exact Hrun|]. split.
    + apply (proj2 (proj2 (Hrooms twoParty Hparty) eq_refl)).
      exists "Alice", ["alice"; "bob"]. repeat split. left. reflexivity.
    + apply (proj1 (Hrooms hall Hhall)). reflexivity.
  - destruct (Hlist directoryStore (Some "carol") ltac:(run) ltac:(run))
      as (listed & st' & Hrun & _ & Hrooms & _).
    exists listed, st'. split; [exact Hrun|]. split.
    + intros Hl. apply (proj1 (proj2 (Hrooms twoParty Hparty) eq_refl)) in Hl.
      destruct Hl as (name & ms & [= <-] & _ & [= <-] & Hmem).
      vm_compute in Hmem. intuition discriminate.
    + apply (proj1 (Hrooms hall Hhall)). reflexivity.
  - destruct (Hlist directoryStore None ltac:(run) ltac:(run))
      as (listed & st' & Hrun & _ & Hrooms & _).
    exists listed, st'. split; [exact Hrun|]. split.
    + intros Hl. apply (proj1 (proj2 (Hrooms twoParty Hparty) eq_refl)) in Hl.
      destruct Hl as (name & ms & Hp & _). discriminate Hp.
    + apply (proj1 (Hrooms hall Hhall)). reflexivity.
  - run.
Defined.
